(* ===== verification/_CoqProject ===== *)
-Q . S2P
Prelude.v
Calendar.v
Net.v
World.v
Tasks.v
Crates.v
Core.v
Sha256.v
Store.v
Sqlite.v
Postgres.v
Stats.v
Sample.v
Repository.v
RepositoryInv.v
RepositoryThms.v
RepositoryOps.v
History.v
Sync.v
UnitTests.v
Config.v
Server.v
ServerThms.v
Html.v
ApiTypes.v
IntegrationTests.v
Daemon.v
Async.v
Interference.v
Service.v
Pool.v
Spacing.v
Downloads.v
Lives.v
Instances.v
Race.v
PointerFile.v
Reference.v
Scenario.v
RepositoryProps.v
TestProps.v
StoreProps.v
SyncProps.v
DaemonProps.v
ServiceProps.v
PageProps.v
ConcurrencyProps.v
