(* ===== verification/Prelude.v ===== *)
(** * Anki backup tool: a verification development

    ** The program

    The tool keeps an hourly history of an AnkiWeb collection.  Its parts, under
    [src/crates]:

    - [core]: the entries of the history, their statistics, the content hash;
    - [storage]: the repository.  [repository.rs] writes payload files, metadata
      files and a pointer to the active backup below a root directory, and records
      entries in a metadata store; [store.rs] is the trait of that store,
      [sqlite_store.rs] and [postgres_store.rs] are its implementations;
    - [sync]: the AnkiWeb client that downloads and uploads collections;
    - [daemon]: configuration, the HTTP server with its guards and handlers, and
      the scheduler that downloads, backs up and prunes every hour.

    The server and the scheduler call the client and the repository; the
    repository calls the store through the trait only.

    ** How it is modelled

    Every operation is a function of a state monad with errors and panics over a
    [World]: the file tree, the metadata database, the rollback gate, the requests
    handed to the HTTP client and the log.  Clock readings, random identifiers, server
    answers and faults come from oracles ([World.Env]) indexed by counters of the
    world.  A fault can strike any interaction with a disk or a database, and says
    how much of it had happened; theorems hold for all oracles, hence for every
    schedule of faults.  A [wp] calculus relates an operation, a start world and a
    predicate on result and end world; a specification always covers all three of
    success, error and panic.

    The daemon runs the scheduler and its requests concurrently.  For that, the
    same operations are written once more as [Task]s, cut at the calls between
    which another thread can act, and proved to mean the same when run alone (the
    lemmas [means_*] of [Async.v]); a [Pool] of tasks takes steps in any order, with the mutex of the rollback gate, and a
    rely-guarantee calculus ([wpi]) gives what holds along every interleaving.

    The crates the program calls (chrono, uuid, serde_json, sha2, hex, zstd, the
    SQL engines, reqwest, tar, axum, toml, askama) are type classes of operations
    with companion classes of laws, which state their documented behaviour;
    [serde_json] is asked to read back only documents within its limits (64-bit
    integers, bounded nesting), and compression may fail.
    Machine integers are [Z] with the wrap-around of [as i64] written out.
    Instants are nanoseconds; their RFC 3339 text is modelled, because the SQLite
    store compares instants as text.

    ** Files

    - [Prelude.v]: bytes, machine integers, string order, numerals, lists, hints.
    - [Calendar.v]: civil dates and RFC 3339 text; text order is time order.
    - [Net.v]: socket addresses, read and printed as [std::net] does.
    - [World.v]: results, paths, the file tree, oracles, the monad, the file
      operations of [std::fs] and their specifications, the [wp] calculus.
    - [Tasks.v]: tasks, what they mean when run alone, how many turns they take,
      the [wpi] calculus.
    - [Crates.v]: interfaces and laws of the crates.
    - [Core.v]: [core/src/backup.rs] and [hash.rs]; the serde derives.
    - [Sha256.v]: the SHA-256 of FIPS 180-4 and hexadecimal text, executable, as what
      the two hash crates compute ([HashLaws]).
    - [Store.v]: the trait [MetadataStore] ([MetadataStore]), an abstract state
      ([StoreModel]) and the contract ([StoreLaws], [StoreOpenLaws]).
    - [Sqlite.v], [Postgres.v]: the two stores, and that they meet the contract.
    - [Stats.v]: [extract_stats] of [repository.rs] over SQLite collections.
    - [Sample.v]: the SQL statements that build the tests' sample collections, and
      the statistics of these collections.
    - [Repository.v]: [BackupRepository] over any store.
    - [RepositoryInv.v]: paths, frames, the repository invariant [repo_inv].
    - [RepositoryThms.v]: [run_once] in every outcome, and its success.
    - [RepositoryOps.v]: [rollback_to] and pruning in every outcome, and their
      success.
    - [History.v]: the step relation of repository operations, histories, the
      invariant by induction on them, what leaves a repository, skipping.
    - [Sync.v]: [sync/src/lib.rs]; the protocol as a function of the server's
      answers ([session]) and that the program follows it.
    - [UnitTests.v]: the tests inside [hash.rs], [repository.rs] and
      [sync/src/lib.rs] as programs, and that they pass.
    - [Config.v]: [daemon/src/config.rs] and the settings of [main.rs].
    - [Server.v], [ServerThms.v]: [daemon/src/server.rs]: routes, guards, handlers.
    - [Html.v]: [daemon/templates]: the pages, and the requests they lead to.
    - [ApiTypes.v]: types of the JSON replies, and that the replies have them.
    - [IntegrationTests.v]: [daemon/tests/integration.rs], thirteen tests that open a
      repository, take backups and ask the server, and that they pass.
    - [Daemon.v]: one backup from the command line, the scheduler.
    - [Async.v]: the operations as tasks, equal to the operations when run alone.
    - [Interference.v]: what the scheduler's tasks guarantee while others act.
    - [Service.v]: [run_service] and [main] over either store, the service as a
      step relation of whole scheduler rounds and requests.
    - [Pool.v]: the running daemon as a step relation on tasks: its invariant, and
      that requests can finish; executable schedules.
    - [Spacing.v]: the rollback gate along a run of the pool.
    - [Downloads.v]: what a download can send while backups are taken and pruned: a
      log of all that was ever recorded, kept by the scheduler, read by requests.
    - [Lives.v]: one process after another on the same disk, each killed at any
      point.
    - [Instances.v]: several processes on one repository at the same time.
    - [Race.v]: a round that publishes its backup and a rollback at the same time,
      call by call.
    - [PointerFile.v]: [write_current_pointer] as system calls on open files, alone
      and with a second writer; the operation of [Repository.v] refines it.
    - [Reference.v]: concrete functions for all interfaces, with their laws proved.
    - [Scenario.v]: worlds reached by running the model with them.
    - [RepositoryProps.v], [TestProps.v], [StoreProps.v], [SyncProps.v],
      [DaemonProps.v], [ServiceProps.v], [PageProps.v], [ConcurrencyProps.v]: the
      properties C1 to C40, with a witness where there are hypotheses, and further
      theorems without a number.

    ** What the theorems show

    - Repository (C1 to C3, C7, C11, C21 to C23, C25): along every history, with any
      faults, each recorded backup has its own directory with a payload of the
      recorded hash and size, and the pointer file is absent or complete; entries
      leave by pruning only; each operation's effect in every outcome; that backup,
      rollback and pruning succeed when nothing fails; statistics describe the
      collection.
    - Stores and hash (C12, C13, C26, C32): both stores refine the contract,
      rows round trip, the content hash is the text of the SHA-256 digest.
    - Client (C14, C15, C31, C33): downloads and uploads are the three-call
      protocol with at most one redirect per call; which requests they send in any
      outcome, where the password goes, and that the later ones carry the host key
      that the server answered.
    - Server and program (C8, C10, C16, C20, C27 to C30): the invariant along every
      sequence of rounds and requests, rollback with upload, [main] with either
      store and its listen address, the listings, the guards, downloads, typed
      replies, pages whose markup no data can change.
    - Concurrency (C4, C6, C17 to C19, C24): backups stay sound along every
      interleaving; a download that overlaps backups and pruning sends the payload of
      a backup that was recorded, or none; rollbacks that are answered with success
      are ten seconds apart; a request can finish within 25 steps of its own and of
      the request that holds the mutex; writing the pointer as one operation refines
      its system calls, and a pointer written by one call at a time is complete at
      every one of them.
    - Crashes (C5): whatever processes ran on a disk and wherever they were killed,
      the next one finds sound backups, and lost only what was past the retention.
    - Tests (C9, and theorems without a number): the repository's own tests pass
      from any empty directory and database on a machine where nothing fails, not
      only in one run.
    - C34 to C40 state behaviour that a reader of the documentation would not
      expect; they are listed as findings.

    ** Bounds and fuel

    The loop of [simple_session_id] runs on fuel 6, since 62 ^ 6 exceeds 2 ^ 32
    (C33 shows that nothing is cut off); the width of a printed number runs on
    fuel 10, since the numbers have at most 32 bits; a padded message is cut into as
    many blocks as its length over 64.  All other recursion is
    structural; [scheduler_loop] is the first [n] rounds of an endless loop.  A
    handler takes at most twelve actions ([bounded_handle]), the mutex included.
    Theorems on stored instants assume clock readings in the years 0 to 9999, the
    range in which RFC 3339 text is ordered like time.  A backup must not start in
    the same second in which another one was named ([dir_unused],
    [fresh_seconds]): the code would write into the same directory.  The theorems
    on interleavings assume that the clock does not run backwards.  A process is
    killed between two of its calls; a call that is cut short is a fault of that
    call, and what a call has done stays on the disk.

    ** What is not modelled

    The pause of the scheduler, what a socket does once it is bound, the tracing
    subscriber, the [Debug] instances, the Docker, Helm and CI files, and
    [sync/tests/live_sync.rs], which needs the real AnkiWeb.  In the integration
    tests a request is a call of the handler, without a connection.  Paths are normal: a root such as [./data] appears without
    the leading dot in messages.  SQLite's side files (journals) are not part of
    the file tree.  In a [Pool] one call of [std::fs], of the store or of the
    client is one action; [PointerFile.v] looks inside the calls that write the
    pointer, and the others write files that no second task writes.  The pruning of
    the SQLite store, a query and one delete per row, is one action too.  A request
    counts as sent when the HTTP client has it, whether or not the server sees it.

    ** Plan

    Next: a finer model of the pruning loop of the SQLite store, whose statements are
    separate commits; the round trip of IPv6 addresses; directories that a killed
    backup leaves behind. *)

From stdpp Require Export base gmap sets list strings pretty sorting.
From Stdlib Require Export ZArith Lia.
From Stdlib Require Export Ascii.

Declare Scope backup_scope.
Delimit Scope backup_scope with backup.
Open Scope backup_scope.
#[export] Set Default Goal Selector "!".
#[export] Set Warnings "-clear-no-such-hyp".

(** ** Hint databases of the development *)

Create HintDb backup.
Create Rewrite HintDb strings.

(** ** Bytes *)

(** A [Vec<u8>] is a list of bytes; a Rust [String] is the Rocq [string] of its
    UTF-8 bytes. *)
Abbreviation bytes := (list Byte.byte).

#[export] Instance byte_eq_dec : EqDecision Byte.byte := Byte.byte_eq_dec.

Definition bytes_of_string (s : string) : bytes := String.list_byte_of_string s.
Definition string_of_bytes (b : bytes) : string := String.string_of_list_byte b.

Lemma string_of_bytes_of_string s : string_of_bytes (bytes_of_string s) = s.
Proof. apply String.string_of_list_byte_of_string. Qed.

#[export] Instance bytes_of_string_inj : Inj (=) (=) bytes_of_string.
Proof.
  intros s1 s2 H%(f_equal string_of_bytes). by rewrite !string_of_bytes_of_string in H.
Qed.

(** ** Machine integers *)

Definition i64_min : Z := - 2 ^ 63.
Definition i64_max : Z := 2 ^ 63 - 1.
Definition is_i64 (z : Z) : Prop := (i64_min ≤ z ≤ i64_max)%Z.
#[export] Instance is_i64_dec z : Decision (is_i64 z).
Proof. unfold is_i64. apply _. Defined.

(** The value of [x as i64] for an unsigned or wider integer [x]: the low 64
    bits read in two's complement. *)
Definition as_i64 (z : Z) : Z :=
  let r := (z mod 2 ^ 64)%Z in
  if (r <? 2 ^ 63)%Z then r else (r - 2 ^ 64)%Z.

Lemma as_i64_id z : is_i64 z → as_i64 z = z.
Proof.
  unfold is_i64, i64_min, i64_max, as_i64. intros H.
  destruct (Z.ltb_spec (z mod 2 ^ 64) (2 ^ 63)).
  - destruct (decide (0 ≤ z)%Z).
    + rewrite Z.mod_small; lia.
    + exfalso. rewrite <- (Z.mod_add z 1) in * by lia. rewrite Z.mod_small in *; lia.
  - destruct (decide (0 ≤ z)%Z).
    + rewrite Z.mod_small in *; lia.
    + rewrite <- (Z.mod_add z 1) in * by lia. rewrite Z.mod_small in *; lia.
Qed.

Lemma as_i64_range z : is_i64 (as_i64 z).
Proof.
  unfold is_i64, i64_min, i64_max, as_i64.
  pose proof (Z.mod_pos_bound z (2 ^ 64)).
  destruct (Z.ltb_spec (z mod 2 ^ 64) (2 ^ 63)); lia.
Qed.

(** ** Strings *)

(** Bytewise lexicographic order: the order of Rust's [str], of SQLite's BINARY
    collation and of [memcmp]. *)
Fixpoint str_lt (s1 s2 : string) : bool :=
  match s1, s2 with
  | EmptyString, EmptyString => false
  | EmptyString, String _ _ => true
  | String _ _, EmptyString => false
  | String a s1, String b s2 =>
      match (N_of_ascii a ?= N_of_ascii b)%N with
      | Lt => true
      | Eq => str_lt s1 s2
      | Gt => false
      end
  end.

Lemma N_of_ascii_inj a b : N_of_ascii a = N_of_ascii b → a = b.
Proof. intros H%(f_equal ascii_of_N). by rewrite !ascii_N_embedding in H. Qed.

Lemma str_lt_irrefl s : str_lt s s = false.
Proof. induction s as [|a s IH]; simpl; [done|]. by rewrite N.compare_refl. Qed.

Lemma str_lt_trans s1 s2 s3 : str_lt s1 s2 → str_lt s2 s3 → str_lt s1 s3.
Proof.
  revert s2 s3. induction s1 as [|a s1 IH]; intros [|b s2] [|c s3]; simpl; try done.
  destruct (N.compare_spec (N_of_ascii a) (N_of_ascii b)) as [Hab|Hab|Hab]; try done;
    destruct (N.compare_spec (N_of_ascii b) (N_of_ascii c)) as [Hbc|Hbc|Hbc]; try done;
    destruct (N.compare_spec (N_of_ascii a) (N_of_ascii c)) as [Hac|Hac|Hac];
    try done; try lia; eauto.
Qed.

Lemma str_lt_total s1 s2 : str_lt s1 s2 = false → str_lt s2 s1 = false → s1 = s2.
Proof.
  revert s2. induction s1 as [|a s1 IH]; intros [|b s2]; simpl; try done.
  destruct (N.compare_spec (N_of_ascii a) (N_of_ascii b)) as [Hab|Hab|Hab]; try done;
    destruct (N.compare_spec (N_of_ascii b) (N_of_ascii a)); try done; try lia.
  intros. f_equal; eauto using N_of_ascii_inj.
Qed.

Lemma str_lt_asym s1 s2 : str_lt s1 s2 = true → str_lt s2 s1 = false.
Proof.
  intros H. destruct (str_lt s2 s1) eqn:H'; [|done].
  pose proof (str_lt_trans s1 s2 s1) as Ht. rewrite H, H', str_lt_irrefl in Ht. naive_solver.
Qed.

Lemma str_lt_cotrans s1 s2 s3 : str_lt s1 s2 → str_lt s1 s3 ∨ str_lt s3 s2.
Proof.
  intros H12. destruct (str_lt s1 s3) eqn:H13; [by left|]. right.
  destruct (str_lt s3 s1) eqn:H31.
  - eapply str_lt_trans; [by rewrite H31|done].
  - by rewrite <- (str_lt_total _ _ H13 H31).
Qed.

Lemma str_lt_app p s1 s2 : str_lt (p +:+ s1) (p +:+ s2) = str_lt s1 s2.
Proof.
  induction p as [|a p IH]; [done|].
  change (String a p +:+ s1) with (String a (p +:+ s1)).
  change (String a p +:+ s2) with (String a (p +:+ s2)). simpl.
  by rewrite N.compare_refl.
Qed.

Lemma string_app_cons a p s : String a p +:+ s = String a (p +:+ s).
Proof. done. Qed.
Lemma string_app_nil_l s : "" +:+ s = s.
Proof. done. Qed.
Lemma string_app_nil_r s : s +:+ "" = s.
Proof. induction s as [|a s IH]; [done|]. rewrite string_app_cons. by f_equal. Qed.
Lemma string_app_assoc s1 s2 s3 : (s1 +:+ s2) +:+ s3 = s1 +:+ (s2 +:+ s3).
Proof. induction s1 as [|a s IH]; [done|]. rewrite !string_app_cons. by f_equal. Qed.
#[export] Hint Rewrite string_app_assoc string_app_cons string_app_nil_l : strings.

Lemma string_app_length s1 s2 :
  String.length (s1 +:+ s2) = String.length s1 + String.length s2.
Proof. induction s1 as [|a s IH]; [done|]. rewrite string_app_cons; simpl. by f_equal. Qed.

Lemma string_app_inj_length p1 p2 s1 s2 :
  String.length p1 = String.length p2 → p1 +:+ s1 = p2 +:+ s2 → p1 = p2 ∧ s1 = s2.
Proof.
  revert p2. induction p1 as [|a p1 IH]; intros [|b p2]; simpl; intros Hl; try done.
  rewrite !string_app_cons. intros [= -> H]. destruct (IH p2) as [-> ->]; auto.
Qed.
Lemma string_app_inj_r p1 p2 s : p1 +:+ s = p2 +:+ s → p1 = p2.
Proof.
  intros Heq. apply (string_app_inj_length p1 p2 s s); [|done].
  apply (f_equal String.length) in Heq. rewrite !string_app_length in Heq. lia.
Qed.

(** [str::starts_with] and [str::strip_prefix]. *)
Fixpoint strip_prefix (p s : string) : option string :=
  match p, s with
  | EmptyString, _ => Some s
  | String a p, String b s => if decide (a = b) then strip_prefix p s else None
  | String _ _, EmptyString => None
  end.
Definition starts_with (p s : string) : bool := bool_decide (is_Some (strip_prefix p s)).

Lemma strip_prefix_Some p s r : strip_prefix p s = Some r ↔ s = p +:+ r.
Proof.
  revert s. induction p as [|a p IHp]; intros s; simpl.
  - rewrite string_app_nil_l. naive_solver.
  - rewrite string_app_cons. destruct s as [|b s]; [done|].
    case_decide as Hab; [subst; rewrite IHp; clear IHp; naive_solver|].
    split; [done|]. intros [= ->]. done.
Qed.

(** [str::trim_end_matches(c)]: the trailing occurrences of one character. *)
Fixpoint trim_end (c : Ascii.ascii) (s : string) : string :=
  match s with
  | EmptyString => EmptyString
  | String a s =>
      match trim_end c s with
      | EmptyString => if decide (a = c) then EmptyString else String a EmptyString
      | s' => String a s'
      end
  end.

(** [str::replace] of a character by another one. *)
Fixpoint replace_char (c d : Ascii.ascii) (s : string) : string :=
  match s with
  | EmptyString => EmptyString
  | String a s => String (if decide (a = c) then d else a) (replace_char c d s)
  end.

Lemma replace_char_app c d s1 s2 :
  replace_char c d (s1 +:+ s2) = replace_char c d s1 +:+ replace_char c d s2.
Proof.
  induction s1 as [|a s IH]; [done|].
  rewrite !string_app_cons; simpl. rewrite string_app_cons. by f_equal.
Qed.

(** Membership of a character. *)
Fixpoint has_char (c : Ascii.ascii) (s : string) : bool :=
  match s with
  | EmptyString => false
  | String a s => bool_decide (a = c) || has_char c s
  end.

Lemma has_char_app c s1 s2 : has_char c (s1 +:+ s2) = has_char c s1 || has_char c s2.
Proof.
  induction s1 as [|a s IH]; [done|]. rewrite string_app_cons; simpl. by rewrite IH, orb_assoc.
Qed.

(** Text with a backquote for each double quote. *)
Fixpoint quoted (s : string) : string :=
  match s with
  | EmptyString => EmptyString
  | String c s => String (if decide (c = "`"%char) then "034"%char else c) (quoted s)
  end.

(** [s.chars().all(p)]. *)
Fixpoint all_chars (p : Ascii.ascii → bool) (s : string) : bool :=
  match s with EmptyString => true | String a s => p a && all_chars p s end.

Lemma all_chars_app p s1 s2 : all_chars p (s1 +:+ s2) = all_chars p s1 && all_chars p s2.
Proof.
  induction s1 as [|a s IH]; [done|]. rewrite string_app_cons. cbn [all_chars]. by rewrite IH, andb_assoc.
Qed.
Lemma all_chars_has_char p c s : all_chars p s = true → p c = false → has_char c s = false.
Proof.
  intros Hs Hc. induction s as [|a s IH]; [done|]. cbn [all_chars has_char] in *.
  apply andb_true_iff in Hs as [Ha Hs]. rewrite (IH Hs), orb_false_r.
  apply bool_decide_eq_false. by intros ->; rewrite Ha in Hc.
Qed.

(** [str::eq_ignore_ascii_case]. *)
Definition to_ascii_lowercase_char (a : Ascii.ascii) : Ascii.ascii :=
  let n := N_of_ascii a in
  if (65 <=? n)%N && (n <=? 90)%N then ascii_of_N (n + 32) else a.
Fixpoint to_ascii_lowercase (s : string) : string :=
  match s with
  | EmptyString => EmptyString
  | String a s => String (to_ascii_lowercase_char a) (to_ascii_lowercase s)
  end.
Definition eq_ignore_ascii_case (s1 s2 : string) : bool :=
  bool_decide (to_ascii_lowercase s1 = to_ascii_lowercase s2).

(** ** Fixed-width positional numerals *)

Definition digit_char (d : Z) : Ascii.ascii :=
  ascii_of_N (if (d <? 10)%Z then Z.to_N (48 + d) else Z.to_N (87 + d)).
Definition char_digit (a : Ascii.ascii) : option Z :=
  let n := Z.of_N (N_of_ascii a) in
  if ((48 <=? n) && (n <=? 57))%Z then Some (n - 48)%Z
  else if ((97 <=? n) && (n <=? 102))%Z then Some (n - 87)%Z
  else None.

(** [enc b w n]: the [w] low digits of [n] in base [b], most significant first. *)
Fixpoint enc (b : Z) (w : nat) (n : Z) : string :=
  match w with
  | O => EmptyString
  | S w => String (digit_char (n / b ^ Z.of_nat w)) (enc b w (n mod b ^ Z.of_nat w))
  end.
Fixpoint dec (b acc : Z) (s : string) : option Z :=
  match s with
  | EmptyString => Some acc
  | String a s => d ← char_digit a; dec b (acc * b + d) s
  end.

Lemma digit_char_N d : (0 ≤ d < 16)%Z →
  Z.of_N (N_of_ascii (digit_char d)) = (if (d <? 10)%Z then 48 + d else 87 + d)%Z.
Proof.
  intros Hd. unfold digit_char. rewrite N_ascii_embedding; destruct (Z.ltb_spec d 10); lia.
Qed.

Lemma char_digit_char d : (0 ≤ d < 16)%Z → char_digit (digit_char d) = Some d.
Proof.
  intros Hd. unfold char_digit. rewrite digit_char_N by done.
  destruct (Z.ltb_spec d 10).
  - replace ((48 <=? 48 + d) && (48 + d <=? 57))%Z with true by lia. f_equal; lia.
  - replace ((48 <=? 87 + d) && (87 + d <=? 57))%Z with false by lia.
    replace ((97 <=? 87 + d) && (87 + d <=? 102))%Z with true by lia. f_equal; lia.
Qed.

Lemma digit_char_lt d e : (0 ≤ d)%Z → (d < e)%Z → (e < 16)%Z →
  (N_of_ascii (digit_char d) < N_of_ascii (digit_char e))%N.
Proof.
  intros ???. apply N2Z.inj_lt. rewrite !digit_char_N by lia.
  destruct (Z.ltb_spec d 10), (Z.ltb_spec e 10); lia.
Qed.

Lemma enc_length b w n : String.length (enc b w n) = w.
Proof. revert n. induction w; intros; simpl; auto. Qed.

Section enc.
Context (b : Z) (Hb : (2 ≤ b ≤ 16)%Z).

Lemma enc_digit_range (w : nat) n : (0 ≤ n < b ^ Z.of_nat (S w))%Z → (0 ≤ n / b ^ Z.of_nat w < 16)%Z.
Proof.
  intros Hn. assert (0 < b ^ Z.of_nat w)%Z by (apply Z.pow_pos_nonneg; lia).
  rewrite Nat2Z.inj_succ, Z.pow_succ_r in Hn by lia.
  split; [apply Z.div_pos; lia|].
  apply Z.lt_le_trans with b; [apply Z.div_lt_upper_bound; nia|lia].
Qed.

Lemma dec_enc_acc w n acc :
  (0 ≤ n < b ^ Z.of_nat w)%Z → dec b acc (enc b w n) = Some (acc * b ^ Z.of_nat w + n)%Z.
Proof.
  revert n acc. induction w as [|w IH]; intros n acc Hn; simpl.
  - f_equal. rewrite Z.pow_0_r in *. lia.
  - assert (0 < b ^ Z.of_nat w)%Z by (apply Z.pow_pos_nonneg; lia).
    rewrite char_digit_char by (by apply enc_digit_range). simpl.
    rewrite IH by (apply Z.mod_pos_bound; lia). f_equal.
    rewrite Nat2Z.inj_succ, Z.pow_succ_r by lia.
    pose proof (Z.div_mod n (b ^ Z.of_nat w)). nia.
Qed.

Lemma dec_enc w n : (0 ≤ n < b ^ Z.of_nat w)%Z → dec b 0 (enc b w n) = Some n.
Proof. intros. by rewrite dec_enc_acc. Qed.

Lemma enc_inj w m n :
  (0 ≤ m < b ^ Z.of_nat w)%Z → (0 ≤ n < b ^ Z.of_nat w)%Z → enc b w m = enc b w n → m = n.
Proof. intros Hm Hn H%(f_equal (dec b 0)). rewrite !dec_enc in H by done. congruence. Qed.

(** Equal-width numerals are ordered like the numbers, whatever follows. *)
Lemma enc_lt w m n s1 s2 :
  (0 ≤ m)%Z → (m < n)%Z → (n < b ^ Z.of_nat w)%Z → str_lt (enc b w m +:+ s1) (enc b w n +:+ s2).
Proof.
  revert m n. induction w as [|w IH]; intros m n Hm Hmn Hn.
  - rewrite Z.pow_0_r in Hn. lia.
  - assert (0 < b ^ Z.of_nat w)%Z by (apply Z.pow_pos_nonneg; lia).
    cbn [enc]. rewrite !string_app_cons. cbn [str_lt].
    pose proof (Z.div_le_mono m n (b ^ Z.of_nat w)).
    destruct (Z.eq_dec (m / b ^ Z.of_nat w) (n / b ^ Z.of_nat w)) as [Heq|Hne].
    + rewrite Heq, N.compare_refl. apply IH.
      * by apply Z.mod_pos_bound.
      * rewrite !Z.mod_eq by lia. rewrite Heq. lia.
      * by apply Z.mod_pos_bound.
    + pose proof (enc_digit_range w n). pose proof (enc_digit_range w m).
      rewrite (proj2 (N.compare_lt_iff _ _)); [done|]. apply digit_char_lt; lia.
Qed.

(** A wide numeral is the concatenation of its high and low parts. *)
Lemma enc_split (w v : nat) n :
  (0 ≤ n < b ^ Z.of_nat (w + v))%Z → enc b (w + v) n = enc b w (n / b ^ Z.of_nat v) +:+ enc b v (n mod b ^ Z.of_nat v).
Proof.
  revert n. induction w as [|w IH]; intros n Hn.
  - simpl. rewrite string_app_nil_l. f_equal. rewrite Z.mod_small; [done|]. simpl in Hn. lia.
  - assert (0 < b ^ Z.of_nat w)%Z by (apply Z.pow_pos_nonneg; lia).
    assert (0 < b ^ Z.of_nat v)%Z by (apply Z.pow_pos_nonneg; lia).
    cbn [enc Nat.add]. rewrite string_app_cons.
    replace (Z.of_nat (w + v)) with (Z.of_nat v + Z.of_nat w)%Z by lia.
    rewrite Z.pow_add_r by lia. rewrite <- Z.div_div by lia. f_equal.
    rewrite IH.
    + rewrite Z.rem_mul_r by lia. f_equal.
      * f_equal. rewrite (Z.mul_comm (b ^ Z.of_nat v)), Z.div_add by lia.
        rewrite Z.div_small by (apply Z.mod_pos_bound; lia). lia.
      * f_equal. rewrite (Z.mul_comm (b ^ Z.of_nat v)), Z.mod_add by lia.
        by rewrite Z.mod_mod by lia.
    + rewrite Nat2Z.inj_add, Z.pow_add_r by lia.
      rewrite (Z.mul_comm (b ^ Z.of_nat v)). apply Z.mod_pos_bound. lia.
Qed.
End enc.

(** Digits are neither separators nor signs. *)
Lemma digit_char_ne d c : (0 ≤ d < 16)%Z → char_digit c = None → digit_char d ≠ c.
Proof. intros Hd Hc <-. by rewrite char_digit_char in Hc. Qed.

(** ** Lists *)

Lemma filter_Forall_iff {A} (P Q : A → Prop) `{!∀ x, Decision (P x), !∀ x, Decision (Q x)}
    (l : list A) :
  Forall (λ x, P x ↔ Q x) l → filter P l = filter Q l.
Proof.
  induction 1 as [|x l Hx _ IH]; [done|]. destruct (decide (P x)) as [HP|HP].
  - rewrite !filter_cons_True by tauto. by rewrite IH.
  - rewrite !filter_cons_False by tauto. done.
Qed.

(** Filtering the images of a list is filtering the list. *)
Lemma filter_fmap_Forall {A B} (f : A → B) (P : B → Prop) (Q : A → Prop)
    `{!∀ x, Decision (P x), !∀ x, Decision (Q x)} (l : list A) :
  Forall (λ x, P (f x) ↔ Q x) l → filter P (f <$> l) = f <$> filter Q l.
Proof.
  induction 1 as [|x l Hx _ IH]; [done|]. rewrite fmap_cons.
  destruct (decide (Q x)) as [HQ|HQ].
  - rewrite !filter_cons_True by tauto. by rewrite IH.
  - rewrite !filter_cons_False by tauto. done.
Qed.

(** A list splits into the elements that satisfy a predicate and the others. *)
Lemma filter_split_perm {A} (P : A → Prop) `{!∀ x, Decision (P x)} (l : list A) :
  l ≡ₚ filter P l ++ filter (λ x, ¬ P x) l.
Proof.
  induction l as [|x l IH]; [done|]. destruct (decide (P x)) as [HP|HP].
  - rewrite filter_cons_True, filter_cons_False by naive_solver. simpl. by rewrite <- IH.
  - rewrite filter_cons_False, filter_cons_True by naive_solver.
    rewrite <- Permutation_middle. by rewrite <- IH.
Qed.

Lemma NoDup_fmap_filter {A B} (f : A → B) (P : A → Prop) `{!∀ x, Decision (P x)} (l : list A) :
  NoDup (f <$> l) → NoDup (f <$> filter P l).
Proof. intros Hnd. eapply sublist_NoDup; [done|]. apply fmap_sublist, sublist_filter. Qed.

(** With distinct keys, an element is determined by its key. *)
Lemma NoDup_fmap_elem {A B} (f : A → B) (l : list A) x y :
  NoDup (f <$> l) → x ∈ l → y ∈ l → f x = f y → x = y.
Proof.
  intros Hnd [i Hi]%list_elem_of_lookup [j Hj]%list_elem_of_lookup Heq.
  assert (i = j) as ->; [|congruence].
  eapply NoDup_lookup; [done| |].
  - by rewrite list_lookup_fmap, Hi.
  - by rewrite list_lookup_fmap, Hj; simpl; rewrite Heq.
Qed.

Lemma Forall_filter {A} (P Q : A → Prop) `{!∀ x, Decision (Q x)} (l : list A) :
  Forall P l → Forall P (filter Q l).
Proof.
  rewrite !Forall_forall. intros HP x [_ ?]%list_elem_of_filter. by apply HP.
Qed.

Lemma filter_all {A} (P : A → Prop) `{!∀ x, Decision (P x)} (l : list A) :
  (∀ x, x ∈ l → P x) → filter P l = l.
Proof.
  intros HP. induction l as [|x l IH]; [done|].
  rewrite filter_cons_True by (apply HP; left). f_equal. apply IH. intros y ?. apply HP. by right.
Qed.

Lemma elem_of_take_inv {A} (x : A) n (l : list A) : x ∈ take n l → x ∈ l.
Proof. intros (i & Hi & _)%elem_of_take. apply list_elem_of_lookup. by exists i. Qed.
