(* ===== verification/Calendar.v ===== *)
(** * The proleptic Gregorian calendar and RFC 3339 texts

    The program stores instants as RFC 3339 text (SQLite backend) and names
    backup directories after them.  The formatting itself is done by the
    [chrono] crate, which is not part of the repository; RFC 3339 fixes what it
    prints.  This file states that format as executable functions on an instant
    (nanoseconds since the Unix epoch) and proves the facts the program relies
    on: the text of an instant determines it, and texts are ordered like the
    instants.  [Chrono.v] states the crate's interface in these terms. *)

From S2P Require Import Prelude.
Local Open Scope Z_scope.

(** ** Instants *)

(** [chrono::DateTime<Utc>], as nanoseconds since 1970-01-01T00:00:00Z. *)
Abbreviation DateTime := Z (only parsing).

Definition ns_per_sec : Z := 1000000000.
Definition secs_per_day : Z := 86400.

Definition secs (t : DateTime) : Z := t / ns_per_sec.
Definition nanos (t : DateTime) : Z := t mod ns_per_sec.
Definition day_of (t : DateTime) : Z := secs t / secs_per_day.
Definition sec_of_day (t : DateTime) : Z := secs t mod secs_per_day.

(** [Timelike::hour], [minute] and [second]. *)
Definition hour (t : DateTime) : Z := sec_of_day t / 3600.
Definition minute (t : DateTime) : Z := sec_of_day t / 60 mod 60.
Definition second (t : DateTime) : Z := sec_of_day t mod 60.

(** ** Days and civil dates *)

(** Day counts are taken from 0000-03-01, so that a leap day is the last day of
    its year: [era] is the 400-year cycle, [yoe] the year in it, [doy] the day in
    that year. *)
Definition epoch_shift : Z := 719468.
Definition days_per_era : Z := 146097.

Definition era_of (n : Z) : Z := (n + epoch_shift) / days_per_era.
Definition doe_of (n : Z) : Z := (n + epoch_shift) mod days_per_era.
Definition yoe_of_doe (doe : Z) : Z :=
  (doe - doe / 1460 + doe / 36524 - doe / 146096) / 365.
Definition year_start (yoe : Z) : Z := 365 * yoe + yoe / 4 - yoe / 100.
Definition doy_of_doe (doe : Z) : Z := doe - year_start (yoe_of_doe doe).
Definition mp_of_doy (doy : Z) : Z := (5 * doy + 2) / 153.
Definition dom_of_doy (doy : Z) : Z := doy - (153 * mp_of_doy doy + 2) / 5 + 1.

Record civil := Civil { c_year : Z; c_month : Z; c_day : Z }.

(** The civil date of the [n]-th day after 1970-01-01. *)
Definition civil_from_days (n : Z) : civil :=
  let doe := doe_of n in
  let doy := doy_of_doe doe in
  let mp := mp_of_doy doy in
  let m := if mp <? 10 then mp + 3 else mp - 9 in
  let y := yoe_of_doe doe + era_of n * 400 in
  Civil (if m <=? 2 then y + 1 else y) m (dom_of_doy doy).

(** The inverse: the day number of a civil date. *)
Definition days_from_civil (c : civil) : Z :=
  let y := if c_month c <=? 2 then c_year c - 1 else c_year c in
  let mp := if 2 <? c_month c then c_month c - 3 else c_month c + 9 in
  let doy := (153 * mp + 2) / 5 + c_day c - 1 in
  let yoe := y mod 400 in
  (y / 400) * days_per_era + (year_start yoe + doy) - epoch_shift.

Example civil_epoch : civil_from_days 0 = Civil 1970 1 1.
Proof. reflexivity. Qed.
Example civil_leap : civil_from_days 19782 = Civil 2024 2 29.
Proof. reflexivity. Qed.

Ltac zdiv := Z.div_mod_to_equations; lia.

Lemma doe_range n : 0 ≤ doe_of n < days_per_era.
Proof. unfold doe_of, days_per_era. apply Z.mod_pos_bound. lia. Qed.

Lemma yoe_range doe : 0 ≤ doe < days_per_era → 0 ≤ yoe_of_doe doe < 400.
Proof. unfold yoe_of_doe, days_per_era. intros. zdiv. Qed.

(** The year index brackets the day of the era. *)
Lemma yoe_bracket doe : 0 ≤ doe < days_per_era →
  year_start (yoe_of_doe doe) ≤ doe < year_start (yoe_of_doe doe) + 366.
Proof. unfold yoe_of_doe, year_start, days_per_era. intros. zdiv. Qed.

Lemma doy_range doe : 0 ≤ doe < days_per_era → 0 ≤ doy_of_doe doe < 366.
Proof. intros H%yoe_bracket. unfold doy_of_doe. lia. Qed.

Lemma year_start_succ y : year_start y + 365 ≤ year_start (y + 1).
Proof. unfold year_start. zdiv. Qed.

Lemma yoe_mono d1 d2 :
  0 ≤ d1 → d1 ≤ d2 → d2 < days_per_era → yoe_of_doe d1 ≤ yoe_of_doe d2.
Proof. unfold yoe_of_doe, days_per_era. intros. zdiv. Qed.

(** The calendar is ordered: the pair (month, day) grows with the day of the
    year that starts in March, the civil year with the era and the year index. *)
Definition date_key (c : civil) : Z := c_year c * 10000 + c_month c * 100 + c_day c.

Lemma month_day_ranges doy : 0 ≤ doy < 366 →
  0 ≤ mp_of_doy doy < 12 ∧ 1 ≤ dom_of_doy doy ≤ 31 ∧
  (mp_of_doy doy = 11 → dom_of_doy doy ≤ 29).
Proof. unfold dom_of_doy, mp_of_doy. intros. zdiv. Qed.

Lemma month_day_mono d1 d2 : 0 ≤ d1 → d1 < d2 → d2 < 366 →
  mp_of_doy d1 * 100 + dom_of_doy d1 < mp_of_doy d2 * 100 + dom_of_doy d2.
Proof. unfold dom_of_doy, mp_of_doy. intros. zdiv. Qed.

(** The year that starts in March. *)
Definition march_year (n : Z) : Z := yoe_of_doe (doe_of n) + era_of n * 400.

Lemma date_key_march n :
  date_key (civil_from_days n) =
    march_year n * 10000 +
    (let doy := doy_of_doe (doe_of n) in
     let mp := mp_of_doy doy in
     (if mp <? 10 then mp * 100 + 300 else mp * 100 + 9100) + dom_of_doy doy).
Proof.
  pose proof (month_day_ranges _ (doy_range _ (doe_range n))).
  unfold date_key, march_year, civil_from_days; cbn [c_year c_month c_day].
  destruct (Z.ltb_spec (mp_of_doy (doy_of_doe (doe_of n))) 10);
    case_match eqn:Hm; lia.
Qed.

Lemma civil_ranges n :
  1 ≤ c_month (civil_from_days n) ≤ 12 ∧ 1 ≤ c_day (civil_from_days n) ≤ 31.
Proof.
  pose proof (month_day_ranges _ (doy_range _ (doe_range n))).
  unfold civil_from_days; cbn [c_month c_day].
  destruct (Z.ltb_spec (mp_of_doy (doy_of_doe (doe_of n))) 10); lia.
Qed.

Lemma march_year_mono m n : m < n →
  march_year m < march_year n ∨
  (march_year m = march_year n ∧ doy_of_doe (doe_of m) < doy_of_doe (doe_of n)).
Proof.
  intros Hmn. pose proof (yoe_range _ (doe_range m)). pose proof (yoe_range _ (doe_range n)).
  pose proof (doe_range m). pose proof (doe_range n).
  assert (m + epoch_shift = days_per_era * era_of m + doe_of m)
    by (apply Z.div_mod; unfold days_per_era; lia).
  assert (n + epoch_shift = days_per_era * era_of n + doe_of n)
    by (apply Z.div_mod; unfold days_per_era; lia).
  unfold march_year. destruct (Z.lt_trichotomy (era_of m) (era_of n)) as [?|[Heq|?]].
  - lia.
  - pose proof (yoe_mono (doe_of m) (doe_of n)).
    destruct (Z.eq_dec (yoe_of_doe (doe_of m)) (yoe_of_doe (doe_of n))) as [Hy|]; [|lia].
    right. unfold doy_of_doe. rewrite Hy. lia.
  - unfold days_per_era in *. nia.
Qed.

Lemma date_key_mono m n : m < n → date_key (civil_from_days m) < date_key (civil_from_days n).
Proof.
  intros Hmn. rewrite !date_key_march.
  pose proof (month_day_ranges _ (doy_range _ (doe_range m))).
  pose proof (month_day_ranges _ (doy_range _ (doe_range n))).
  pose proof (doy_range _ (doe_range m)). pose proof (doy_range _ (doe_range n)).
  pose proof (month_day_mono (doy_of_doe (doe_of m)) (doy_of_doe (doe_of n))).
  destruct (march_year_mono m n Hmn) as [|[-> ?]]; cbv zeta;
    repeat match goal with |- context [?x <? 10] => destruct (Z.ltb_spec x 10) end; lia.
Qed.

(** Converting a day number to a civil date and back gives the day number. *)
Lemma days_from_civil_from_days n : days_from_civil (civil_from_days n) = n.
Proof.
  pose proof (month_day_ranges _ (doy_range _ (doe_range n))).
  pose proof (yoe_range _ (doe_range n)). pose proof (doe_range n).
  assert (n + epoch_shift = days_per_era * era_of n + doe_of n)
    by (apply Z.div_mod; unfold days_per_era; lia).
  assert (doe_of n = year_start (yoe_of_doe (doe_of n)) + doy_of_doe (doe_of n))
    by (unfold doy_of_doe; lia).
  assert (∀ y e, 0 ≤ y < 400 → (y + e * 400) mod 400 = y) as Hmod.
  { intros. rewrite Z.mod_add, Z.mod_small; lia. }
  assert (∀ y e, 0 ≤ y < 400 → (y + e * 400) / 400 = e) as Hdiv.
  { intros. rewrite Z.div_add, Z.div_small; lia. }
  unfold days_from_civil, civil_from_days; cbn [c_year c_month c_day].
  destruct (Z.ltb_spec (mp_of_doy (doy_of_doe (doe_of n))) 10).
  - replace (mp_of_doy (doy_of_doe (doe_of n)) + 3 <=? 2) with false by lia.
    replace (2 <? mp_of_doy (doy_of_doe (doe_of n)) + 3) with true by lia.
    replace (mp_of_doy (doy_of_doe (doe_of n)) + 3 - 3)
      with (mp_of_doy (doy_of_doe (doe_of n))) by lia.
    rewrite Hmod, Hdiv by lia. unfold dom_of_doy at 1. lia.
  - replace (mp_of_doy (doy_of_doe (doe_of n)) - 9 <=? 2) with true by lia.
    replace (2 <? mp_of_doy (doy_of_doe (doe_of n)) - 9) with false by lia.
    replace (mp_of_doy (doy_of_doe (doe_of n)) - 9 + 9)
      with (mp_of_doy (doy_of_doe (doe_of n))) by lia.
    rewrite Z.add_simpl_r. rewrite Hmod, Hdiv by lia. unfold dom_of_doy at 1. lia.
Qed.

(** ** RFC 3339 texts *)

(** The instants of the years 0000 to 9999, the ones RFC 3339 can write. *)
Definition rfc3339_range (t : DateTime) : Prop :=
  -719528 * secs_per_day * ns_per_sec ≤ t < 2932897 * secs_per_day * ns_per_sec.
#[export] Instance rfc3339_range_dec t : Decision (rfc3339_range t).
Proof. unfold rfc3339_range. apply _. Defined.

Lemma day_of_range t : rfc3339_range t → -719528 ≤ day_of t ≤ 2932896.
Proof.
  unfold rfc3339_range, day_of, secs, secs_per_day, ns_per_sec. intros. zdiv.
Qed.

Lemma year_range n : -719528 ≤ n ≤ 2932896 → 0 ≤ c_year (civil_from_days n) ≤ 9999.
Proof.
  intros [Hlo Hhi]. pose proof (civil_ranges n).
  assert (date_key (civil_from_days (-719528)) ≤ date_key (civil_from_days n)).
  { destruct (Z.eq_dec (-719528) n) as [<-|]; [lia|]. apply Z.lt_le_incl, date_key_mono. lia. }
  assert (date_key (civil_from_days n) ≤ date_key (civil_from_days 2932896)).
  { destruct (Z.eq_dec n 2932896) as [->|]; [lia|]. apply Z.lt_le_incl, date_key_mono. lia. }
  change (date_key (civil_from_days (-719528))) with 101 in *.
  change (date_key (civil_from_days 2932896)) with 99991231 in *.
  unfold date_key in *. lia.
Qed.

Definition two (n : Z) : string := enc 10 2 n.

(** [YYYY-MM-DDThh<sep>mm<sep>ss]. *)
Definition stamp_text (sep : string) (t : DateTime) : string :=
  let c := civil_from_days (day_of t) in
  enc 10 4 (c_year c) +:+ "-" +:+ two (c_month c) +:+ "-" +:+ two (c_day c) +:+ "T" +:+
  two (hour t) +:+ sep +:+ two (minute t) +:+ sep +:+ two (second t).

(** The fraction with 0, 3, 6 or 9 digits, whichever writes all of it
    ([SecondsFormat::AutoSi]). *)
Definition frac_text (n : Z) : string :=
  if n =? 0 then ""
  else if n mod 1000000 =? 0 then "." +:+ enc 10 3 (n / 1000000)
  else if n mod 1000 =? 0 then "." +:+ enc 10 6 (n / 1000)
  else "." +:+ enc 10 9 n.

(** [DateTime::<Utc>::to_rfc3339]. *)
Definition rfc3339_autosi (t : DateTime) : string :=
  stamp_text ":" t +:+ frac_text (nanos t) +:+ "+00:00".
(** [to_rfc3339_opts(SecondsFormat::Secs, true)]. *)
Definition rfc3339_secs_z (t : DateTime) : string := stamp_text ":" t +:+ "Z".

Example rfc3339_ex1 : rfc3339_autosi 1770944823120000000 = "2026-02-13T01:07:03.120+00:00".
Proof. reflexivity. Qed.
Example rfc3339_ex2 : rfc3339_secs_z 1770944823120000000 = "2026-02-13T01:07:03Z".
Proof. reflexivity. Qed.

Lemma time_ranges t :
  0 ≤ hour t < 24 ∧ 0 ≤ minute t < 60 ∧ 0 ≤ second t < 60 ∧
  sec_of_day t = hour t * 3600 + minute t * 60 + second t.
Proof.
  assert (0 ≤ sec_of_day t < 86400) by (apply Z.mod_pos_bound; unfold secs_per_day; lia).
  unfold hour, minute, second. generalize dependent (sec_of_day t). intros s ?. zdiv.
Qed.

Lemma secs_day_split t : secs t = day_of t * 86400 + sec_of_day t.
Proof.
  unfold day_of, sec_of_day, secs_per_day. pose proof (Z.div_mod (secs t) 86400). lia.
Qed.

(** One numeric field of a stamp decides the comparison or is equal. *)
Lemma field_lt w m n s1 s2 :
  0 ≤ m < 10 ^ Z.of_nat w → 0 ≤ n < 10 ^ Z.of_nat w →
  m < n ∨ (m = n ∧ str_lt s1 s2) → str_lt (enc 10 w m +:+ s1) (enc 10 w n +:+ s2).
Proof.
  intros ?? [?|[-> ?]]; [apply enc_lt; lia|]. by rewrite str_lt_app.
Qed.

Lemma stamp_lt sep t1 t2 a b :
  rfc3339_range t1 → rfc3339_range t2 → secs t1 < secs t2 →
  str_lt (stamp_text sep t1 +:+ a) (stamp_text sep t2 +:+ b).
Proof.
  intros H1 H2 Hs. rewrite !secs_day_split in Hs.
  pose proof (year_range _ (day_of_range _ H1)). pose proof (year_range _ (day_of_range _ H2)).
  pose proof (civil_ranges (day_of t1)). pose proof (civil_ranges (day_of t2)).
  pose proof (time_ranges t1) as (?&?&?&Hs1). pose proof (time_ranges t2) as (?&?&?&Hs2).
  pose proof (date_key_mono (day_of t1) (day_of t2)) as Hkey. unfold date_key in Hkey.
  assert (day_of t1 < day_of t2 ∨ day_of t1 = day_of t2 ∧ sec_of_day t1 < sec_of_day t2) as Hc by lia.
  unfold stamp_text, two. cbv zeta. rewrite !string_app_assoc.
  destruct Hc as [Hd|[Hd Hsod]].
  - specialize (Hkey Hd).
    apply field_lt; [lia..|].
    destruct (Z.eq_dec (c_year (civil_from_days (day_of t1))) (c_year (civil_from_days (day_of t2))));
      [|left; lia]. right; split; [done|]. rewrite str_lt_app.
    apply field_lt; [lia..|].
    destruct (Z.eq_dec (c_month (civil_from_days (day_of t1))) (c_month (civil_from_days (day_of t2))));
      [|left; lia]. right; split; [done|]. rewrite str_lt_app.
    apply field_lt; [lia..|]. left. lia.
  - rewrite Hd, !str_lt_app.
    apply field_lt; [lia..|].
    destruct (Z.eq_dec (hour t1) (hour t2)); [|left; lia]. right; split; [done|]. rewrite str_lt_app.
    apply field_lt; [lia..|].
    destruct (Z.eq_dec (minute t1) (minute t2)); [|left; lia]. right; split; [done|]. rewrite str_lt_app.
    apply field_lt; [lia..|]. left. lia.
Qed.

Lemma stamp_text_same sep t1 t2 : secs t1 = secs t2 → stamp_text sep t1 = stamp_text sep t2.
Proof. unfold stamp_text, day_of, hour, minute, second, sec_of_day, day_of. by intros ->. Qed.

(** A stamp determines the second. *)
Lemma stamp_text_inj sep t1 t2 a :
  rfc3339_range t1 → rfc3339_range t2 →
  stamp_text sep t1 +:+ a = stamp_text sep t2 +:+ a → secs t1 = secs t2.
Proof.
  intros H1 H2 Heq. destruct (Z.lt_trichotomy (secs t1) (secs t2)) as [Hlt|[?|Hlt]]; [|done|].
  - apply (stamp_lt sep _ _ a a H1 H2) in Hlt. by rewrite Heq, str_lt_irrefl in Hlt.
  - apply (stamp_lt sep _ _ a a H2 H1) in Hlt. by rewrite Heq, str_lt_irrefl in Hlt.
Qed.

(** The fraction is a sequence of three-digit groups that stops at the last
    non-zero one. *)
Definition frac_lo (n : Z) : string := if n =? 0 then "" else enc 10 3 n.
Definition frac_mid (n : Z) : string :=
  if n =? 0 then "" else enc 10 3 (n / 1000) +:+ frac_lo (n mod 1000).
Definition frac_hi (n : Z) : string :=
  if n =? 0 then "" else "." +:+ enc 10 3 (n / 1000000) +:+ frac_mid (n mod 1000000).

Lemma frac_text_groups n : 0 ≤ n < ns_per_sec → frac_text n = frac_hi n.
Proof.
  unfold ns_per_sec, frac_text, frac_hi, frac_mid, frac_lo. intros Hn.
  destruct (Z.eqb_spec n 0); [done|].
  destruct (Z.eqb_spec (n mod 1000000) 0); [by rewrite string_app_nil_r|].
  assert (n mod 1000000 mod 1000 = n mod 1000) as ->.
  { change 1000000 with (1000 * 1000). rewrite Z.rem_mul_r by lia.
    rewrite (Z.mul_comm 1000), Z.mod_add by lia. apply Z.mod_mod. lia. }
  destruct (Z.eqb_spec (n mod 1000) 0).
  - rewrite (enc_split 10 ltac:(lia) 3 3) by (simpl; zdiv).
    change (10 ^ Z.of_nat 3) with 1000. rewrite string_app_nil_r. do 3 f_equal; zdiv.
  - rewrite (enc_split 10 ltac:(lia) 3 6) by (simpl; lia).
    change (10 ^ Z.of_nat 6) with 1000000.
    change (enc 10 6 (n mod 1000000)) with (enc 10 (3 + 3) (n mod 1000000)).
    rewrite (enc_split 10 ltac:(lia) 3 3 (n mod 1000000)) by (simpl; zdiv).
    change (10 ^ Z.of_nat 3) with 1000. do 4 f_equal. zdiv.
Qed.

Lemma plus_lt_digits n s : 0 ≤ n < 1000 → str_lt "+00:00" (enc 10 3 n +:+ s).
Proof.
  intros Hn. cbn [enc]. rewrite string_app_cons. cbn [str_lt].
  rewrite (proj2 (N.compare_lt_iff _ _)); [done|].
  apply N2Z.inj_lt. rewrite digit_char_N; [|simpl; zdiv].
  change (Z.of_N (N_of_ascii "+")) with 43. case_match; simpl; zdiv.
Qed.

Lemma group_lt n1 n2 s1 s2 :
  0 ≤ n1 < 1000 → 0 ≤ n2 < 1000 → n1 < n2 ∨ (n1 = n2 ∧ str_lt s1 s2) →
  str_lt (enc 10 3 n1 +:+ s1) (enc 10 3 n2 +:+ s2).
Proof. intros. apply field_lt; simpl; lia || done. Qed.

Lemma frac_lo_lt n1 n2 : 0 ≤ n1 → n1 < n2 → n2 < 1000 →
  str_lt (frac_lo n1 +:+ "+00:00") (frac_lo n2 +:+ "+00:00").
Proof.
  intros. unfold frac_lo. destruct (Z.eqb_spec n2 0); [lia|].
  destruct (Z.eqb_spec n1 0); [apply plus_lt_digits; lia|apply group_lt; lia].
Qed.

Lemma frac_mid_lt n1 n2 : 0 ≤ n1 → n1 < n2 → n2 < 1000000 →
  str_lt (frac_mid n1 +:+ "+00:00") (frac_mid n2 +:+ "+00:00").
Proof.
  intros. unfold frac_mid. destruct (Z.eqb_spec n2 0); [lia|]. rewrite string_app_assoc.
  destruct (Z.eqb_spec n1 0); [apply plus_lt_digits; zdiv|]. rewrite string_app_assoc.
  apply group_lt; [zdiv..|].
  destruct (Z.eq_dec (n1 / 1000) (n2 / 1000)); [|left; zdiv].
  right; split; [done|]. apply frac_lo_lt; zdiv.
Qed.

Lemma frac_text_lt n1 n2 : 0 ≤ n1 → n1 < n2 → n2 < ns_per_sec →
  str_lt (frac_text n1 +:+ "+00:00") (frac_text n2 +:+ "+00:00").
Proof.
  intros. rewrite !frac_text_groups by lia. unfold frac_hi, ns_per_sec in *.
  destruct (Z.eqb_spec n2 0); [lia|]. rewrite !string_app_assoc.
  destruct (Z.eqb_spec n1 0); [done|]. rewrite !string_app_assoc, str_lt_app.
  apply group_lt; [zdiv..|].
  destruct (Z.eq_dec (n1 / 1000000) (n2 / 1000000)); [|left; zdiv].
  right; split; [done|]. apply frac_mid_lt; zdiv.
Qed.

Lemma nanos_range t : 0 ≤ nanos t < ns_per_sec.
Proof. apply Z.mod_pos_bound. unfold ns_per_sec. lia. Qed.

Lemma secs_nanos t : t = secs t * ns_per_sec + nanos t.
Proof. unfold secs, nanos. pose proof (Z.div_mod t ns_per_sec). unfold ns_per_sec in *. lia. Qed.

Lemma rfc3339_autosi_mono t1 t2 :
  rfc3339_range t1 → rfc3339_range t2 → t1 < t2 →
  str_lt (rfc3339_autosi t1) (rfc3339_autosi t2).
Proof.
  intros H1 H2 Hlt. pose proof (nanos_range t1). pose proof (nanos_range t2).
  rewrite (secs_nanos t1), (secs_nanos t2) in Hlt.
  assert (secs t1 < secs t2 ∨ secs t1 = secs t2 ∧ nanos t1 < nanos t2) as [Hs|[Hs Hn]]
    by (unfold ns_per_sec in *; lia); unfold rfc3339_autosi.
  - by apply stamp_lt.
  - rewrite (stamp_text_same _ _ _ Hs), str_lt_app. apply frac_text_lt; lia.
Qed.

(** Text order is time order. *)
Lemma rfc3339_autosi_lt t1 t2 :
  rfc3339_range t1 → rfc3339_range t2 →
  str_lt (rfc3339_autosi t1) (rfc3339_autosi t2) = (t1 <? t2).
Proof.
  intros H1 H2. destruct (Z.ltb_spec t1 t2) as [Hlt|Hge].
  - by apply Is_true_true, rfc3339_autosi_mono.
  - destruct (Z.eq_dec t1 t2) as [->|]; [apply str_lt_irrefl|].
    apply str_lt_asym, Is_true_true, rfc3339_autosi_mono; done || lia.
Qed.

Lemma rfc3339_autosi_inj t1 t2 :
  rfc3339_range t1 → rfc3339_range t2 → rfc3339_autosi t1 = rfc3339_autosi t2 → t1 = t2.
Proof.
  intros H1 H2 Heq.
  pose proof (rfc3339_autosi_lt t1 t2 H1 H2) as Ha. rewrite Heq, str_lt_irrefl in Ha.
  pose proof (rfc3339_autosi_lt t2 t1 H2 H1) as Hb. rewrite Heq, str_lt_irrefl in Hb. lia.
Qed.
