(* ===== verification/Net.v ===== *)
(** * Socket addresses

    What [run_service] of [crates/daemon/src/main.rs] uses of [std::net]: reading a
    [SocketAddr] from text and printing one.  A reader takes the text that is left
    and gives a value with the rest, or nothing, and then the text is as it was. *)

From S2P Require Import Prelude.

(** ** Addresses *)

Inductive SocketAddr :=
  | V4 (octets : list Z) (port : Z)
  | V6 (segments : list Z) (port scope_id : Z).

Definition is_octet (z : Z) : Prop := (0 ≤ z < 2 ^ 8)%Z.
Definition is_u16 (z : Z) : Prop := (0 ≤ z < 2 ^ 16)%Z.
Definition addr_ok (a : SocketAddr) : Prop :=
  match a with
  | V4 octets port => length octets = 4 ∧ Forall is_octet octets ∧ is_u16 port
  | V6 segments port scope => length segments = 8 ∧ Forall is_u16 segments ∧ is_u16 port ∧
      (0 ≤ scope < 2 ^ 32)%Z
  end.

(** ** Reading *)

Definition Reader (A : Type) : Type := string → option (A * string).
#[export] Instance Reader_ret : MRet Reader := λ A a s, Some (a, s).
#[export] Instance Reader_bind : MBind Reader := λ A B k m s,
  match m s with Some (a, s') => k a s' | None => None end.
Definition read_fail {A} : Reader A := λ _, None.

Definition read_given_char (target : ascii) : Reader () := λ s,
  match s with
  | String c s' => if decide (c = target) then Some ((), s') else None
  | EmptyString => None
  end.
Definition read_separator {A} (sep : ascii) (index : nat) (inner : Reader A) : Reader A :=
  match index with O => inner | S _ => read_given_char sep;; inner end.

(** [char::to_digit]. *)
Definition to_digit (radix : Z) (c : ascii) : option Z :=
  let n := Z.of_N (N_of_ascii c) in
  let d :=
    if ((48 <=? n) && (n <=? 57))%Z then Some (n - 48)%Z
    else if ((97 <=? n) && (n <=? 122))%Z then Some (n - 87)%Z
    else if ((65 <=? n) && (n <=? 90))%Z then Some (n - 55)%Z
    else None in
  d ← d; if (d <? radix)%Z then Some d else None.

(** The digits at the front: their value, their number and the rest.  With a limit,
    one digit too many ends it; without, a value above [max]. *)
Fixpoint read_digits (radix max : Z) (max_digits : option nat) (result : Z) (digit_count : nat)
    (s : string) : option (Z * nat * string) :=
  match s with
  | EmptyString => Some (result, digit_count, EmptyString)
  | String c s' =>
      match to_digit radix c with
      | Some digit =>
          let result := (result * radix + digit)%Z in
          match max_digits with
          | Some limit =>
              if decide (limit < S digit_count) then None
              else read_digits radix max max_digits result (S digit_count) s'
          | None =>
              if decide (max < result)%Z then None
              else read_digits radix max max_digits result (S digit_count) s'
          end
      | None => Some (result, digit_count, s)
      end
  end.
Definition leading_zero (s : string) : bool :=
  match s with String c _ => bool_decide (c = "0"%char) | EmptyString => false end.
Definition read_number (radix max : Z) (max_digits : option nat) (allow_zero_prefix : bool) :
    Reader Z := λ s,
  '(result, digit_count, rest) ← read_digits radix max max_digits 0 0 s;
  if decide (digit_count = 0) then None
  else if negb allow_zero_prefix && leading_zero s && bool_decide (1 < digit_count) then None
  else if decide (max < result)%Z then None
  else Some (result, rest).

(** [n] octets, the first of index [i]. *)
Fixpoint read_octets (i n : nat) : Reader (list Z) :=
  match n with
  | O => mret []
  | S n =>
      o ← read_separator "." i (read_number 10 255 (Some 3) false);
      os ← read_octets (S i) n;
      mret (o :: os)
  end.
Definition read_ipv4_addr : Reader (list Z) := read_octets 0 4.

(** Up to [limit] groups, the first of index [i]: those that were read, and whether
    the last two are an embedded IPv4 address.  It always succeeds. *)
Fixpoint read_groups (i limit : nat) (s : string) : list Z * bool * string :=
  match limit with
  | O => ([], false, s)
  | S limit =>
      let group :=
        match read_separator ":" i (read_number 16 65535 (Some 4) true) s with
        | Some (g, s') => let '(gs, v4, rest) := read_groups (S i) limit s' in (g :: gs, v4, rest)
        | None => ([], false, s)
        end in
      match limit, read_separator ":" i read_ipv4_addr s with
      | S _, Some ([one; two; three; four], rest) => ([one * 256 + two; three * 256 + four]%Z, true, rest)
      | _, _ => group
      end
  end.
Definition read_ipv6_addr : Reader (list Z) := λ s,
  let '(head, head_ipv4, s1) := read_groups 0 8 s in
  if decide (length head = 8) then Some (head, s1)
  else if head_ipv4 : bool then None
  else
    '(_, s2) ← (read_given_char ":";; read_given_char ":") s1;
    let '(tail, _, s3) := read_groups 0 (8 - (length head + 1)) s2 in
    Some (head ++ replicate (8 - length head - length tail) 0%Z ++ tail, s3).

Definition read_port : Reader Z := read_given_char ":";; read_number 10 65535 None true.
Definition read_scope_id : Reader Z := read_given_char "%";; read_number 10 (2 ^ 32 - 1) None true.
Definition read_socket_addr_v4 : Reader SocketAddr :=
  ip ← read_ipv4_addr; port ← read_port; mret (V4 ip port).
Definition read_socket_addr_v6 : Reader SocketAddr :=
  read_given_char "[";;
  ip ← read_ipv6_addr;
  scope_id ← (λ s, match read_scope_id s with Some r => Some r | None => Some (0%Z, s) end);
  read_given_char "]";;
  port ← read_port;
  mret (V6 ip port scope_id).
Definition read_socket_addr : Reader SocketAddr := λ s,
  match read_socket_addr_v4 s with Some r => Some r | None => read_socket_addr_v6 s end.
(** [SocketAddr::from_str]. *)
Definition socket_addr_from_str (s : string) : option SocketAddr :=
  match read_socket_addr s with Some (a, EmptyString) => Some a | _ => None end.

(** ** Printing *)

(** A number without leading zeros. *)
Fixpoint width_loop (radix : Z) (fuel : nat) (n : Z) : nat :=
  match fuel with
  | O => 1
  | S fuel => if (n <? radix)%Z then 1 else S (width_loop radix fuel (n / radix))
  end.
Definition show_number (radix n : Z) : string := enc radix (width_loop radix 10 n) n.

Definition show_octets (os : list Z) : string := String.concat "." (show_number 10 <$> os).
Definition show_segments (ss : list Z) : string := String.concat ":" (show_number 16 <$> ss).

(** The first longest run of zeros, as its start and length. *)
Fixpoint zero_run (i : nat) (ss : list Z) (current longest : nat * nat) : nat * nat :=
  match ss with
  | [] => longest
  | s :: ss =>
      if decide (s = 0%Z) then
        let start := if decide (current.2 = 0) then i else current.1 in
        let current := (start, S current.2) in
        zero_run (S i) ss current (if decide (longest.2 < current.2) then current else longest)
      else zero_run (S i) ss (0, 0) longest
  end.
Definition show_ipv6 (ss : list Z) : string :=
  match ss with
  | [0; 0; 0; 0; 0; 65535; ab; cd]%Z =>
      "::ffff:" +:+ show_octets [ab / 256; ab mod 256; cd / 256; cd mod 256]%Z
  | _ =>
      let '(start, len) := zero_run 0 ss (0, 0) (0, 0) in
      if decide (1 < len) then
        show_segments (take start ss) +:+ "::" +:+ show_segments (drop (start + len) ss)
      else show_segments ss
  end.
(** [Display]. *)
Definition show_socket_addr (a : SocketAddr) : string :=
  match a with
  | V4 octets port => show_octets octets +:+ ":" +:+ show_number 10 port
  | V6 segments port scope_id =>
      "[" +:+ show_ipv6 segments +:+
      (if decide (scope_id = 0%Z) then "" else "%" +:+ show_number 10 scope_id) +:+ "]:" +:+
      show_number 10 port
  end.

Example from_str_v4 : socket_addr_from_str "127.0.0.1:08088" = Some (V4 [127; 0; 0; 1]%Z 8088).
Proof. reflexivity. Qed.
Example from_str_octal : socket_addr_from_str "127.0.0.01:8088" = None.
Proof. reflexivity. Qed.
Example from_str_port : (socket_addr_from_str "0.0.0.0:65536", socket_addr_from_str "0.0.0.0") = (None, None).
Proof. reflexivity. Qed.
Example from_str_name : socket_addr_from_str "localhost:8088" = None.
Proof. reflexivity. Qed.
Example from_str_v6 : socket_addr_from_str "[fe80::1%3]:80" = Some (V6 [65152; 0; 0; 0; 0; 0; 0; 1]%Z 80 3).
Proof. reflexivity. Qed.
Example from_str_mapped :
  socket_addr_from_str "[::FFFF:10.0.0.1]:80" = Some (V6 [0; 0; 0; 0; 0; 65535; 2560; 1]%Z 80 0).
Proof. reflexivity. Qed.
Example show_v6 : show_socket_addr (V6 [8193; 3512; 0; 0; 1; 0; 0; 1]%Z 443 0) = "[2001:db8::1:0:0:1]:443".
Proof. reflexivity. Qed.

(** ** What is printed is read *)

(** The rest does not begin with a digit. *)
Definition no_digit (radix : Z) (s : string) : Prop :=
  match s with String c _ => to_digit radix c = None | EmptyString => True end.

Section numbers.
Context (radix : Z) (Hradix : (2 ≤ radix ≤ 16)%Z).

Lemma to_digit_char d : (0 ≤ d < radix)%Z → to_digit radix (digit_char d) = Some d.
Proof.
  intros Hd. unfold to_digit. rewrite digit_char_N by lia. destruct (Z.ltb_spec d 10).
  - rewrite (proj2 (andb_true_iff _ _)) by (split; apply Z.leb_le; lia). simpl.
    destruct (Z.ltb_spec (48 + d - 48) radix); [f_equal; lia|lia].
  - rewrite (proj2 (Z.leb_gt (87 + d) 57)) by lia. rewrite andb_false_r.
    rewrite (proj2 (andb_true_iff _ _)) by (split; apply Z.leb_le; lia). simpl.
    destruct (Z.ltb_spec (87 + d - 87) radix); [f_equal; lia|lia].
Qed.

Lemma read_digits_enc max limit (w : nat) n acc count s :
  (0 ≤ n < radix ^ Z.of_nat w)%Z → (0 ≤ acc)%Z → no_digit radix s →
  match limit with
  | Some l => count + w ≤ l
  | None => (acc * radix ^ Z.of_nat w + n ≤ max)%Z
  end →
  read_digits radix max limit acc count (enc radix w n +:+ s) =
    Some ((acc * radix ^ Z.of_nat w + n)%Z, count + w, s).
Proof.
  revert n acc count. induction w as [|w IH]; intros n acc count Hn Hacc Hs Hlim.
  - assert (n = 0%Z) as -> by (simpl in Hn; lia). replace (acc * radix ^ Z.of_nat 0 + 0)%Z with acc by (simpl; lia).
    rewrite Nat.add_0_r. simpl. destruct s as [|c s]; simpl in *; [done|]. by rewrite Hs.
  - assert (0 < radix ^ Z.of_nat w)%Z as Hpow by (apply Z.pow_pos_nonneg; lia).
    rewrite Nat2Z.inj_succ, Z.pow_succ_r in * by lia.
    assert (0 ≤ n / radix ^ Z.of_nat w < radix)%Z as Hd.
    { split; [apply Z.div_pos; lia|]. apply Z.div_lt_upper_bound; lia. }
    cbn [enc]. rewrite string_app_cons. cbn [read_digits]. rewrite to_digit_char by done. cbv zeta.
    pose proof (Z.mod_pos_bound n _ Hpow) as Hm.
    pose proof (Z.div_mod n (radix ^ Z.of_nat w) ltac:(lia)) as Hdm.
    assert ((acc * radix + n / radix ^ Z.of_nat w) * radix ^ Z.of_nat w + n mod radix ^ Z.of_nat w =
      acc * (radix * radix ^ Z.of_nat w) + n)%Z as Hval by nia.
    destruct limit as [l|]; (case_decide; [exfalso|]).
    + lia.
    + rewrite IH; [|done|nia|done|lia]. by rewrite Hval, Nat.add_succ_comm.
    + nia.
    + rewrite IH; [|done|nia|done|lia]. by rewrite Hval, Nat.add_succ_comm.
Qed.

Lemma width_loop_spec fuel n : (0 ≤ n < radix ^ Z.of_nat fuel)%Z →
  (n < radix ^ Z.of_nat (width_loop radix fuel n))%Z ∧
  (1 < width_loop radix fuel n → (radix ^ Z.of_nat (width_loop radix fuel n - 1) ≤ n)%Z).
Proof.
  revert n. induction fuel as [|fuel IH]; intros n Hn; cbn [width_loop].
  { simpl in *. lia. }
  destruct (Z.ltb_spec n radix) as [Hlt|Hge].
  { split; [|lia]. change (Z.of_nat 1) with 1%Z. rewrite Z.pow_1_r. done. }
  rewrite Nat2Z.inj_succ, Z.pow_succ_r in Hn by lia.
  destruct (IH (n / radix)%Z) as [Hup Hlow].
  { split; [apply Z.div_pos; lia|]. apply Z.div_lt_upper_bound; lia. }
  set (k := width_loop radix fuel (n / radix)) in *.
  pose proof (Z.div_mod n radix ltac:(lia)). pose proof (Z.mod_pos_bound n radix ltac:(lia)).
  split.
  - rewrite Nat2Z.inj_succ, Z.pow_succ_r by lia. nia.
  - intros _. replace (S k - 1) with k by lia. destruct (decide (1 < k)) as [Hk|Hk].
    + specialize (Hlow Hk). replace (Z.of_nat k) with (Z.succ (Z.of_nat (k - 1))) by lia.
      rewrite Z.pow_succ_r by lia. nia.
    + destruct k as [|[|k]]; [simpl; lia| |lia]. change (Z.of_nat 1) with 1%Z. by rewrite Z.pow_1_r.
Qed.

Lemma width_pos n : 0 < width_loop radix 10 n.
Proof. cbn [width_loop]. destruct (n <? radix)%Z; lia. Qed.
Lemma width_le n (k : nat) : (0 ≤ n < radix ^ 10)%Z → (n < radix ^ Z.of_nat k)%Z → 0 < k →
  width_loop radix 10 n ≤ k.
Proof.
  intros Hn Hk Hpos. destruct (width_loop_spec 10 n Hn) as [_ Hlow].
  destruct (decide (width_loop radix 10 n ≤ k)) as [|Hgt]; [done|exfalso].
  specialize (Hlow ltac:(lia)).
  assert (radix ^ Z.of_nat k ≤ radix ^ Z.of_nat (width_loop radix 10 n - 1))%Z
    by (apply Z.pow_le_mono_r; lia).
  lia.
Qed.

(** Only zero itself begins with a zero. *)
Lemma show_leading_zero n s : (0 ≤ n < radix ^ 10)%Z → 1 < width_loop radix 10 n →
  leading_zero (show_number radix n +:+ s) = false.
Proof.
  intros Hn Hw. destruct (width_loop_spec 10 n Hn) as [Hup Hlow]. specialize (Hlow Hw).
  unfold show_number. destruct (width_loop radix 10 n) as [|k]; [lia|]. cbn [enc].
  rewrite string_app_cons. cbn [leading_zero]. apply bool_decide_eq_false. intros Heq.
  replace (S k - 1) with k in Hlow by lia. rewrite Nat2Z.inj_succ, Z.pow_succ_r in Hup by lia.
  assert (0 < radix ^ Z.of_nat k)%Z by (apply Z.pow_pos_nonneg; lia).
  assert (1 ≤ n / radix ^ Z.of_nat k)%Z by (apply Z.div_le_lower_bound; lia).
  assert (n / radix ^ Z.of_nat k < radix)%Z by (apply Z.div_lt_upper_bound; lia).
  pose proof (digit_char_lt 0 (n / radix ^ Z.of_nat k) ltac:(lia) ltac:(lia) ltac:(lia)) as Hlt.
  rewrite Heq in Hlt. by vm_compute in Hlt.
Qed.

Lemma read_number_show max limit zp n s :
  (0 ≤ n ≤ max)%Z → (n < radix ^ 10)%Z → no_digit radix s →
  match limit with Some l => width_loop radix 10 n ≤ l | None => True end →
  read_number radix max limit zp (show_number radix n +:+ s) = Some (n, s).
Proof.
  intros Hn Hn10 Hs Hlim. destruct (width_loop_spec 10 n ltac:(simpl; lia)) as [Hup _].
  assert (read_digits radix max limit 0 0 (show_number radix n +:+ s) =
    Some (n, width_loop radix 10 n, s)) as Hd.
  { unfold show_number. rewrite read_digits_enc; [|lia|done|done|destruct limit; lia].
    by rewrite Z.mul_0_l, Z.add_0_l, Nat.add_0_l. }
  unfold read_number. rewrite Hd. cbn [mbind option_bind].
  assert (0 < width_loop radix 10 n) by apply width_pos.
  case_decide; [lia|]. rewrite (decide_False (P := (max < n)%Z)) by lia.
  destruct (decide (1 < width_loop radix 10 n)) as [Hw|Hw].
  - rewrite show_leading_zero; [|lia|done]. by rewrite andb_false_r.
  - rewrite (bool_decide_eq_false_2 (1 < _)) by done. by rewrite andb_false_r.
Qed.
End numbers.

(** A separated list, after its first element. *)
Fixpoint separated (sep : ascii) (radix : Z) (ns : list Z) : string :=
  match ns with
  | [] => ""
  | n :: ns => String sep (show_number radix n +:+ separated sep radix ns)
  end.
Lemma concat_separated sep radix n ns :
  String.concat (String sep "") (show_number radix <$> n :: ns) =
  show_number radix n +:+ separated sep radix ns.
Proof.
  revert n. induction ns as [|m ns IH]; intros n; [by rewrite string_app_nil_r|].
  change (String.concat (String sep "") (show_number radix <$> n :: m :: ns)) with
    (show_number radix n +:+ String sep (String.concat (String sep "") (show_number radix <$> m :: ns))).
  by rewrite IH.
Qed.
Lemma no_digit_separated sep radix ns s :
  to_digit radix sep = None → no_digit radix s → no_digit radix (separated sep radix ns +:+ s).
Proof. by destruct ns. Qed.

Lemma read_char c s : read_given_char c (String c s) = Some ((), s).
Proof. cbn [read_given_char]. by rewrite decide_True. Qed.
Lemma read_octet o s : is_octet o → no_digit 10 s →
  read_number 10 255 (Some 3) false (show_number 10 o +:+ s) = Some (o, s).
Proof.
  intros Ho Hs. unfold is_octet in Ho. apply read_number_show; [lia..|done|].
  apply width_le; simpl; lia.
Qed.
Lemma read_octets_separated os i s : Forall is_octet os → no_digit 10 s →
  read_octets (S i) (length os) (separated "." 10 os +:+ s) = Some (os, s).
Proof.
  intros Hos Hs. revert i. induction Hos as [|o os Ho Hos IH]; intros i; [done|].
  cbn [length read_octets separated read_separator]. unfold mbind, Reader_bind.
  rewrite string_app_cons, read_char, string_app_assoc.
  rewrite read_octet by (by auto using no_digit_separated). by rewrite IH.
Qed.
Lemma read_ipv4_show os s : length os = 4 → Forall is_octet os → no_digit 10 s →
  read_ipv4_addr (show_octets os +:+ s) = Some (os, s).
Proof.
  intros Hlen Hos Hs. destruct os as [|o os]; [done|]. unfold show_octets.
  rewrite concat_separated, string_app_assoc. unfold read_ipv4_addr.
  rewrite <- Hlen. cbn [length read_octets read_separator]. unfold mbind, Reader_bind.
  apply Forall_cons in Hos as [Ho Hos].
  rewrite read_octet by (by auto using no_digit_separated).
  by rewrite read_octets_separated.
Qed.
Lemma read_port_show p s : is_u16 p → no_digit 10 s →
  read_port (":" +:+ show_number 10 p +:+ s) = Some (p, s).
Proof.
  intros Hp Hs. unfold is_u16 in Hp. unfold read_port, mbind, Reader_bind.
  rewrite string_app_cons, read_char, string_app_nil_l. apply read_number_show; [lia..|done|done].
Qed.

Lemma socket_addr_v4_round_trip os p :
  addr_ok (V4 os p) → socket_addr_from_str (show_socket_addr (V4 os p)) = Some (V4 os p).
Proof.
  intros (Hlen & Hos & Hp). unfold socket_addr_from_str, read_socket_addr, read_socket_addr_v4.
  cbn [show_socket_addr]. unfold mbind at 1, Reader_bind at 1. rewrite read_ipv4_show by done.
  unfold mbind, Reader_bind. rewrite <- (string_app_nil_r (show_number 10 p)).
  by rewrite read_port_show.
Qed.
