(* ===== verification/World.v ===== *)
(** * The process and its environment

    Every operation of the program is a state transformer over a [World]: the
    file system, the metadata database, the rollback gate, the requests sent to
    AnkiWeb and the log, together with counters into the oracles of [Env].  An
    oracle answers the [n]-th clock reading, the [n]-th random identifier, and
    says whether the [n]-th interaction with a disk or a database fails and how
    much of it happened before it failed.  Theorems quantify over all oracles,
    hence over every schedule of faults.

    Operations return [Ok], an [anyhow] error or a panic; the calculus [wp] at the
    end of the file relates an operation, a start state and a predicate on
    outcomes. *)

From S2P Require Import Prelude Calendar.

(** ** Results *)

(** [anyhow::Error]: its messages, outermost context first. *)
Abbreviation Error := (list string).

Inductive Res (A : Type) : Type :=
  | Ok (a : A)
  | Err (e : Error)
  | Panic (msg : string).
Arguments Ok {A} a.
Arguments Err {A} e.
Arguments Panic {A} msg.

(** [Error::to_string]: the outermost message. *)
Definition error_string (e : Error) : string := default "" (head e).

(** ** Paths *)

(** A [PathBuf] as its components; the root directory is the component ["/"].
    Pieces ["."] and repeated slashes, which do not change what a path names, are
    dropped. *)
Abbreviation Path := (list string).

Fixpoint split_on (c : Ascii.ascii) (s : string) : list string :=
  match s with
  | EmptyString => [""]
  | String a s =>
      match split_on c s with
      | [] => [String a ""]
      | w :: ws => if decide (a = c) then "" :: w :: ws else String a w :: ws
      end
  end.

(** The components of a relative path: empty and ["."] pieces disappear. *)
Definition components (s : string) : Path :=
  filter (λ w, w ≠ "" ∧ w ≠ ".") (split_on "/" s).

(** [Path::join]: an absolute argument replaces the path. *)
Definition join (p : Path) (s : string) : Path :=
  if starts_with "/" s then "/" :: components s else p ++ components s.

(** [Path::display], of a path written without such pieces. *)
Definition display (p : Path) : string :=
  match p with
  | "/" :: p => "/" +:+ String.concat "/" p
  | p => String.concat "/" p
  end.

(** A file name: one component. *)
Definition is_name (s : string) : Prop := s ≠ "" ∧ s ≠ "." ∧ has_char "/" s = false.
#[export] Instance is_name_dec s : Decision (is_name s).
Proof. unfold is_name. apply _. Defined.

Lemma split_on_name c s : has_char c s = false → split_on c s = [s].
Proof.
  induction s as [|a s IH]; simpl; [done|].
  rewrite orb_false_iff, bool_decide_eq_false. intros [Hne ->%IH]. by rewrite decide_False.
Qed.

Lemma join_name p s : is_name s → join p s = p ++ [s].
Proof.
  intros (Hne & Hdot & Hsl). unfold join, components.
  rewrite (split_on_name _ _ Hsl). destruct s as [|a s]; [done|].
  assert (starts_with "/" (String a s) = false) as ->.
  { simpl in Hsl. apply orb_false_iff in Hsl as [?%bool_decide_eq_false _].
    unfold starts_with; simpl. rewrite decide_False by done. by apply bool_decide_eq_false, is_Some_None. }
  by rewrite filter_cons_True.
Qed.

(** ** File system *)

Inductive Node := Dir | File (content : bytes).
#[export] Instance node_eq_dec : EqDecision Node.
Proof. solve_decision. Defined.

Abbreviation FS := (gmap Path Node).

(** The directory that holds a path exists; the topmost component needs none. *)
Definition parent_ok (fs : FS) (p : Path) : bool :=
  match removelast p with
  | [] => true
  | q => bool_decide (fs !! q = Some Dir)
  end.

(** The proper prefixes of a path and the path itself, shortest first. *)
Fixpoint prefixes (p : Path) : list Path :=
  match p with
  | [] => []
  | c :: p => [c] :: (cons c <$> prefixes p)
  end.

(** [fs::create_dir_all] on a directory tree without faults. *)
Definition mkdirs (fs : FS) (p : Path) : option FS :=
  foldl (λ acc q,
    fs ← acc;
    match fs !! q with
    | Some (File _) => None
    | Some Dir => Some fs
    | None => Some (<[q := Dir]> fs)
    end) (Some fs) (prefixes p).

(** [p] itself and everything below it. *)
Definition below (p q : Path) : Prop := p `prefix_of` q.
#[export] Instance below_dec p q : Decision (below p q).
Proof. unfold below. apply _. Defined.

(** ** HTTP messages to AnkiWeb, and log events *)

Record HttpRequest := {
  req_url : string;
  req_headers : list (string * string);
  req_body : bytes;
}.

(** A response as the client sees it: reading the body can fail. *)
Record HttpResponse := {
  resp_status : Z;
  resp_headers : list (string * string);
  resp_body : string + bytes;
}.

Inductive Level := Debug | Info | Warn | Error_.
(** A [tracing] event: its level, its message and the values it records. *)
Record LogEvent := {
  log_level : Level;
  log_msg : string;
  log_fields : list (string * string);
}.

(** ** Oracles *)

Abbreviation Uuid := N (only parsing).

(** A failing interaction: [f_done] says how much of it took effect. *)
Record Fault := { f_done : nat; f_msg : string }.
#[export] Instance fault_eq_dec : EqDecision Fault.
Proof. solve_decision. Defined.

Class Env := {
  (** the [n]-th reading of [Utc::now()] *)
  clock : nat → DateTime;
  (** the [n]-th [Uuid::new_v4()] *)
  fresh_uuid : nat → Uuid;
  (** the fate of the [n]-th interaction with a disk or a database *)
  fault : nat → option Fault;
  (** the [n]-th 32-bit random number *)
  random_u32 : nat → Z;
  (** the answer to the [n]-th HTTP request: a transport error or a response *)
  http_answer : nat → HttpRequest → string + HttpResponse;
  (** milliseconds between [Instant::now()] and its [n]-th [elapsed()] *)
  elapsed_ms : nat → Z;
}.

(** ** State *)

(** [w_sent] is what was handed to the HTTP client. *)
Record World (S : Type) := {
  w_fs : FS;
  w_db : S;
  w_gate : option DateTime;
  w_sent : list HttpRequest;
  w_log : list LogEvent;
  w_clock : nat;
  w_uuid : nat;
  w_io : nat;
  w_random : nat;
  w_elapsed : nat;
}.
Arguments w_fs {S} w.
Arguments w_db {S} w.
Arguments w_gate {S} w.
Arguments w_sent {S} w.
Arguments w_log {S} w.
Arguments w_clock {S} w.
Arguments w_uuid {S} w.
Arguments w_io {S} w.
Arguments w_random {S} w.
Arguments w_elapsed {S} w.

Section setters.
Context {S : Type}.
Implicit Types w : World S.
Definition set_fs (fs : FS) w : World S :=
  {| w_fs := fs; w_db := w_db w; w_gate := w_gate w; w_sent := w_sent w; w_log := w_log w;
     w_clock := w_clock w; w_uuid := w_uuid w; w_io := w_io w; w_random := w_random w;
     w_elapsed := w_elapsed w |}.
Definition set_db (db : S) w : World S :=
  {| w_fs := w_fs w; w_db := db; w_gate := w_gate w; w_sent := w_sent w; w_log := w_log w;
     w_clock := w_clock w; w_uuid := w_uuid w; w_io := w_io w; w_random := w_random w;
     w_elapsed := w_elapsed w |}.
Definition set_gate (g : option DateTime) w : World S :=
  {| w_fs := w_fs w; w_db := w_db w; w_gate := g; w_sent := w_sent w; w_log := w_log w;
     w_clock := w_clock w; w_uuid := w_uuid w; w_io := w_io w; w_random := w_random w;
     w_elapsed := w_elapsed w |}.
Definition add_sent (r : HttpRequest) w : World S :=
  {| w_fs := w_fs w; w_db := w_db w; w_gate := w_gate w; w_sent := w_sent w ++ [r];
     w_log := w_log w; w_clock := w_clock w; w_uuid := w_uuid w; w_io := w_io w;
     w_random := w_random w; w_elapsed := w_elapsed w |}.
Definition add_log (l : LogEvent) w : World S :=
  {| w_fs := w_fs w; w_db := w_db w; w_gate := w_gate w; w_sent := w_sent w;
     w_log := w_log w ++ [l]; w_clock := w_clock w; w_uuid := w_uuid w; w_io := w_io w;
     w_random := w_random w; w_elapsed := w_elapsed w |}.
Definition tick_clock w : World S :=
  {| w_fs := w_fs w; w_db := w_db w; w_gate := w_gate w; w_sent := w_sent w; w_log := w_log w;
     w_clock := Datatypes.S (w_clock w); w_uuid := w_uuid w; w_io := w_io w;
     w_random := w_random w; w_elapsed := w_elapsed w |}.
Definition tick_uuid w : World S :=
  {| w_fs := w_fs w; w_db := w_db w; w_gate := w_gate w; w_sent := w_sent w; w_log := w_log w;
     w_clock := w_clock w; w_uuid := Datatypes.S (w_uuid w); w_io := w_io w;
     w_random := w_random w; w_elapsed := w_elapsed w |}.
Definition tick_io w : World S :=
  {| w_fs := w_fs w; w_db := w_db w; w_gate := w_gate w; w_sent := w_sent w; w_log := w_log w;
     w_clock := w_clock w; w_uuid := w_uuid w; w_io := Datatypes.S (w_io w);
     w_random := w_random w; w_elapsed := w_elapsed w |}.
Definition tick_random w : World S :=
  {| w_fs := w_fs w; w_db := w_db w; w_gate := w_gate w; w_sent := w_sent w; w_log := w_log w;
     w_clock := w_clock w; w_uuid := w_uuid w; w_io := w_io w;
     w_random := Datatypes.S (w_random w); w_elapsed := w_elapsed w |}.
Definition tick_elapsed w : World S :=
  {| w_fs := w_fs w; w_db := w_db w; w_gate := w_gate w; w_sent := w_sent w; w_log := w_log w;
     w_clock := w_clock w; w_uuid := w_uuid w; w_io := w_io w; w_random := w_random w;
     w_elapsed := Datatypes.S (w_elapsed w) |}.
End setters.

(** ** The monad of operations *)

Definition M (S A : Type) : Type := World S → Res A * World S.

#[export] Instance M_ret S : MRet (M S) := λ A a w, (Ok a, w).
#[export] Instance M_bind S : MBind (M S) := λ A B k m w,
  match m w with
  | (Ok a, w) => k a w
  | (Err e, w) => (Err e, w)
  | (Panic s, w) => (Panic s, w)
  end.

Section ops.
Context {S : Type}.

(** [return Err(e)], [bail!], [anyhow!]. *)
Definition fail {A} (e : Error) : M S A := λ w, (Err e, w).
Definition panic {A} (msg : string) : M S A := λ w, (Panic msg, w).
Definition gets {A} (f : World S → A) : M S A := λ w, (Ok (f w), w).
Definition modify (f : World S → World S) : M S () := λ w, (Ok (), f w).

(** [.context(msg)] and [.with_context(..)]. *)
Definition context {A} (msg : string) (m : M S A) : M S A := λ w,
  match m w with
  | (Err e, w) => (Err (msg :: e), w)
  | r => r
  end.
(** The result of a fallible call as a value, for a [match] or [map_err]. *)
Definition attempt {A} (m : M S A) : M S (Error + A) := λ w,
  match m w with
  | (Ok a, w) => (Ok (inr a), w)
  | (Err e, w) => (Ok (inl e), w)
  | (Panic s, w) => (Panic s, w)
  end.
(** [ok_or_else] and [?] on an option. *)
Definition from_option {A} (e : Error) (o : option A) : M S A :=
  match o with Some a => mret a | None => fail e end.
Definition log (l : Level) (msg : string) (fields : list (string * string)) : M S () :=
  modify (add_log {| log_level := l; log_msg := msg; log_fields := fields |}).

Context `{!Env}.

(** [Utc::now()]. *)
Definition now : M S DateTime := λ w, (Ok (clock (w_clock w)), tick_clock w).
(** [Uuid::new_v4()]. *)
Definition new_v4 : M S Uuid := λ w, (Ok (fresh_uuid (w_uuid w)), tick_uuid w).
(** The fate of the next interaction. *)
Definition io_fate : M S (option Fault) := λ w, (Ok (fault (w_io w)), tick_io w).
(** An interaction that either happens or fails without effect. *)
Definition io_step : M S () :=
  f ← io_fate; match f with Some f => fail [f_msg f] | None => mret () end.

(** *** [std::fs] *)

Definition create_dir_all (p : Path) : M S () :=
  f ← io_fate;
  fs ← gets w_fs;
  match f with
  | None =>
      match mkdirs fs p with
      | Some fs => modify (set_fs fs)
      | None => fail ["Not a directory (os error 20)"]
      end
  | Some f =>
      (* the directories created before the failure stay *)
      match mkdirs fs (take (f_done f) p) with
      | Some fs => modify (set_fs fs);; fail [f_msg f]
      | None => fail [f_msg f]
      end
  end.

(** [fs::write]: create or truncate, then write. *)
Definition fs_write (p : Path) (content : bytes) : M S () :=
  f ← io_fate;
  fs ← gets w_fs;
  if negb (parent_ok fs p) then fail ["No such file or directory (os error 2)"]
  else if bool_decide (fs !! p = Some Dir) then fail ["Is a directory (os error 21)"]
  else match f with
  | None => modify (set_fs (<[p := File content]> fs))
  | Some f =>
      match f_done f with
      | O => fail [f_msg f]
      | Datatypes.S k => modify (set_fs (<[p := File (take k content)]> fs));; fail [f_msg f]
      end
  end.

(** [fs::read]. *)
Definition fs_read (p : Path) : M S bytes :=
  io_step;;
  fs ← gets w_fs;
  match fs !! p with
  | Some (File b) => mret b
  | Some Dir => fail ["Is a directory (os error 21)"]
  | None => fail ["No such file or directory (os error 2)"]
  end.

(** [fs::metadata(p)?.len()], a [u64].  The length of a directory depends on the
    file system; the program asks only for the file it has just written. *)
Definition fs_len (p : Path) : M S Z :=
  io_step;;
  fs ← gets w_fs;
  match fs !! p with
  | Some (File b) => mret (Z.of_nat (length b))
  | Some Dir => mret 0%Z
  | None => fail ["No such file or directory (os error 2)"]
  end.

(** [fs::rename] of a file: replaces the destination in one step. *)
Definition fs_rename (p q : Path) : M S () :=
  io_step;;
  fs ← gets w_fs;
  match fs !! p with
  | Some (File b) =>
      if negb (parent_ok fs q) then fail ["No such file or directory (os error 2)"]
      else if bool_decide (fs !! q = Some Dir) then fail ["Is a directory (os error 21)"]
      else modify (set_fs (<[q := File b]> (delete p fs)))
  | Some Dir => fail ["Not a directory (os error 20)"]
  | None => fail ["No such file or directory (os error 2)"]
  end.

(** [Path::exists]. *)
(** [Path::exists] answers [false] when it cannot tell. *)
Definition fs_exists (p : Path) : M S bool :=
  f ← io_fate;
  fs ← gets w_fs;
  mret (bool_decide (f = None ∧ is_Some (fs !! p))).

(** [fs::remove_dir_all]: a failure leaves part of the tree. *)
Definition fs_remove_dir_all (p : Path) : M S () :=
  f ← io_fate;
  fs ← gets w_fs;
  if negb (bool_decide (fs !! p = Some Dir)) then fail ["Not a directory (os error 20)"]
  else match f with
  | None => modify (set_fs (filter (λ kv, ¬ below p kv.1) fs))
  | Some f =>
      let doomed := take (f_done f) (filter (λ q, below p q ∧ p ≠ q) (map_to_list fs).*1) in
      modify (set_fs (filter (λ kv, kv.1 ∉ doomed) fs));; fail [f_msg f]
  end.
End ops.

(** ** Weakest preconditions *)

(** [wp m Q w]: running [m] in [w] ends in an outcome that satisfies [Q]. *)
Definition wp {S A} (m : M S A) (Q : Res A → World S → Prop) (w : World S) : Prop :=
  Q (m w).1 (m w).2.

Lemma wp_run {S A} (m : M S A) (Q : Res A → World S → Prop) w r w' :
  wp m Q w → m w = (r, w') → Q r w'.
Proof. unfold wp. intros H Heq. by rewrite Heq in H. Qed.
(** What a specification says of one run. *)
Tactic Notation "run_spec" tactic3(t) "in" hyp(H) "as" simple_intropattern(p) :=
  eapply wp_run in H; [|solve [t]]; cbn beta in H; destruct H as p.

(** No interaction fails. *)
Definition fault_free `{!Env} : Prop := ∀ n, fault n = None.

(** What a bind asks of its first operation. *)
Definition bind_post {S A B} (k : A → M S B) (Q : Res B → World S → Prop) :
    Res A → World S → Prop := λ r w,
  match r with
  | Ok a => wp (k a) Q w
  | Err e => Q (Err e) w
  | Panic s => Q (Panic s) w
  end.

Section wp_rules.
Context {S : Type}.
Implicit Types w : World S.

Lemma wp_eq {A} (m : M S A) Q w : wp m Q w ↔ Q (m w).1 (m w).2.
Proof. done. Qed.

Lemma wp_mono {A} (m : M S A) (P Q : Res A → World S → Prop) w :
  wp m P w → (∀ r w', P r w' → Q r w') → wp m Q w.
Proof. unfold wp. auto. Qed.

Lemma wp_and {A} (m : M S A) (P Q : Res A → World S → Prop) w :
  wp m P w → wp m Q w → wp m (λ r w', P r w' ∧ Q r w') w.
Proof. unfold wp. auto. Qed.

Lemma wp_ret {A} (a : A) Q w : Q (Ok a) w → wp (mret a : M S A) Q w.
Proof. done. Qed.

Lemma wp_bind {A B} (m : M S A) (k : A → M S B) Q w :
  wp m (bind_post k Q) w → wp (m ≫= k) Q w.
Proof. unfold wp, bind_post, mbind, M_bind. destruct (m w) as [[] ?]; done. Qed.

Lemma wp_bind_inv {A B} (m : M S A) (k : A → M S B) Q w :
  wp (m ≫= k) Q w → wp m (bind_post k Q) w.
Proof. unfold wp, bind_post, mbind, M_bind. destruct (m w) as [[] ?]; done. Qed.

Lemma wp_bind_assoc {A B C} (m : M S A) (f : A → M S B) (g : B → M S C) Q w :
  wp ((m ≫= f) ≫= g) Q w → wp (m ≫= λ a, f a ≫= g) Q w.
Proof. unfold wp, mbind, M_bind. destruct (m w) as [[] ?]; done. Qed.

(** Composition of a specification with a continuation. *)
Lemma wp_bind_spec {A B} (m : M S A) (k : A → M S B) (P : Res A → World S → Prop) Q w :
  wp m P w → (∀ r w', P r w' → bind_post k Q r w') → wp (m ≫= k) Q w.
Proof. intros Hm Hk. by eapply wp_bind, wp_mono. Qed.

Lemma wp_fail {A} e (Q : Res A → World S → Prop) w : Q (Err e) w → wp (fail e) Q w.
Proof. done. Qed.
Lemma wp_panic {A} e (Q : Res A → World S → Prop) w : Q (Panic e) w → wp (panic e) Q w.
Proof. done. Qed.
Lemma wp_gets {A} (f : World S → A) (Q : Res A → World S → Prop) w :
  Q (Ok (f w)) w → wp (gets f) Q w.
Proof. done. Qed.
Lemma wp_modify f (Q : Res () → World S → Prop) w : Q (Ok ()) (f w) → wp (modify f) Q w.
Proof. done. Qed.
Lemma wp_log l msg fs (Q : Res () → World S → Prop) w :
  Q (Ok ()) (add_log {| log_level := l; log_msg := msg; log_fields := fs |} w) →
  wp (log l msg fs) Q w.
Proof. done. Qed.
Lemma wp_context {A} msg (m : M S A) (Q : Res A → World S → Prop) w :
  wp m (λ r w', match r with Err e => Q (Err (msg :: e)) w' | r => Q r w' end) w →
  wp (context msg m) Q w.
Proof. unfold wp, context. destruct (m w) as [[] ?]; done. Qed.
Lemma wp_attempt {A} (m : M S A) (Q : Res (Error + A) → World S → Prop) w :
  wp m (λ r w', match r with
                | Ok a => Q (Ok (inr a)) w'
                | Err e => Q (Ok (inl e)) w'
                | Panic s => Q (Panic s) w'
                end) w →
  wp (attempt m) Q w.
Proof. unfold wp, attempt. destruct (m w) as [[] ?]; done. Qed.
Lemma wp_from_option {A} e (o : option A) (Q : Res A → World S → Prop) w :
  match o with Some a => Q (Ok a) w | None => Q (Err e) w end →
  wp (from_option e o) Q w.
Proof. by destruct o. Qed.

Context `{!Env}.
Lemma wp_now (Q : Res DateTime → World S → Prop) w :
  Q (Ok (clock (w_clock w))) (tick_clock w) → wp now Q w.
Proof. done. Qed.
Lemma wp_new_v4 (Q : Res Uuid → World S → Prop) w :
  Q (Ok (fresh_uuid (w_uuid w))) (tick_uuid w) → wp new_v4 Q w.
Proof. done. Qed.
Lemma wp_io_fate (Q : Res (option Fault) → World S → Prop) w :
  Q (Ok (fault (w_io w))) (tick_io w) → wp io_fate Q w.
Proof. done. Qed.
Lemma wp_io_step (Q : Res () → World S → Prop) w :
  match fault (w_io w) with
  | Some f => Q (Err [f_msg f]) (tick_io w)
  | None => Q (Ok ()) (tick_io w)
  end → wp io_step Q w.
Proof. unfold wp, io_step, mbind, M_bind, io_fate. by destruct (fault _). Qed.
End wp_rules.

(** One step of symbolic execution. *)
Ltac wp_step :=
  lazymatch goal with
  | |- wp (mbind _ _) _ _ => apply wp_bind; cbn beta
  | |- wp (mret _) _ _ => apply wp_ret
  | |- wp (fail _) _ _ => apply wp_fail
  | |- wp (panic _) _ _ => apply wp_panic
  | |- wp (gets _) _ _ => apply wp_gets
  | |- wp (modify _) _ _ => apply wp_modify
  | |- wp (log _ _ _) _ _ => apply wp_log
  | |- wp (context _ _) _ _ => apply wp_context
  | |- wp (attempt _) _ _ => apply wp_attempt
  | |- wp (from_option _ _) _ _ => apply wp_from_option
  | |- wp now _ _ => apply wp_now
  | |- wp new_v4 _ _ => apply wp_new_v4
  | |- wp io_fate _ _ => apply wp_io_fate
  | |- wp io_step _ _ => apply wp_io_step
  | |- bind_post _ _ _ _ => cbn [bind_post]
  end.
Ltac wp_steps := repeat wp_step.

(** ** Operations that only read *)

(** The state is unchanged but for the number of interactions. *)
Definition io_only {S} (w w' : World S) : Prop :=
  w_fs w' = w_fs w ∧ w_db w' = w_db w ∧ w_gate w' = w_gate w ∧ w_sent w' = w_sent w ∧
  w_log w' = w_log w ∧ w_clock w' = w_clock w ∧ w_uuid w' = w_uuid w ∧
  w_random w' = w_random w ∧ w_elapsed w' = w_elapsed w.
#[export] Instance io_only_preorder {S} : PreOrder (@io_only S).
Proof.
  split; [by intros w; repeat split|].
  intros w1 w2 w3 (?&?&?&?&?&?&?&?&?) (?&?&?&?&?&?&?&?&?). repeat split; congruence.
Qed.
Lemma io_only_refl {S} (w : World S) : io_only w w.
Proof. done. Qed.
Lemma io_only_tick {S} (w : World S) : io_only w (tick_io w).
Proof. by repeat split. Qed.
#[export] Hint Resolve io_only_refl io_only_tick : backup.

(** ** Specifications of the file operations *)

Lemma set_fs_id {S} (w : World S) : set_fs (w_fs w) w = w.
Proof. by destruct w. Qed.
Lemma set_fs_tick {S} (w : World S) : set_fs (w_fs w) (tick_io w) = tick_io w.
Proof. by destruct w. Qed.
Lemma set_db_id {S} (w : World S) : set_db (w_db w) w = w.
Proof. by destruct w. Qed.

(** [fs'] has every node of [fs], plus directories. *)
Definition only_adds_dirs (fs fs' : FS) : Prop :=
  ∀ q, fs' !! q = fs !! q ∨ (fs !! q = None ∧ fs' !! q = Some Dir).

Lemma only_adds_dirs_refl fs : only_adds_dirs fs fs.
Proof. intros q. by left. Qed.
Lemma only_adds_dirs_trans fs1 fs2 fs3 :
  only_adds_dirs fs1 fs2 → only_adds_dirs fs2 fs3 → only_adds_dirs fs1 fs3.
Proof.
  intros H1 H2 q. destruct (H2 q) as [->|[Hn ->]]; [apply H1|]. right. split; [|done].
  destruct (H1 q) as [<-|[? ?]]; done.
Qed.
Lemma only_adds_dirs_lookup fs fs' q n :
  only_adds_dirs fs fs' → fs !! q = Some n → fs' !! q = Some n.
Proof. intros H Hq. destruct (H q) as [->|[? ?]]; congruence. Qed.
#[export] Hint Resolve only_adds_dirs_refl only_adds_dirs_lookup : backup.

Section mkdirs.
Let step (acc : option FS) (q : Path) : option FS :=
  fs ← acc;
  match fs !! q with
  | Some (File _) => None
  | Some Dir => Some fs
  | None => Some (<[q := Dir]> fs)
  end.

Lemma mkdirs_step_None ps : foldl step None ps = None.
Proof. induction ps; simpl; auto. Qed.

Lemma mkdirs_fold_spec ps fs fs' :
  foldl step (Some fs) ps = Some fs' →
  only_adds_dirs fs fs' ∧ (∀ q, q ∈ ps → fs' !! q = Some Dir) ∧
  (∀ q, q ∉ ps → fs' !! q = fs !! q).
Proof.
  revert fs. induction ps as [|q ps IH]; intros fs; simpl.
  { intros [= ->]. split_and!; [apply only_adds_dirs_refl| |done]. by intros q ?%elem_of_nil. }
  destruct (fs !! q) as [[|]|] eqn:Hq; simpl.
  - intros (Ha & Hd & Hn)%IH. split_and!; [done| |].
    + intros q' [->|?]%elem_of_cons; eauto using only_adds_dirs_lookup.
    + intros q' [_ ?]%not_elem_of_cons. auto.
  - by rewrite mkdirs_step_None.
  - intros (Ha & Hd & Hn)%IH. split_and!.
    + eapply only_adds_dirs_trans; [|done]. intros q'.
      destruct (decide (q = q')) as [->|]; [right; by rewrite lookup_insert_eq|].
      left. by rewrite lookup_insert_ne.
    + intros q' [->|?]%elem_of_cons; [|auto].
      eapply only_adds_dirs_lookup; [done|]. apply lookup_insert_eq.
    + intros q' [? ?]%not_elem_of_cons. rewrite Hn by done. by rewrite lookup_insert_ne.
Qed.

Lemma mkdirs_fold_total ps fs :
  (∀ q b, q ∈ ps → fs !! q ≠ Some (File b)) → ∃ fs', foldl step (Some fs) ps = Some fs'.
Proof.
  revert fs. induction ps as [|q ps IH]; intros fs Hnf; simpl; [eauto|].
  destruct (fs !! q) as [[|b]|] eqn:Hq; simpl.
  - apply IH. intros. apply Hnf. by right.
  - exfalso. eapply Hnf; [left|done].
  - apply IH. intros q' b Hin. destruct (decide (q = q')) as [->|].
    + by rewrite lookup_insert_eq.
    + rewrite lookup_insert_ne by done. apply Hnf. by right.
Qed.
End mkdirs.

Lemma prefixes_elem p q : q ∈ prefixes p ↔ q ≠ [] ∧ q `prefix_of` p.
Proof.
  revert q. induction p as [|c p IH]; intros q; simpl.
  - rewrite elem_of_nil. split; [done|]. intros [? ->%prefix_nil_inv]. done.
  - rewrite elem_of_cons, list_elem_of_fmap. split.
    + intros [->|(q' & -> & [? ?]%IH)]; (split; [done|]).
      * apply prefix_cons, prefix_nil.
      * by apply prefix_cons.
    + intros [Hne Hp]. destruct q as [|d q]; [done|].
      pose proof (prefix_cons_inv_1 _ _ _ _ Hp) as ->. apply prefix_cons_inv_2 in Hp.
      destruct q as [|e q]; [by left|]. right. exists (e :: q). split; [done|]. by apply IH.
Qed.

Lemma mkdirs_spec fs p fs' : mkdirs fs p = Some fs' →
  only_adds_dirs fs fs' ∧ (p ≠ [] → fs' !! p = Some Dir) ∧
  (∀ q, ¬ q `prefix_of` p → fs' !! q = fs !! q).
Proof.
  intros (Ha & Hd & Hn)%mkdirs_fold_spec. split_and!; [done| |].
  - intros Hne. apply Hd, prefixes_elem. done.
  - intros q Hq. apply Hn. by intros [_ ?]%prefixes_elem.
Qed.

Lemma mkdirs_total fs p :
  (∀ q b, q `prefix_of` p → fs !! q ≠ Some (File b)) → ∃ fs', mkdirs fs p = Some fs'.
Proof. intros H. apply mkdirs_fold_total. intros q b [_ ?]%prefixes_elem. auto. Qed.

Section fs_specs.
Context {S : Type} `{!Env}.
Implicit Types w : World S.

Lemma create_dir_all_spec p w :
  wp (create_dir_all p) (λ r w', ∃ fs', w' = set_fs fs' (tick_io w) ∧
    only_adds_dirs (w_fs w) fs' ∧
    (∀ q, ¬ q `prefix_of` p → fs' !! q = w_fs w !! q) ∧
    match r with
    | Ok _ => p ≠ [] → fs' !! p = Some Dir
    | Err _ => True
    | Panic _ => False
    end) w.
Proof.
  unfold create_dir_all. wp_steps. cbn [w_fs tick_io].
  destruct (fault (w_io w)) as [f|].
  - destruct (mkdirs _ _) as [fs'|] eqn:Hm; wp_steps.
    + exists fs'. apply mkdirs_spec in Hm as (? & _ & Hq). split_and!; auto.
      intros q Hnp. apply Hq. intros Hp. apply Hnp. etrans; [done|]. apply prefix_take.
    + exists (w_fs w). rewrite set_fs_tick. auto with backup.
  - destruct (mkdirs _ _) as [fs'|] eqn:Hm; wp_steps.
    + exists fs'. apply mkdirs_spec in Hm as (?&?&?). auto.
    + exists (w_fs w). rewrite set_fs_tick. auto with backup.
Qed.

Lemma create_dir_all_total p w :
  fault_free → (∀ q b, q `prefix_of` p → w_fs w !! q ≠ Some (File b)) →
  wp (create_dir_all p) (λ r _, r = Ok ()) w.
Proof.
  intros Hff Hp. unfold create_dir_all. wp_steps. rewrite Hff. cbn [w_fs tick_io].
  destruct (mkdirs_total (w_fs w) p Hp) as [fs' ->]. by wp_steps.
Qed.

Lemma fs_write_spec p c w :
  wp (fs_write p c) (λ r w', ∃ fs', w' = set_fs fs' (tick_io w) ∧
    match r with
    | Ok _ => fs' = <[p := File c]> (w_fs w) ∧ w_fs w !! p ≠ Some Dir
    | Err _ => fs' = w_fs w ∨
        (∃ k, fs' = <[p := File (take k c)]> (w_fs w) ∧ w_fs w !! p ≠ Some Dir)
    | Panic _ => False
    end) w.
Proof.
  unfold fs_write. wp_steps. cbn [w_fs tick_io].
  destruct (parent_ok (w_fs w) p); simpl; wp_steps.
  2: { exists (w_fs w). by rewrite set_fs_tick; auto. }
  case_bool_decide; simpl; wp_steps.
  { exists (w_fs w). by rewrite set_fs_tick; auto. }
  destruct (fault (w_io w)) as [[[|k] msg]|]; simpl; wp_steps; eauto 10.
Qed.

Lemma fs_write_total p c w :
  fault_free → parent_ok (w_fs w) p → w_fs w !! p ≠ Some Dir →
  wp (fs_write p c) (λ r _, r = Ok ()) w.
Proof.
  intros Hff Hp Hd. unfold fs_write. wp_steps. cbn [w_fs tick_io]. rewrite Hff.
  apply Is_true_true in Hp as ->. rewrite bool_decide_false by done. by wp_steps.
Qed.

Lemma fs_read_spec p w :
  wp (fs_read p) (λ r w', w' = tick_io w ∧
    match r with
    | Ok b => w_fs w !! p = Some (File b)
    | Err _ => fault (w_io w) = None → (∀ b, w_fs w !! p ≠ Some (File b))
    | Panic _ => False
    end) w.
Proof.
  unfold fs_read. wp_steps. destruct (fault (w_io w)); simpl; wp_steps; [done|].
  cbn [w_fs tick_io]. destruct (w_fs w !! p) as [[|b]|]; wp_steps; done.
Qed.

Lemma fs_len_spec p w :
  wp (fs_len p) (λ r w', w' = tick_io w ∧
    match r with
    | Ok n => ∀ b, w_fs w !! p = Some (File b) → n = Z.of_nat (length b)
    | Err _ => fault (w_io w) = None → w_fs w !! p = None
    | Panic _ => False
    end) w.
Proof.
  unfold fs_len. wp_steps. destruct (fault (w_io w)); simpl; wp_steps; [done|].
  cbn [w_fs tick_io]. destruct (w_fs w !! p) as [[|b]|]; wp_steps; naive_solver.
Qed.

(** A rename swaps the destination in one step: it either has not happened or
    has happened entirely. *)
Lemma fs_rename_spec p q w :
  wp (fs_rename p q) (λ r w', ∃ fs', w' = set_fs fs' (tick_io w) ∧
    match r with
    | Ok _ => ∃ b, w_fs w !! p = Some (File b) ∧ fs' = <[q := File b]> (delete p (w_fs w)) ∧
        w_fs w !! q ≠ Some Dir
    | Err _ => fs' = w_fs w
    | Panic _ => False
    end) w.
Proof.
  assert (∀ e, ∃ fs', tick_io w = set_fs fs' (tick_io w) ∧
    match @Err () e with Ok _ => False | Err _ => fs' = w_fs w | Panic _ => False end) as Hid.
  { intros e. exists (w_fs w). by rewrite set_fs_tick. }
  unfold fs_rename. wp_steps. destruct (fault (w_io w)); simpl; wp_steps; [by eapply Hid|].
  cbn [w_fs tick_io]. destruct (w_fs w !! p) as [[|b]|] eqn:Hp; wp_steps; try by eapply Hid.
  destruct (parent_ok (w_fs w) q); simpl; wp_steps; [|by eapply Hid].
  case_bool_decide; simpl; wp_steps; [by eapply Hid|]. eauto 10.
  Unshelve. all: exact [].
Qed.

Lemma fs_rename_total p q b w :
  fault_free → w_fs w !! p = Some (File b) → parent_ok (w_fs w) q → w_fs w !! q ≠ Some Dir →
  wp (fs_rename p q) (λ r _, r = Ok ()) w.
Proof.
  intros Hff Hp Hq Hd. unfold fs_rename. wp_steps. rewrite Hff. wp_steps.
  cbn [w_fs tick_io]. rewrite Hp. apply Is_true_true in Hq as ->.
  rewrite bool_decide_false by done. by wp_steps.
Qed.

Lemma fs_len_total p b w :
  fault_free → w_fs w !! p = Some (File b) → wp (fs_len p) (λ r _, ∃ n, r = Ok n) w.
Proof.
  intros Hff Hp. unfold fs_len. wp_steps. rewrite Hff. wp_steps. cbn [w_fs tick_io].
  rewrite Hp. wp_steps. eauto.
Qed.

(** Removing a tree keeps what is not below it; a failure keeps the root of the
    tree. *)
Lemma fs_remove_dir_all_spec p w :
  wp (fs_remove_dir_all p) (λ r w', ∃ fs', w' = set_fs fs' (tick_io w) ∧
    (∀ q, ¬ below p q → fs' !! q = w_fs w !! q) ∧
    (∀ q, fs' !! q = None ∨ fs' !! q = w_fs w !! q) ∧
    match r with
    | Ok _ => ∀ q, below p q → fs' !! q = None
    | Err _ => True
    | Panic _ => False
    end) w.
Proof.
  assert (∃ fs', tick_io w = set_fs fs' (tick_io w) ∧
    (∀ q, ¬ below p q → fs' !! q = w_fs w !! q) ∧
    (∀ q, fs' !! q = None ∨ fs' !! q = w_fs w !! q) ∧ True) as Hid.
  { exists (w_fs w). rewrite set_fs_tick. auto. }
  unfold fs_remove_dir_all. wp_steps. cbn [w_fs tick_io].
  case_bool_decide as Hd; simpl; wp_steps; [|done].
  destruct (fault (w_io w)) as [f|]; wp_steps.
  - eexists. split; [done|].
    set (doomed := take (f_done f) (filter (λ q, below p q ∧ p ≠ q) (map_to_list (w_fs w)).*1)).
    assert (∀ q, filter (λ kv : Path * Node, kv.1 ∉ doomed) (w_fs w) !! q =
              if decide (q ∈ doomed) then None else w_fs w !! q) as Hl.
    { intros q. rewrite map_lookup_filter. destruct (w_fs w !! q) as [n|]; simpl.
      - case_decide; [by rewrite option_guard_False by tauto|by rewrite option_guard_True].
      - by case_decide. }
    split_and!; [| |done].
    + intros q Hq. rewrite Hl. rewrite decide_False; [done|].
      intros Hin%elem_of_take_inv. apply list_elem_of_filter in Hin as [[? _] _]. done.
    + intros q. rewrite Hl. case_decide; auto.
  - eexists. split; [done|].
    assert (∀ q, filter (λ kv : Path * Node, ¬ below p kv.1) (w_fs w) !! q =
              if decide (below p q) then None else w_fs w !! q) as Hl.
    { intros q. rewrite map_lookup_filter. destruct (w_fs w !! q) as [n|]; simpl.
      - case_decide; [by rewrite option_guard_False by tauto|by rewrite option_guard_True].
      - by case_decide. }
    split_and!.
    + intros q Hq. by rewrite Hl, decide_False.
    + intros q. rewrite Hl. case_decide; auto.
    + intros q Hq. by rewrite Hl, decide_True.
Qed.

Lemma fs_remove_dir_all_total p w :
  fault_free → w_fs w !! p = Some Dir → wp (fs_remove_dir_all p) (λ r _, r = Ok ()) w.
Proof.
  intros Hff Hp. unfold fs_remove_dir_all. wp_steps. rewrite Hff. cbn [w_fs tick_io].
  rewrite bool_decide_true by done. by wp_steps.
Qed.
End fs_specs.
