(* ===== verification/Tasks.v ===== *)
(** * Tasks

    The daemon runs on a multi-threaded runtime: the scheduler and the requests
    are tasks, and other tasks may act between any two of their calls to the disk,
    the database or AnkiWeb.  A [Task] is a program cut into such atomic actions;
    [run_task] runs one without interruption.  [wpi] is what a task may rely on
    and guarantees when others act in between. *)

From S2P Require Import Prelude Calendar World.

(** A task has ended, is about to perform an action, or waits for the mutex, which
    it then holds to its end. *)
Inductive Task (S A : Type) :=
  | Done (r : Res A)
  | Act (next : World S → Task S A) (upd : World S → World S)
  | Lock (t : Task S A).
Arguments Done {S A} r.
Arguments Act {S A} next upd.
Arguments Lock {S A} t.

(** ** Programs *)

#[export] Instance Task_ret S : MRet (Task S) := λ A a, Done (Ok a).
Fixpoint task_bind {S A B} (k : A → Task S B) (t : Task S A) : Task S B :=
  match t with
  | Done (Ok a) => k a
  | Done (Err e) => Done (Err e)
  | Done (Panic msg) => Done (Panic msg)
  | Act next upd => Act (λ w, task_bind k (next w)) upd
  | Lock t => Lock (task_bind k t)
  end.
#[export] Instance Task_bind S : MBind (Task S) := λ A B, task_bind.

(** One action. *)
Definition act {S A} (m : M S A) : Task S A := Act (λ w, Done (m w).1) (λ w, (m w).2).
(** A result that is already known. *)
Definition task_fail {S A} (e : Error) : Task S A := Done (Err e).
Definition task_panic {S A} (msg : string) : Task S A := Done (Panic msg).
Definition task_option {S A} (e : Error) (o : option A) : Task S A :=
  match o with Some a => mret a | None => task_fail e end.
(** The result of a fallible call as a value. *)
Fixpoint task_attempt {S A} (t : Task S A) : Task S (Error + A) :=
  match t with
  | Done (Ok a) => Done (Ok (inr a))
  | Done (Err e) => Done (Ok (inl e))
  | Done (Panic msg) => Done (Panic msg)
  | Act next upd => Act (λ w, task_attempt (next w)) upd
  | Lock t => Lock (task_attempt t)
  end.

(** ** Running a task alone *)

Fixpoint run_task {S A} (t : Task S A) : M S A := λ w,
  match t with
  | Done r => (r, w)
  | Act next upd => run_task (next w) (upd w)
  | Lock t => run_task t w
  end.

Section run.
Context {S : Type}.
Implicit Types w : World S.

Lemma run_act {A} (m : M S A) w : run_task (act m) w = m w.
Proof. simpl. by destruct (m w). Qed.
Lemma run_bind {A B} (t : Task S A) (k : A → Task S B) w :
  run_task (t ≫= k) w = (run_task t ≫= λ a, run_task (k a)) w.
Proof.
  unfold mbind, Task_bind, M_bind. revert w.
  induction t as [[]|next IH upd|t IH]; intros w; simpl; [done..|apply IH|apply IH].
Qed.
Lemma run_attempt {A} (t : Task S A) w : run_task (task_attempt t) w = attempt (run_task t) w.
Proof.
  unfold attempt. revert w.
  induction t as [[]|next IH upd|t IH]; intros w; simpl; [done..|apply IH|apply IH].
Qed.

(** Two programs of the same meaning: actions and sequences. *)
Definition means {A} (t : Task S A) (m : M S A) : Prop := ∀ w, run_task t w = m w.
Lemma means_act {A} (m : M S A) : means (act m) m.
Proof. intros w. apply run_act. Qed.
Lemma means_ret {A} (a : A) : means (mret a) (mret a).
Proof. done. Qed.
Lemma means_fail {A} e : means (task_fail (A := A) e) (fail e).
Proof. done. Qed.
Lemma means_panic {A} msg : means (task_panic (A := A) msg) (panic msg).
Proof. done. Qed.
Lemma means_option {A} e (o : option A) : means (task_option e o) (from_option e o).
Proof. intros w. by destruct o. Qed.
Lemma means_bind {A B} (t : Task S A) m (k : A → Task S B) k' :
  means t m → (∀ a, means (k a) (k' a)) → means (t ≫= k) (m ≫= k').
Proof.
  intros Ht Hk w. rewrite run_bind. unfold mbind, M_bind. rewrite Ht.
  destruct (m w) as [[] w']; [apply Hk|done..].
Qed.
Lemma means_attempt {A} (t : Task S A) m : means t m → means (task_attempt t) (attempt m).
Proof. intros Ht w. rewrite run_attempt. unfold attempt. by rewrite Ht. Qed.
Lemma means_lock {A} (t : Task S A) m : means t m → means (Lock t) m.
Proof. intros Ht w. simpl. apply Ht. Qed.
End run.

Create HintDb means.
#[export] Hint Resolve means_act means_ret means_fail means_panic means_option means_attempt
  means_lock : means.

(** A sequence is followed bind by bind. *)
Ltac means_step :=
  first
    [ solve [auto with means]
    | apply means_bind; [|intros ?]
    | apply means_attempt
    | progress cbv zeta ].
Ltac means_solve := repeat means_step.

(** ** Turns *)

(** A task that is given its turns in the worlds [ws], with anything in between:
    its result, if it has one by then. *)
Fixpoint turns {S A} (ws : list (World S)) (t : Task S A) : option (Res A) :=
  match t, ws with
  | Done r, _ => Some r
  | Act next _, w :: ws => turns ws (next w)
  | Lock t, _ :: ws => turns ws t
  | _, [] => None
  end.
(** At most [n] turns, whatever it finds in them. *)
Fixpoint bounded {S A} (n : nat) (t : Task S A) : Prop :=
  match t, n with
  | Done _, _ => True
  | Act next _, S n => ∀ w, bounded n (next w)
  | Lock t, S n => bounded n t
  | _, O => False
  end.

Section turns.
Context {S : Type}.

Lemma bounded_le {A} n m (t : Task S A) : bounded n t → n ≤ m → bounded m t.
Proof.
  revert n m. induction t as [r|next IH upd|t IH]; intros [|n] [|m] Hb Hle; simpl in *; try done; try lia.
  - intros w. apply (IH w n); [done|lia].
  - apply (IH n); [done|lia].
Qed.
Lemma bounded_ends {A} ws (t : Task S A) : bounded (length ws) t → ∃ r, turns ws t = Some r.
Proof.
  revert ws. induction t as [r|next IH upd|t IH]; intros [|w ws] Hb; simpl in *; try done; eauto.
Qed.
Lemma bounded_bind {A B} n m (t : Task S A) (k : A → Task S B) :
  bounded n t → (∀ a, bounded m (k a)) → bounded (n + m) (t ≫= k).
Proof.
  intros Ht Hk. unfold mbind, Task_bind. revert n Ht.
  induction t as [[a|e|msg]|next IH upd|t IH]; intros n Ht; simpl.
  - apply (bounded_le m); [done|lia].
  - by destruct (n + m).
  - by destruct (n + m).
  - destruct n as [|n]; [done|]. simpl in *. by intros w; apply IH.
  - destruct n as [|n]; [done|]. simpl in *. by apply IH.
Qed.
Lemma bounded_attempt {A} n (t : Task S A) : bounded n t → bounded n (task_attempt t).
Proof.
  revert n. induction t as [[]|next IH upd|t IH]; intros [|n] Hb; simpl in *; try done; auto.
Qed.
Lemma bounded_act {A} (m : M S A) : bounded 1 (act m).
Proof. done. Qed.
Lemma bounded_done {A} n (r : Res A) : bounded n (Done (S := S) r).
Proof. by destruct n. Qed.
Lemma bounded_lock {A} n (t : Task S A) : bounded n t → bounded (1 + n) (Lock t).
Proof. done. Qed.
End turns.

(** ** Interference *)

Section wpi.
Context {S : Type}.
(** The invariant of the shared state, what others do while the task holds the
    mutex or not, and what the task does. *)
Context (I : World S → Prop) (rely guar : bool → World S → World S → Prop).
Context `{!∀ b, PreOrder (rely b)}.
Implicit Types w : World S.

(** [b] says whether the task holds the mutex; it must not ask for it twice. *)
Fixpoint wpi {A} (b : bool) (t : Task S A) (Q : bool → Res A → World S → Prop) w : Prop :=
  match t with
  | Done r => ∀ w', rely b w w' → I w' → Q b r w'
  | Act next upd => ∀ w', rely b w w' → I w' →
      I (upd w') ∧ guar b w' (upd w') ∧ wpi b (next w') Q (upd w')
  | Lock t => ∀ w', rely b w w' → I w' → b = false ∧ wpi true t Q w'
  end.

Lemma wpi_rely {A} b (t : Task S A) Q w w' : rely b w w' → wpi b t Q w → wpi b t Q w'.
Proof.
  intros Hr. destruct t; simpl; intros Hw w2 Hr2 Hi; apply Hw; try done; by etrans.
Qed.
Lemma wpi_later {A} b (t : Task S A) Q w :
  (∀ w', rely b w w' → I w' → wpi b t Q w') → wpi b t Q w.
Proof.
  intros Hw. destruct t; simpl in *; intros w' Hr Hi; by apply (Hw w').
Qed.
Lemma wpi_mono {A} b (t : Task S A) (P Q : bool → Res A → World S → Prop) w :
  wpi b t P w → (∀ b r w', P b r w' → Q b r w') → wpi b t Q w.
Proof.
  intros Hw HPQ. revert b w Hw.
  induction t as [r|next IH upd|t IH]; simpl; intros b w Hw w' Hr Hi; [by auto| |].
  - destruct (Hw w' Hr Hi) as (?&?&?). split_and!; auto.
  - destruct (Hw w' Hr Hi). split; auto.
Qed.

(** What follows a task that returned [r]. *)
Definition task_post {A B} (k : A → Task S B) (Q : bool → Res B → World S → Prop)
    (b : bool) (r : Res A) w : Prop :=
  match r with
  | Ok a => wpi b (k a) Q w
  | Err e => Q b (Err e) w
  | Panic msg => Q b (Panic msg) w
  end.
Lemma wpi_bind {A B} b (t : Task S A) (k : A → Task S B) Q w :
  wpi b t (task_post k Q) w → wpi b (t ≫= k) Q w.
Proof.
  unfold mbind, Task_bind. revert b w.
  induction t as [r|next IH upd|t IH]; simpl; intros b w Hw.
  - destruct r; simpl; [by apply wpi_later|done..].
  - intros w' Hr Hi. destruct (Hw w' Hr Hi) as (?&?&?). split_and!; auto.
  - intros w' Hr Hi. destruct (Hw w' Hr Hi). split; auto.
Qed.
Lemma wpi_assoc {A B C} b (t : Task S A) (f : A → Task S B) (g : B → Task S C) Q w :
  wpi b (t ≫= λ a, f a ≫= g) Q w → wpi b ((t ≫= f) ≫= g) Q w.
Proof.
  unfold mbind, Task_bind. revert b w.
  induction t as [r|next IH upd|t IH]; simpl; intros b w Hw.
  - by destruct r.
  - intros w' Hr Hi. destruct (Hw w' Hr Hi) as (?&?&?). split_and!; auto.
  - intros w' Hr Hi. destruct (Hw w' Hr Hi). split; auto.
Qed.
Lemma wpi_attempt {A} b (t : Task S A) (Q : bool → Res (Error + A) → World S → Prop) w :
  wpi b t (λ b r w', match r with
                     | Ok a => Q b (Ok (inr a)) w'
                     | Err e => Q b (Ok (inl e)) w'
                     | Panic msg => Q b (Panic msg) w'
                     end) w →
  wpi b (task_attempt t) Q w.
Proof.
  revert b w. induction t as [r|next IH upd|t IH]; simpl; intros b w Hw.
  - by destruct r.
  - intros w' Hr Hi. destruct (Hw w' Hr Hi) as (?&?&?). split_and!; auto.
  - intros w' Hr Hi. destruct (Hw w' Hr Hi). split; auto.
Qed.

(** One action: its sequential specification, wherever it happens. *)
Lemma wpi_act {A} b (m : M S A) Q w :
  (∀ w1, rely b w w1 → I w1 → wp m (λ r w2, I w2 ∧ guar b w1 w2 ∧
    ∀ w3, rely b w2 w3 → I w3 → Q b r w3) w1) →
  wpi b (act m) Q w.
Proof. intros Hm w1 Hr Hi. destruct (Hm w1 Hr Hi) as (?&?&?). by split_and!. Qed.
Lemma wpi_done {A} b (r : Res A) (Q : bool → Res A → World S → Prop) w :
  (∀ w', rely b w w' → I w' → Q b r w') → wpi b (Done r) Q w.
Proof. done. Qed.
Lemma wpi_lock {A} (t : Task S A) Q w :
  (∀ w', rely false w w' → I w' → wpi true t Q w') → wpi false (Lock t) Q w.
Proof. intros Hw w' Hr Hi. split; auto. Qed.
End wpi.
