(* ===== verification/Crates.v ===== *)
(** * Interfaces of the third-party crates

    The repository calls [chrono], [uuid], [serde_json], [sha2], [hex], [zstd] and
    the SQL engines, whose sources are not part of it.  Each is a type class of
    operations, the parameters of the model, with a companion class of laws: the
    documented behaviour the program depends on.  [Reference.v] gives concrete
    functions that satisfy all of them. *)

From S2P Require Import Prelude Calendar World.

(** ** chrono *)

(** A [TimeDelta] is a number of nanoseconds. *)
Class Chrono := {
  (** [DateTime::to_rfc3339] *)
  to_rfc3339 : DateTime → string;
  (** [to_rfc3339_opts(SecondsFormat::Secs, true)] *)
  to_rfc3339_secs : DateTime → string;
  (** [DateTime::parse_from_rfc3339], converted to UTC *)
  parse_from_rfc3339 : string → option DateTime;
  (** the [Serialize] instance of [DateTime<Utc>]: a JSON string *)
  datetime_serde : DateTime → string;
  (** [format("%Y-%m-%d %H:%M:%S UTC")] *)
  format_ui : DateTime → string;
  (** [Duration::days]; [None] is a panic *)
  duration_days : Z → option Z;
  (** [DateTime - Duration]; [None] is a panic *)
  datetime_sub : DateTime → Z → option DateTime;
  (** [TimeDelta::num_seconds] *)
  num_seconds : Z → Z;
  (** [Timelike::minute] and [Timelike::second] *)
  dt_minute : DateTime → Z;
  dt_second : DateTime → Z;
}.

(** Bounds of the crate's types: [TimeDelta::MAX] is [i64::MAX] milliseconds, and
    [DateTime::<Utc>::MIN_UTC] and [MAX_UTC] end the years -262143 and 262142. *)
Definition max_duration_days : Z := i64_max / 1000 / 86400.
Definition min_utc : DateTime := (days_from_civil (Civil (-262143) 1 1) * 86400 * ns_per_sec)%Z.
Definition max_utc : DateTime :=
  ((days_from_civil (Civil 262142 12 31) + 1) * 86400 * ns_per_sec - 1)%Z.

Class ChronoLaws `{!Chrono} : Prop := {
  to_rfc3339_law t : rfc3339_range t → to_rfc3339 t = rfc3339_autosi t;
  to_rfc3339_secs_law t : rfc3339_range t → to_rfc3339_secs t = rfc3339_secs_z t;
  parse_from_rfc3339_law t : rfc3339_range t → parse_from_rfc3339 (to_rfc3339 t) = Some t;
  duration_days_law d :
    duration_days d = if bool_decide (Z.abs d ≤ max_duration_days)%Z
                      then Some (d * 86400 * ns_per_sec)%Z else None;
  datetime_sub_law t d :
    datetime_sub t d = if bool_decide (min_utc ≤ t - d ≤ max_utc)%Z
                       then Some (t - d)%Z else None;
  num_seconds_law d : num_seconds d = Z.quot d ns_per_sec;
  dt_minute_law t : dt_minute t = minute t;
  dt_second_law t : dt_second t = second t;
}.

(** ** uuid *)

Class UuidCrate := {
  uuid_to_string : Uuid → string;
  uuid_parse_str : string → option Uuid;
}.
Definition uuid_nil : Uuid := 0%N.
Definition uuid_ok (u : Uuid) : Prop := (u < 2 ^ 128)%N.
#[export] Instance uuid_ok_dec u : Decision (uuid_ok u).
Proof. unfold uuid_ok. apply _. Defined.

Class UuidLaws `{!UuidCrate} : Prop := {
  uuid_parse_to_string u : uuid_ok u → uuid_parse_str (uuid_to_string u) = Some u;
  uuid_parse_ok s u : uuid_parse_str s = Some u → uuid_ok u;
}.

Lemma uuid_to_string_inj `{UuidLaws} u v :
  uuid_ok u → uuid_ok v → uuid_to_string u = uuid_to_string v → u = v.
Proof. intros ?? Heq%(f_equal uuid_parse_str). rewrite !uuid_parse_to_string in Heq; congruence. Qed.

(** ** serde_json *)

(** JSON documents in text order.  [JReal] is a number with a fraction or an
    exponent, by its text. *)
#[warnings="-register-all"]
Inductive Json :=
  | JNull
  | JBool (b : bool)
  | JInt (z : Z)
  | JReal (text : string)
  | JString (s : string)
  | JArray (l : list Json)
  | JObject (l : list (string * Json)).

Class SerdeJson := {
  json_to_string : Json → string;
  json_to_string_pretty : Json → string;
  json_from_str : string → option Json;
}.

(** Documents without fractional numbers, the ones the program writes. *)
Fixpoint json_plain (j : Json) : bool :=
  match j with
  | JReal _ => false
  | JArray l => forallb json_plain l
  | JObject l => forallb (λ kv, json_plain kv.2) l
  | _ => true
  end.

(** Integers of 64 bits, with or without sign, and at most [n] arrays and objects
    inside each other. *)
Fixpoint json_small (n : nat) (j : Json) {struct j} : bool :=
  match j with
  | JInt z => ((i64_min <=? z) && (z <? 2 ^ 64))%Z
  | JArray l => match n with O => false | S n => forallb (json_small n) l end
  | JObject l => match n with O => false | S n => forallb (λ kv, json_small n kv.2) l end
  | _ => true
  end.
(** The parser refuses a document at the 128th level. *)
Definition json_readable (j : Json) : Prop := json_plain j ∧ json_small 127 j.

Class SerdeJsonLaws `{!SerdeJson} : Prop := {
  json_from_to_string j : json_readable j → json_from_str (json_to_string j) = Some j;
}.

Lemma json_small_int n z : is_i64 z → json_small n (JInt z).
Proof.
  intros [Hl Hu]. assert (json_small n (JInt z) = true) as ->; [|done].
  apply andb_true_intro. split; [by apply Z.leb_le|apply Z.ltb_lt; unfold i64_max in Hu; lia].
Qed.

(** [serde_json::Map] is a [BTreeMap]: [json!] builds objects sorted by key, a
    later duplicate replacing an earlier one. *)
Fixpoint btree_insert {V} (k : string) (v : V) (l : list (string * V)) : list (string * V) :=
  match l with
  | [] => [(k, v)]
  | (k', v') :: l =>
      if str_lt k k' then (k, v) :: (k', v') :: l
      else if decide (k = k') then (k, v) :: l
      else (k', v') :: btree_insert k v l
  end.
Definition json_object (l : list (string * Json)) : Json :=
  JObject (foldl (λ m kv, btree_insert kv.1 kv.2 m) [] l).

(** [Value::get]: a [Map] keeps the last value of a repeated key. *)
Definition json_get (k : string) (j : Json) : option Json :=
  match j with
  | JObject l => (λ p : nat * (string * Json), p.2.2) <$> list_find (λ kv, kv.1 = k) (reverse l)
  | _ => None
  end.

(** ** sha2 and hex *)

Class HashCrates := {
  sha256 : bytes → bytes;
  hex_encode : bytes → string;
}.

(** ** zstd *)

Class Zstd := {
  (** a whole stream through [Encoder] at level 3; [None] is an error *)
  zstd_encode : bytes → option bytes;
  (** a whole stream through [Decoder]; [None] is an error *)
  zstd_decode : bytes → option bytes;
}.
(** The four bytes every zstd frame starts with. *)
Definition zstd_magic : bytes := [Byte.x28; Byte.xb5; Byte.x2f; Byte.xfd].
Class ZstdLaws `{!Zstd} : Prop := {
  zstd_decode_encode b c : zstd_encode b = Some c → zstd_decode c = Some b;
  zstd_encode_magic b c : zstd_encode b = Some c → zstd_magic `prefix_of` c;
  (** a [Vec] takes every write *)
  zstd_encode_total b : is_Some (zstd_encode b);
}.

(** ** SQL engines *)

(** The order in which a query returns its rows is the engine's choice, except
    for what ORDER BY asks. *)
Class SqlEngine := {
  (** the rows of a query without ORDER BY *)
  sql_scan {A} : list A → list A;
  (** ORDER BY ... DESC for the strict order [lt] *)
  sql_order_desc {A} (lt : A → A → bool) : list A → list A;
}.
Class SqlEngineLaws `{!SqlEngine} : Prop := {
  sql_scan_perm {A} (l : list A) : sql_scan l ≡ₚ l;
  sql_order_perm {A} (lt : A → A → bool) (l : list A) : sql_order_desc lt l ≡ₚ l;
  sql_order_sorted {A} (lt : A → A → bool) (l : list A) :
    (∀ x, lt x x = false) → (∀ x y z, lt x y → lt y z → lt x z) →
    (∀ x y z, lt x y → lt x z ∨ lt z y) →
    StronglySorted (λ x y, lt x y = false) (sql_order_desc lt l);
}.

(** TIMESTAMPTZ columns: the driver and the server keep microseconds. *)
Class PgTimestamps := { pg_timestamp : DateTime → DateTime }.
Class PgTimestampLaws `{!PgTimestamps} : Prop := {
  pg_timestamp_mono t1 t2 : (t1 ≤ t2)%Z → (pg_timestamp t1 ≤ pg_timestamp t2)%Z;
  pg_timestamp_idemp t : pg_timestamp (pg_timestamp t) = pg_timestamp t;
  pg_timestamp_close t : (Z.abs (pg_timestamp t - t) < 1000)%Z;
}.

(** Queries over rows that encode the elements of a list [l] by [f]. *)
Section sql_images.
Context `{!SqlEngine, !SqlEngineLaws} {A B : Type} (f : A → B).

Lemma scan_images (l : list A) : ∃ l', sql_scan (f <$> l) = f <$> l' ∧ l' ≡ₚ l.
Proof.
  destruct (Permutation_map_inv f _ (sql_scan_perm (f <$> l))) as (l' & Heq & Hp).
  by exists l'.
Qed.

(** If the row order [lt] is the order of a numeric key, ORDER BY ... DESC
    returns the rows by decreasing key. *)
Lemma order_images (lt : B → B → bool) (key : A → Z) (ok : A → Prop) (l : list A) :
  (∀ x, lt x x = false) → (∀ x y z, lt x y → lt y z → lt x z) →
  (∀ x y z, lt x y → lt x z ∨ lt z y) →
  (∀ a b, ok a → ok b → lt (f a) (f b) = (key a <? key b)%Z) →
  Forall ok l →
  ∃ l', sql_order_desc lt (f <$> l) = f <$> l' ∧ l' ≡ₚ l ∧
    StronglySorted (λ a b, key b ≤ key a)%Z l'.
Proof.
  intros Hirr Htr Hcot Hkey Hok.
  destruct (Permutation_map_inv f _ (sql_order_perm lt (f <$> l))) as (l' & Heq & Hp).
  change (map f l') with (f <$> l') in Heq. exists l'. split_and!; [done|done|].
  assert (StronglySorted (λ x y, lt x y = false) (f <$> l')) as Hs.
  { rewrite <- Heq. by apply sql_order_sorted. }
  rewrite Hp in Hok. clear l Heq Hp. revert Hs.
  induction Hok as [|a l' Ha Hl IH]; intros Hs; [constructor|].
  inversion Hs as [|?? Hs' Hall]; subst. constructor; [by apply IH|].
  rewrite Forall_fmap in Hall. rewrite Forall_forall in Hall, Hl |- *. intros b Hb.
  pose proof (Hall b Hb) as Hlt; simpl in Hlt. rewrite Hkey in Hlt by auto. lia.
Qed.
End sql_images.
