(* ===== verification/Core.v ===== *)
(** * Domain types and content hashing

    Models [crates/core]: the backup records ([backup.rs]), their constructors,
    the JSON their [serde] derives give, and the content hash ([hash.rs]). *)

From S2P Require Import Prelude Calendar World Crates.

(** ** Records ([backup.rs]) *)

Inductive BackupStatus := Created | Skipped.
#[export] Instance BackupStatus_eq_dec : EqDecision BackupStatus.
Proof. solve_decision. Defined.

Inductive BackupSkipReason := Unchanged.
#[export] Instance BackupSkipReason_eq_dec : EqDecision BackupSkipReason.
Proof. solve_decision. Defined.

Record DeckStats := {
  deck_id : Z;
  deck_name : string;
  card_count : Z;
}.
#[export] Instance DeckStats_eq_dec : EqDecision DeckStats.
Proof. solve_decision. Defined.

Record BackupStats := {
  total_cards : Z;
  total_decks : Z;
  total_notes : Z;
  total_revlog : Z;
  deck_stats : list DeckStats;
}.
#[export] Instance BackupStats_eq_dec : EqDecision BackupStats.
Proof. solve_decision. Defined.

Record BackupEntry := {
  id : Uuid;
  created_at : DateTime;
  timestamp_dir : string;
  content_hash_of : string;
  status : BackupStatus;
  skip_reason : option BackupSkipReason;
  source_revision : option string;
  sync_duration_ms : option Z;
  size_bytes : Z;
  stats : option BackupStats;
}.
#[export] Instance BackupEntry_eq_dec : EqDecision BackupEntry.
Proof. solve_decision. Defined.

Record NewBackupEntry := {
  new_created_at : DateTime;
  new_timestamp_dir : string;
  new_content_hash : string;
  new_status : BackupStatus;
  new_skip_reason : option BackupSkipReason;
  new_source_revision : option string;
  new_sync_duration_ms : option Z;
  new_size_bytes : Z;
  new_stats : option BackupStats;
}.

(** [NewBackupEntry::created]. *)
Definition created (created_at : DateTime) (timestamp_dir content_hash : string)
    (source_revision : option string) (sync_duration_ms : option Z) (size_bytes : Z)
    (stats : BackupStats) : NewBackupEntry := {|
  new_created_at := created_at;
  new_timestamp_dir := timestamp_dir;
  new_content_hash := content_hash;
  new_status := Created;
  new_skip_reason := None;
  new_source_revision := source_revision;
  new_sync_duration_ms := sync_duration_ms;
  new_size_bytes := size_bytes;
  new_stats := Some stats;
|}.

(** [NewBackupEntry::skipped_unchanged]. *)
Definition skipped_unchanged (created_at : DateTime) (content_hash : string) : NewBackupEntry := {|
  new_created_at := created_at;
  new_timestamp_dir := "";
  new_content_hash := content_hash;
  new_status := Skipped;
  new_skip_reason := Some Unchanged;
  new_source_revision := None;
  new_sync_duration_ms := None;
  new_size_bytes := 0;
  new_stats := None;
|}.

(** The fields the constructors tie together. *)
Definition entry_consistent (e : BackupEntry) : Prop :=
  match status e with
  | Created => skip_reason e = None ∧ is_Some (stats e) ∧ timestamp_dir e ≠ ""
  | Skipped => skip_reason e = Some Unchanged ∧ stats e = None ∧ timestamp_dir e = "" ∧
      size_bytes e = 0%Z
  end.

(** ** Content hash ([hash.rs]) *)

Definition content_hash `{!HashCrates} (content : bytes) : string :=
  hex_encode (sha256 content).

(** ** The [serde] derives *)

Section serde.
Definition deck_stats_to_json (d : DeckStats) : Json :=
  JObject [("deck_id", JInt (deck_id d)); ("deck_name", JString (deck_name d));
           ("card_count", JInt (card_count d))].

Definition stats_to_json (s : BackupStats) : Json :=
  JObject [("total_cards", JInt (total_cards s)); ("total_decks", JInt (total_decks s));
           ("total_notes", JInt (total_notes s)); ("total_revlog", JInt (total_revlog s));
           ("deck_stats", JArray (deck_stats_to_json <$> deck_stats s))].

Definition status_to_json (s : BackupStatus) : Json :=
  JString (match s with Created => "Created" | Skipped => "Skipped" end).
Definition skip_reason_to_json (r : BackupSkipReason) : Json :=
  JString (match r with Unchanged => "Unchanged" end).

Definition option_to_json {A} (f : A → Json) (o : option A) : Json :=
  match o with Some a => f a | None => JNull end.

Context `{!Chrono, !UuidCrate}.
Definition entry_to_json (e : BackupEntry) : Json :=
  JObject [("id", JString (uuid_to_string (id e)));
           ("created_at", JString (datetime_serde (created_at e)));
           ("timestamp_dir", JString (timestamp_dir e));
           ("content_hash", JString (content_hash_of e));
           ("status", status_to_json (status e));
           ("skip_reason", option_to_json skip_reason_to_json (skip_reason e));
           ("source_revision", option_to_json JString (source_revision e));
           ("sync_duration_ms", option_to_json JInt (sync_duration_ms e));
           ("size_bytes", JInt (size_bytes e));
           ("stats", option_to_json stats_to_json (stats e))].
End serde.

(** The fields of a struct: an object gives each name at most once, and may have
    others; an array gives them by position. *)
Definition struct_fields (names : list string) (j : Json) : option (list (option Json)) :=
  match j with
  | JObject l =>
      mapM (λ k, match filter (λ kv : string * Json, kv.1 = k) l with
                 | [] => Some None
                 | [(_, v)] => Some (Some v)
                 | _ => None
                 end) names
  | JArray l =>
      if decide (length l ≤ length names) then Some ((λ i, l !! i) <$> seq 0 (length names)) else None
  | _ => None
  end.
(** The [i]-th field, which must be present. *)
Definition required {A} (i : nat) (fs : list (option Json)) (f : Json → option A) : option A :=
  mjoin (fs !! i) ≫= f.
(** The [i]-th field, or its default. *)
Definition or_default {A} (a : A) (i : nat) (fs : list (option Json)) (f : Json → option A) : option A :=
  match mjoin (fs !! i) with Some j => f j | None => Some a end.

Definition json_i64 (j : Json) : option Z :=
  match j with JInt z => if decide (is_i64 z) then Some z else None | _ => None end.
Definition json_str (j : Json) : option string :=
  match j with JString s => Some s | _ => None end.
Definition json_array {A} (f : Json → option A) (j : Json) : option (list A) :=
  match j with JArray l => mapM f l | _ => None end.

Definition json_bool (j : Json) : option bool :=
  match j with JBool b => Some b | _ => None end.

Definition deck_stats_of_json (j : Json) : option DeckStats :=
  fs ← struct_fields ["deck_id"; "deck_name"; "card_count"] j;
  i ← required 0 fs json_i64; n ← required 1 fs json_str; c ← required 2 fs json_i64;
  Some {| deck_id := i; deck_name := n; card_count := c |}.

Definition stats_of_json (j : Json) : option BackupStats :=
  fs ← struct_fields ["total_cards"; "total_decks"; "total_notes"; "total_revlog"; "deck_stats"] j;
  c ← required 0 fs json_i64; d ← required 1 fs json_i64; n ← required 2 fs json_i64;
  r ← required 3 fs json_i64; ds ← required 4 fs (json_array deck_stats_of_json);
  Some {| total_cards := c; total_decks := d; total_notes := n; total_revlog := r;
          deck_stats := ds |}.

(** The numbers of a record fit the [i64] fields that hold them. *)
Definition deck_stats_ok (d : DeckStats) : Prop := is_i64 (deck_id d) ∧ is_i64 (card_count d).
Definition stats_ok (s : BackupStats) : Prop :=
  is_i64 (total_cards s) ∧ is_i64 (total_decks s) ∧ is_i64 (total_notes s) ∧
  is_i64 (total_revlog s) ∧ Forall deck_stats_ok (deck_stats s).
Definition entry_ok (e : BackupEntry) : Prop :=
  uuid_ok (id e) ∧ rfc3339_range (created_at e) ∧ is_i64 (size_bytes e) ∧
  (∀ d, sync_duration_ms e = Some d → is_i64 d) ∧ (∀ s, stats e = Some s → stats_ok s).

#[export] Instance deck_stats_ok_dec d : Decision (deck_stats_ok d).
Proof. unfold deck_stats_ok. apply _. Defined.
#[export] Instance stats_ok_dec s : Decision (stats_ok s).
Proof. unfold stats_ok. apply _. Defined.

(** ** Round trips *)

Lemma json_i64_int z : is_i64 z → json_i64 (JInt z) = Some z.
Proof. intros. simpl. by rewrite decide_True. Qed.

Lemma deck_stats_of_to_json d : deck_stats_ok d → deck_stats_of_json (deck_stats_to_json d) = Some d.
Proof.
  intros [??]. unfold deck_stats_of_json, deck_stats_to_json, required; simpl.
  rewrite !decide_True by done. by destruct d.
Qed.

Lemma stats_of_to_json s : stats_ok s → stats_of_json (stats_to_json s) = Some s.
Proof.
  intros (?&?&?&?&Hd). unfold stats_of_json, stats_to_json, required; simpl.
  rewrite !decide_True by done. simpl.
  assert (mapM deck_stats_of_json (deck_stats_to_json <$> deck_stats s) = Some (deck_stats s)) as ->.
  { induction Hd as [|d l Hd _ IH]; [done|].
    rewrite fmap_cons. cbn [mapM]. rewrite deck_stats_of_to_json by done. simpl. by rewrite IH. }
  by destruct s.
Qed.

Lemma deck_small n d : deck_stats_ok d → json_small (S n) (deck_stats_to_json d).
Proof.
  intros [Hi Hc]. change (Is_true (json_small n (JInt (deck_id d)) &&
    (true && (json_small n (JInt (card_count d)) && true)))).
  rewrite !andb_True. by split_and!; try apply json_small_int.
Qed.
Lemma stats_small n s : stats_ok s → json_small (3 + n) (stats_to_json s).
Proof.
  intros (Hc & Hd & Hn & Hr & Hds). set (m := 2 + n).
  change (Is_true (json_small m (JInt (total_cards s)) && (json_small m (JInt (total_decks s)) &&
    (json_small m (JInt (total_notes s)) && (json_small m (JInt (total_revlog s)) &&
      (forallb (json_small (1 + n)) (deck_stats_to_json <$> deck_stats s) && true)))))).
  rewrite !andb_True. split_and!; try (by apply json_small_int); [|done].
  induction Hds as [|d l Hd' _ IH]; [done|]. rewrite fmap_cons. cbn [forallb]. apply andb_True.
  split; [by apply deck_small|exact IH].
Qed.
Lemma stats_to_json_plain s : json_plain (stats_to_json s).
Proof.
  simpl. rewrite andb_true_r. induction (deck_stats s) as [|d l IH]; simpl; done.
Qed.
Lemma stats_readable s : stats_ok s → json_readable (stats_to_json s).
Proof. intros Hs. split; [apply stats_to_json_plain|by apply (stats_small 124)]. Qed.

Section text.
Context `{!SerdeJson, !SerdeJsonLaws}.

(** [serde_json::to_string] and [from_str::<BackupStats>]. *)
Definition stats_to_text (s : BackupStats) : string := json_to_string (stats_to_json s).
Definition stats_from_text (raw : string) : option BackupStats :=
  json_from_str raw ≫= stats_of_json.

Lemma stats_from_to_text s : stats_ok s → stats_from_text (stats_to_text s) = Some s.
Proof.
  intros. unfold stats_from_text, stats_to_text.
  rewrite json_from_to_string by (by apply stats_readable). by apply stats_of_to_json.
Qed.
End text.
