(* ===== verification/Sha256.v ===== *)
(** * SHA-256 and hexadecimal text

    What the crates [sha2] and [hex] document: SHA-256 of FIPS 180-4, written out at
    its width, and lower-case hexadecimal digits.  [HashLaws] says that the crates
    compute them.  The content hash of [crates/core/src/hash.rs] is then 64
    hexadecimal digits that determine the digest, and the tests of [hash.rs]
    pass. *)

From S2P Require Import Prelude Calendar World Crates Core.

(** ** Words of 32 bits *)

Definition w32 (z : Z) : Z := (z mod 2 ^ 32)%Z.
Definition add32 (x y : Z) : Z := w32 (x + y).
Definition rotr (n x : Z) : Z := Z.lor (Z.shiftr x n) (w32 (Z.shiftl x (32 - n))).
Definition not32 (x : Z) : Z := Z.lxor x 0xffffffff.

Definition ch (x y z : Z) : Z := Z.lxor (Z.land x y) (Z.land (not32 x) z).
Definition maj (x y z : Z) : Z := Z.lxor (Z.lxor (Z.land x y) (Z.land x z)) (Z.land y z).
Definition big_sigma0 (x : Z) : Z := Z.lxor (Z.lxor (rotr 2 x) (rotr 13 x)) (rotr 22 x).
Definition big_sigma1 (x : Z) : Z := Z.lxor (Z.lxor (rotr 6 x) (rotr 11 x)) (rotr 25 x).
Definition small_sigma0 (x : Z) : Z := Z.lxor (Z.lxor (rotr 7 x) (rotr 18 x)) (Z.shiftr x 3).
Definition small_sigma1 (x : Z) : Z := Z.lxor (Z.lxor (rotr 17 x) (rotr 19 x)) (Z.shiftr x 10).

(** ** Constants *)

(** The constants are the first 32 bits of the fractional parts of the cube roots of
    the first 64 primes, and of the square roots of the first eight. *)
Definition divides (d n : Z) : bool := (n mod d =? 0)%Z.
Definition first_primes : list Z := Eval vm_compute in
  filter (λ n, forallb (λ d, negb (divides d n)) (seqZ 2 (n - 2)) = true) (seqZ 2 310).
(** The integer cube root of a number below [2 ^ 105], bit by bit. *)
Definition cube_root (n : Z) : Z :=
  foldl (λ r i, let r' := (r + 2 ^ i)%Z in if (r' ^ 3 <=? n)%Z then r' else r) 0%Z (reverse (seqZ 0 35)).
Definition round_constants : list Z := Eval vm_compute in
  (λ p, w32 (cube_root (p * 2 ^ 96))) <$> first_primes.
Definition initial_hash : list Z := Eval vm_compute in
  (λ p, w32 (Z.sqrt (p * 2 ^ 64))) <$> take 8 first_primes.

Example first_primes_ok : length first_primes = 64 ∧ last first_primes = Some 311%Z.
Proof. split; reflexivity. Qed.
Example cube_roots_ok : forallb (λ p, let r := cube_root (p * 2 ^ 96) in
  (r ^ 3 <=? p * 2 ^ 96)%Z && (p * 2 ^ 96 <? (r + 1) ^ 3)%Z) first_primes = true.
Proof. vm_compute. reflexivity. Qed.
Example constants_ok : (head round_constants, last round_constants, head initial_hash) =
  (Some 0x428a2f98, Some 0xc67178f2, Some 0x6a09e667)%Z.
Proof. reflexivity. Qed.

(** ** Bytes and blocks *)

Definition byte_of_Z (z : Z) : Byte.byte := default Byte.x00 (Byte.of_N (Z.to_N (z mod 256))).
Definition Z_of_byte (b : Byte.byte) : Z := Z.of_N (Byte.to_N b).
(** [n] bytes, the most significant first. *)
Fixpoint be_bytes (n : nat) (z : Z) : bytes :=
  match n with
  | O => []
  | S n => byte_of_Z (Z.shiftr z (8 * Z.of_nat n)) :: be_bytes n z
  end.
Definition be_value (b : bytes) : Z := foldl (λ acc x, acc * 256 + Z_of_byte x)%Z 0%Z b.

(** [l] in pieces of [n] elements; a shorter rest is left out. *)
Fixpoint chunks {A} (n fuel : nat) (l : list A) : list (list A) :=
  match fuel with
  | O => []
  | S fuel => if decide (n ≤ length l) then take n l :: chunks n fuel (drop n l) else []
  end.

(** The message, a one bit, zeros, and the length in bits as 64 bits. *)
Definition zero_count (n : nat) : nat := (119 - n mod 64) mod 64.
Definition pad (m : bytes) : bytes :=
  m ++ Byte.x80 :: replicate (zero_count (length m)) Byte.x00 ++
  be_bytes 8 (8 * Z.of_nat (length m)).
Definition blocks (m : bytes) : list bytes := let p := pad m in chunks 64 (length p / 64) p.

(** ** Compression *)

(** The message schedule, extended from the last sixteen words, latest first. *)
Definition schedule_word (ws : list Z) : Z :=
  match ws !! 1, ws !! 6, ws !! 14, ws !! 15 with
  | Some w2, Some w7, Some w15, Some w16 =>
      add32 (add32 (small_sigma1 w2) w7) (add32 (small_sigma0 w15) w16)
  | _, _, _, _ => 0%Z
  end.
Fixpoint extend (n : nat) (ws : list Z) : list Z :=
  match n with
  | O => ws
  | S n => extend n (schedule_word ws :: ws)
  end.
Definition schedule (block : bytes) : list Z :=
  reverse (extend 48 (reverse (be_value <$> chunks 4 16 block))).

Definition round (h : list Z) (kw : Z * Z) : list Z :=
  match h with
  | [a; b; c; d; e; f; g; h] =>
      let t1 := add32 (add32 h (big_sigma1 e)) (add32 (ch e f g) (add32 kw.1 kw.2)) in
      let t2 := add32 (big_sigma0 a) (maj a b c) in
      [add32 t1 t2; a; b; c; add32 d t1; e; f; g]
  | h => h
  end.
Definition compress (h : list Z) (block : bytes) : list Z :=
  zip_with add32 h (foldl round h (zip round_constants (schedule block))).
Definition fips_sha256 (m : bytes) : bytes :=
  foldl compress initial_hash (blocks m) ≫= be_bytes 4.

(** Lower-case hexadecimal digits, two per byte. *)
Fixpoint hex_text (b : bytes) : string :=
  match b with [] => "" | x :: b => enc 16 2 (Z_of_byte x) +:+ hex_text b end.

(** The vectors of the standard. *)
Example fips_vector_empty : hex_text (fips_sha256 []) =
  "e3b0c44298fc1c149afbf4c8996fb92427ae41e4649b934ca495991b7852b855".
Proof. vm_compute. reflexivity. Qed.
Example fips_vector_abc : hex_text (fips_sha256 (bytes_of_string "abc")) =
  "ba7816bf8f01cfea414140de5dae2223b00361a396177a9cb410ff61f20015ad".
Proof. vm_compute. reflexivity. Qed.
Example fips_vector_two_blocks :
  hex_text (fips_sha256 (bytes_of_string "abcdbcdecdefdefgefghfghighijhijkijkljklmklmnlmnomnopnopq")) =
  "248d6a61d20638b8e5c026930c3e6039a33ce45964ff2167f6ecedd419db06c1".
Proof. vm_compute. reflexivity. Qed.

(** ** Nothing is cut off *)

Lemma be_bytes_length n z : length (be_bytes n z) = n.
Proof. induction n as [|n IH]; simpl; congruence. Qed.
Lemma pad_length m : length (pad m) mod 64 = 0.
Proof.
  unfold pad. rewrite length_app. cbn [length]. rewrite length_app, length_replicate, be_bytes_length.
  unfold zero_count. set (n := length m). clearbody n.
  pose proof (Nat.mod_upper_bound n 64 ltac:(lia)). pose proof (Nat.div_mod n 64 ltac:(lia)).
  pose proof (Nat.mod_upper_bound (119 - n mod 64) 64 ltac:(lia)).
  pose proof (Nat.div_mod (119 - n mod 64) 64 ltac:(lia)).
  replace (n + S ((119 - n mod 64) mod 64 + 8))
    with ((n / 64 + 2 - (119 - n mod 64) / 64) * 64) by lia.
  apply Nat.Div0.mod_mul.
Qed.
Lemma chunks_concat {A} n fuel (l : list A) : length l = fuel * n → concat (chunks n fuel l) = l.
Proof.
  revert l. induction fuel as [|fuel IH]; intros l Hl; simpl.
  - symmetry. by apply nil_length_inv.
  - rewrite decide_True by lia. simpl. rewrite IH; [apply take_drop|]. rewrite length_drop. lia.
Qed.
(** The blocks are the padded message. *)
Lemma blocks_concat m : concat (blocks m) = pad m.
Proof.
  unfold blocks. cbv zeta. apply chunks_concat. pose proof (pad_length m).
  pose proof (Nat.div_mod (length (pad m)) 64 ltac:(lia)). lia.
Qed.
Lemma pad_prefix m : m `prefix_of` pad m.
Proof. by eexists. Qed.

(** ** The digest has 256 bits *)

Lemma extend_length n ws : length (extend n ws) = n + length ws.
Proof. revert ws. induction n as [|n IH]; intros ws; simpl; [done|]. rewrite IH. simpl. lia. Qed.
Lemma round_length h kw : length (round h kw) = length h.
Proof. unfold round. by do 9 (destruct h as [|? h]; [done|]). Qed.
Lemma rounds_length kws h : length (foldl round h kws) = length h.
Proof.
  revert h. induction kws as [|kw kws IH]; intros h; cbn [foldl]; [done|]. by rewrite IH, round_length.
Qed.
Lemma compress_length h block : length (compress h block) = length h.
Proof. unfold compress. rewrite length_zip_with, rounds_length. lia. Qed.
Lemma be_words_length (ws : list Z) : length (ws ≫= be_bytes 4) = 4 * length ws.
Proof.
  induction ws as [|x ws IH]; [done|]. rewrite bind_cons, length_app, IH, be_bytes_length. simpl. lia.
Qed.
Lemma fips_sha256_length m : length (fips_sha256 m) = 32.
Proof.
  unfold fips_sha256. rewrite be_words_length.
  enough (∀ bs h, length (foldl compress h bs) = length h) as -> by done.
  intros bs. induction bs as [|b bs IH]; intros h; cbn [foldl]; [done|]. by rewrite IH, compress_length.
Qed.

(** ** Hexadecimal text *)

Definition is_hex_digit (c : Ascii.ascii) : bool :=
  match char_digit c with Some _ => true | None => false end.
Lemma Z_of_byte_range x : (0 ≤ Z_of_byte x < 256)%Z.
Proof. unfold Z_of_byte. pose proof (Byte.to_N_bounded x). lia. Qed.
#[export] Instance Z_of_byte_inj : Inj (=) (=) Z_of_byte.
Proof.
  intros x y Heq%N2Z.inj. apply (f_equal Byte.of_N) in Heq. rewrite !Byte.of_to_N in Heq. congruence.
Qed.

Lemma hex_text_length b : String.length (hex_text b) = 2 * length b.
Proof.
  induction b as [|x b IH]; [done|]. cbn [hex_text length]. rewrite string_app_length, IH, enc_length. lia.
Qed.
Lemma hex_text_digits b : all_chars is_hex_digit (hex_text b) = true.
Proof.
  induction b as [|x b IH]; [done|]. cbn [hex_text]. rewrite all_chars_app, IH, andb_true_r.
  by destruct x.
Qed.
#[export] Instance hex_text_inj : Inj (=) (=) hex_text.
Proof.
  intros b1. induction b1 as [|x b1 IH]; intros [|y b2] Heq; [done|done|done|]. cbn [hex_text] in Heq.
  apply string_app_inj_length in Heq as [Hx Hb]; [|by rewrite !enc_length].
  apply enc_inj in Hx; [|lia|apply Z_of_byte_range|apply Z_of_byte_range].
  f_equal; [by apply (inj Z_of_byte)|by apply IH].
Qed.

(** ** The crates, and the tests of [hash.rs] *)

Class HashLaws `{!HashCrates} : Prop := {
  sha256_law b : sha256 b = fips_sha256 b;
  hex_encode_law b : hex_encode b = hex_text b;
}.

Section hash.
Context `{!HashCrates, !HashLaws}.

Lemma content_hash_eq m : content_hash m = hex_text (fips_sha256 m).
Proof. unfold content_hash. by rewrite hex_encode_law, sha256_law. Qed.
Lemma content_hash_length m : String.length (content_hash m) = 64.
Proof. by rewrite content_hash_eq, hex_text_length, fips_sha256_length. Qed.
Lemma content_hash_digits m : all_chars is_hex_digit (content_hash m) = true.
Proof. rewrite content_hash_eq. apply hex_text_digits. Qed.
Lemma content_hash_iff m1 m2 : content_hash m1 = content_hash m2 ↔ fips_sha256 m1 = fips_sha256 m2.
Proof. rewrite !content_hash_eq. split; [apply (inj hex_text)|by intros ->]. Qed.
End hash.
