(* ===== verification/Store.v ===== *)
(** * The metadata store interface

    Models the trait [MetadataStore] ([crates/storage/src/store.rs]) as a type
    class of operations, and states what the trait's comments promise as a second
    class: an abstract state (the list of entries and of rollback events) and the
    effect of each operation on it, in every outcome.  [Sqlite.v] and
    [Postgres.v] are the two implementations; the repository ([Repository.v]) is
    verified against this file only. *)

From S2P Require Import Prelude Calendar World Crates Core.

(** ** The trait *)

Class MetadataStore (S : Type) := {
  insert_entry : BackupEntry → M S ();
  list_backups : M S (list BackupEntry);
  get_backup : Uuid → M S (option BackupEntry);
  insert_rollback_event : Uuid → M S ();
  last_created_hash : M S (option string);
  prune_created_before : DateTime → M S (list (string * string));
}.

(** ** Its abstract state *)

Class StoreModel (S : Type) := {
  (** the entries, in no particular order *)
  st_entries : S → list BackupEntry;
  (** rollback events: event id and backup id, oldest first *)
  st_events : S → list (Uuid * Uuid);
  (** representation invariant *)
  st_wf : S → Prop;
  (** the instant a stored instant reads back as *)
  st_time : DateTime → DateTime;
}.

(** The entry a store keeps for [e]. *)
Definition stored_entry {S} `{!StoreModel S} (e : BackupEntry) : BackupEntry := {|
  id := id e;
  created_at := st_time (created_at e);
  timestamp_dir := timestamp_dir e;
  content_hash_of := content_hash_of e;
  status := status e;
  skip_reason := skip_reason e;
  source_revision := source_revision e;
  sync_duration_ms := sync_duration_ms e;
  size_bytes := size_bytes e;
  stats := stats e;
|}.

(** A created entry older than the cutoff. *)
Definition prunable {S} `{!StoreModel S} (cutoff : DateTime) (e : BackupEntry) : Prop :=
  status e = Created ∧ (created_at e < st_time cutoff)%Z.
#[export] Instance prunable_dec {S} `{!StoreModel S} cutoff e : Decision (prunable cutoff e).
Proof. unfold prunable. apply _. Defined.

(** Newest first. *)
Definition newest_first : list BackupEntry → Prop :=
  StronglySorted (λ a b, created_at b ≤ created_at a)%Z.

(** [e] is a most recent created entry of [l]. *)
Definition latest_created (l : list BackupEntry) (e : BackupEntry) : Prop :=
  e ∈ l ∧ status e = Created ∧
  ∀ e', e' ∈ l → status e' = Created → (created_at e' ≤ created_at e)%Z.

(** The head of the created entries sorted newest first is a latest one. *)
Lemma latest_created_head (l l' : list BackupEntry) :
  l' ≡ₚ filter (λ e, status e = Created) l → newest_first l' →
  match head l' with
  | Some e => latest_created l e
  | None => ∀ e, e ∈ l → status e ≠ Created
  end.
Proof.
  intros Hp Hs.
  assert (∀ e, e ∈ l' ↔ status e = Created ∧ e ∈ l) as Hin.
  { intros e. by rewrite Hp, list_elem_of_filter. }
  destruct l' as [|e l']; simpl.
  - intros e He Hc. by eapply not_elem_of_nil, Hin.
  - destruct (proj1 (Hin e)) as [Hc He]; [left|]. split_and!; [done..|]. intros e' He' Hc'.
    inversion Hs as [|?? _ Hall]; subst. rewrite Forall_forall in Hall.
    assert (e' ∈ e :: l') as [->|?]%elem_of_cons by (by apply Hin); [lia|]. by apply Hall.
Qed.

(** A store operation changes the database only; it may read the clock and draw
    identifiers. *)
Definition db_only {S} (w w' : World S) : Prop :=
  w_fs w' = w_fs w ∧ w_gate w' = w_gate w ∧ w_sent w' = w_sent w ∧ w_log w' = w_log w ∧
  w_clock w ≤ w_clock w' ∧ w_uuid w ≤ w_uuid w' ∧
  w_random w' = w_random w ∧ w_elapsed w' = w_elapsed w.

Lemma db_only_refl {S} (w : World S) : db_only w w.
Proof. repeat split; lia. Qed.
Lemma db_only_trans {S} (w1 w2 w3 : World S) : db_only w1 w2 → db_only w2 w3 → db_only w1 w3.
Proof.
  intros (?&?&?&?&?&?&?&?) (?&?&?&?&?&?&?&?). repeat split; try congruence; lia.
Qed.
Lemma db_only_tick_io {S} (w : World S) : db_only w (tick_io w).
Proof. repeat split; simpl; lia. Qed.
Lemma db_only_tick_clock {S} (w : World S) : db_only w (tick_clock w).
Proof. repeat split; simpl; lia. Qed.
Lemma db_only_tick_uuid {S} (w : World S) : db_only w (tick_uuid w).
Proof. repeat split; simpl; lia. Qed.
Lemma db_only_set_db {S} (w : World S) db : db_only w (set_db db w).
Proof. repeat split; simpl; lia. Qed.
#[export] Hint Resolve db_only_refl db_only_tick_io db_only_tick_clock db_only_tick_uuid
  db_only_set_db : backup.
#[export] Instance db_only_preorder {S} : PreOrder (@db_only S).
Proof. split; [intros ?; apply db_only_refl|intros ???; apply db_only_trans]. Qed.

(** ** The contract *)

Class StoreLaws (S : Type) `{!Env, !UuidCrate, !MetadataStore S, !StoreModel S} : Prop := {
  st_ids_nodup db : st_wf db → NoDup (id <$> st_entries db);
  st_entries_ok db e : st_wf db → e ∈ st_entries db → uuid_ok (id e);
  (** stored instants keep their order *)
  st_time_mono t1 t2 : (t1 ≤ t2)%Z → (st_time t1 ≤ st_time t2)%Z;

  (** insertion adds the entry, or fails; a failure may follow the commit *)
  insert_entry_law e w : st_wf (w_db w) → entry_ok e →
    wp (insert_entry e) (λ r w', db_only w w' ∧ st_wf (w_db w') ∧
      st_events (w_db w') = st_events (w_db w) ∧
      let inserted := (id e ∉ (id <$> st_entries (w_db w))) ∧
        st_entries (w_db w') ≡ₚ stored_entry e :: st_entries (w_db w) in
      match r with
      | Ok _ => inserted
      | Err _ => st_entries (w_db w') ≡ₚ st_entries (w_db w) ∨ inserted
      | Panic _ => False
      end) w;
  insert_entry_total e w : st_wf (w_db w) → entry_ok e → fault_free →
    id e ∉ (id <$> st_entries (w_db w)) → wp (insert_entry e) (λ r _, r = Ok ()) w;

  (** listing returns every entry, newest first *)
  list_backups_law w : st_wf (w_db w) →
    wp list_backups (λ r w', db_only w w' ∧ w_db w' = w_db w ∧
      match r with
      | Ok l => l ≡ₚ st_entries (w_db w) ∧ newest_first l
      | Err _ => True
      | Panic _ => False
      end) w;
  list_backups_total w : st_wf (w_db w) → fault_free →
    wp list_backups (λ r _, ∃ l, r = Ok l) w;

  (** lookup by identifier *)
  get_backup_law i w : st_wf (w_db w) → uuid_ok i →
    wp (get_backup i) (λ r w', db_only w w' ∧ w_db w' = w_db w ∧
      match r with
      | Ok (Some e) => e ∈ st_entries (w_db w) ∧ id e = i
      | Ok None => i ∉ (id <$> st_entries (w_db w))
      | Err _ => True
      | Panic _ => False
      end) w;
  get_backup_total i w : st_wf (w_db w) → uuid_ok i → fault_free →
    wp (get_backup i) (λ r _, ∃ o, r = Ok o) w;

  (** a rollback event is appended *)
  insert_rollback_event_law i w : st_wf (w_db w) → uuid_ok i →
    (∀ n, uuid_ok (fresh_uuid n)) →
    wp (insert_rollback_event i) (λ r w', db_only w w' ∧ st_wf (w_db w') ∧
      st_entries (w_db w') = st_entries (w_db w) ∧
      let recorded := st_events (w_db w') = st_events (w_db w) ++ [(fresh_uuid (w_uuid w), i)] in
      match r with
      | Ok _ => recorded
      | Err _ => st_events (w_db w') = st_events (w_db w) ∨ recorded
      | Panic _ => False
      end) w;
  insert_rollback_event_total i w : st_wf (w_db w) → uuid_ok i →
    (∀ n, uuid_ok (fresh_uuid n)) → fault_free →
    fresh_uuid (w_uuid w) ∉ (st_events (w_db w)).*1 →
    wp (insert_rollback_event i) (λ r _, r = Ok ()) w;

  (** the hash of a most recent created entry *)
  last_created_hash_law w : st_wf (w_db w) →
    wp last_created_hash (λ r w', db_only w w' ∧ w_db w' = w_db w ∧
      match r with
      | Ok (Some h) => ∃ e, latest_created (st_entries (w_db w)) e ∧ content_hash_of e = h
      | Ok None => ∀ e, e ∈ st_entries (w_db w) → status e ≠ Created
      | Err _ => True
      | Panic _ => False
      end) w;
  last_created_hash_total w : st_wf (w_db w) → fault_free →
    wp last_created_hash (λ r _, ∃ o, r = Ok o) w;

  (** pruning removes the created entries older than the cutoff and says which;
      a failure may have removed some of them *)
  prune_created_before_law cutoff w : st_wf (w_db w) → rfc3339_range cutoff →
    wp (prune_created_before cutoff) (λ r w', db_only w w' ∧ st_wf (w_db w') ∧
      st_events (w_db w') = st_events (w_db w) ∧
      match r with
      | Ok doomed =>
          doomed ≡ₚ (λ e, (uuid_to_string (id e), timestamp_dir e)) <$>
                      filter (prunable cutoff) (st_entries (w_db w)) ∧
          st_entries (w_db w') ≡ₚ filter (λ e, ¬ prunable cutoff e) (st_entries (w_db w))
      | Err _ => ∃ gone, Forall (prunable cutoff) gone ∧
          st_entries (w_db w) ≡ₚ gone ++ st_entries (w_db w')
      | Panic _ => False
      end) w;
  prune_created_before_total cutoff w : st_wf (w_db w) → rfc3339_range cutoff → fault_free →
    wp (prune_created_before cutoff) (λ r _, ∃ l, r = Ok l) w;
}.

(** ** Opening *)

(** The constructor of a store, which creates the tables it does not find. *)
Class StoreOpen (S : Type) := {
  store_new : M S ();
  (** the database with every table present *)
  migrate : S → S;
}.

Class StoreOpenLaws (S : Type) `{!Env, !StoreModel S, !StoreOpen S} : Prop := {
  migrate_entries db : st_entries (migrate db) = st_entries db;
  migrate_events db : st_events (migrate db) = st_events db;
  (** a well-formed database has its tables *)
  migrate_wf db : st_wf db → migrate db = db;
  (** opening migrates, and never loses a row *)
  store_new_law w :
    wp store_new (λ r w', db_only w w' ∧ migrate (w_db w') = migrate (w_db w) ∧
      (st_wf (w_db w) → w_db w' = w_db w) ∧
      match r with
      | Ok _ => w_db w' = migrate (w_db w)
      | Err _ => ¬ fault_free
      | Panic _ => False
      end) w;
}.
