(* ===== verification/Sqlite.v ===== *)
(** * The SQLite metadata store

    Models [crates/storage/src/sqlite_store.rs].  A database is its two tables,
    absent until [init_db] has run; rows hold what the INSERT statements bind:
    identifiers, instants and statistics as text.  Every statement is an
    interaction that can fail.  The second half proves that the implementation
    meets the store contract of [Store.v]. *)

From S2P Require Import Prelude Calendar World Crates Core Store.

(** ** Tables *)

Record SqliteRow := {
  r_id : string;
  r_created_at : string;
  r_timestamp_dir : string;
  r_content_hash : string;
  r_status : string;
  r_skip_reason : option string;
  r_source_revision : option string;
  r_sync_duration_ms : option Z;
  r_size_bytes : Z;
  r_stats_json : option string;
}.

Record SqliteEvent := {
  ev_id : string;
  ev_backup_id : string;
  ev_created_at : string;
}.

Record SqliteDb := {
  t_backups : option (list SqliteRow);
  t_events : option (list SqliteEvent);
}.

Definition set_backups (rows : list SqliteRow) (db : SqliteDb) : SqliteDb :=
  {| t_backups := Some rows; t_events := t_events db |}.
Definition set_events (evs : list SqliteEvent) (db : SqliteDb) : SqliteDb :=
  {| t_backups := t_backups db; t_events := Some evs |}.

(** ** Text encodings *)

Definition status_str (s : BackupStatus) : string :=
  match s with Created => "created" | Skipped => "skipped" end.
Definition parse_status (raw : string) : BackupStatus :=
  if eq_ignore_ascii_case raw "skipped" then Skipped else Created.
Definition skip_reason_str (r : BackupSkipReason) : string :=
  match r with Unchanged => "unchanged" end.
Definition parse_skip_reason (raw : string) : BackupSkipReason :=
  if decide (raw = "unchanged") then Unchanged else Unchanged.

Section sqlite.
Context `{!Env, !Chrono, !UuidCrate, !SerdeJson, !SqlEngine}.
Abbreviation MS := (M SqliteDb).

(** An unreadable identifier becomes the nil one. *)
Definition parse_uuid (raw : string) : Uuid := default uuid_nil (uuid_parse_str raw).
(** An unreadable instant becomes the present. *)
Definition parse_ts (raw : string) : MS DateTime :=
  match parse_from_rfc3339 raw with Some t => mret t | None => now end.

(** The values the INSERT statement binds. *)
Definition entry_to_row (e : BackupEntry) : SqliteRow := {|
  r_id := uuid_to_string (id e);
  r_created_at := to_rfc3339 (created_at e);
  r_timestamp_dir := timestamp_dir e;
  r_content_hash := content_hash_of e;
  r_status := status_str (status e);
  r_skip_reason := skip_reason_str <$> skip_reason e;
  r_source_revision := source_revision e;
  r_sync_duration_ms := sync_duration_ms e;
  r_size_bytes := size_bytes e;
  r_stats_json := stats_to_text <$> stats e;
|}.

Definition row_to_entry (row : SqliteRow) : MS BackupEntry :=
  t ← parse_ts (r_created_at row);
  st ← match r_stats_json row with
       | None => mret None
       | Some raw => s ← from_option ["FromSqlConversionFailure"] (stats_from_text raw); mret (Some s)
       end;
  mret {|
    id := parse_uuid (r_id row);
    created_at := t;
    timestamp_dir := r_timestamp_dir row;
    content_hash_of := r_content_hash row;
    status := parse_status (r_status row);
    skip_reason := parse_skip_reason <$> r_skip_reason row;
    source_revision := r_source_revision row;
    sync_duration_ms := r_sync_duration_ms row;
    size_bytes := r_size_bytes row;
    stats := st;
  |}.

(** ** Operations *)

Definition connect : MS () := context "open metadata db" io_step.

(** [CREATE TABLE IF NOT EXISTS], in one batch: the first statement may have
    been executed when the second fails. *)
Definition init_db : MS () :=
  connect;;
  io_step;;
  modify (λ w, set_db {| t_backups := Some (default [] (t_backups (w_db w)));
                         t_events := t_events (w_db w) |} w);;
  io_step;;
  modify (λ w, set_db {| t_backups := t_backups (w_db w);
                         t_events := Some (default [] (t_events (w_db w))) |} w).

(** Preparing a statement on a table. *)
Definition backups_table : MS (list SqliteRow) :=
  io_step;;
  db ← gets w_db;
  from_option ["no such table: backups"] (t_backups db).
Definition events_table : MS (list SqliteEvent) :=
  io_step;;
  db ← gets w_db;
  from_option ["no such table: rollback_events"] (t_events db).

Definition sqlite_insert_entry (e : BackupEntry) : MS () :=
  connect;;
  rows ← backups_table;
  if decide (uuid_to_string (id e) ∈ r_id <$> rows)
  then fail ["UNIQUE constraint failed: backups.id"]
  else modify (λ w, set_db (set_backups (rows ++ [entry_to_row e]) (w_db w)) w).

Definition created_at_lt (a b : SqliteRow) : bool := str_lt (r_created_at a) (r_created_at b).

Definition sqlite_list_backups : MS (list BackupEntry) :=
  connect;;
  rows ← backups_table;
  mapM row_to_entry (sql_order_desc created_at_lt rows).

Definition sqlite_get_backup (i : Uuid) : MS (option BackupEntry) :=
  connect;;
  rows ← backups_table;
  match sql_scan (filter (λ row, r_id row = uuid_to_string i) rows) with
  | [] => mret None
  | row :: _ => e ← row_to_entry row; mret (Some e)
  end.

Definition sqlite_insert_rollback_event (backup_id : Uuid) : MS () :=
  connect;;
  i ← new_v4;
  t ← now;
  evs ← events_table;
  if decide (uuid_to_string i ∈ ev_id <$> evs)
  then fail ["UNIQUE constraint failed: rollback_events.id"]
  else modify (λ w, set_db (set_events (evs ++ [{| ev_id := uuid_to_string i;
                                                   ev_backup_id := uuid_to_string backup_id;
                                                   ev_created_at := to_rfc3339 t |}]) (w_db w)) w).

Definition sqlite_last_created_hash : MS (option string) :=
  connect;;
  rows ← backups_table;
  mret (r_content_hash <$>
    head (sql_order_desc created_at_lt (filter (λ row, r_status row = "created") rows))).

(** [DELETE FROM backups WHERE id = ?1]. *)
Definition delete_row (i : string) : MS () :=
  io_step;;
  modify (λ w, set_db {| t_backups := filter (λ row, r_id row ≠ i) <$> t_backups (w_db w);
                         t_events := t_events (w_db w) |} w).

Fixpoint delete_rows (doomed : list (string * string)) : MS () :=
  match doomed with
  | [] => mret ()
  | (i, _) :: doomed => delete_row i;; delete_rows doomed
  end.

Definition sqlite_prune_created_before (cutoff : DateTime) : MS (list (string * string)) :=
  connect;;
  rows ← backups_table;
  let doomed := (λ row, (r_id row, r_timestamp_dir row)) <$>
    sql_scan (filter (λ row, r_status row = "created" ∧
                             str_lt (r_created_at row) (to_rfc3339 cutoff)) rows) in
  delete_rows doomed;;
  mret doomed.

#[export] Instance sqlite_store : MetadataStore SqliteDb := {
  insert_entry := sqlite_insert_entry;
  list_backups := sqlite_list_backups;
  get_backup := sqlite_get_backup;
  insert_rollback_event := sqlite_insert_rollback_event;
  last_created_hash := sqlite_last_created_hash;
  prune_created_before := sqlite_prune_created_before;
}.

(** [SqliteStore::new]. *)
Definition sqlite_new : MS () := init_db.

(** The database [init_db] aims for. *)
Definition sqlite_migrate (db : SqliteDb) : SqliteDb :=
  {| t_backups := Some (default [] (t_backups db)); t_events := Some (default [] (t_events db)) |}.
#[export] Instance sqlite_open : StoreOpen SqliteDb :=
  { store_new := sqlite_new; migrate := sqlite_migrate }.
End sqlite.

(** ** Reading rows back *)

Lemma parse_status_str s : parse_status (status_str s) = s.
Proof. by destruct s. Qed.
Lemma parse_skip_reason_str r : parse_skip_reason (skip_reason_str r) = r.
Proof. by destruct r. Qed.
Lemma status_str_created s : status_str s = "created" ↔ s = Created.
Proof. by destruct s. Qed.

Section sqlite_model.
Context `{!Env, !Chrono, !UuidCrate, !SerdeJson, !SqlEngine}.

(** The entry of a row whose texts are all readable. *)
Definition row_entry (row : SqliteRow) : option BackupEntry :=
  t ← parse_from_rfc3339 (r_created_at row);
  i ← uuid_parse_str (r_id row);
  st ← match r_stats_json row with
       | None => Some None
       | Some raw => Some <$> stats_from_text raw
       end;
  Some {|
    id := i;
    created_at := t;
    timestamp_dir := r_timestamp_dir row;
    content_hash_of := r_content_hash row;
    status := parse_status (r_status row);
    skip_reason := parse_skip_reason <$> r_skip_reason row;
    source_revision := r_source_revision row;
    sync_duration_ms := r_sync_duration_ms row;
    size_bytes := r_size_bytes row;
    stats := st;
  |}.

Definition event_pair (ev : SqliteEvent) : option (Uuid * Uuid) :=
  i ← uuid_parse_str (ev_id ev); b ← uuid_parse_str (ev_backup_id ev); Some (i, b).

Definition event_ok (ev : SqliteEvent) : Prop :=
  ∃ i b, uuid_ok i ∧ uuid_ok b ∧ ev_id ev = uuid_to_string i ∧ ev_backup_id ev = uuid_to_string b.

Definition sqlite_rows (db : SqliteDb) (es : list BackupEntry) : Prop :=
  t_backups db = Some (entry_to_row <$> es) ∧ Forall entry_ok es ∧ NoDup (id <$> es).

#[export] Instance sqlite_model : StoreModel SqliteDb := {
  st_entries db := omap row_entry (default [] (t_backups db));
  st_events db := omap event_pair (default [] (t_events db));
  st_wf db := (∃ es, sqlite_rows db es) ∧ (∃ evs, t_events db = Some evs ∧ Forall event_ok evs);
  st_time t := t;
}.

Lemma row_to_entry_run row e w : row_entry row = Some e → row_to_entry row w = (Ok e, w).
Proof.
  unfold row_entry, row_to_entry, parse_ts, parse_uuid.
  destruct (parse_from_rfc3339 _) as [t|]; simpl; [|done].
  destruct (uuid_parse_str _) as [i|]; simpl; [|done].
  destruct (r_stats_json row) as [raw|]; simpl; [|by intros [= <-]].
  destruct (stats_from_text raw) as [s|]; simpl; [|done]. by intros [= <-].
Qed.

Context `{!ChronoLaws, !UuidLaws, !SerdeJsonLaws, !SqlEngineLaws}.

(** Encoding an entry into a row and reading it back gives the entry. *)
Lemma row_entry_to_row e : entry_ok e → row_entry (entry_to_row e) = Some e.
Proof.
  intros (Hi & Ht & Hs & Hd & Hst). unfold row_entry, entry_to_row; simpl.
  rewrite parse_from_rfc3339_law, uuid_parse_to_string by done. simpl.
  rewrite parse_status_str.
  destruct e as [? ? ? ? ? sr ? ? ? [s|]]; simpl in *.
  - rewrite stats_from_to_text by auto. simpl. by destruct sr as [[]|].
  - by destruct sr as [[]|].
Qed.

Lemma sqlite_rows_entries db es : sqlite_rows db es → st_entries db = es.
Proof.
  intros (Hb & Hok & _). simpl. rewrite Hb. simpl. clear Hb.
  induction Hok as [|e l He _ IH]; [done|]. rewrite fmap_cons; simpl.
  rewrite row_entry_to_row by done. f_equal. apply IH.
Qed.

Lemma st_wf_rows db : st_wf db → sqlite_rows db (st_entries db).
Proof. intros [[es Hes] _]. by rewrite (sqlite_rows_entries _ _ Hes). Qed.

Lemma mapM_row_to_entry es w :
  Forall entry_ok es → mapM row_to_entry (entry_to_row <$> es) w = (Ok es, w).
Proof.
  induction 1 as [|e es He _ IH]; [done|]. rewrite fmap_cons.
  cbn [mapM]. unfold mbind, M_bind.
  rewrite (row_to_entry_run _ e) by (by apply row_entry_to_row).
  fold (M_bind SqliteDb). unfold mbind in IH. by rewrite IH.
Qed.

(** Rows in text order are entries in time order. *)
Lemma created_at_lt_rows e1 e2 : entry_ok e1 → entry_ok e2 →
  created_at_lt (entry_to_row e1) (entry_to_row e2) = (created_at e1 <? created_at e2)%Z.
Proof.
  intros (_ & Ha & _) (_ & Hb & _). unfold created_at_lt; simpl.
  by rewrite !to_rfc3339_law, rfc3339_autosi_lt.
Qed.

(** What ORDER BY created_at DESC yields on the rows of [es]. *)
Lemma order_rows es : Forall entry_ok es →
  ∃ es', sql_order_desc created_at_lt (entry_to_row <$> es) = entry_to_row <$> es' ∧
    es' ≡ₚ es ∧ newest_first es'.
Proof.
  apply order_images; unfold created_at_lt.
  - intros x. apply str_lt_irrefl.
  - intros x y z. apply str_lt_trans.
  - intros x y z. apply str_lt_cotrans.
  - apply created_at_lt_rows.
Qed.
End sqlite_model.

(** ** The contract is met *)

Section sqlite_laws.
Context `{!Env, !Chrono, !UuidCrate, !SerdeJson, !SqlEngine}.
Context `{!ChronoLaws, !UuidLaws, !SerdeJsonLaws, !SqlEngineLaws}.
Implicit Types w : World SqliteDb.

(** Opening the database and preparing a statement on [backups]. *)
Lemma wp_backups_table {A} rows (k : list SqliteRow → M SqliteDb A) Q w :
  t_backups (w_db w) = Some rows →
  (∀ e w', (∃ n, is_Some (fault n)) → db_only w w' → w_db w' = w_db w → Q (Err e) w') →
  wp (k rows) Q (tick_io (tick_io w)) →
  wp (connect;; (backups_table ≫= k)) Q w.
Proof.
  intros Hb Herr Hk. unfold connect, backups_table. wp_steps.
  destruct (fault (w_io w)) eqn:Hf; wp_steps.
  { apply Herr; eauto with backup. }
  cbn [w_io tick_io]. destruct (fault (S (w_io w))) eqn:Hf'; wp_steps.
  { apply Herr; eauto with backup. by do 2 (etrans; [|apply db_only_tick_io]). }
  cbn [w_db tick_io]. rewrite Hb. done.
Qed.

Lemma tick2_db_only w : db_only w (tick_io (tick_io w)).
Proof. etrans; apply db_only_tick_io. Qed.

Lemma fault_free_not : fault_free → ¬ (∃ n, is_Some (fault n)).
Proof. intros Hff [n Hn]. rewrite Hff in Hn. by apply is_Some_None in Hn. Qed.

Lemma row_ids es i : uuid_ok i → Forall entry_ok es →
  uuid_to_string i ∈ r_id <$> (entry_to_row <$> es) ↔ i ∈ id <$> es.
Proof.
  intros Hi Hok. rewrite <- list_fmap_compose, !list_elem_of_fmap. split.
  - intros (e & Heq & He). exists e. split; [|done]. rewrite Forall_forall in Hok.
    apply uuid_to_string_inj in Heq; [done..|]. by apply Hok.
  - intros (e & -> & He). by exists e.
Qed.

Lemma filter_rows_id es i : uuid_ok i → Forall entry_ok es →
  filter (λ row, r_id row = uuid_to_string i) (entry_to_row <$> es) =
  entry_to_row <$> filter (λ e, id e = i) es.
Proof.
  intros Hi Hok. apply filter_fmap_Forall. eapply Forall_impl; [done|]. intros e (He & _). simpl.
  split; [|by intros ->]. by apply uuid_to_string_inj.
Qed.

Lemma sqlite_insert_law e w : st_wf (w_db w) → entry_ok e →
  wp (sqlite_insert_entry e) (λ r w', db_only w w' ∧ st_wf (w_db w') ∧
    st_events (w_db w') = st_events (w_db w) ∧
    match r with
    | Ok _ => (id e ∉ (id <$> st_entries (w_db w))) ∧
        st_entries (w_db w') ≡ₚ e :: st_entries (w_db w)
    | Err _ => w_db w' = w_db w ∧
        (fault_free → id e ∈ (id <$> st_entries (w_db w)))
    | Panic _ => False
    end) w.
Proof.
  intros Hwf He. pose proof (st_wf_rows _ Hwf) as (Hb & Hok & Hnd).
  unfold sqlite_insert_entry. eapply wp_backups_table; [done| |].
  { intros err w' Hf Hdb Heq. rewrite Heq. split_and!; [done|done|done|done|].
    by intros ?%fault_free_not. }
  case_decide as Hin; wp_steps.
  - split_and!; [apply tick2_db_only|done|done|done|].
    intros _. apply row_ids in Hin; [done| |done]. apply He.
  - split; [etrans; [apply tick2_db_only|apply db_only_set_db]|].
    assert (id e ∉ (id <$> st_entries (w_db w))) as Hni.
    { intros Hi. apply Hin, row_ids; [apply He|done|done]. }
    assert (sqlite_rows (set_backups ((entry_to_row <$> st_entries (w_db w)) ++ [entry_to_row e]) (w_db w))
              (st_entries (w_db w) ++ [e])) as Hrows.
    { split_and!.
      - simpl. by rewrite fmap_app.
      - apply Forall_app; auto.
      - rewrite fmap_app. apply NoDup_app. split_and!; [done| |].
        + intros i Hi Hs. apply list_elem_of_singleton in Hs as ->. done.
        + apply NoDup_singleton. }
    cbn [w_db set_db tick_io]. split; [split; [by eexists|apply Hwf]|].
    split; [done|]. split; [done|].
    rewrite (sqlite_rows_entries _ _ Hrows). by rewrite Permutation_app_comm.
Qed.

Lemma sqlite_list_law w : st_wf (w_db w) →
  wp sqlite_list_backups (λ r w', db_only w w' ∧ w_db w' = w_db w ∧
    match r with
    | Ok l => l ≡ₚ st_entries (w_db w) ∧ newest_first l
    | Err _ => ¬ fault_free
    | Panic _ => False
    end) w.
Proof.
  intros Hwf. pose proof (st_wf_rows _ Hwf) as (Hb & Hok & Hnd).
  unfold sqlite_list_backups. eapply wp_backups_table; [done| |].
  { intros err w' Hf Hdb Heq. split_and!; auto. by intros ?%fault_free_not. }
  destruct (order_rows _ Hok) as (es' & -> & Hp & Hs).
  unfold wp. rewrite mapM_row_to_entry by (by rewrite Hp).
  split_and!; [apply tick2_db_only|done..].
Qed.

Lemma sqlite_get_law i w : st_wf (w_db w) → uuid_ok i →
  wp (sqlite_get_backup i) (λ r w', db_only w w' ∧ w_db w' = w_db w ∧
    match r with
    | Ok (Some e) => e ∈ st_entries (w_db w) ∧ id e = i
    | Ok None => i ∉ (id <$> st_entries (w_db w))
    | Err _ => ¬ fault_free
    | Panic _ => False
    end) w.
Proof.
  intros Hwf Hi. pose proof (st_wf_rows _ Hwf) as (Hb & Hok & Hnd).
  unfold sqlite_get_backup. eapply wp_backups_table; [done| |].
  { intros err w' Hf Hdb Heq. split_and!; auto. by intros ?%fault_free_not. }
  rewrite filter_rows_id by done.
  destruct (scan_images entry_to_row (filter (λ e, id e = i) (st_entries (w_db w)))) as (l & -> & Hl).
  destruct l as [|e l]; simpl; wp_steps.
  - split_and!; [apply tick2_db_only|done|]. apply Permutation_nil_l in Hl.
    intros (e & -> & He)%list_elem_of_fmap.
    assert (e ∈ filter (λ e', id e' = id e) (st_entries (w_db w))) as Hin
      by (by apply list_elem_of_filter).
    by rewrite <- Hl, elem_of_nil in Hin.
  - assert (e ∈ filter (λ e, id e = i) (st_entries (w_db w))) as [? ?]%list_elem_of_filter.
    { rewrite <- Hl. left. }
    unfold wp. rewrite (row_to_entry_run _ e); [|apply row_entry_to_row].
    2: { by eapply Forall_forall in Hok. }
    wp_steps. split_and!; [apply tick2_db_only|done..].
Qed.

Lemma event_ids evs i : uuid_ok i → Forall event_ok evs →
  uuid_to_string i ∈ ev_id <$> evs ↔ i ∈ (omap event_pair evs).*1.
Proof.
  intros Hi. induction 1 as [|ev evs (i' & b & Hi' & Hb & Hev & Hevb) _ IH]; simpl; [set_solver|].
  unfold event_pair. rewrite Hev, Hevb, !uuid_parse_to_string by done. simpl.
  rewrite !elem_of_cons, IH. split; (intros [Heq|?]; [left|by right]); [|by rewrite Heq].
  by apply uuid_to_string_inj.
Qed.

Lemma sqlite_event_law i w : st_wf (w_db w) → uuid_ok i → (∀ n, uuid_ok (fresh_uuid n)) →
  wp (sqlite_insert_rollback_event i) (λ r w', db_only w w' ∧ st_wf (w_db w') ∧
    st_entries (w_db w') = st_entries (w_db w) ∧
    match r with
    | Ok _ => st_events (w_db w') = st_events (w_db w) ++ [(fresh_uuid (w_uuid w), i)]
    | Err _ => w_db w' = w_db w ∧
        (fault_free → fresh_uuid (w_uuid w) ∈ (st_events (w_db w)).*1)
    | Panic _ => False
    end) w.
Proof.
  intros Hwf Hi Hfresh. pose proof Hwf as (Hes & evs & Hevs & Hok).
  unfold sqlite_insert_rollback_event, connect, events_table. wp_steps.
  destruct (fault (w_io w)) eqn:Hf; wp_steps.
  { split_and!; auto with backup. intros Hff. by rewrite Hff in Hf. }
  cbn [w_io w_uuid w_clock tick_io tick_uuid tick_clock].
  assert (db_only w (tick_io (tick_clock (tick_uuid (tick_io w))))) as Hdb
    by (repeat split; simpl; lia).
  destruct (fault (S (w_io w))) eqn:Hf'; wp_steps.
  { split_and!; auto with backup. intros Hff. by rewrite Hff in Hf'. }
  cbn [w_db tick_io tick_uuid tick_clock]. rewrite Hevs.
  wp_steps. pose proof (event_ids evs (fresh_uuid (w_uuid w)) (Hfresh _) Hok) as Hids.
  case_decide as Hin; wp_steps.
  - split_and!; auto. intros _. simpl. rewrite Hevs. by apply Hids.
  - split; [etrans; [apply Hdb|apply db_only_set_db]|].
    cbn [w_db set_db tick_io tick_uuid tick_clock]. split.
    { split; [apply Hes|]. eexists; split; [done|]. apply Forall_app. split; [done|].
      apply Forall_singleton. eexists _, _. split_and!; [| |done..]; auto. }
    split; [done|]. simpl. rewrite Hevs. simpl. rewrite omap_app. f_equal. simpl.
    unfold event_pair; simpl. by rewrite !uuid_parse_to_string.
Qed.

Lemma filter_created (es : list BackupEntry) :
  filter (λ row, r_status row = "created") (entry_to_row <$> es) =
  entry_to_row <$> filter (λ e, status e = Created) es.
Proof.
  apply filter_fmap_Forall, Forall_true. intros e. apply status_str_created.
Qed.

Lemma sqlite_last_hash_law w : st_wf (w_db w) →
  wp sqlite_last_created_hash (λ r w', db_only w w' ∧ w_db w' = w_db w ∧
    match r with
    | Ok (Some h) => ∃ e, latest_created (st_entries (w_db w)) e ∧ content_hash_of e = h
    | Ok None => ∀ e, e ∈ st_entries (w_db w) → status e ≠ Created
    | Err _ => ¬ fault_free
    | Panic _ => False
    end) w.
Proof.
  intros Hwf. pose proof (st_wf_rows _ Hwf) as (Hb & Hok & Hnd).
  unfold sqlite_last_created_hash. eapply wp_backups_table; [done| |].
  { intros err w' Hf Hdb Heq. split_and!; auto. by intros ?%fault_free_not. }
  wp_steps. split; [apply tick2_db_only|]. split; [done|]. rewrite filter_created.
  destruct (order_rows (filter (λ e, status e = Created) (st_entries (w_db w))))
    as (es' & -> & Hp & Hs); [by apply Forall_filter|].
  pose proof (latest_created_head _ _ Hp Hs) as Hh. destruct es' as [|e es']; simpl in *; eauto.
Qed.

(** The DELETE loop: a failure leaves a prefix of the work done. *)
Lemma delete_rows_spec doomed w rows :
  t_backups (w_db w) = Some rows →
  wp (delete_rows doomed) (λ r w', db_only w w' ∧ t_events (w_db w') = t_events (w_db w) ∧
    ∃ k, t_backups (w_db w') = Some (filter (λ row, r_id row ∉ (take k doomed).*1) rows) ∧
    match r with
    | Ok _ => take k doomed = doomed
    | Err _ => ¬ fault_free
    | Panic _ => False
    end) w.
Proof.
  revert w rows. induction doomed as [|[i d] doomed IH]; intros w rows Hrows; simpl; wp_steps.
  { split; [done|]. split; [done|]. exists 0. split; [|done]. rewrite Hrows. f_equal.
    symmetry. apply filter_all. intros ? _. apply not_elem_of_nil. }
  unfold delete_row. wp_steps. destruct (fault (w_io w)) eqn:Hf; wp_steps.
  { split; [apply db_only_tick_io|]. split; [done|]. exists 0. split.
    - cbn [w_db tick_io]. rewrite Hrows. f_equal. symmetry. apply filter_all. intros ? _. apply not_elem_of_nil.
    - intros Hff. by rewrite Hff in Hf. }
  eapply wp_mono; [apply (IH _ (filter (λ row, r_id row ≠ i) rows))|].
  { cbn [w_db set_db tick_io t_backups]. by rewrite Hrows. }
  intros r w' (Hdb & Hev & k & Hb & Hr). split; [|split; [done|]].
  { etrans; [|apply Hdb]. etrans; [apply db_only_tick_io|apply db_only_set_db]. }
  exists (S k). split.
  - rewrite Hb. f_equal. simpl. rewrite list_filter_filter. apply list_filter_iff.
    intros row. rewrite not_elem_of_cons. tauto.
  - destruct r; [|done..]. simpl. by rewrite Hr.
Qed.

(** The rows selected for deletion are the prunable entries. *)
Lemma filter_prunable es cutoff : Forall entry_ok es → rfc3339_range cutoff →
  filter (λ row, r_status row = "created" ∧ str_lt (r_created_at row) (to_rfc3339 cutoff))
    (entry_to_row <$> es) =
  entry_to_row <$> filter (prunable (S := SqliteDb) cutoff) es.
Proof.
  intros Hok Hc. apply filter_fmap_Forall. eapply Forall_impl; [done|].
  intros e (_ & Ht & _). unfold prunable; simpl.
  rewrite status_str_created, !to_rfc3339_law, rfc3339_autosi_lt by done.
  by rewrite Is_true_true, Z.ltb_lt.
Qed.

(** Deleting the rows of some of the entries [ds] leaves the rows of the others. *)
Lemma filter_not_doomed es ds k :
  Forall entry_ok es → Forall entry_ok ds →
  filter (λ row, r_id row ∉ (take k ((λ row, (r_id row, r_timestamp_dir row)) <$>
      (entry_to_row <$> ds))).*1) (entry_to_row <$> es) =
  entry_to_row <$> filter (λ e, id e ∉ (id <$> take k ds)) es.
Proof.
  intros Hes Hds. apply filter_fmap_Forall. eapply Forall_impl; [done|]. intros e (He & _).
  rewrite <- !fmap_take, <- !list_fmap_compose. apply not_iff_compat.
  rewrite <- (row_ids (take k ds) (id e)); [|done|by apply Forall_take].
  by rewrite <- list_fmap_compose.
Qed.

Lemma NoDup_take_ids (es ds : list BackupEntry) (P : BackupEntry → Prop)
    `{!∀ e, Decision (P e)} k :
  NoDup (id <$> es) → ds ≡ₚ filter P es → 
  es ≡ₚ take k ds ++ filter (λ e, id e ∉ (id <$> take k ds)) es.
Proof.
  intros Hnd Hp. rewrite (filter_split_perm (λ e, id e ∈ (id <$> take k ds)) es) at 1.
  f_equiv. apply NoDup_Permutation.
  - apply NoDup_filter. by eapply NoDup_fmap_1.
  - eapply sublist_NoDup; [|apply sublist_take]. rewrite Hp.
    apply NoDup_filter. by eapply NoDup_fmap_1.
  - intros e. rewrite list_elem_of_filter, list_elem_of_fmap. split.
    + intros [(d & Hid & Hd) He]. assert (d = e) as <-; [|done].
      assert (d ∈ es) by (apply (list_elem_of_filter P); rewrite <- Hp; by eapply elem_of_take_inv).
      by eapply NoDup_fmap_elem.
    + intros He. split; [by exists e|].
      apply (list_elem_of_filter P). rewrite <- Hp. by eapply elem_of_take_inv.
Qed.

Lemma sqlite_prune_law cutoff w : st_wf (w_db w) → rfc3339_range cutoff →
  wp (sqlite_prune_created_before cutoff) (λ r w', db_only w w' ∧ st_wf (w_db w') ∧
    st_events (w_db w') = st_events (w_db w) ∧
    match r with
    | Ok doomed =>
        doomed ≡ₚ (λ e, (uuid_to_string (id e), timestamp_dir e)) <$>
                    filter (prunable cutoff) (st_entries (w_db w)) ∧
        st_entries (w_db w') ≡ₚ filter (λ e, ¬ prunable cutoff e) (st_entries (w_db w))
    | Err _ => ¬ fault_free ∧ ∃ gone, Forall (prunable cutoff) gone ∧
        st_entries (w_db w) ≡ₚ gone ++ st_entries (w_db w')
    | Panic _ => False
    end) w.
Proof.
  intros Hwf Hc. pose proof (st_wf_rows _ Hwf) as (Hb & Hok & Hnd).
  unfold sqlite_prune_created_before. eapply wp_backups_table; [done| |].
  { intros err w' Hf Hdb Heq. rewrite Heq. split_and!; auto; [by intros ?%fault_free_not|].
    by exists []. }
  rewrite filter_prunable by done.
  set (es := st_entries (w_db w)) in *.
  destruct (scan_images entry_to_row (filter (prunable cutoff) es)) as (ds & -> & Hds).
  assert (Forall entry_ok ds) as Hdok by (rewrite Hds; by apply Forall_filter).
  cbv zeta. wp_steps. eapply wp_mono; [by eapply delete_rows_spec|].
  intros r w' (Hdb & Hev & k & Hbk & Hr).
  rewrite filter_not_doomed in Hbk by done.
  assert (sqlite_rows (w_db w') (filter (λ e, id e ∉ (id <$> take k ds)) es)) as Hrows.
  { split_and!; [done|by apply Forall_filter|by apply NoDup_fmap_filter]. }
  pose proof (NoDup_take_ids es ds (prunable cutoff) k Hnd Hds) as Hsplit.
  assert (st_wf (w_db w')) as Hwf'.
  { split; [by eexists|]. rewrite Hev. apply Hwf. }
  assert (db_only w w') by (etrans; [apply tick2_db_only|apply Hdb]).
  assert (st_events (w_db w') = st_events (w_db w)) by (simpl; by rewrite Hev).
  destruct r as [[]|err|]; wp_steps; [| |done].
  - split_and!; [done..| |].
    + by rewrite <- list_fmap_compose, Hds.
    + rewrite (sqlite_rows_entries _ _ Hrows).
      assert (take k ds = ds) as Hk.
      { rewrite <- !list_fmap_compose, <- fmap_take in Hr. apply (f_equal length) in Hr.
        rewrite !length_fmap, length_take in Hr. apply take_ge. lia. }
      rewrite Hk in *. apply (Permutation_app_inv_l ds). rewrite <- Hsplit, Hds.
      apply filter_split_perm.
  - split_and!; [done..|]. exists (take k ds). split.
    + apply Forall_take. rewrite Hds. apply Forall_forall. intros e [? _]%list_elem_of_filter. done.
    + by rewrite (sqlite_rows_entries _ _ Hrows).
Qed.

#[export] Instance sqlite_store_laws : StoreLaws SqliteDb.
Proof.
  split.
  - intros db Hwf. by destruct (st_wf_rows _ Hwf) as (_ & _ & ?).
  - intros db e Hwf He. destruct (st_wf_rows _ Hwf) as (_ & Hok & _).
    rewrite Forall_forall in Hok. by apply (Hok _ He).
  - done.
  - intros e w Hwf He. eapply wp_mono; [by apply sqlite_insert_law|].
    intros r w' (?&?&?&Hr). split_and!; [done..|]. destruct r as [|err|]; [|left|done].
    + by destruct e.
    + by destruct Hr as [-> _].
  - intros e w Hwf He Hff Hni. eapply wp_mono; [by apply sqlite_insert_law|].
    intros [[]|err|] w' (?&?&?&Hr); [done| |done]. naive_solver.
  - intros w Hwf. eapply wp_mono; [by apply sqlite_list_law|].
    intros [|err|] w' (?&?&?); naive_solver.
  - intros w Hwf Hff. eapply wp_mono; [by apply sqlite_list_law|].
    intros [|err|] w' (?&?&?); naive_solver.
  - intros i w Hwf Hi. eapply wp_mono; [by apply sqlite_get_law|].
    intros [|err|] w' (?&?&?); naive_solver.
  - intros i w Hwf Hi Hff. eapply wp_mono; [by apply sqlite_get_law|].
    intros [|err|] w' (?&?&?); naive_solver.
  - intros i w Hwf Hi Hfr. eapply wp_mono; [by apply sqlite_event_law|].
    intros [|err|] w' (?&?&?&Hr); [done| |done]. destruct Hr as [-> _]. auto.
  - intros i w Hwf Hi Hfr Hff Hni. eapply wp_mono; [by apply sqlite_event_law|].
    intros [[]|err|] w' (?&?&?&Hr); [done| |done]. naive_solver.
  - intros w Hwf. eapply wp_mono; [by apply sqlite_last_hash_law|].
    intros [|err|] w' (?&?&?); naive_solver.
  - intros w Hwf Hff. eapply wp_mono; [by apply sqlite_last_hash_law|].
    intros [|err|] w' (?&?&?); naive_solver.
  - intros cutoff w Hwf Hc. eapply wp_mono; [by apply sqlite_prune_law|].
    intros [|err|] w' (?&?&?&?); naive_solver.
  - intros cutoff w Hwf Hc Hff. eapply wp_mono; [by apply sqlite_prune_law|].
    intros [|err|] w' (?&?&?&?); naive_solver.
Qed.

(** Opening a store creates missing tables and keeps existing data. *)
Lemma sqlite_migrate_wf db : st_wf db → sqlite_migrate db = db.
Proof.
  intros [(es & Hes & _) (evs & Hevs & _)]. unfold sqlite_migrate. destruct db. by simplify_eq/=.
Qed.

Lemma sqlite_new_spec w :
  wp sqlite_new (λ r w', db_only w w' ∧ sqlite_migrate (w_db w') = sqlite_migrate (w_db w) ∧
    (st_wf (w_db w) → w_db w' = w_db w) ∧
    match r with
    | Ok _ => w_db w' = sqlite_migrate (w_db w)
    | Err _ => ¬ fault_free
    | Panic _ => False
    end) w.
Proof.
  unfold sqlite_new, init_db, connect. wp_steps.
  destruct (fault (w_io w)) eqn:Hf1; wp_steps; cbn [w_io tick_io].
  { split_and!; auto with backup. intros Hff. by rewrite Hff in Hf1. }
  destruct (fault (S (w_io w))) eqn:Hf2; wp_steps; cbn [w_io tick_io set_db].
  { split_and!; auto using tick2_db_only. intros Hff. by rewrite Hff in Hf2. }
  destruct (fault (S (S (w_io w)))) eqn:Hf3; wp_steps; cbn [w_db tick_io set_db];
    (split; [repeat split; simpl; lia|]); (split_and!; [done| |]); try done.
  - intros [(es & Hes & _) _]. destruct (w_db w). by simplify_eq/=.
  - intros Hff. by rewrite Hff in Hf3.
  - intros Hwf. exact (sqlite_migrate_wf _ Hwf).
Qed.

#[export] Instance sqlite_open_laws : StoreOpenLaws SqliteDb.
Proof. split; [done|done|apply sqlite_migrate_wf|apply sqlite_new_spec]. Qed.
End sqlite_laws.
