(* ===== verification/Postgres.v ===== *)
(** * The Postgres metadata store

    Models [crates/storage/src/postgres_store.rs].  Columns are typed (UUID,
    TIMESTAMPTZ, BIGINT); every statement runs in its own transaction, so it
    applies entirely or not at all, but the connection can be lost after the
    commit: the caller then sees an error for a statement that took effect.
    TIMESTAMPTZ keeps microseconds, which is the difference between the two
    stores that the contract of [Store.v] exposes as [st_time]. *)

From S2P Require Import Prelude Calendar World Crates Core Store.

Record PgRow := {
  pg_id : Uuid;
  pg_created_at : DateTime;
  pg_timestamp_dir : string;
  pg_content_hash : string;
  pg_status : string;
  pg_skip_reason : option string;
  pg_source_revision : option string;
  pg_sync_duration_ms : option Z;
  pg_size_bytes : Z;
  pg_stats_json : option string;
}.

Record PgEvent := {
  pgev_id : Uuid;
  pgev_backup_id : Uuid;
  pgev_created_at : DateTime;
}.

Record PgDb := {
  pg_backups : option (list PgRow);
  pg_events : option (list PgEvent);
}.

(** The file has its own copies of the text encodings. *)
Definition status_str (s : BackupStatus) : string :=
  match s with Created => "created" | Skipped => "skipped" end.
Definition parse_status (raw : string) : BackupStatus :=
  if eq_ignore_ascii_case raw "skipped" then Skipped else Created.
Definition skip_reason_str (r : BackupSkipReason) : string :=
  match r with Unchanged => "unchanged" end.
Definition parse_skip_reason (raw : string) : BackupSkipReason :=
  if decide (raw = "unchanged") then Unchanged else Unchanged.

Section postgres.
Context `{!Env, !UuidCrate, !SerdeJson, !SqlEngine, !PgTimestamps}.
Abbreviation MP := (M PgDb).

(** One autocommitted statement: an error of the statement leaves the database
    as it is; a fault strikes before the commit ([f_done] = 0) or after it. *)
Definition pg_run {A} (stmt : PgDb → Error + (A * PgDb)) : MP A :=
  f ← io_fate;
  db ← gets w_db;
  match f, stmt db with
  | None, inl e => fail e
  | None, inr (a, db') => modify (set_db db');; mret a
  | Some f, inl _ => fail [f_msg f]
  | Some f, inr (_, db') =>
      if decide (f_done f = 0) then fail [f_msg f]
      else modify (set_db db');; fail [f_msg f]
  end.

Definition with_backups {A} (k : list PgRow → PgDb → Error + (A * PgDb)) (db : PgDb) :
    Error + (A * PgDb) :=
  match pg_backups db with
  | None => inl ["relation backups does not exist"]
  | Some rows => k rows db
  end.

Definition pg_entry_to_row (e : BackupEntry) : PgRow := {|
  pg_id := id e;
  pg_created_at := pg_timestamp (created_at e);
  pg_timestamp_dir := timestamp_dir e;
  pg_content_hash := content_hash_of e;
  pg_status := status_str (status e);
  pg_skip_reason := skip_reason_str <$> skip_reason e;
  pg_source_revision := source_revision e;
  pg_sync_duration_ms := sync_duration_ms e;
  pg_size_bytes := size_bytes e;
  pg_stats_json := stats_to_text <$> stats e;
|}.

Definition pg_row_to_entry (row : PgRow) : MP BackupEntry :=
  st ← context "parse stats_json"
    (match pg_stats_json row with
     | None => mret None
     | Some raw => s ← from_option ["invalid stats"] (stats_from_text raw); mret (Some s)
     end);
  mret {|
    id := pg_id row;
    created_at := pg_created_at row;
    timestamp_dir := pg_timestamp_dir row;
    content_hash_of := pg_content_hash row;
    status := parse_status (pg_status row);
    skip_reason := parse_skip_reason <$> pg_skip_reason row;
    source_revision := pg_source_revision row;
    sync_duration_ms := pg_sync_duration_ms row;
    size_bytes := pg_size_bytes row;
    stats := st;
  |}.

(** ** Operations *)

Definition run_migrations : MP () :=
  context "create backups table" (pg_run (λ db,
    inr ((), {| pg_backups := Some (default [] (pg_backups db)); pg_events := pg_events db |})));;
  context "create rollback_events table" (pg_run (λ db,
    inr ((), {| pg_backups := pg_backups db; pg_events := Some (default [] (pg_events db)) |}))).

(** [PostgresStore::new]: connect, then migrate. *)
Definition postgres_new : MP () :=
  context "connect to postgres" io_step;;
  run_migrations.

(** The database the migrations aim for. *)
Definition postgres_migrate (db : PgDb) : PgDb :=
  {| pg_backups := Some (default [] (pg_backups db)); pg_events := Some (default [] (pg_events db)) |}.
#[export] Instance postgres_open : StoreOpen PgDb :=
  { store_new := postgres_new; migrate := postgres_migrate }.

Definition pg_insert_entry (e : BackupEntry) : MP () :=
  pg_run (with_backups (λ rows db,
    if decide (id e ∈ pg_id <$> rows)
    then inl ["duplicate key value violates unique constraint backups_pkey"]
    else inr ((), {| pg_backups := Some (rows ++ [pg_entry_to_row e]); pg_events := pg_events db |}))).

Definition pg_created_at_lt (a b : PgRow) : bool := (pg_created_at a <? pg_created_at b)%Z.

Definition pg_list_backups : MP (list BackupEntry) :=
  rows ← pg_run (with_backups (λ rows db, inr (sql_order_desc pg_created_at_lt rows, db)));
  mapM pg_row_to_entry rows.

Definition pg_get_backup (i : Uuid) : MP (option BackupEntry) :=
  row ← pg_run (with_backups (λ rows db, inr (head (sql_scan (filter (λ row, pg_id row = i) rows)), db)));
  match row with
  | Some r => e ← pg_row_to_entry r; mret (Some e)
  | None => mret None
  end.

Definition pg_insert_rollback_event (backup_id : Uuid) : MP () :=
  i ← new_v4;
  t ← now;
  pg_run (λ db,
    match pg_events db with
    | None => inl ["relation rollback_events does not exist"]
    | Some evs =>
        if decide (i ∈ pgev_id <$> evs)
        then inl ["duplicate key value violates unique constraint rollback_events_pkey"]
        else inr ((), {| pg_backups := pg_backups db;
                         pg_events := Some (evs ++ [{| pgev_id := i; pgev_backup_id := backup_id;
                                                        pgev_created_at := pg_timestamp t |}]) |})
    end).

Definition pg_last_created_hash : MP (option string) :=
  pg_run (with_backups (λ rows db,
    inr (pg_content_hash <$>
           head (sql_order_desc pg_created_at_lt (filter (λ row, pg_status row = "created") rows)), db))).

(** [DELETE ... RETURNING id::text, timestamp_dir]. *)
Definition pg_prune_created_before (cutoff : DateTime) : MP (list (string * string)) :=
  pg_run (with_backups (λ rows db,
    let old := λ row, pg_status row = "created" ∧ (pg_created_at row < pg_timestamp cutoff)%Z in
    inr ((λ row, (uuid_to_string (pg_id row), pg_timestamp_dir row)) <$> sql_scan (filter old rows),
         {| pg_backups := Some (filter (λ row, ¬ old row) rows); pg_events := pg_events db |}))).

#[export] Instance postgres_store : MetadataStore PgDb := {
  insert_entry := pg_insert_entry;
  list_backups := pg_list_backups;
  get_backup := pg_get_backup;
  insert_rollback_event := pg_insert_rollback_event;
  last_created_hash := pg_last_created_hash;
  prune_created_before := pg_prune_created_before;
}.
End postgres.

(** ** Reading rows back *)

Lemma pg_parse_status_str s : parse_status (status_str s) = s.
Proof. by destruct s. Qed.
Lemma pg_status_str_created s : status_str s = "created" ↔ s = Created.
Proof. by destruct s. Qed.

Section postgres_model.
Context `{!Env, !UuidCrate, !SerdeJson, !SqlEngine, !PgTimestamps}.

Definition pg_row_entry (row : PgRow) : option BackupEntry :=
  st ← match pg_stats_json row with
       | None => Some None
       | Some raw => Some <$> stats_from_text raw
       end;
  Some {|
    id := pg_id row;
    created_at := pg_created_at row;
    timestamp_dir := pg_timestamp_dir row;
    content_hash_of := pg_content_hash row;
    status := parse_status (pg_status row);
    skip_reason := parse_skip_reason <$> pg_skip_reason row;
    source_revision := pg_source_revision row;
    sync_duration_ms := pg_sync_duration_ms row;
    size_bytes := pg_size_bytes row;
    stats := st;
  |}.

Definition pg_rows (db : PgDb) (es : list BackupEntry) : Prop :=
  pg_backups db = Some (pg_entry_to_row <$> es) ∧
  Forall (λ e, uuid_ok (id e) ∧ (∀ s, stats e = Some s → stats_ok s) ∧
               pg_timestamp (created_at e) = created_at e) es ∧
  NoDup (id <$> es).

#[export] Instance postgres_model : StoreModel PgDb := {
  st_entries db := omap pg_row_entry (default [] (pg_backups db));
  st_events db := (λ ev, (pgev_id ev, pgev_backup_id ev)) <$> default [] (pg_events db);
  st_wf db := (∃ es, pg_rows db es) ∧ is_Some (pg_events db);
  st_time t := pg_timestamp t;
}.

Lemma pg_row_to_entry_run row e w : pg_row_entry row = Some e → pg_row_to_entry row w = (Ok e, w).
Proof.
  unfold pg_row_entry, pg_row_to_entry.
  destruct (pg_stats_json row) as [raw|]; simpl; [|by intros [= <-]].
  destruct (stats_from_text raw) as [s|]; simpl; [|done]. by intros [= <-].
Qed.

Context `{!SerdeJsonLaws, !SqlEngineLaws, !PgTimestampLaws}.

(** Reading a row back gives the entry with its instant as stored. *)
Lemma pg_row_entry_to_row e : (∀ s, stats e = Some s → stats_ok s) →
  pg_row_entry (pg_entry_to_row e) = Some (stored_entry (S := PgDb) e).
Proof.
  intros Hst. unfold pg_row_entry, pg_entry_to_row; simpl. rewrite pg_parse_status_str.
  destruct e as [? ? ? ? ? sr ? ? ? [s|]]; simpl in *.
  - rewrite stats_from_to_text by auto. simpl. by destruct sr as [[]|].
  - by destruct sr as [[]|].
Qed.

Lemma pg_row_entry_stored e : (∀ s, stats e = Some s → stats_ok s) →
  pg_timestamp (created_at e) = created_at e →
  pg_row_entry (pg_entry_to_row e) = Some e.
Proof.
  intros Hst Ht. rewrite pg_row_entry_to_row by done. unfold stored_entry; simpl.
  rewrite Ht. by destruct e.
Qed.

(** The row of an entry is the row of what the store keeps for it. *)
Lemma pg_entry_to_row_stored e :
  pg_entry_to_row (stored_entry (S := PgDb) e) = pg_entry_to_row e.
Proof. unfold pg_entry_to_row; simpl. by rewrite pg_timestamp_idemp. Qed.

Lemma pg_rows_entries db es : pg_rows db es → st_entries db = es.
Proof.
  intros (Hb & Hok & _). simpl. rewrite Hb. simpl. clear Hb.
  induction Hok as [|e l (_ & He & Ht) _ IH]; [done|]. rewrite fmap_cons; simpl.
  rewrite pg_row_entry_stored by done. f_equal. apply IH.
Qed.

Lemma pg_wf_rows db : st_wf db → pg_rows db (st_entries db).
Proof. intros [[es Hes] _]. by rewrite (pg_rows_entries _ _ Hes). Qed.

Lemma mapM_pg_row_to_entry es w :
  Forall (λ e, uuid_ok (id e) ∧ (∀ s, stats e = Some s → stats_ok s) ∧
               pg_timestamp (created_at e) = created_at e) es →
  mapM pg_row_to_entry (pg_entry_to_row <$> es) w = (Ok es, w).
Proof.
  induction 1 as [|e es (_ & He & Ht) _ IH]; [done|]. rewrite fmap_cons.
  cbn [mapM]. unfold mbind, M_bind.
  rewrite (pg_row_to_entry_run _ e) by (by apply pg_row_entry_stored).
  fold (M_bind PgDb). unfold mbind in IH. by rewrite IH.
Qed.
End postgres_model.

(** ** The contract is met *)

Section postgres_laws.
Context `{!Env, !UuidCrate, !SerdeJson, !SqlEngine, !PgTimestamps}.
Context `{!SerdeJsonLaws, !SqlEngineLaws, !PgTimestampLaws}.
Implicit Types w : World PgDb.

Lemma pg_run_spec {A} (stmt : PgDb → Error + (A * PgDb)) w :
  wp (pg_run stmt) (λ r w', db_only w w' ∧
    match r with
    | Ok a => stmt (w_db w) = inr (a, w_db w')
    | Err _ => (w_db w' = w_db w ∧ (fault_free → ∃ e, stmt (w_db w) = inl e)) ∨
        (¬ fault_free ∧ ∃ a, stmt (w_db w) = inr (a, w_db w'))
    | Panic _ => False
    end) w.
Proof.
  unfold pg_run. wp_steps. cbn [w_db tick_io].
  assert (∀ db, db_only w (set_db db (tick_io w))) as Hdb by (intros; repeat split; simpl; lia).
  destruct (fault (w_io w)) as [f|] eqn:Hf.
  - assert (¬ fault_free) as Hff by (intros Hff; by rewrite Hff in Hf).
    destruct (stmt (w_db w)) as [e|[a db']]; [|case_decide]; wp_steps;
      (split; [by auto with backup|]).
    + left. by split.
    + left. by split.
    + right. split; [done|]. by exists a.
  - destruct (stmt (w_db w)) as [e|[a db']]; wp_steps; (split; [by auto with backup|]).
    + left. split; [done|]. intros _. by exists e.
    + done.
Qed.

Lemma with_backups_run {A} (k : list PgRow → PgDb → Error + (A * PgDb)) db rows :
  pg_backups db = Some rows → with_backups k db = k rows db.
Proof. unfold with_backups. by intros ->. Qed.

Lemma pg_ids (es : list BackupEntry) : pg_id <$> (pg_entry_to_row <$> es) = id <$> es.
Proof. by rewrite <- list_fmap_compose. Qed.

Lemma pg_order_rows (es : list BackupEntry) :
  Forall (λ e, pg_timestamp (created_at e) = created_at e) es →
  ∃ es', sql_order_desc pg_created_at_lt (pg_entry_to_row <$> es) = pg_entry_to_row <$> es' ∧
    es' ≡ₚ es ∧ newest_first es'.
Proof.
  apply order_images; unfold pg_created_at_lt.
  - intros x. apply Z.ltb_irrefl.
  - intros x y z. rewrite !Is_true_true. lia.
  - intros x y z. rewrite !Is_true_true. lia.
  - intros a b Ha Hb. simpl. by rewrite Ha, Hb.
Qed.

(** Reading statements do not change the database. *)
Lemma pg_query_spec {A} (q : list PgRow → A) rows w :
  pg_backups (w_db w) = Some rows →
  wp (pg_run (with_backups (λ rows db, inr (q rows, db)))) (λ r w', db_only w w' ∧
    w_db w' = w_db w ∧
    match r with Ok a => a = q rows | Err _ => ¬ fault_free | Panic _ => False end) w.
Proof.
  intros Hb. eapply wp_mono; [apply pg_run_spec|]. intros r w' [Hdb Hr].
  rewrite (with_backups_run _ _ _ Hb) in Hr. destruct r as [a|e|]; [| |done].
  - by simplify_eq.
  - destruct Hr as [[-> Hr]|[Hff [a Hr]]]; [|by simplify_eq].
    split_and!; [done..|]. intros [e' ?]%Hr. done.
Qed.

Lemma pg_insert_law e w : st_wf (w_db w) → entry_ok e →
  wp (pg_insert_entry e) (λ r w', db_only w w' ∧ st_wf (w_db w') ∧
    st_events (w_db w') = st_events (w_db w) ∧
    let inserted := (id e ∉ (id <$> st_entries (w_db w))) ∧
      st_entries (w_db w') ≡ₚ stored_entry (S := PgDb) e :: st_entries (w_db w) in
    match r with
    | Ok _ => inserted
    | Err _ => (w_db w' = w_db w ∧ (fault_free → id e ∈ (id <$> st_entries (w_db w)))) ∨
        (¬ fault_free ∧ inserted)
    | Panic _ => False
    end) w.
Proof.
  intros Hwf (Hi & _ & _ & _ & Hst). pose proof (pg_wf_rows _ Hwf) as (Hb & Hok & Hnd).
  set (es := st_entries (w_db w)) in *.
  assert (∀ db', id e ∉ (id <$> es) →
    db' = {| pg_backups := Some ((pg_entry_to_row <$> es) ++ [pg_entry_to_row e]);
             pg_events := pg_events (w_db w) |} →
    st_wf db' ∧ st_events db' = st_events (w_db w) ∧
    st_entries db' ≡ₚ stored_entry (S := PgDb) e :: es) as Hins.
  { intros db' Hni ->.
    assert (pg_rows {| pg_backups := Some ((pg_entry_to_row <$> es) ++ [pg_entry_to_row e]);
             pg_events := pg_events (w_db w) |} (es ++ [stored_entry (S := PgDb) e])) as Hrows.
    { split_and!.
      - simpl. by rewrite fmap_app, <- pg_entry_to_row_stored.
      - apply Forall_app. split; [done|]. apply Forall_singleton. split_and!; [done..|].
        simpl. apply pg_timestamp_idemp.
      - rewrite fmap_app. apply NoDup_app. split_and!; [done| |apply NoDup_singleton].
        intros i Hin Hs. apply list_elem_of_singleton in Hs as ->. done. }
    split; [|split; [done|]].
    - split; [by eexists|apply Hwf].
    - rewrite (pg_rows_entries _ _ Hrows). by rewrite Permutation_app_comm. }
  eapply wp_mono; [apply pg_run_spec|]. intros r w' [Hdb Hr].
  rewrite (with_backups_run _ _ _ Hb), pg_ids in Hr. split; [done|].
  case_decide as Hin; destruct r as [[]|err|]; try done.
  - destruct Hr as [[-> _]|[_ [? ?]]]; [|done]. split_and!; auto.
  - injection Hr as Hr. destruct (Hins _ Hin (eq_sym Hr)) as (?&?&?). by split_and!.
  - destruct Hr as [[-> Hr]|[Hff [[] Hr]]].
    + split_and!; [done..|]. left. split; [done|]. intros [e' ?]%Hr. done.
    + injection Hr as Hr. destruct (Hins _ Hin (eq_sym Hr)) as (?&?&?).
      split_and!; [done..|]. right. by split_and!.
Qed.

Lemma pg_list_law w : st_wf (w_db w) →
  wp pg_list_backups (λ r w', db_only w w' ∧ w_db w' = w_db w ∧
    match r with
    | Ok l => l ≡ₚ st_entries (w_db w) ∧ newest_first l
    | Err _ => ¬ fault_free
    | Panic _ => False
    end) w.
Proof.
  intros Hwf. pose proof (pg_wf_rows _ Hwf) as (Hb & Hok & Hnd).
  unfold pg_list_backups. eapply wp_bind_spec; [by eapply pg_query_spec|].
  intros r w' (Hdb & Heq & Hr). destruct r as [rows|err|]; wp_steps; [|done..].
  destruct (pg_order_rows (st_entries (w_db w))) as (es' & Hes & Hp & Hs).
  { eapply Forall_impl; [done|]. naive_solver. }
  rewrite Hr, Hes. unfold wp. by rewrite mapM_pg_row_to_entry by (by rewrite Hp).
Qed.

Lemma pg_get_law i w : st_wf (w_db w) →
  wp (pg_get_backup i) (λ r w', db_only w w' ∧ w_db w' = w_db w ∧
    match r with
    | Ok (Some e) => e ∈ st_entries (w_db w) ∧ id e = i
    | Ok None => i ∉ (id <$> st_entries (w_db w))
    | Err _ => ¬ fault_free
    | Panic _ => False
    end) w.
Proof.
  intros Hwf. pose proof (pg_wf_rows _ Hwf) as (Hb & Hok & Hnd).
  unfold pg_get_backup. eapply wp_bind_spec; [by eapply pg_query_spec|].
  intros r w' (Hdb & Heq & Hr). destruct r as [row|err|]; wp_steps; [|done..].
  rewrite (filter_fmap_Forall _ _ (λ e, id e = i)) in Hr by (by apply Forall_true).
  destruct (scan_images pg_entry_to_row (filter (λ e, id e = i) (st_entries (w_db w))))
    as (l & Hl & Hp). rewrite Hl in Hr. subst row. destruct l as [|e l]; simpl; wp_steps.
  - split_and!; [done..|]. apply Permutation_nil_l in Hp.
    intros (e & -> & He)%list_elem_of_fmap.
    assert (e ∈ filter (λ e', id e' = id e) (st_entries (w_db w))) as Hin
      by (by apply list_elem_of_filter).
    by rewrite <- Hp, elem_of_nil in Hin.
  - assert (e ∈ filter (λ e, id e = i) (st_entries (w_db w))) as [? He]%list_elem_of_filter.
    { rewrite <- Hp. left. }
    rewrite Forall_forall in Hok. destruct (Hok _ He) as (_ & ? & ?).
    unfold wp. rewrite (pg_row_to_entry_run _ e); [|by apply pg_row_entry_stored].
    by wp_steps.
Qed.

Lemma pg_event_law i w : st_wf (w_db w) →
  wp (pg_insert_rollback_event i) (λ r w', db_only w w' ∧ st_wf (w_db w') ∧
    st_entries (w_db w') = st_entries (w_db w) ∧
    let recorded := st_events (w_db w') = st_events (w_db w) ++ [(fresh_uuid (w_uuid w), i)] in
    match r with
    | Ok _ => recorded
    | Err _ => (w_db w' = w_db w ∧ (fault_free → fresh_uuid (w_uuid w) ∈ (st_events (w_db w)).*1)) ∨
        (¬ fault_free ∧ recorded)
    | Panic _ => False
    end) w.
Proof.
  intros Hwf. pose proof Hwf as (Hes & evs & Hevs).
  unfold pg_insert_rollback_event. wp_steps. cbn [w_uuid tick_uuid].
  eapply wp_mono; [apply pg_run_spec|]. intros r w' [Hdb Hr].
  cbn [w_db tick_uuid tick_clock] in Hr. rewrite Hevs in Hr.
  assert (∀ db', {| pg_backups := pg_backups (w_db w);
      pg_events := Some (evs ++ [{| pgev_id := fresh_uuid (w_uuid w); pgev_backup_id := i;
                     pgev_created_at := pg_timestamp (clock (w_clock (tick_uuid w))) |}]) |} = db' →
    st_wf db' ∧ st_entries db' = st_entries (w_db w) ∧
    st_events db' = st_events (w_db w) ++ [(fresh_uuid (w_uuid w), i)]) as Hrec.
  { intros db' <-. split_and!; [split; [apply Hes|by eexists]|done|].
    simpl. rewrite Hevs. simpl. by rewrite fmap_app. }
  split; [etrans; [|apply Hdb]; repeat split; simpl; lia|].
  case_decide as Hin; destruct r as [[]|err|]; try done.
  - destruct Hr as [[-> _]|[_ [? ?]]]; [|done]. split_and!; [done..|]. left. split; [done|].
    intros _. simpl. rewrite Hevs. simpl. rewrite <- list_fmap_compose. done.
  - injection Hr as Hr. destruct (Hrec _ Hr) as (?&?&?). by split_and!.
  - destruct Hr as [[-> Hr]|[Hff [[] Hr]]].
    + split_and!; [done..|]. left. split; [done|]. intros [e' ?]%Hr. done.
    + injection Hr as Hr. destruct (Hrec _ Hr) as (?&?&?). split_and!; [done..|]. right. by split_and!.
Qed.

Lemma pg_last_hash_law w : st_wf (w_db w) →
  wp pg_last_created_hash (λ r w', db_only w w' ∧ w_db w' = w_db w ∧
    match r with
    | Ok (Some h) => ∃ e, latest_created (st_entries (w_db w)) e ∧ content_hash_of e = h
    | Ok None => ∀ e, e ∈ st_entries (w_db w) → status e ≠ Created
    | Err _ => ¬ fault_free
    | Panic _ => False
    end) w.
Proof.
  intros Hwf. pose proof (pg_wf_rows _ Hwf) as (Hb & Hok & Hnd).
  unfold pg_last_created_hash. eapply wp_mono; [by eapply pg_query_spec|].
  intros r w' (Hdb & Heq & Hr). split_and!; [done..|]. destruct r as [o|err|]; [|done..].
  rewrite (filter_fmap_Forall _ _ (λ e, status e = Created)) in Hr
    by (apply Forall_true; intros; apply pg_status_str_created).
  destruct (pg_order_rows (filter (λ e, status e = Created) (st_entries (w_db w))))
    as (es' & Hes & Hp & Hs).
  { apply Forall_filter. eapply Forall_impl; [done|]. naive_solver. }
  rewrite Hes in Hr. subst o.
  pose proof (latest_created_head _ _ Hp Hs) as Hh. destruct es' as [|e es']; simpl in *; eauto.
Qed.

Lemma pg_prune_law cutoff w : st_wf (w_db w) →
  wp (pg_prune_created_before cutoff) (λ r w', db_only w w' ∧ st_wf (w_db w') ∧
    st_events (w_db w') = st_events (w_db w) ∧
    let pruned :=
      st_entries (w_db w') = filter (λ e, ¬ prunable cutoff e) (st_entries (w_db w)) in
    match r with
    | Ok doomed =>
        doomed ≡ₚ (λ e, (uuid_to_string (id e), timestamp_dir e)) <$>
                    filter (prunable cutoff) (st_entries (w_db w)) ∧ pruned
    | Err _ => ¬ fault_free ∧ (w_db w' = w_db w ∨ pruned)
    | Panic _ => False
    end) w.
Proof.
  intros Hwf. pose proof (pg_wf_rows _ Hwf) as (Hb & Hok & Hnd).
  set (es := st_entries (w_db w)) in *.
  assert (Forall (λ e, (status_str (status e) = "created" ∧
      (pg_timestamp (created_at e) < pg_timestamp cutoff)%Z) ↔ prunable (S := PgDb) cutoff e) es) as Hiff.
  { eapply Forall_impl; [done|]. intros e (_ & _ & Ht). unfold prunable; simpl.
    by rewrite pg_status_str_created, Ht. }
  assert (∀ db', {| pg_backups := Some (pg_entry_to_row <$> filter (λ e, ¬ prunable cutoff e) es);
                    pg_events := pg_events (w_db w) |} = db' →
    st_wf db' ∧ st_events db' = st_events (w_db w) ∧
    st_entries db' = filter (λ e, ¬ prunable cutoff e) es) as Hdel.
  { intros db' <-.
    assert (pg_rows {| pg_backups := Some (pg_entry_to_row <$> filter (λ e, ¬ prunable cutoff e) es);
                       pg_events := pg_events (w_db w) |} (filter (λ e, ¬ prunable cutoff e) es)) as Hrows.
    { split_and!; [done|by apply Forall_filter|by apply NoDup_fmap_filter]. }
    split_and!; [split; [by eexists|apply Hwf]|done|]. by apply pg_rows_entries. }
  unfold pg_prune_created_before. eapply wp_mono; [apply pg_run_spec|]. intros r w' [Hdb Hr].
  rewrite (with_backups_run _ _ _ Hb) in Hr. cbv zeta in Hr.
  rewrite (filter_fmap_Forall _ _ (prunable (S := PgDb) cutoff)) in Hr by done.
  rewrite (filter_fmap_Forall _ _ (λ e, ¬ prunable (S := PgDb) cutoff e)) in Hr
    by (eapply Forall_impl; [done|]; simpl; tauto).
  destruct (scan_images pg_entry_to_row (filter (prunable cutoff) es)) as (l & Hl & Hp).
  rewrite Hl in Hr. split; [done|]. destruct r as [doomed|err|]; [| |done].
  - injection Hr as <- Hr. destruct (Hdel _ Hr) as (?&?&?). split_and!; [done..| |done].
    by rewrite <- list_fmap_compose, Hp.
  - destruct Hr as [[-> Hr]|[Hff [? Hr]]].
    + split_and!; [done..| |by left]. intros [e' ?]%Hr. done.
    + injection Hr as _ Hr. destruct (Hdel _ Hr) as (?&?&?). split_and!; [done..|]. by right.
Qed.

#[export] Instance postgres_store_laws : StoreLaws PgDb.
Proof.
  split.
  - intros db Hwf. by destruct (pg_wf_rows _ Hwf) as (_ & _ & ?).
  - intros db e Hwf He. destruct (pg_wf_rows _ Hwf) as (_ & Hok & _).
    rewrite Forall_forall in Hok. by apply (Hok _ He).
  - apply pg_timestamp_mono.
  - intros e w Hwf He. eapply wp_mono; [by apply pg_insert_law|].
    intros r w' (?&?&?&Hr). split_and!; [done..|]. destruct r as [|err|]; [done| |done].
    destruct Hr as [[-> _]|[_ ?]]; [by left|by right].
  - intros e w Hwf He Hff Hni. eapply wp_mono; [by apply pg_insert_law|].
    intros [[]|err|] w' (?&?&?&Hr); [done| |done]. naive_solver.
  - intros w Hwf. eapply wp_mono; [by apply pg_list_law|].
    intros [|err|] w' (?&?&?); naive_solver.
  - intros w Hwf Hff. eapply wp_mono; [by apply pg_list_law|].
    intros [|err|] w' (?&?&?); naive_solver.
  - intros i w Hwf Hi. eapply wp_mono; [by apply pg_get_law|].
    intros [|err|] w' (?&?&?); naive_solver.
  - intros i w Hwf Hi Hff. eapply wp_mono; [by apply pg_get_law|].
    intros [|err|] w' (?&?&?); naive_solver.
  - intros i w Hwf Hi Hfr. eapply wp_mono; [by apply pg_event_law|].
    intros [|err|] w' (?&?&?&Hr); [done| |done].
    destruct Hr as [[-> _]|[_ ?]]; split_and!; auto.
  - intros i w Hwf Hi Hfr Hff Hni. eapply wp_mono; [by apply pg_event_law|].
    intros [[]|err|] w' (?&?&?&Hr); [done| |done]. naive_solver.
  - intros w Hwf. eapply wp_mono; [by apply pg_last_hash_law|].
    intros [|err|] w' (?&?&?); naive_solver.
  - intros w Hwf Hff. eapply wp_mono; [by apply pg_last_hash_law|].
    intros [|err|] w' (?&?&?); naive_solver.
  - intros cutoff w Hwf Hc. eapply wp_mono; [by apply pg_prune_law|].
    intros [l|err|] w' (?&?&?&Hr); [| |done].
    + destruct Hr as [? ->]. by split_and!.
    + split_and!; [done..|]. destruct Hr as [_ [->| ->]]; [by exists []|].
      exists (filter (prunable cutoff) (st_entries (w_db w))). split; [|apply filter_split_perm].
      apply Forall_forall. intros e [? _]%list_elem_of_filter. done.
  - intros cutoff w Hwf Hc Hff. eapply wp_mono; [by apply pg_prune_law|].
    intros [|err|] w' (?&?&?&?); naive_solver.
Qed.

(** Migrating creates missing tables and keeps existing data. *)
Lemma postgres_migrate_wf db : st_wf db → postgres_migrate db = db.
Proof.
  intros [(es & Hes & _) (evs & Hevs)]. unfold postgres_migrate. destruct db. by simplify_eq/=.
Qed.

Lemma postgres_new_spec w :
  wp postgres_new (λ r w', db_only w w' ∧ postgres_migrate (w_db w') = postgres_migrate (w_db w) ∧
    (st_wf (w_db w) → w_db w' = w_db w) ∧
    match r with
    | Ok _ => w_db w' = postgres_migrate (w_db w)
    | Err _ => ¬ fault_free
    | Panic _ => False
    end) w.
Proof.
  assert (∀ db, st_wf db → {| pg_backups := Some (default [] (pg_backups db));
    pg_events := pg_events db |} = db) as Hhalf.
  { intros db [(es & Hes & _) _]. destruct db. by simplify_eq/=. }
  unfold postgres_new, run_migrations. wp_steps.
  destruct (fault (w_io w)) eqn:Hf; wp_steps.
  { split_and!; auto with backup. intros Hff. by rewrite Hff in Hf. }
  eapply wp_mono; [apply pg_run_spec|]. intros r1 w1 [Hdb1 Hr1].
  assert (db_only w w1) by (etrans; [apply db_only_tick_io|done]).
  cbn [w_db tick_io] in Hr1. destruct r1 as [[]|err|]; wp_steps; [| |done].
  - injection Hr1 as Hr1. eapply wp_mono; [apply pg_run_spec|]. intros r2 w2 [Hdb2 Hr2].
    rewrite <- Hr1 in Hr2. cbn [pg_backups pg_events] in Hr2.
    assert (db_only w w2) by (by etrans). destruct r2 as [[]|err|]; [| |done].
    + injection Hr2 as Hr2. rewrite <- Hr2. split_and!; [done..|by apply postgres_migrate_wf|done].
    + destruct Hr2 as [[-> Hr2]|[Hff [? Hr2]]].
      * split_and!; [done..|apply Hhalf|]. by intros [? ?]%Hr2.
      * injection Hr2 as _ Hr2. rewrite <- Hr2. split_and!; [done..|by apply postgres_migrate_wf|done].
  - destruct Hr1 as [[-> Hr1]|[Hff [? Hr1]]].
    + split_and!; [done..|]. by intros [? ?]%Hr1.
    + injection Hr1 as _ Hr1. rewrite <- Hr1. split_and!; [done..|apply Hhalf|done].
Qed.

#[export] Instance postgres_open_laws : StoreOpenLaws PgDb.
Proof. split; [done|done|apply postgres_migrate_wf|apply postgres_new_spec]. Qed.
End postgres_laws.
