(* ===== verification/Stats.v ===== *)
(** * Statistics of a collection

    Models [extract_stats], [parse_deck_names_new] and [parse_deck_names_legacy]
    of [crates/storage/src/repository.rs].  An Anki collection is an SQLite file;
    what its bytes contain is a parameter ([CollectionFile]), the queries over it
    are modelled. *)

From S2P Require Import Prelude Calendar World Crates Core.

(** ** SQLite files *)

(** A cell; [SOther] stands for REAL and BLOB cells, which neither an [i64] nor a
    [String] can be read from. *)
Inductive SqlValue := SNull | SInt (z : Z) | SText (s : string) | SOther.
#[export] Instance SqlValue_eq_dec : EqDecision SqlValue.
Proof. solve_decision. Defined.

Record Table := { t_cols : list string; t_rows : list (list SqlValue) }.
(** Tables and columns go by their names in lower case: SQLite compares names without
    regard to case. *)
Abbreviation Database := (gmap string Table).

(** The tables of a file, [None] when it is not a database. *)
Class CollectionFile := { open_collection : bytes → option Database }.

(** SQLite's limits: integers have 64 bits, and a file has fewer than [2 ^ 63] rows. *)
Definition table_ok (t : Table) : Prop :=
  (Z.of_nat (length (t_rows t)) ≤ i64_max)%Z ∧
  ∀ row z, row ∈ t_rows t → SInt z ∈ row → is_i64 z.
Class CollectionFileLaws `{!CollectionFile} : Prop := {
  open_collection_ok b db n t : open_collection b = Some db → db !! n = Some t → table_ok t;
}.

(** ** Queries *)

Definition col_index (c : string) (t : Table) : option nat :=
  fst <$> list_find (λ c', c' = c) (t_cols t).
(** A short row reads as NULL, like a column added later. *)
Definition cell (i : nat) (row : list SqlValue) : SqlValue := default SNull (row !! i).

Definition get_i64 (v : SqlValue) : option Z := match v with SInt z => Some z | _ => None end.
Definition get_string (v : SqlValue) : option string :=
  match v with SText s => Some s | _ => None end.

(** [SELECT COUNT] of all rows of a table. *)
Definition sql_count (n : string) (db : Database) : option Z :=
  t ← db !! n; Some (Z.of_nat (length (t_rows t))).

(** The values of a column, in table order. *)
Definition sql_column (c n : string) (db : Database) : option (list SqlValue) :=
  t ← db !! n; i ← col_index c t; Some (cell i <$> t_rows t).

(** The groups of a GROUP BY: each distinct key with the number of its rows. *)
Definition groups (keys : list SqlValue) : list (SqlValue * Z) :=
  (λ k, (k, Z.of_nat (length (filter (λ k', k' = k) keys)))) <$> remove_dups keys.

(** ** Standard-library pieces *)

(** [str::parse::<i64>]: an optional sign and at least one digit, in range. *)
Fixpoint parse_digits (acc : Z) (s : string) : option Z :=
  match s with
  | EmptyString => Some acc
  | String a s =>
      d ← char_digit a;
      if (d <? 10)%Z then parse_digits (acc * 10 + d) s else None
  end.
Definition parse_unsigned (s : string) : option Z :=
  match s with EmptyString => None | _ => parse_digits 0 s end.
Definition parse_i64 (s : string) : option Z :=
  z ← match s with
      | String "-" s => Z.opp <$> parse_unsigned s
      | String "+" s => parse_unsigned s
      | s => parse_unsigned s
      end;
  if decide (is_i64 z) then Some z else None.

Example parse_i64_ex1 : parse_i64 "-9223372036854775808" = Some i64_min.
Proof. reflexivity. Qed.
Example parse_i64_ex2 : parse_i64 "9223372036854775808" = None.
Proof. reflexivity. Qed.
Example parse_i64_ex3 : (parse_i64 "+10", parse_i64 "-", parse_i64 "1a") = (Some 10%Z, None, None).
Proof. reflexivity. Qed.

(** [slice::sort_by] is stable: equal elements keep their order. *)
Fixpoint sort_insert {A} (lt : A → A → bool) (x : A) (l : list A) : list A :=
  match l with
  | [] => [x]
  | y :: l => if lt y x then y :: sort_insert lt x l else x :: y :: l
  end.
Definition sort_by {A} (lt : A → A → bool) (l : list A) : list A :=
  foldr (sort_insert lt) [] l.

Definition deck_name_lt (a b : DeckStats) : bool := str_lt (deck_name a) (deck_name b).

(** ** Extraction *)

Section extract.
Context {S : Type} `{!Env, !SerdeJson, !SqlEngine, !CollectionFile}.

(** One query over an open file. *)
Definition query {A} (q : option A) : M S A := io_step;; from_option ["sqlite error"] q.

Definition names_of_list (l : list (Z * string)) : gmap Z string :=
  foldl (λ m kv, <[kv.1 := kv.2]> m) ∅ l.

(** Schema 18 and later: the [decks] table. *)
Definition parse_deck_names_new (db : Database) : M S (gmap Z string) :=
  rows ← query (t ← db !! "decks"; i ← col_index "id" t; n ← col_index "name" t;
                Some ((λ row, (cell i row, cell n row)) <$> t_rows t));
  l ← from_option ["InvalidColumnType"]
        (mapM (λ p, i ← get_i64 p.1; n ← get_string p.2; Some (i, n)) (sql_scan rows));
  mret (names_of_list l).

(** Legacy schema: a JSON object in [col.decks]. *)
Definition legacy_name (kv : string * Json) : option (Z * string) :=
  i ← parse_i64 kv.1;
  v ← json_get "name" kv.2;
  n ← json_str v;
  Some (i, n).
Definition parse_deck_names_legacy (raw : string) : M S (gmap Z string) :=
  v ← context "parse col.decks json" (from_option ["invalid JSON"] (json_from_str raw));
  match v with
  | JObject l =>
      (* a [serde_json::Map] iterates in key order, one value per key *)
      let obj := foldl (λ m kv, btree_insert kv.1 kv.2 m) [] l in
      mret (names_of_list (omap legacy_name obj))
  | _ => fail ["decks json must be object"]
  end.

Definition deck_names_of (db : Database) : M S (gmap Z string) :=
  context "extract deck names" (
    r ← attempt (parse_deck_names_new db);
    match r with
    | inr names => mret names
    | inl _ =>
        col ← query (sql_column "decks" "col" db);
        v ← from_option ["QueryReturnedNoRows"] (head (sql_scan col));
        raw ← from_option ["InvalidColumnType"] (get_string v);
        parse_deck_names_legacy raw
    end).

Definition deck_stats_row (names : gmap Z string) (g : Z * Z) : DeckStats := {|
  deck_id := g.1;
  deck_name := default ("Deck " +:+ pretty g.1) (names !! g.1);
  card_count := g.2;
|}.

(** The queries over an open collection. *)
Definition stats_of_db (db : Database) : M S BackupStats :=
  cards ← query (sql_count "cards" db);
  notes ← query (sql_count "notes" db);
  revlog ← query (sql_count "revlog" db);
  names ← deck_names_of db;
  let decks := as_i64 (Z.of_nat (size names)) in
  keys ← query (sql_column "did" "cards" db);
  gs ← from_option ["InvalidColumnType"]
         (mapM (λ g : SqlValue * Z, i ← get_i64 g.1; Some (i, g.2)) (sql_scan (groups keys)));
  mret {|
    total_cards := cards;
    total_decks := decks;
    total_notes := notes;
    total_revlog := revlog;
    deck_stats := sort_by deck_name_lt (deck_stats_row names <$> gs);
  |}.

Definition extract_stats (path : Path) : M S BackupStats :=
  b ← context ("open collection db: " +:+ display path) (fs_read path);
  db ← query (open_collection b);
  stats_of_db db.
End extract.

(** ** Sorting *)

Section sorting.
Context {A : Type} (lt : A → A → bool).

Lemma sort_insert_perm x l : sort_insert lt x l ≡ₚ x :: l.
Proof.
  induction l as [|y l IH]; simpl; [done|]. destruct (lt y x); [|done].
  rewrite IH. apply Permutation_swap.
Qed.
Lemma sort_by_perm l : sort_by lt l ≡ₚ l.
Proof. induction l as [|x l IH]; simpl; [done|]. by rewrite sort_insert_perm, IH. Qed.

Context (Htrans : ∀ x y z, lt y x = false → lt z y = false → lt z x = false)
        (Hasym : ∀ x y, lt x y = true → lt y x = false).

Lemma sort_by_sorted l : StronglySorted (λ x y, lt y x = false) (sort_by lt l).
Proof.
  induction l as [|x l IH]; simpl; [constructor|].
  induction IH as [|y l' Hs IH' Hall]; simpl; [repeat constructor|].
  destruct (lt y x) eqn:Hyx.
  - constructor; [done|]. rewrite sort_insert_perm. constructor; [by apply Hasym|done].
  - constructor; [by constructor|]. constructor; [done|].
    eapply Forall_impl; [done|]. intros z Hz. simpl. by eapply Htrans.
Qed.

(** Elements that the order does not separate keep their relative order. *)
Lemma sort_by_stable (P : A → Prop) `{!∀ x, Decision (P x)} l :
  (∀ x y, P x → P y → lt x y = false) → filter P (sort_by lt l) = filter P l.
Proof.
  intros HP. assert (∀ x l, filter P (sort_insert lt x l) = filter P (x :: l)) as Hins.
  { intros x l'. induction l' as [|y l' IH]; [done|]. simpl.
    destruct (lt y x) eqn:Hyx; [|done]. destruct (decide (P y)) as [Hy|Hy].
    - rewrite filter_cons_True, IH by done. destruct (decide (P x)) as [Hx|Hx].
      + by rewrite HP in Hyx.
      + by rewrite !(filter_cons_False _ x), filter_cons_True by done.
    - rewrite filter_cons_False, IH by done. destruct (decide (P x)) as [Hx|Hx].
      + by rewrite !(filter_cons_True _ x), filter_cons_False by done.
      + by rewrite !(filter_cons_False _ x), filter_cons_False by done. }
  induction l as [|x l IH]; simpl; [done|]. rewrite Hins.
  destruct (decide (P x)); [rewrite !filter_cons_True|rewrite !filter_cons_False]; by rewrite ?IH.
Qed.
End sorting.

Lemma deck_name_lt_trans a b c :
  deck_name_lt b a = false → deck_name_lt c b = false → deck_name_lt c a = false.
Proof.
  unfold deck_name_lt. intros Hab Hbc. destruct (str_lt (deck_name c) (deck_name a)) eqn:Hca; [|done].
  destruct (str_lt_cotrans (deck_name c) (deck_name a) (deck_name b)) as [Hx|Hx]; [by rewrite Hca| |].
  - by rewrite Hbc in Hx.
  - by rewrite Hab in Hx.
Qed.

(** ** Groups *)

Definition sumZ (l : list Z) : Z := foldr Z.add 0%Z l.

Lemma sumZ_perm l l' : l ≡ₚ l' → sumZ l = sumZ l'.
Proof. induction 1; simpl; lia. Qed.

Lemma group_count_sum (ks : list SqlValue) (ds : list SqlValue) :
  NoDup ds → (∀ k, k ∈ ks → k ∈ ds) →
  sumZ ((λ d, Z.of_nat (length (filter (λ k, k = d) ks))) <$> ds) = Z.of_nat (length ks).
Proof.
  intros Hnd. revert ks. induction Hnd as [|d ds Hd Hnd IH]; intros ks Hin; simpl.
  - destruct ks as [|k ks]; [done|]. exfalso. by eapply not_elem_of_nil, Hin, list_elem_of_here.
  - rewrite (Permutation_length (filter_split_perm (λ k, k = d) ks)), length_app, Nat2Z.inj_add.
    f_equal. rewrite <- (IH (filter (λ k, ¬ k = d) ks)).
    + f_equal. apply list_fmap_ext. intros i d' Hd'. do 2 f_equal.
      rewrite list_filter_filter. apply list_filter_iff. intros k.
      split; [|tauto]. intros ->. split; [done|]. intros ->. apply Hd.
      by eapply list_elem_of_lookup_2.
    + intros k [Hne Hk]%list_elem_of_filter. apply Hin, elem_of_cons in Hk as [->|]; done.
Qed.

Lemma groups_sum ks : sumZ ((groups ks).*2) = Z.of_nat (length ks).
Proof.
  unfold groups. rewrite <- list_fmap_compose. apply group_count_sum.
  - apply NoDup_remove_dups.
  - intros k. by rewrite elem_of_remove_dups.
Qed.

(** ** Correctness of the statistics *)

(** [s] describes a collection whose card rows have deck keys [keys] and whose
    decks are named by [names]. *)
Record stats_correct (keys : list SqlValue) (names : gmap Z string) (s : BackupStats) : Prop := {
  sc_cards : total_cards s = Z.of_nat (length keys);
  sc_decks : total_decks s = as_i64 (Z.of_nat (size names));
  (** every deck with cards is listed once *)
  sc_ids : NoDup (deck_id <$> deck_stats s);
  sc_complete k : k ∈ keys → ∃ d, d ∈ deck_stats s ∧ k = SInt (deck_id d);
  (** with the number of its cards and its name *)
  sc_count d : d ∈ deck_stats s →
    card_count d = Z.of_nat (length (filter (λ k, k = SInt (deck_id d)) keys)) ∧
    (0 < card_count d)%Z;
  sc_name d : d ∈ deck_stats s →
    deck_name d = default ("Deck " +:+ pretty (deck_id d)) (names !! deck_id d);
  (** in the order of the names *)
  sc_sorted : StronglySorted (λ a b, str_lt (deck_name b) (deck_name a) = false) (deck_stats s);
  (** and the counts add up *)
  sc_sum : sumZ (card_count <$> deck_stats s) = total_cards s;
}.

Lemma group_rows_int (l : list (SqlValue * Z)) gs :
  mapM (λ g : SqlValue * Z, i ← get_i64 g.1; Some (i, g.2)) l = Some gs →
  l = (λ g, (SInt g.1, g.2)) <$> gs.
Proof.
  revert gs. induction l as [|[k c] l IH]; intros gs; simpl; [by intros [= <-]|].
  destruct k; simpl; try done. destruct (mapM _ l) as [gs'|]; simpl; [|done].
  intros [= <-]. simpl. f_equal. by apply IH.
Qed.

Lemma stats_correct_intro `{!SqlEngine, !SqlEngineLaws} keys names gs notes revlog :
  mapM (λ g : SqlValue * Z, i ← get_i64 g.1; Some (i, g.2)) (sql_scan (groups keys)) = Some gs →
  stats_correct keys names {|
    total_cards := Z.of_nat (length keys);
    total_decks := as_i64 (Z.of_nat (size names));
    total_notes := notes;
    total_revlog := revlog;
    deck_stats := sort_by deck_name_lt (deck_stats_row names <$> gs) |}.
Proof.
  intros Hgs%group_rows_int.
  assert ((λ g : Z * Z, (SInt g.1, g.2)) <$> gs ≡ₚ groups keys) as Hp
    by (rewrite <- Hgs; apply sql_scan_perm).
  pose proof (sort_by_perm deck_name_lt (deck_stats_row names <$> gs)) as Hsort.
  assert (∀ g, g ∈ gs ↔ SInt g.1 ∈ keys ∧
            g.2 = Z.of_nat (length (filter (λ k, k = SInt g.1) keys))) as Hg.
  { intros [i c]. transitivity ((SInt i, c) ∈ groups keys).
    - rewrite <- Hp, list_elem_of_fmap. split; [intros ?; by exists (i, c)|].
      intros ([i' c'] & [= -> ->] & ?). done.
    - unfold groups. rewrite list_elem_of_fmap. split.
      + intros (k & [= <- ->] & Hk). by rewrite elem_of_remove_dups in Hk.
      + simpl. intros [Hk ->]. exists (SInt i). by rewrite elem_of_remove_dups. }
  split; cbn [total_cards total_decks deck_stats]; try done.
  - rewrite Hsort, <- list_fmap_compose.
    apply (NoDup_fmap_1 SInt). rewrite <- list_fmap_compose.
    assert (NoDup ((groups keys).*1)) as Hnd.
    { unfold groups. rewrite <- list_fmap_compose, list_fmap_id. apply NoDup_remove_dups. }
    by rewrite <- Hp, <- list_fmap_compose in Hnd.
  - intros k Hk. assert (∃ c, (k, c) ∈ groups keys) as [c Hc].
    { eexists. unfold groups. apply list_elem_of_fmap. exists k. by rewrite elem_of_remove_dups. }
    rewrite <- Hp in Hc. apply list_elem_of_fmap in Hc as (g & [= -> ->] & Hgin).
    exists (deck_stats_row names g). split; [|done]. rewrite Hsort. by apply list_elem_of_fmap_2.
  - intros d. rewrite Hsort. intros (g & -> & [Hk Hc]%Hg)%list_elem_of_fmap. simpl. split; [done|].
    rewrite Hc. assert (SInt g.1 ∈ filter (λ k, k = SInt g.1) keys) as Hin
      by (by apply list_elem_of_filter).
    destruct (filter _ keys); [by apply elem_of_nil in Hin|simpl; lia].
  - intros d. rewrite Hsort. by intros (g & -> & _)%list_elem_of_fmap.
  - apply sort_by_sorted; [apply deck_name_lt_trans|]. intros x y. apply str_lt_asym.
  - rewrite (sumZ_perm _ (card_count <$> (deck_stats_row names <$> gs))) by (by rewrite Hsort).
    rewrite <- groups_sum, <- list_fmap_compose. apply sumZ_perm.
    by rewrite <- Hp, <- list_fmap_compose.
Qed.

(** ** The extraction, in every outcome *)

Section extract_spec.
Context {S : Type} `{!Env, !SerdeJson, !SqlEngine, !SqlEngineLaws, !CollectionFile}.
Implicit Types w : World S.

(** The deck names the two schemas give. *)
Definition names_new (db : Database) : option (gmap Z string) :=
  t ← db !! "decks"; i ← col_index "id" t; n ← col_index "name" t;
  l ← mapM (λ p : SqlValue * SqlValue, i ← get_i64 p.1; n ← get_string p.2; Some (i, n))
        (sql_scan ((λ row, (cell i row, cell n row)) <$> t_rows t));
  Some (names_of_list l).
Definition names_legacy (db : Database) : option (gmap Z string) :=
  col ← sql_column "decks" "col" db;
  v ← head (sql_scan col);
  raw ← get_string v;
  j ← json_from_str raw;
  match j with
  | JObject l =>
      Some (names_of_list (omap legacy_name (foldl (λ m kv, btree_insert kv.1 kv.2 m) [] l)))
  | _ => None
  end.

(** An operation that reads, and whose result is [o] unless an interaction fails. *)
Definition reads {A} (m : M S A) (o : option A) : Prop := ∀ w,
  wp m (λ r w', io_only w w' ∧
    match r with
    | Ok a => o = Some a
    | Err _ => ¬ fault_free ∨ o = None
    | Panic _ => False
    end) w.

Lemma reads_ret {A} (a : A) : reads (mret a) (Some a).
Proof. intros w. by wp_steps. Qed.
Lemma reads_from_option {A} e (o : option A) : reads (from_option e o) o.
Proof. intros w. wp_steps. destruct o; auto with backup. Qed.
Lemma reads_fail {A} e : reads (fail e : M S A) None.
Proof. intros w. wp_steps. auto with backup. Qed.
Lemma reads_query {A} (q : option A) : reads (query q) q.
Proof.
  intros w. unfold query. wp_steps. destruct (fault (w_io w)) eqn:Hf; wp_steps.
  - split; [apply io_only_tick|]. left. intros Hff. by rewrite Hff in Hf.
  - destruct q; split; auto with backup.
Qed.
Lemma reads_context {A} msg (m : M S A) o : reads m o → reads (context msg m) o.
Proof.
  intros Hm w. wp_steps. eapply wp_mono; [apply Hm|]. by intros [] w' ?.
Qed.
Lemma reads_bind {A B} (m : M S A) (k : A → M S B) o f :
  reads m o → (∀ a, o = Some a → reads (k a) (f a)) → reads (m ≫= k) (o ≫= f).
Proof.
  intros Hm Hk w. eapply wp_bind_spec; [apply Hm|]. intros [a|e|] w' [Hio Hr]; simpl; [| |done].
  - subst o. eapply wp_mono; [by apply Hk|]. intros r w'' [Hio' Hr']. split; [by etrans|done].
  - split; [done|]. destruct Hr as [?| ->]; auto.
Qed.

Lemma reads_names_new db : reads (parse_deck_names_new db) (names_new db).
Proof.
  unfold parse_deck_names_new, names_new.
  replace (t ← db !! "decks"; i ← col_index "id" t; n ← col_index "name" t; l ← _; _)
    with ((t ← db !! "decks"; i ← col_index "id" t; n ← col_index "name" t;
            Some ((λ row, (cell i row, cell n row)) <$> t_rows t)) ≫= λ rows,
          mapM (λ p : SqlValue * SqlValue, i ← get_i64 p.1; n ← get_string p.2; Some (i, n))
            (sql_scan rows) ≫= λ l, Some (names_of_list l)).
  - apply reads_bind; [apply reads_query|]. intros rows _.
    apply reads_bind; [apply reads_from_option|]. intros l _. apply reads_ret.
  - destruct (db !! "decks"); [simpl|done]. destruct (col_index "id" t); [simpl|done].
    by destruct (col_index "name" t).
Qed.

Lemma reads_legacy raw :
  reads (parse_deck_names_legacy raw) (j ← json_from_str raw;
    match j with
    | JObject l =>
        Some (names_of_list (omap legacy_name (foldl (λ m kv, btree_insert kv.1 kv.2 m) [] l)))
    | _ => None
    end).
Proof.
  unfold parse_deck_names_legacy.
  apply reads_bind; [apply reads_context, reads_from_option|]. intros j _.
  destruct j; apply reads_fail || apply reads_ret.
Qed.

Lemma reads_names_legacy db :
  reads (col ← query (sql_column "decks" "col" db);
         v ← from_option ["QueryReturnedNoRows"] (head (sql_scan col));
         raw ← from_option ["InvalidColumnType"] (get_string v);
         parse_deck_names_legacy raw) (names_legacy db).
Proof.
  unfold names_legacy.
  apply reads_bind; [apply reads_query|]; intros.
  apply reads_bind; [apply reads_from_option|]; intros.
  apply reads_bind; [apply reads_from_option|]; intros. apply reads_legacy.
Qed.

(** The new schema is tried first, the legacy one when it cannot be read. *)
Lemma deck_names_spec db w :
  wp (deck_names_of db) (λ r w', io_only w w' ∧
    match r with
    | Ok names => names_new db = Some names ∨
        (names_legacy db = Some names ∧ (fault_free → names_new db = None))
    | Err _ => ¬ fault_free ∨ (names_new db = None ∧ names_legacy db = None)
    | Panic _ => False
    end) w.
Proof.
  unfold deck_names_of. wp_steps. eapply wp_mono; [apply reads_names_new|].
  intros [names|e|] w1 [Hio1 Hr1]; [wp_steps; by auto| |done].
  cbn [bind_post]. eapply wp_mono; [apply reads_names_legacy|]. intros r w2 [Hio2 Hr2].
  destruct r as [names|e'|]; [| |done]; (split; [by etrans|]).
  - right. split; [done|]. intros Hff. destruct Hr1; done.
  - destruct Hr1 as [?|?], Hr2 as [?|?]; auto.
Qed.

(** The collection that a path holds and what its statistics must be. *)
Definition describes (fs : FS) (path : Path) (s : BackupStats) : Prop :=
  ∃ b db keys names,
    fs !! path = Some (File b) ∧ open_collection b = Some db ∧
    sql_column "did" "cards" db = Some keys ∧
    (names_new db = Some names ∨ names_legacy db = Some names) ∧
    sql_count "notes" db = Some (total_notes s) ∧
    sql_count "revlog" db = Some (total_revlog s) ∧
    stats_correct keys names s.

(** A collection with every table and column the queries read. *)
Definition collection_valid (b : bytes) : Prop :=
  ∃ db keys, open_collection b = Some db ∧
    is_Some (sql_count "cards" db) ∧ is_Some (sql_count "notes" db) ∧
    is_Some (sql_count "revlog" db) ∧
    sql_column "did" "cards" db = Some keys ∧ Forall (λ k, is_Some (get_i64 k)) keys ∧
    (is_Some (names_new db) ∨ is_Some (names_legacy db)).

Lemma sql_column_count c n db keys :
  sql_column c n db = Some keys → sql_count n db = Some (Z.of_nat (length keys)).
Proof.
  unfold sql_column, sql_count. destruct (db !! n) as [t|]; simpl; [|done].
  destruct (col_index c t); simpl; [|done]. intros [= <-]. by rewrite length_fmap.
Qed.

Lemma groups_int keys : Forall (λ k, is_Some (get_i64 k)) keys →
  is_Some (mapM (λ g : SqlValue * Z, i ← get_i64 g.1; Some (i, g.2)) (sql_scan (groups keys))).
Proof.
  intros Hk. apply mapM_is_Some. rewrite sql_scan_perm. unfold groups.
  apply Forall_fmap, Forall_forall. intros k Hin. simpl. rewrite elem_of_remove_dups in Hin.
  rewrite Forall_forall in Hk. destruct (Hk k Hin) as [z ->]. simpl. eauto.
Qed.

Lemma stats_of_db_spec db w :
  wp (stats_of_db db) (λ r w', io_only w w' ∧
    match r with
    | Ok s => ∃ keys names, sql_column "did" "cards" db = Some keys ∧
        (names_new db = Some names ∨ names_legacy db = Some names) ∧
        sql_count "notes" db = Some (total_notes s) ∧
        sql_count "revlog" db = Some (total_revlog s) ∧ stats_correct keys names s
    | Err _ => ¬ fault_free ∨ sql_count "cards" db = None ∨ sql_count "notes" db = None ∨
        sql_count "revlog" db = None ∨ sql_column "did" "cards" db = None ∨
        (∃ keys, sql_column "did" "cards" db = Some keys ∧ ¬ Forall (λ k, is_Some (get_i64 k)) keys) ∨
        (names_new db = None ∧ names_legacy db = None)
    | Panic _ => False
    end) w.
Proof.
  unfold stats_of_db.
  eapply wp_bind_spec; [apply reads_query|]. intros [cards|e|] w1 [Hio1 Hr1]; simpl; [|naive_solver..].
  eapply wp_bind_spec; [apply reads_query|]. intros [notes|e|] w2 [Hio2 Hr2]; simpl; [| |done].
  2: { split; [by etrans|naive_solver]. }
  eapply wp_bind_spec; [apply reads_query|]. intros [revlog|e|] w3 [Hio3 Hr3]; simpl; [| |done].
  2: { split; [by do 2 etrans|naive_solver]. }
  assert (io_only w w3) as Hio by (by do 2 etrans).
  eapply wp_bind_spec; [apply deck_names_spec|]. intros [names|e|] w4 [Hio4 Hr4]; simpl; [| |done].
  2: { split; [by etrans|naive_solver]. }
  eapply wp_bind_spec; [apply reads_query|]. intros [keys|e|] w5 [Hio5 Hr5]; simpl; [| |done].
  2: { split; [by do 2 etrans|naive_solver]. }
  assert (io_only w w5) as Hio' by (by do 2 etrans).
  wp_steps. destruct (mapM _ _) as [gs|] eqn:Hgs; wp_steps; (split; [done|]).
  - exists keys, names. rewrite (sql_column_count _ _ _ _ Hr5) in Hr1. injection Hr1 as <-.
    split_and!; [done| naive_solver |done|done|]. by apply stats_correct_intro.
  - do 5 right. left. exists keys. split; [done|]. intros Hk%groups_int.
    rewrite Hgs in Hk. by apply is_Some_None in Hk.
Qed.

(** Whatever happens, extraction only reads; its result describes the file. *)
Lemma extract_stats_spec path w :
  wp (extract_stats path) (λ r w', io_only w w' ∧
    match r with
    | Ok s => describes (w_fs w) path s
    | Err _ => ¬ fault_free ∨ (∀ b, w_fs w !! path = Some (File b) → ¬ collection_valid b)
    | Panic _ => False
    end) w.
Proof.
  unfold extract_stats. wp_step. wp_step. eapply wp_mono; [apply fs_read_spec|].
  intros [b|e|] w1 [-> Hr1]; cbn [bind_post]; [| |done].
  2: { split; [apply io_only_tick|]. destruct (fault (w_io w)) eqn:Hf; [left|right].
       - intros Hff. by rewrite Hff in Hf.
       - intros b Hb. by destruct (Hr1 eq_refl b). }
  eapply wp_bind_spec; [apply reads_query|]. intros [db|e|] w2 [Hio2 Hr2]; cbn [bind_post]; [| |done].
  2: { split; [etrans; [apply io_only_tick|done]|]. destruct Hr2 as [?|Hn]; [by left|right].
       intros b' Hb' (db & keys & Hdb & _). congruence. }
  assert (io_only w w2) as Hio by (etrans; [apply io_only_tick|done]).
  eapply wp_mono; [apply stats_of_db_spec|]. intros [s|e|] w3 [Hio3 Hr3]; [| |done];
    (split; [by etrans|]).
  - destruct Hr3 as (keys & names & ?&?&?&?&?). by exists b, db, keys, names.
  - destruct (decide (fault (w_io w) = None)) as [_|]; [|left; intros Hff; by rewrite Hff in *].
    destruct Hr3 as [?|Hbad]; [by left|right].
    intros b' Hb' (db' & keys & Hdb & [? Hc] & [? Hn] & [? Hrv] & Hk & Hint & Hnames).
    simplify_eq. rewrite Hc, Hn, Hrv, Hk in Hbad.
    destruct Hnames as [[? Hx]|[? Hx]]; rewrite Hx in Hbad; naive_solver.
Qed.

Context `{!CollectionFileLaws}.

Lemma sql_count_i64 b db n c :
  open_collection b = Some db → sql_count n db = Some c → is_i64 c.
Proof.
  unfold sql_count. intros Hb. destruct (db !! n) as [t|] eqn:Ht; simpl; [|done].
  intros [= <-]. destruct (open_collection_ok b db n t Hb Ht) as [Hl _].
  unfold is_i64, i64_min in *. lia.
Qed.

Lemma sql_column_i64 b db c n keys z :
  open_collection b = Some db → sql_column c n db = Some keys → SInt z ∈ keys → is_i64 z.
Proof.
  unfold sql_column. intros Hb. destruct (db !! n) as [t|] eqn:Ht; simpl; [|done].
  destruct (col_index c t) as [i|]; simpl; [|done]. intros [= <-].
  intros (row & Heq & Hrow)%list_elem_of_fmap.
  destruct (open_collection_ok b db n t Hb Ht) as [_ Hi]. apply (Hi row z Hrow).
  unfold cell in Heq. destruct (row !! i) as [v|] eqn:Hv; simpl in Heq; [|done]. subst v.
  by eapply list_elem_of_lookup_2.
Qed.

(** The numbers of the statistics fit their fields. *)
Lemma describes_stats_ok fs path s : describes fs path s → stats_ok s.
Proof.
  intros (b & db & keys & names & _ & Hb & Hk & _ & Hn & Hr & Hs).
  assert (is_i64 (total_cards s)) as Hcards.
  { rewrite (sc_cards _ _ _ Hs). eapply sql_count_i64; [done|]. by eapply sql_column_count. }
  split_and!; [done| |by eapply sql_count_i64|by eapply sql_count_i64|].
  - rewrite (sc_decks _ _ _ Hs). apply as_i64_range.
  - apply Forall_forall. intros d Hd. destruct (sc_count _ _ _ Hs d Hd) as [Hc Hpos]. split.
    + eapply sql_column_i64; [done|done|].
      destruct (filter (λ k, k = SInt (deck_id d)) keys) as [|k l] eqn:Hf; [simpl in Hc; lia|].
      assert (k ∈ filter (λ k, k = SInt (deck_id d)) keys) as [-> ?]%list_elem_of_filter; [|done].
      rewrite Hf. left.
    + pose proof (length_filter (λ k, k = SInt (deck_id d)) keys).
      rewrite (sc_cards _ _ _ Hs) in Hcards. unfold is_i64, i64_min in *. lia.
Qed.
End extract_spec.
