(* ===== verification/Sample.v ===== *)
(** * Collections made by SQL

    The tests make their collections with [Connection::execute_batch].  The
    statements they use are modelled here; that SQLite writes a file which reads
    back as the tables is the law of [SqliteFile].  The statistics of a collection
    are determined by its tables when decks have different names, which gives those
    of the collections of the tests. *)

From S2P Require Import Prelude Calendar World Crates Core Stats.

(** ** Statements *)

Record Column := { c_name : string; c_primary : bool; c_not_null : bool }.
Inductive SqlStmt :=
  | CreateTable (n : string) (cols : list Column)
  | InsertInto (n : string) (names : list string) (rows : list (list SqlValue)).

(** The tables with their columns. *)
Abbreviation SqlState := (gmap string (list Column * list (list SqlValue))).

(** The row of an INSERT that names the columns [names]; a column it does not name
    is NULL. *)
Definition insert_values (cols : list Column) (names : list string) (vals : list SqlValue) :
    list SqlValue :=
  (λ c, default SNull ('(i, _) ← list_find (λ n, n = c_name c) names; vals !! i)) <$> cols.
(** NOT NULL and INTEGER PRIMARY KEY; a key that SQLite would choose itself is outside
    the model. *)
Definition cell_ok (c : Column) (v : SqlValue) (column : list SqlValue) : bool :=
  (negb (c_not_null c) || negb (bool_decide (v = SNull))) &&
  (negb (c_primary c) ||
    match v with SInt z => bool_decide (is_i64 z) && bool_decide (v ∉ column) | _ => false end).
Definition row_ok (cols : list Column) (rows : list (list SqlValue)) (row : list SqlValue) : bool :=
  forallb (λ ic : nat * Column, cell_ok ic.2 (cell ic.1 row) (cell ic.1 <$> rows)) (imap pair cols).

Definition insert_row (cols : list Column) (names : list string) (acc : option (list (list SqlValue)))
    (vals : list SqlValue) : option (list (list SqlValue)) :=
  rows ← acc;
  let row := insert_values cols names vals in
  if bool_decide (length vals = length names) && row_ok cols rows row then Some (rows ++ [row]) else None.

Definition exec_stmt (st : SqlState) (s : SqlStmt) : option SqlState :=
  match s with
  | CreateTable n cols =>
      match st !! n with Some _ => None | None => Some (<[n := (cols, [])]> st) end
  | InsertInto n names new =>
      '(cols, rows) ← st !! n;
      rows ← foldl (insert_row cols names) (Some rows) new;
      Some (<[n := (cols, rows)]> st)
  end.
Definition exec_batch (batch : list SqlStmt) : option SqlState :=
  foldl (λ acc s, st ← acc; exec_stmt st s) (Some ∅) batch.
Definition tables (st : SqlState) : Database :=
  (λ p : list Column * list (list SqlValue), {| t_cols := c_name <$> p.1; t_rows := p.2 |}) <$> st.

(** SQLite's limits, as a test. *)
Definition table_test (t : Table) : bool :=
  (Z.of_nat (length (t_rows t)) <=? i64_max)%Z &&
  forallb (forallb (λ v, match v with SInt z => bool_decide (is_i64 z) | _ => true end)) (t_rows t).
Definition db_test (db : Database) : bool := forallb table_test (map_to_list db).*2.
Lemma table_test_ok t : table_test t = true → table_ok t.
Proof.
  unfold table_test. rewrite andb_true_iff, Z.leb_le, forallb_forall. intros [Hlen Hrows]. split; [done|].
  intros row z Hrow Hz. specialize (Hrows row (proj1 (list_elem_of_In _ _) Hrow)).
  rewrite forallb_forall in Hrows. specialize (Hrows (SInt z) (proj1 (list_elem_of_In _ _) Hz)).
  by rewrite bool_decide_eq_true in Hrows.
Qed.
Lemma db_test_ok db n t : db_test db = true → db !! n = Some t → table_ok t.
Proof.
  unfold db_test. rewrite forallb_forall. intros Hdb Hn. apply table_test_ok, Hdb, list_elem_of_In.
  apply list_elem_of_fmap. exists (n, t). split; [done|]. by apply elem_of_map_to_list.
Qed.

(** The file that a batch leaves when it is run on a new one. *)
Class SqliteFile := { sqlite_file : list SqlStmt → bytes }.
Class SqliteFileLaws `{!CollectionFile, !SqliteFile} : Prop := {
  sqlite_file_tables batch st : exec_batch batch = Some st → db_test (tables st) = true →
    open_collection (sqlite_file batch) = Some (tables st);
}.

(** ** Statistics are determined *)

(** No two of the decks have the same name. *)
Definition names_differ (ds : list DeckStats) : Prop :=
  ∀ d1 d2, d1 ∈ ds → d2 ∈ ds → deck_name d1 = deck_name d2 → deck_id d1 = deck_id d2.

Section determined.
Context {keys : list SqlValue} {names : gmap Z string}.

Lemma deck_determined s1 s2 d1 d2 :
  stats_correct keys names s1 → stats_correct keys names s2 →
  d1 ∈ deck_stats s1 → d2 ∈ deck_stats s2 → deck_id d1 = deck_id d2 → d1 = d2.
Proof.
  intros Hs1 Hs2 Hd1 Hd2 Hid. destruct (sc_count _ _ _ Hs1 _ Hd1) as [Hc1 _].
  destruct (sc_count _ _ _ Hs2 _ Hd2) as [Hc2 _].
  pose proof (sc_name _ _ _ Hs1 _ Hd1). pose proof (sc_name _ _ _ Hs2 _ Hd2).
  destruct d1, d2; simpl in *. subst. done.
Qed.
(** A listed deck has cards, so that every correct listing has it. *)
Lemma deck_listed s1 s2 d :
  stats_correct keys names s1 → stats_correct keys names s2 → d ∈ deck_stats s1 → d ∈ deck_stats s2.
Proof.
  intros Hs1 Hs2 Hd. destruct (sc_count _ _ _ Hs1 _ Hd) as [Hc Hpos].
  assert (∃ k, k ∈ filter (λ k, k = SInt (deck_id d)) keys) as [k Hk].
  { destruct (filter _ keys) as [|k l]; [simpl in Hc; lia|]. exists k. left. }
  apply list_elem_of_filter in Hk as [-> Hk].
  destruct (sc_complete _ _ _ Hs2 _ Hk) as (d' & Hd' & [= Hid]).
  by rewrite (deck_determined s1 s2 d d' Hs1 Hs2 Hd Hd' Hid).
Qed.
Lemma stats_determined s1 s2 :
  stats_correct keys names s1 → stats_correct keys names s2 → names_differ (deck_stats s1) →
  total_notes s1 = total_notes s2 → total_revlog s1 = total_revlog s2 → s1 = s2.
Proof.
  intros Hs1 Hs2 Hdiff Hn Hr.
  assert (deck_stats s1 = deck_stats s2) as Hdecks.
  { eapply StronglySorted_unique_strong; [|apply (sc_sorted _ _ _ Hs1)|apply (sc_sorted _ _ _ Hs2)|].
    - intros d1 d2 Hd1 Hd2 Hlt1 Hlt2. apply (deck_determined s1 s2); try done.
      apply Hdiff; [done|by apply (deck_listed s2 s1)|]. by apply str_lt_total.
    - apply NoDup_Permutation; [eapply NoDup_fmap_1, (sc_ids _ _ _ Hs1)|
        eapply NoDup_fmap_1, (sc_ids _ _ _ Hs2)|].
      intros d. split; by apply deck_listed. }
  pose proof (sc_cards _ _ _ Hs1). pose proof (sc_cards _ _ _ Hs2).
  pose proof (sc_decks _ _ _ Hs1). pose proof (sc_decks _ _ _ Hs2).
  destruct s1, s2; simpl in *. congruence.
Qed.
End determined.

(** ** The collections of the tests *)

Definition plain_column (n : string) : Column := {| c_name := n; c_primary := false; c_not_null := true |}.
Definition key_column : Column := {| c_name := "id"; c_primary := true; c_not_null := false |}.
Definition sample_decks_text : string := quoted "{`10`:{`name`:`Default`},`20`:{`name`:`Spanish`}}".
Definition sample_decks : Json :=
  JObject [("10", JObject [("name", JString "Default")]); ("20", JObject [("name", JString "Spanish")])].
Definition schema_batch : list SqlStmt := [
  CreateTable "cards" [key_column; plain_column "did"];
  CreateTable "notes" [key_column];
  CreateTable "revlog" [key_column];
  CreateTable "col" [plain_column "decks"]].
Definition sample_batch : list SqlStmt := schema_batch ++ [
  InsertInto "notes" ["id"] [[SInt 1]; [SInt 2]];
  InsertInto "revlog" ["id"] [[SInt 1]];
  InsertInto "cards" ["id"; "did"] [[SInt 1; SInt 10]; [SInt 2; SInt 10]; [SInt 3; SInt 20]];
  InsertInto "col" ["decks"] [[SText sample_decks_text]]].
Definition sample_batch_v2 : list SqlStmt := schema_batch ++ [
  InsertInto "notes" ["id"] [[SInt 1]; [SInt 2]; [SInt 3]];
  InsertInto "revlog" ["id"] [[SInt 1]; [SInt 2]];
  InsertInto "cards" ["id"; "did"] [[SInt 1; SInt 10]; [SInt 2; SInt 10]; [SInt 3; SInt 20]; [SInt 4; SInt 20]];
  InsertInto "col" ["decks"] [[SText sample_decks_text]]].

(** Their tables, and the statistics a backup of them has. *)
Definition sample_tables (notes revlog cards : list (list SqlValue)) : Database :=
  {[ "cards" := {| t_cols := ["id"; "did"]; t_rows := cards |};
     "notes" := {| t_cols := ["id"]; t_rows := notes |};
     "revlog" := {| t_cols := ["id"]; t_rows := revlog |};
     "col" := {| t_cols := ["decks"]; t_rows := [[SText sample_decks_text]] |} ]}.
Definition deck (i : Z) (n : string) (c : Z) : DeckStats := {| deck_id := i; deck_name := n; card_count := c |}.
Definition sample_stats : BackupStats := {|
  total_cards := 3; total_decks := 2; total_notes := 2; total_revlog := 1;
  deck_stats := [deck 10 "Default" 2; deck 20 "Spanish" 1];
|}.
Definition sample_stats_v2 : BackupStats := {|
  total_cards := 4; total_decks := 2; total_notes := 3; total_revlog := 2;
  deck_stats := [deck 10 "Default" 2; deck 20 "Spanish" 2];
|}.

Lemma sample_batch_runs : tables <$> exec_batch sample_batch =
  Some (sample_tables [[SInt 1]; [SInt 2]] [[SInt 1]]
    [[SInt 1; SInt 10]; [SInt 2; SInt 10]; [SInt 3; SInt 20]]).
Proof. vm_compute. reflexivity. Qed.
Lemma sample_batch_v2_runs : tables <$> exec_batch sample_batch_v2 =
  Some (sample_tables [[SInt 1]; [SInt 2]; [SInt 3]] [[SInt 1]; [SInt 2]]
    [[SInt 1; SInt 10]; [SInt 2; SInt 10]; [SInt 3; SInt 20]; [SInt 4; SInt 20]]).
Proof. vm_compute. reflexivity. Qed.
(** A key cannot be inserted twice. *)
Example duplicate_key_refused :
  exec_batch (schema_batch ++ [InsertInto "notes" ["id"] [[SInt 1]; [SInt 1]]]) = None.
Proof. vm_compute. reflexivity. Qed.

Section sample.
Context `{!SerdeJson, !SqlEngine, !SqlEngineLaws, !CollectionFile, !CollectionFileLaws}.
Context `{!SqliteFile, !SqliteFileLaws}.
(** [serde_json] reads the deck column. *)
Context (Hjson : json_from_str sample_decks_text = Some sample_decks).

Definition sample_collection : bytes := sqlite_file sample_batch.
Definition sample_collection_v2 : bytes := sqlite_file sample_batch_v2.

Lemma batch_tables batch db : tables <$> exec_batch batch = Some db → db_test db = true →
  open_collection (sqlite_file batch) = Some db.
Proof.
  destruct (exec_batch batch) as [st|] eqn:Hb; [|done]. intros [= <-]. by apply sqlite_file_tables.
Qed.
Lemma sample_opens : open_collection sample_collection = Some
  (sample_tables [[SInt 1]; [SInt 2]] [[SInt 1]] [[SInt 1; SInt 10]; [SInt 2; SInt 10]; [SInt 3; SInt 20]]).
Proof. apply batch_tables; [apply sample_batch_runs|by vm_compute]. Qed.
Lemma sample_v2_opens : open_collection sample_collection_v2 = Some
  (sample_tables [[SInt 1]; [SInt 2]; [SInt 3]] [[SInt 1]; [SInt 2]]
    [[SInt 1; SInt 10]; [SInt 2; SInt 10]; [SInt 3; SInt 20]; [SInt 4; SInt 20]]).
Proof. apply batch_tables; [apply sample_batch_v2_runs|by vm_compute]. Qed.

(** The deck names are in the legacy column, in any scan order. *)
Definition sample_names : gmap Z string := {[ 10%Z := "Default"; 20%Z := "Spanish" ]}.
Lemma sample_no_decks notes revlog cards : names_new (sample_tables notes revlog cards) = None.
Proof. reflexivity. Qed.
Lemma sample_names_read notes revlog cards :
  names_legacy (sample_tables notes revlog cards) = Some sample_names.
Proof.
  unfold names_legacy.
  change (sql_column "decks" "col" (sample_tables notes revlog cards)) with (Some [SText sample_decks_text]).
  cbn [mbind option_bind]. rewrite (Permutation_length_1_inv (symmetry (sql_scan_perm [SText sample_decks_text]))).
  cbn [head mbind option_bind get_string]. rewrite Hjson. vm_compute. reflexivity.
Qed.

(** Tables of this shape are a valid collection. *)
Lemma sample_shape_valid b notes revlog cards :
  open_collection b = Some (sample_tables notes revlog cards) →
  Forall (λ row, is_Some (get_i64 (cell 1 row))) cards → collection_valid b.
Proof.
  intros Hb Hcards. eexists _, _. split; [exact Hb|].
  split_and!; [done|done|done|reflexivity| |right; rewrite sample_names_read; by eexists].
  by apply Forall_fmap.
Qed.
Lemma sample_valid : collection_valid sample_collection.
Proof.
  eapply sample_shape_valid; [apply sample_opens|]. repeat constructor; by eexists.
Qed.
Lemma sample_v2_valid : collection_valid sample_collection_v2.
Proof.
  eapply sample_shape_valid; [apply sample_v2_opens|]. repeat constructor; by eexists.
Qed.

Abbreviation deck_keys := (fmap (M := list) (λ z, SInt z)).
Lemma sample_correct : stats_correct (deck_keys [10; 10; 20]%Z) sample_names sample_stats.
Proof.
  split; cbn [sample_stats deck_stats]; try done.
  - apply (bool_decide_unpack _). by vm_compute.
  - intros k. rewrite !fmap_cons, !elem_of_cons, elem_of_nil.
    intros [->|[->|[->|[]]]]; [exists (deck 10 "Default" 2)|exists (deck 10 "Default" 2)|exists (deck 20 "Spanish" 1)]; set_solver.
  - intros d. rewrite !elem_of_cons, elem_of_nil. by intros [->|[->|[]]].
  - intros d. rewrite !elem_of_cons, elem_of_nil. by intros [->|[->|[]]].
  - repeat constructor.
Qed.
Lemma sample_v2_correct : stats_correct (deck_keys [10; 10; 20; 20]%Z) sample_names sample_stats_v2.
Proof.
  split; cbn [sample_stats_v2 deck_stats]; try done.
  - apply (bool_decide_unpack _). by vm_compute.
  - intros k. rewrite !fmap_cons, !elem_of_cons, elem_of_nil.
    intros [->|[->|[->|[->|[]]]]];
      [exists (deck 10 "Default" 2)|exists (deck 10 "Default" 2)|exists (deck 20 "Spanish" 2)..]; set_solver.
  - intros d. rewrite !elem_of_cons, elem_of_nil. by intros [->|[->|[]]].
  - intros d. rewrite !elem_of_cons, elem_of_nil. by intros [->|[->|[]]].
  - repeat constructor.
Qed.

(** What a backup of a file with such tables records. *)
Lemma shape_described fs path b notes revlog cards s s0 :
  open_collection b = Some (sample_tables notes revlog cards) → fs !! path = Some (File b) →
  stats_correct (cell 1 <$> cards) sample_names s0 → names_differ (deck_stats s0) →
  Z.of_nat (length notes) = total_notes s0 → Z.of_nat (length revlog) = total_revlog s0 →
  describes fs path s → s = s0.
Proof.
  intros Hopen Hfile Hs0 Hdiff Hn Hr (b' & db & keys & names & Hf & Hdb & Hkeys & Hnames & Hns & Hrs & Hs).
  assert (b' = b) as -> by congruence. assert (db = sample_tables notes revlog cards) as -> by congruence.
  assert (names = sample_names) as ->.
  { rewrite sample_no_decks, sample_names_read in Hnames. destruct Hnames as [?|[= <-]]; done. }
  injection Hkeys as <-.
  assert (sql_count "notes" (sample_tables notes revlog cards) = Some (Z.of_nat (length notes))) as Hcn by done.
  assert (sql_count "revlog" (sample_tables notes revlog cards) = Some (Z.of_nat (length revlog))) as Hcr by done.
  symmetry. apply (stats_determined s0 s Hs0 Hs Hdiff); congruence.
Qed.
Lemma sample_described fs path s :
  fs !! path = Some (File sample_collection) → describes fs path s → s = sample_stats.
Proof.
  intros Hf. eapply shape_described; [apply sample_opens|exact Hf|exact sample_correct| |done|done].
  intros d1 d2. cbn [sample_stats deck_stats]. rewrite !elem_of_cons, !elem_of_nil.
  by intros [->|[->|[]]] [->|[->|[]]].
Qed.
Lemma sample_v2_described fs path s :
  fs !! path = Some (File sample_collection_v2) → describes fs path s → s = sample_stats_v2.
Proof.
  intros Hf. eapply shape_described; [apply sample_v2_opens|exact Hf|exact sample_v2_correct| |done|done].
  intros d1 d2. cbn [sample_stats_v2 deck_stats]. rewrite !elem_of_cons, !elem_of_nil.
  by intros [->|[->|[]]] [->|[->|[]]].
Qed.
End sample.
