(* ===== verification/Repository.v ===== *)
(** * The backup repository

    Models [BackupRepository] of [crates/storage/src/repository.rs]: running a
    backup, listing, rolling back, pruning, and the pointer file.  The metadata
    store is any implementation of the contract of [Store.v].

    A repository lives below a root directory:
    [root/backups/<timestamp>/collection.anki2] and [metadata.json] per backup,
    [root/state/current-pointer.json] for the active one. *)

From S2P Require Import Prelude Calendar World Crates Core Store Stats.
From S2P Require Sqlite Postgres.

(** ** Data *)

Record BackupPayload := {
  payload_bytes : bytes;
  payload_source_revision : option string;
  payload_sync_duration_ms : option Z;
}.

Inductive RunOnceOutcome :=
  | RCreated (e : BackupEntry)
  | RSkipped (e : BackupEntry).

Section repository.
Context {S : Type} `{!Env, !Chrono, !UuidCrate, !SerdeJson, !SqlEngine, !CollectionFile}.
Context `{!MetadataStore S}.
Context (root : Path).

(** ** Paths *)

Definition backups_dir : Path := join root "backups".
Definition state_dir : Path := join root "state".
Definition backup_dir (dir : string) : Path := join backups_dir dir.
Definition payload_path (dir : string) : Path := join (backup_dir dir) "collection.anki2".
Definition metadata_path (dir : string) : Path := join (backup_dir dir) "metadata.json".
Definition pointer_tmp : Path := join state_dir "current-pointer.json.tmp".
Definition pointer_path : Path := join state_dir "current-pointer.json".

Definition backup_file_path (entry : BackupEntry) : Path := payload_path (timestamp_dir entry).

Definition format_timestamp_dir (now : DateTime) : string :=
  replace_char ":" "-" (to_rfc3339_secs now).

(** ** Writing *)

Definition pointer_json (i : Uuid) (dir : string) (t : DateTime) : Json :=
  json_object [("backup_id", JString (uuid_to_string i)); ("timestamp_dir", JString dir);
               ("updated_at", JString (datetime_serde t))].
Definition pointer_bytes (i : Uuid) (dir : string) (t : DateTime) : bytes :=
  bytes_of_string (json_to_string_pretty (pointer_json i dir t)).

Definition write_current_pointer (backup : BackupEntry) : M S () :=
  t ← now;
  let ptr := pointer_bytes (id backup) (timestamp_dir backup) t in
  context "write current pointer tmp" (fs_write pointer_tmp ptr);;
  context "atomic rename current pointer" (fs_rename pointer_tmp pointer_path).

Definition metadata_bytes (e : BackupEntry) : bytes :=
  bytes_of_string (json_to_string_pretty (entry_to_json e)).

(** The entry made of an identifier and a new entry. *)
Definition make_entry (i : Uuid) (new_entry : NewBackupEntry) : BackupEntry := {|
  id := i;
  created_at := new_created_at new_entry;
  timestamp_dir := new_timestamp_dir new_entry;
  content_hash_of := new_content_hash new_entry;
  status := new_status new_entry;
  skip_reason := new_skip_reason new_entry;
  source_revision := new_source_revision new_entry;
  sync_duration_ms := new_sync_duration_ms new_entry;
  size_bytes := new_size_bytes new_entry;
  stats := new_stats new_entry;
|}.

Definition create_and_insert_entry (new_entry : NewBackupEntry) : M S BackupEntry :=
  i ← new_v4;
  let entry := make_entry i new_entry in
  insert_entry entry;;
  match status entry with
  | Created =>
      context ("write backup metadata: " +:+ display (metadata_path (timestamp_dir entry)))
        (fs_write (metadata_path (timestamp_dir entry)) (metadata_bytes entry));;
      mret entry
  | Skipped => mret entry
  end.

(** The changed branch of [run_once], once the hash has been compared. *)
Definition create_backup (now_ : DateTime) (payload : BackupPayload) (content_hash : string) :
    M S RunOnceOutcome :=
  let dir := format_timestamp_dir now_ in
  context ("create backup dir: " +:+ display (backup_dir dir)) (create_dir_all (backup_dir dir));;
  context ("write payload file: " +:+ display (payload_path dir))
    (fs_write (payload_path dir) (payload_bytes payload));;
  stats ← context "extract backup stats" (extract_stats (payload_path dir));
  len ← context ("stat payload file: " +:+ display (payload_path dir)) (fs_len (payload_path dir));
  created_ ← create_and_insert_entry
    (created now_ dir content_hash (payload_source_revision payload)
       (payload_sync_duration_ms payload) (as_i64 len) stats);
  write_current_pointer created_;;
  mret (RCreated created_).

Definition run_once (payload : BackupPayload) (content_hash : string) : M S RunOnceOutcome :=
  now_ ← now;
  last ← last_created_hash;
  match last with
  | Some last_hash =>
      if decide (last_hash = content_hash) then
        skipped ← create_and_insert_entry (skipped_unchanged now_ content_hash);
        mret (RSkipped skipped)
      else create_backup now_ payload content_hash
  | None => create_backup now_ payload content_hash
  end.

(** ** Reading and rolling back *)

Definition repo_list_backups : M S (list BackupEntry) := list_backups.
Definition repo_get_backup (i : Uuid) : M S (option BackupEntry) := get_backup i.

Definition rollback_to (i : Uuid) : M S BackupEntry :=
  found ← repo_get_backup i;
  backup ← from_option ["backup not found: " +:+ uuid_to_string i] found;
  if decide (status backup ≠ Created)
  then fail ["cannot rollback to skipped backup " +:+ uuid_to_string (id backup)]
  else
    write_current_pointer backup;;
    insert_rollback_event (id backup);;
    mret backup.

(** ** Pruning *)

Fixpoint remove_backup_dirs (doomed : list (string * string)) : M S () :=
  match doomed with
  | [] => mret ()
  | (_, dir) :: doomed =>
      there ← fs_exists (backup_dir dir);
      (if (there : bool)
       then context ("remove old backup dir: " +:+ display (backup_dir dir))
              (fs_remove_dir_all (backup_dir dir))
       else mret ());;
      remove_backup_dirs doomed
  end.

Definition prune_created_older_than_days (retention_days : Z) : M S nat :=
  if (retention_days <=? 0)%Z then mret 0
  else
    t ← now;
    match duration_days retention_days with
    | None => panic "TimeDelta::days out of bounds"
    | Some d =>
        match datetime_sub t d with
        | None => panic "DateTime - TimeDelta overflowed"
        | Some cutoff =>
            doomed ← prune_created_before cutoff;
            remove_backup_dirs doomed;;
            mret (length doomed)
        end
    end.

(** ** Opening a repository *)

(** The directories, then the store. *)
Definition open_repository (store_new : M S ()) : M S () :=
  context "create backups directory" (create_dir_all backups_dir);;
  context "create state directory" (create_dir_all state_dir);;
  store_new.
End repository.

(** [BackupRepository::new]. *)
Definition repository_new `{!Env} (root : Path) : M Sqlite.SqliteDb () :=
  open_repository root Sqlite.sqlite_new.
(** [BackupRepository::with_postgres]. *)
Definition with_postgres `{!Env} (root : Path) : M Postgres.PgDb () :=
  open_repository root Postgres.postgres_new.

(** [BackupRepository::init] chooses the store from the database URL. *)
Inductive Backend := SqliteBackend | PostgresBackend.
Definition init_backend (database_url : option string) : Backend :=
  match database_url with
  | Some url =>
      if starts_with "postgres://" url || starts_with "postgresql://" url
      then PostgresBackend else SqliteBackend
  | None => SqliteBackend
  end.
