(* ===== verification/RepositoryInv.v ===== *)
(** * Repository invariant

    The invariant of a repository and the lemmas about single steps that the
    theorems of [RepositoryThms.v] compose: where files live, which writes touch
    a backup, and what the helper operations do in every outcome. *)

From S2P Require Import Prelude Calendar World Crates Core Store Stats Repository.

(** ** Directory names *)

Lemma enc_no_char b w n c :
  (2 ≤ b ≤ 16)%Z → (0 ≤ n < b ^ Z.of_nat w)%Z → char_digit c = None → has_char c (enc b w n) = false.
Proof.
  intros Hb Hn Hc. revert n Hn. induction w as [|w IH]; intros n Hn; [done|].
  cbn [enc has_char]. assert (0 < b ^ Z.of_nat w)%Z by (apply Z.pow_pos_nonneg; lia).
  rewrite IH by (by apply Z.mod_pos_bound). rewrite orb_false_r.
  apply bool_decide_eq_false. apply digit_char_ne; [|done]. by apply enc_digit_range.
Qed.

Lemma replace_char_none c d s : has_char c s = false → replace_char c d s = s.
Proof.
  induction s as [|a s IH]; simpl; [done|].
  rewrite orb_false_iff, bool_decide_eq_false. intros [? ->%IH]. by rewrite decide_False.
Qed.

(** The fields of a stamp are in range. *)
Lemma stamp_fields_no_char c t : rfc3339_range t → char_digit c = None →
  has_char c (enc 10 4 (c_year (civil_from_days (day_of t)))) = false ∧
  has_char c (two (c_month (civil_from_days (day_of t)))) = false ∧
  has_char c (two (c_day (civil_from_days (day_of t)))) = false ∧
  has_char c (two (hour t)) = false ∧ has_char c (two (minute t)) = false ∧
  has_char c (two (second t)) = false.
Proof.
  intros Ht Hc. pose proof (year_range _ (day_of_range _ Ht)).
  pose proof (civil_ranges (day_of t)). pose proof (time_ranges t).
  unfold two. split_and!; apply enc_no_char; done || lia.
Qed.

Section dirs.
Context `{!Chrono, !ChronoLaws}.

(** [:] becomes [-] in the time part. *)
Lemma format_timestamp_dir_eq t : rfc3339_range t →
  format_timestamp_dir t = stamp_text "-" t +:+ "Z".
Proof.
  intros Ht. unfold format_timestamp_dir. rewrite to_rfc3339_secs_law by done.
  destruct (stamp_fields_no_char ":" t Ht eq_refl) as (?&?&?&?&?&?).
  unfold rfc3339_secs_z, stamp_text. cbv zeta.
  rewrite !replace_char_app, (replace_char_none ":" "-" (enc 10 4 _)) by done.
  rewrite !(replace_char_none ":" "-" (two _)) by done. by rewrite !string_app_assoc.
Qed.

Lemma format_timestamp_dir_name t : rfc3339_range t → is_name (format_timestamp_dir t).
Proof.
  intros Ht. rewrite format_timestamp_dir_eq by done.
  destruct (stamp_fields_no_char "/" t Ht eq_refl) as (?&?&?&?&?&?).
  split_and!.
  - intros Hlen%(f_equal String.length). rewrite string_app_length in Hlen. simpl in Hlen. lia.
  - intros Hlen%(f_equal String.length). rewrite string_app_length in Hlen.
    unfold stamp_text in Hlen. rewrite !string_app_length in Hlen. rewrite enc_length in Hlen.
    simpl in Hlen. lia.
  - unfold stamp_text. cbv zeta. rewrite !has_char_app.
    repeat match goal with H : has_char _ _ = false |- _ => rewrite H; clear H end. done.
Qed.

(** Directory names separate instants by their second, and only by it. *)
Lemma format_timestamp_dir_iff t1 t2 : rfc3339_range t1 → rfc3339_range t2 →
  format_timestamp_dir t1 = format_timestamp_dir t2 ↔ secs t1 = secs t2.
Proof.
  intros Ha Hb. rewrite !format_timestamp_dir_eq by done. split.
  - by apply stamp_text_inj.
  - intros Hs. by rewrite (stamp_text_same _ _ _ Hs).
Qed.
End dirs.

(** ** Where files live *)

Section paths.
Context (root : Path).

Lemma backup_dir_eq dir : is_name dir → backup_dir root dir = root ++ ["backups"; dir].
Proof.
  intros Hd. unfold backup_dir, backups_dir. rewrite !join_name; [|by vm_compute|done].
  by rewrite <- app_assoc.
Qed.
Lemma payload_path_eq dir : is_name dir →
  payload_path root dir = root ++ ["backups"; dir; "collection.anki2"].
Proof.
  intros Hd. unfold payload_path. rewrite join_name by (by vm_compute).
  rewrite backup_dir_eq by done. by rewrite <- app_assoc.
Qed.
Lemma metadata_path_eq dir : is_name dir →
  metadata_path root dir = root ++ ["backups"; dir; "metadata.json"].
Proof.
  intros Hd. unfold metadata_path. rewrite join_name by (by vm_compute).
  rewrite backup_dir_eq by done. by rewrite <- app_assoc.
Qed.
Lemma pointer_tmp_eq : pointer_tmp root = root ++ ["state"; "current-pointer.json.tmp"].
Proof. unfold pointer_tmp, state_dir. rewrite !join_name by (by vm_compute). by rewrite <- app_assoc. Qed.
Lemma pointer_path_eq : pointer_path root = root ++ ["state"; "current-pointer.json"].
Proof. unfold pointer_path, state_dir. rewrite !join_name by (by vm_compute). by rewrite <- app_assoc. Qed.

Lemma payload_path_inj d1 d2 : is_name d1 → is_name d2 →
  payload_path root d1 = payload_path root d2 → d1 = d2.
Proof. intros. rewrite !payload_path_eq in * by done. by simplify_eq. Qed.
Lemma payload_not_metadata d1 d2 : is_name d1 → is_name d2 →
  payload_path root d1 ≠ metadata_path root d2.
Proof. intros. rewrite payload_path_eq, metadata_path_eq by done. intros ?. by simplify_eq. Qed.
Lemma payload_not_tmp d : is_name d → payload_path root d ≠ pointer_tmp root.
Proof. intros. rewrite payload_path_eq, pointer_tmp_eq by done. intros ?. by simplify_eq. Qed.
Lemma payload_not_pointer d : is_name d → payload_path root d ≠ pointer_path root.
Proof. intros. rewrite payload_path_eq, pointer_path_eq by done. intros ?. by simplify_eq. Qed.
Lemma metadata_not_pointer d : is_name d → metadata_path root d ≠ pointer_path root.
Proof. intros. rewrite metadata_path_eq, pointer_path_eq by done. intros ?. by simplify_eq. Qed.
Lemma payload_not_folder d1 d2 : is_name d1 → is_name d2 → payload_path root d1 ≠ backup_dir root d2.
Proof.
  intros. rewrite payload_path_eq, backup_dir_eq by done. intros Heq%(f_equal length).
  rewrite !length_app in Heq. simpl in Heq. lia.
Qed.
Lemma metadata_not_folder d1 d2 : is_name d1 → is_name d2 → backup_dir root d2 ≠ metadata_path root d1.
Proof.
  intros. rewrite metadata_path_eq, backup_dir_eq by done. intros Heq%(f_equal length).
  rewrite !length_app in Heq. simpl in Heq. lia.
Qed.
Lemma tmp_not_pointer : pointer_tmp root ≠ pointer_path root.
Proof. rewrite pointer_tmp_eq, pointer_path_eq. intros ?. by simplify_eq. Qed.
Lemma below_backup d1 d2 : is_name d1 → is_name d2 →
  below (backup_dir root d1) (payload_path root d2) → d1 = d2.
Proof.
  intros. rewrite backup_dir_eq, payload_path_eq in * by done.
  match goal with H : below _ _ |- _ => destruct H as [k Hk] end.
  rewrite <- app_assoc in Hk. by simplify_eq/=.
Qed.
Lemma backup_dir_below d1 d2 : is_name d1 → is_name d2 →
  below (backup_dir root d1) (backup_dir root d2) → d1 = d2.
Proof.
  intros. rewrite !backup_dir_eq in * by done.
  match goal with H : below _ _ |- _ => destruct H as [k Hk] end.
  rewrite <- app_assoc in Hk. by simplify_eq/=.
Qed.
Lemma below_pointer d : is_name d → ¬ below (backup_dir root d) (pointer_path root).
Proof.
  intros Hd [k Hk]. rewrite backup_dir_eq, pointer_path_eq in Hk by done.
  rewrite <- app_assoc in Hk. by simplify_eq/=.
Qed.
End paths.
#[export] Hint Resolve payload_not_metadata payload_not_tmp payload_not_pointer
  metadata_not_pointer tmp_not_pointer : backup.

(** ** Frames *)

(** Repository operations leave the rollback gate, the network, the log and the
    random numbers alone. *)
Definition quiet {S} (w w' : World S) : Prop :=
  w_gate w' = w_gate w ∧ w_sent w' = w_sent w ∧ w_log w' = w_log w ∧
  w_random w' = w_random w ∧ w_elapsed w' = w_elapsed w ∧ w_clock w ≤ w_clock w'.
#[export] Instance quiet_preorder {S} : PreOrder (@quiet S).
Proof.
  split; [by intros w; repeat split|].
  intros w1 w2 w3 (?&?&?&?&?&?) (?&?&?&?&?&?). repeat split; congruence || lia.
Qed.
Lemma quiet_db_only {S} (w w' : World S) : db_only w w' → quiet w w'.
Proof. intros (?&?&?&?&?&?&?&?). by repeat split. Qed.
Lemma quiet_io_only {S} (w w' : World S) : io_only w w' → quiet w w'.
Proof. intros (?&?&?&?&?&?&?&?&?). repeat split; congruence || lia. Qed.
Lemma quiet_set_fs {S} fs (w : World S) : quiet w (set_fs fs (tick_io w)).
Proof. by repeat split. Qed.
Lemma quiet_clock {S} (w : World S) : quiet w (tick_clock w).
Proof. repeat split; simpl; lia. Qed.
Lemma quiet_uuid {S} (w : World S) : quiet w (tick_uuid w).
Proof. by repeat split. Qed.
#[export] Hint Resolve quiet_db_only quiet_io_only quiet_set_fs quiet_clock quiet_uuid : backup.

(** Two trees agree outside the paths [ps]. *)
Definition agree_except (ps : list Path) (fs fs' : FS) : Prop :=
  ∀ q, q ∉ ps → fs' !! q = fs !! q.

(** ** The invariant *)

Section invariant.
Context {S : Type} `{!Env, !Chrono, !UuidCrate, !SerdeJson, !StoreModel S}.
Context (hash : bytes → string) (root : Path).

(** The file of an entry holds a collection with the recorded hash and size. *)
Definition backup_intact (fs : FS) (e : BackupEntry) : Prop :=
  ∃ b, fs !! backup_file_path root e = Some (File b) ∧
    hash b = content_hash_of e ∧ size_bytes e = as_i64 (Z.of_nat (length b)).

Definition files_ok (fs : FS) (es : list BackupEntry) : Prop :=
  ∀ e, e ∈ es → status e = Created → is_name (timestamp_dir e) ∧ backup_intact fs e.

(** Backups do not share a directory. *)
Definition dirs_distinct (es : list BackupEntry) : Prop :=
  ∀ e1 e2, e1 ∈ es → e2 ∈ es → status e1 = Created → status e2 = Created →
    timestamp_dir e1 = timestamp_dir e2 → id e1 = id e2.

(** The pointer file is absent or complete. *)
Definition pointer_ok (fs : FS) : Prop :=
  fs !! pointer_path root = None ∨
  ∃ i d t, fs !! pointer_path root = Some (File (pointer_bytes i d t)).

Record repo_inv (w : World S) : Prop := {
  ri_wf : st_wf (w_db w);
  ri_files : files_ok (w_fs w) (st_entries (w_db w));
  ri_dirs : dirs_distinct (st_entries (w_db w));
  ri_pointer : pointer_ok (w_fs w);
}.

(** [dir] is not the directory of a backup. *)
Definition dir_unused (dir : string) (es : list BackupEntry) : Prop :=
  ∀ e, e ∈ es → status e = Created → timestamp_dir e ≠ dir.

Lemma files_ok_perm fs es es' : es' ≡ₚ es → files_ok fs es → files_ok fs es'.
Proof. intros Hp Hf e. rewrite Hp. apply Hf. Qed.
Lemma dirs_distinct_perm es es' : es' ≡ₚ es → dirs_distinct es → dirs_distinct es'.
Proof. intros Hp Hd e1 e2. rewrite Hp. apply Hd. Qed.

Lemma files_ok_agree fs fs' es :
  (∀ e, e ∈ es → status e = Created → fs' !! backup_file_path root e = fs !! backup_file_path root e) →
  files_ok fs es → files_ok fs' es.
Proof.
  intros Ha Hf e He Hc. destruct (Hf e He Hc) as (Hn & b & Hb & ?). split; [done|].
  exists b. split; [|done]. by rewrite Ha.
Qed.

(** Writes outside the payload files keep the backups. *)
Lemma files_ok_except fs fs' es ps :
  agree_except ps fs fs' →
  (∀ e, e ∈ es → status e = Created → backup_file_path root e ∉ ps) →
  files_ok fs es → files_ok fs' es.
Proof. intros Ha Hps. apply files_ok_agree. intros e He Hc. by apply Ha, Hps. Qed.

Lemma files_ok_pointer fs fs' es :
  agree_except [pointer_tmp root; pointer_path root] fs fs' → files_ok fs es → files_ok fs' es.
Proof.
  intros Ha Hf. eapply files_ok_except; [done| |done]. intros e He Hc.
  destruct (Hf e He Hc) as [Hn _]. rewrite !not_elem_of_cons.
  split_and!; [by apply payload_not_tmp|by apply payload_not_pointer|apply not_elem_of_nil].
Qed.

(** Directories appear, backups stay. *)
Lemma files_ok_dirs fs fs' es : only_adds_dirs fs fs' → files_ok fs es → files_ok fs' es.
Proof.
  intros Ha Hf. apply (files_ok_agree fs); [|done]. intros e He Hc.
  destruct (Hf e He Hc) as (_ & b & Hb & _). rewrite Hb. by eapply only_adds_dirs_lookup.
Qed.

(** A write to an unused directory keeps the backups. *)
Lemma files_ok_insert fs es dir n :
  is_name dir → dir_unused dir es → files_ok fs es →
  files_ok (<[payload_path root dir := n]> fs) es.
Proof.
  intros Hd Hu Hf. apply (files_ok_agree fs); [|done]. intros e He Hc.
  apply lookup_insert_ne. intros Heq. destruct (Hf e He Hc) as [Hn _].
  apply payload_path_inj in Heq; [|done..]. by apply (Hu e).
Qed.
Lemma files_ok_metadata fs es dir n :
  is_name dir → files_ok fs es → files_ok (<[metadata_path root dir := n]> fs) es.
Proof.
  intros Hd Hf. apply (files_ok_agree fs); [|done]. intros e He Hc.
  apply lookup_insert_ne. destruct (Hf e He Hc) as [Hn _].
  intros Heq. symmetry in Heq. by apply payload_not_metadata in Heq.
Qed.

(** A new backup in an unused directory. *)
Lemma files_ok_cons fs es e :
  (status e = Created → is_name (timestamp_dir e) ∧ backup_intact fs e) →
  files_ok fs es → files_ok fs (e :: es).
Proof. intros He Hf e' [->|?]%elem_of_cons; [done|]. by apply Hf. Qed.
Lemma dirs_distinct_cons es e :
  (status e = Created → dir_unused (timestamp_dir e) es) →
  dirs_distinct es → dirs_distinct (e :: es).
Proof.
  intros Hu Hd e1 e2 [->|He1]%elem_of_cons [->|He2]%elem_of_cons Hc1 Hc2 Heq; [done| | |].
  - exfalso. by apply (Hu Hc1 e2).
  - exfalso. by apply (Hu Hc2 e1).
  - by apply Hd.
Qed.

(** Dropping entries keeps everything. *)
Lemma files_ok_subset fs es es' : (∀ e, e ∈ es' → e ∈ es) → files_ok fs es → files_ok fs es'.
Proof. intros Hs Hf e He. by apply Hf, Hs. Qed.
Lemma dirs_distinct_subset es es' : (∀ e, e ∈ es' → e ∈ es) → dirs_distinct es → dirs_distinct es'.
Proof. intros Hs Hd e1 e2 ??. apply Hd; by apply Hs. Qed.

Lemma pointer_ok_agree fs fs' :
  fs' !! pointer_path root = fs !! pointer_path root → pointer_ok fs → pointer_ok fs'.
Proof. unfold pointer_ok. by intros ->. Qed.
End invariant.

(** ** The pointer file *)

Lemma parent_ok_snoc fs p c : p ≠ [] → fs !! p = Some Dir → parent_ok fs (p ++ [c]).
Proof.
  intros Hne Hp. unfold parent_ok. rewrite removelast_last. destruct p; [done|].
  by apply bool_decide_pack.
Qed.

Section pointer.
Context {S : Type} `{!Env, !Chrono, !UuidCrate, !SerdeJson}.
Context (root : Path).
Implicit Types w : World S.

(** In every outcome the pointer file is the old one or the complete new one,
    and nothing but the pointer and its temporary file is touched. *)
Lemma write_current_pointer_spec e w :
  wp (write_current_pointer root e) (λ r w', quiet w w' ∧ w_db w' = w_db w ∧ w_uuid w' = w_uuid w ∧
    agree_except [pointer_tmp root; pointer_path root] (w_fs w) (w_fs w') ∧
    match r with
    | Ok _ => w_fs w' !! pointer_path root =
        Some (File (pointer_bytes (id e) (timestamp_dir e) (clock (w_clock w))))
    | Err _ => w_fs w' !! pointer_path root = w_fs w !! pointer_path root
    | Panic _ => False
    end) w.
Proof.
  unfold write_current_pointer. wp_steps.
  eapply wp_mono; [apply fs_write_spec|]. intros r1 w1 (fs1 & -> & Hr1). cbn [w_fs tick_clock] in Hr1.
  destruct r1 as [[]|err|]; wp_steps; [| |done].
  - destruct Hr1 as [-> _]. eapply wp_mono; [apply fs_rename_spec|]. intros r2 w2 (fs2 & -> & Hr2).
    cbn [w_fs set_fs] in Hr2. destruct r2 as [[]|err|]; [| |done]; cbn beta iota;
      (split; [by repeat split; simpl; lia|]); (split; [done|]); (split; [done|]); cbn [w_fs set_fs].
    + destruct Hr2 as (b & Hb & -> & _). rewrite lookup_insert_eq in Hb. simplify_eq.
      rewrite lookup_insert_eq. split; [|done]. intros q. rewrite !not_elem_of_cons.
      intros (?&?&_). rewrite lookup_insert_ne, lookup_delete_ne, lookup_insert_ne; done.
    + subst fs2. split; [|rewrite lookup_insert_ne by (by apply tmp_not_pointer); done].
      intros q. rewrite !not_elem_of_cons. intros (?&?&_). by rewrite lookup_insert_ne.
  - split; [by repeat split; simpl; lia|]. split; [done|]. split; [done|]. cbn [w_fs set_fs].
    destruct Hr1 as [-> |(k & -> & _)]; [done|].
    split; [|rewrite lookup_insert_ne by (by apply tmp_not_pointer); done].
    intros q. rewrite !not_elem_of_cons. intros (?&?&_). by rewrite lookup_insert_ne.
Qed.

(** A state directory the pointer can be written to. *)
Definition state_ready (fs : FS) : Prop :=
  fs !! state_dir root = Some Dir ∧
  fs !! pointer_tmp root ≠ Some Dir ∧ fs !! pointer_path root ≠ Some Dir.

Lemma state_dir_eq : state_dir root = root ++ ["state"].
Proof. unfold state_dir. by rewrite join_name by (by vm_compute). Qed.

Lemma write_current_pointer_total e w :
  fault_free → state_ready (w_fs w) →
  wp (write_current_pointer root e) (λ r w', r = Ok () ∧ state_ready (w_fs w')) w.
Proof.
  intros Hff (Hd & Ht & Hp). pose proof (tmp_not_pointer root) as Hne.
  rewrite state_dir_eq in Hd. rewrite pointer_tmp_eq, pointer_path_eq in *.
  change (["state"; "current-pointer.json.tmp"]) with (["state"] ++ ["current-pointer.json.tmp"]) in *.
  change (["state"; "current-pointer.json"]) with (["state"] ++ ["current-pointer.json"]) in *.
  rewrite !app_assoc in *. set (sd := root ++ ["state"]) in *.
  assert (sd ≠ []) as Hsd by (by intros [_ ?]%app_nil).
  assert (∀ c, sd ++ [c] ≠ sd) as Hneq.
  { intros c Heq%(f_equal length). rewrite length_app in Heq. simpl in Heq. lia. }
  unfold write_current_pointer, state_ready. rewrite state_dir_eq, pointer_tmp_eq, pointer_path_eq.
  change (["state"; "current-pointer.json.tmp"]) with (["state"] ++ ["current-pointer.json.tmp"]) in *.
  change (["state"; "current-pointer.json"]) with (["state"] ++ ["current-pointer.json"]) in *.
  rewrite !app_assoc. fold sd. wp_steps. eapply wp_mono.
  { apply wp_and; [apply fs_write_spec|apply fs_write_total; [done| |done]].
    by apply parent_ok_snoc. }
  intros r w1 [(fs1 & -> & Hr1) ->]. destruct Hr1 as [-> _]. wp_steps.
  eapply wp_mono; [apply wp_and; [apply fs_rename_spec|eapply fs_rename_total]|];
    cbn [w_fs set_fs tick_clock tick_io].
  - done.
  - apply lookup_insert_eq.
  - apply parent_ok_snoc; [done|]. by rewrite lookup_insert_ne.
  - by rewrite lookup_insert_ne.
  - intros r w2 [(fs2 & -> & Hr2) ->]. destruct Hr2 as (b & _ & -> & _). split; [done|].
    cbn [w_fs set_fs tick_clock tick_io]. split_and!.
    + by rewrite lookup_insert_ne, lookup_delete_ne, lookup_insert_ne.
    + by rewrite lookup_insert_ne, lookup_delete_eq.
    + by rewrite lookup_insert_eq.
Qed.
End pointer.
