(* ===== verification/RepositoryThms.v ===== *)
(** * Repository theorems

    What [run_once], [rollback_to] and [prune_created_older_than_days] do in every
    outcome, for any metadata store that meets the contract of [Store.v] and any
    schedule of faults, and that they keep the repository invariant. *)

From S2P Require Import Prelude Calendar World Crates Core Store Stats Repository RepositoryInv.

Section theorems.
Context {S : Type} `{!Env, !Chrono, !UuidCrate, !SerdeJson, !SqlEngine, !CollectionFile}.
Context `{!ChronoLaws, !SqlEngineLaws, !CollectionFileLaws}.
Context `{!MetadataStore S, !StoreModel S, !StoreLaws S}.
Context (hash : bytes → string) (root : Path).
Implicit Types w : World S.

Abbreviation entries w := (st_entries (w_db w)).
Abbreviation stored e := (stored_entry (S := S) e).

(** Identifiers are 128-bit numbers. *)
Definition uuids_ok : Prop := ∀ n, uuid_ok (fresh_uuid n).

(** ** Recording an entry *)

Lemma create_and_insert_entry_spec new w :
  st_wf (w_db w) → entry_ok (make_entry (fresh_uuid (w_uuid w)) new) →
  wp (create_and_insert_entry root new) (λ r w',
    let e := make_entry (fresh_uuid (w_uuid w)) new in
    let inserted := (id e ∉ (id <$> entries w)) ∧ entries w' ≡ₚ stored e :: entries w in
    quiet w w' ∧ st_wf (w_db w') ∧ st_events (w_db w') = st_events (w_db w) ∧
    agree_except (match status e with Created => [metadata_path root (timestamp_dir e)]
                  | Skipped => [] end) (w_fs w) (w_fs w') ∧
    match r with
    | Ok e' => e' = e ∧ inserted
    | Err _ => entries w' ≡ₚ entries w ∨ inserted
    | Panic _ => False
    end) w.
Proof.
  intros Hwf Hok. unfold create_and_insert_entry. wp_steps.
  set (e := make_entry _ new) in *. cbv zeta.
  eapply wp_mono; [by apply insert_entry_law|]. cbn [w_db tick_uuid].
  intros r1 w1 (Hdb & Hwf1 & Hev & Hr1).
  assert (quiet w w1) as Hq by (etrans; [apply quiet_uuid|by apply quiet_db_only]).
  assert (w_fs w1 = w_fs w) as Hfs by apply Hdb.
  destruct r1 as [[]|err|]; cbn [bind_post]; [| |done].
  2: { split_and!; [done..| |done]. intros q _. by rewrite Hfs. }
  destruct (status e) eqn:Hst; wp_steps.
  - eapply wp_mono; [apply fs_write_spec|]. intros r2 w2 (fs2 & -> & Hr2).
    assert (quiet w (set_fs fs2 (tick_io w1))) by (etrans; [done|apply quiet_set_fs]).
    assert (agree_except [metadata_path root (timestamp_dir e)] (w_fs w) fs2) as Ha.
    { intros q [Hq' _]%not_elem_of_cons. rewrite <- Hfs.
      destruct r2 as [[]|err|]; [|destruct Hr2 as [->|(k & -> & _)]; [done|]|done].
      - destruct Hr2 as [-> _]. by rewrite lookup_insert_ne.
      - by rewrite lookup_insert_ne. }
    destruct r2 as [[]|err|]; wp_steps; [| |done].
    + by destruct Hr1; split_and!.
    + split_and!; [done..|]. by right.
  - destruct Hr1. split_and!; try done. intros q _. by rewrite Hfs.
Qed.

(** ** Running a backup *)

Definition payload_ok (p : BackupPayload) : Prop :=
  ∀ d, payload_sync_duration_ms p = Some d → is_i64 d.

(** What [run_once] has done when it returns a created backup. *)
Record created_post (w w' : World S) (payload : BackupPayload) (h : string) (e : BackupEntry) :
    Prop := {
  cp_entries : entries w' ≡ₚ stored e :: entries w;
  cp_fresh : id e ∉ (id <$> entries w);
  cp_consistent : entry_consistent e;
  cp_status : status e = Created;
  cp_hash : content_hash_of e = h;
  cp_time : created_at e = clock (w_clock w);
  cp_dir : timestamp_dir e = format_timestamp_dir (clock (w_clock w));
  cp_file : w_fs w' !! backup_file_path root e = Some (File (payload_bytes payload));
  cp_folder : w_fs w' !! backup_dir root (timestamp_dir e) = Some Dir;
  cp_duration : sync_duration_ms e = payload_sync_duration_ms payload;
  cp_size : size_bytes e = as_i64 (Z.of_nat (length (payload_bytes payload)));
  cp_stats : ∃ s, stats e = Some s ∧ describes (w_fs w') (backup_file_path root e) s;
  cp_pointer : ∃ t, w_fs w' !! pointer_path root =
    Some (File (pointer_bytes (id e) (timestamp_dir e) t));
}.

(** Its first half: the directory and the payload. *)
Lemma payload_written dir b w :
  repo_inv hash root w → is_name dir → dir_unused dir (entries w) →
  wp (context ("create backup dir: " +:+ display (backup_dir root dir))
        (create_dir_all (backup_dir root dir));;
      context ("write payload file: " +:+ display (payload_path root dir))
        (fs_write (payload_path root dir) b)) (λ r w',
    quiet w w' ∧ w_db w' = w_db w ∧ w_uuid w' = w_uuid w ∧ repo_inv hash root w' ∧
    match r with
    | Ok _ => w_fs w' !! payload_path root dir = Some (File b) ∧
        w_fs w' !! backup_dir root dir = Some Dir
    | Err _ => True
    | Panic _ => False
    end) w.
Proof.
  intros [Hwf Hf Hd Hp] Hn Hu. wp_steps.
  eapply wp_mono; [apply create_dir_all_spec|]. intros r1 w1 (fs1 & -> & Ha1 & Hpre & Hr1).
  assert (quiet w (set_fs fs1 (tick_io w))) as Hq1 by apply quiet_set_fs.
  assert (pointer_ok root fs1) as Hp1.
  { eapply pointer_ok_agree; [|done]. apply Hpre. rewrite pointer_path_eq, backup_dir_eq by done.
    intros [k Hk]. rewrite <- app_assoc in Hk. by simplify_eq/=. }
  assert (repo_inv hash root (set_fs fs1 (tick_io w))) as Hinv1.
  { split; cbn [w_fs w_db set_fs tick_io]; [done|by eapply files_ok_dirs|done|done]. }
  destruct r1 as [[]|err|]; wp_steps; [|by split_and!|done].
  eapply wp_mono; [apply fs_write_spec|]. intros r2 w2 (fs2 & -> & Hr2).
  assert (quiet w (set_fs fs2 (tick_io (set_fs fs1 (tick_io w))))) as Hq2
    by (etrans; [done|apply quiet_set_fs]).
  assert (∀ n, repo_inv hash root
    (set_fs (<[payload_path root dir := n]> fs1) (tick_io (set_fs fs1 (tick_io w))))) as Hinv2.
  { intros n. destruct Hinv1 as [? Hf1 ? ?]. split; cbn [w_fs w_db set_fs tick_io] in *; [done| |done|].
    - by apply files_ok_insert.
    - eapply pointer_ok_agree; [|done]. apply lookup_insert_ne. by apply payload_not_pointer. }
  cbn [w_fs set_fs tick_io] in Hr2. destruct r2 as [[]|err|]; [| |done].
  - destruct Hr2 as [-> _]. split_and!; [done|done|done|apply Hinv2|apply lookup_insert_eq|].
    cbn [w_fs set_fs tick_io]. rewrite lookup_insert_ne by (by apply payload_not_folder).
    apply Hr1. rewrite backup_dir_eq by done. by intros [_ ?]%app_nil.
  - split_and!; [done..| |done]. destruct Hr2 as [->|(k & -> & _)]; [|apply Hinv2].
    by destruct Hinv1.
Qed.

Lemma describes_agree fs fs' p s : fs' !! p = fs !! p → describes fs p s → describes fs' p s.
Proof. unfold describes. by intros ->. Qed.

Lemma repo_inv_same w w' :
  w_fs w' = w_fs w → w_db w' = w_db w → repo_inv hash root w → repo_inv hash root w'.
Proof. intros Hfs Hdb []. split; by rewrite ?Hfs, ?Hdb. Qed.
Lemma repo_inv_io_only w w' : io_only w w' → repo_inv hash root w → repo_inv hash root w'.
Proof. intros (? & ? & _). by apply repo_inv_same. Qed.

Lemma repo_inv_db w w' :
  db_only w w' → w_db w' = w_db w → repo_inv hash root w → repo_inv hash root w'.
Proof. intros (? & _) ?. by apply repo_inv_same. Qed.

(** Entries may be listed in another order. *)
Lemma repo_inv_perm w fs db :
  repo_inv hash root w → st_wf db → st_entries db ≡ₚ entries w →
  files_ok hash root fs (entries w) → pointer_ok root fs →
  ∀ w', w_fs w' = fs → w_db w' = db → repo_inv hash root w'.
Proof.
  intros [_ _ Hd _] Hwf Hp Hf Hptr w' <- <-.
  split; [done|by eapply files_ok_perm|by eapply dirs_distinct_perm|done].
Qed.

(** Recording a created backup whose payload is in place. *)
Lemma record_created_spec w t dir h rev dur s payload :
  let new := created t dir h rev dur (as_i64 (Z.of_nat (length (payload_bytes payload)))) s in
  let e := make_entry (fresh_uuid (w_uuid w)) new in
  repo_inv hash root w → entry_ok e → is_name dir → dir_unused dir (entries w) →
  w_fs w !! payload_path root dir = Some (File (payload_bytes payload)) →
  hash (payload_bytes payload) = h →
  wp (create_and_insert_entry root new) (λ r w', quiet w w' ∧ repo_inv hash root w' ∧
    st_events (w_db w') = st_events (w_db w) ∧
    w_fs w' !! payload_path root dir = Some (File (payload_bytes payload)) ∧
    w_fs w' !! backup_dir root dir = w_fs w !! backup_dir root dir ∧
    let inserted := (id e ∉ (id <$> entries w)) ∧ entries w' ≡ₚ stored e :: entries w in
    match r with
    | Ok e' => e' = e ∧ inserted
    | Err _ => entries w' ≡ₚ entries w ∨ inserted
    | Panic _ => False
    end) w.
Proof.
  intros new e Hinv Hok Hn Hu Hfile Hh.
  eapply wp_mono; [apply (create_and_insert_entry_spec new); [apply Hinv|done]|].
  cbv zeta. fold e. intros r w' (Hq & Hwf & Hev & Ha & Hr). simpl in Ha.
  assert (∀ q, q ≠ metadata_path root dir → w_fs w' !! q = w_fs w !! q) as Ha'.
  { intros q Hne. apply Ha. by apply not_elem_of_cons; split; [|apply not_elem_of_nil]. }
  assert (w_fs w' !! payload_path root dir = Some (File (payload_bytes payload))) as Hfile'.
  { rewrite Ha'; [done|]. by apply payload_not_metadata. }
  assert (w_fs w' !! backup_dir root dir = w_fs w !! backup_dir root dir) as Hfolder.
  { apply Ha'. intros Heq. by apply (metadata_not_folder root dir dir). }
  assert (pointer_ok root (w_fs w')) as Hptr.
  { eapply pointer_ok_agree; [|apply Hinv]. apply Ha'. intros Heq. symmetry in Heq.
    by apply metadata_not_pointer in Heq. }
  assert (files_ok hash root (w_fs w') (entries w)) as Hf.
  { apply (files_ok_agree hash root (w_fs w)); [|apply Hinv]. intros e' He' Hc'. apply Ha'.
    destruct (ri_files _ _ _ Hinv e' He' Hc') as [? _]. by apply payload_not_metadata. }
  assert (entries w' ≡ₚ entries w → repo_inv hash root w') as Hold.
  { intros Hp. by eapply (repo_inv_perm w). }
  assert (entries w' ≡ₚ stored e :: entries w → repo_inv hash root w') as Hnew.
  { intros Hp. split; [done| | |done].
    - eapply files_ok_perm; [done|]. apply files_ok_cons; [|done]. intros _. split; [done|].
      by exists (payload_bytes payload).
    - eapply dirs_distinct_perm; [done|]. apply dirs_distinct_cons; [by intros _|apply Hinv]. }
  destruct r as [e'|err|]; [|destruct Hr as [Hp|[? Hp]]|done].
  - destruct Hr as (-> & ? & Hp). split_and!; auto.
  - split_and!; auto.
  - split_and!; auto.
Qed.

(** Moving the pointer keeps the invariant. *)
Lemma move_pointer_spec w e :
  repo_inv hash root w →
  wp (write_current_pointer root e) (λ r w', quiet w w' ∧ repo_inv hash root w' ∧
    w_db w' = w_db w ∧ w_uuid w' = w_uuid w ∧
    (∀ d, is_name d → w_fs w' !! payload_path root d = w_fs w !! payload_path root d) ∧
    (∀ d, is_name d → w_fs w' !! backup_dir root d = w_fs w !! backup_dir root d) ∧
    match r with
    | Ok _ => w_fs w' !! pointer_path root =
        Some (File (pointer_bytes (id e) (timestamp_dir e) (clock (w_clock w))))
    | Err _ => w_fs w' !! pointer_path root = w_fs w !! pointer_path root
    | Panic _ => False
    end) w.
Proof.
  intros Hinv. eapply wp_mono; [apply write_current_pointer_spec|].
  intros r w' (Hq & Hdb & Huu & Ha & Hr). split_and!; try done.
  - destruct Hinv as [? ? ? Hpo]. split; rewrite ?Hdb; [done|by eapply files_ok_pointer|done|].
    destruct r as [[]|err|]; [right; by eexists _, _, _|by eapply pointer_ok_agree|done].
  - intros d Hd. apply Ha. rewrite !not_elem_of_cons.
    split_and!; [by apply payload_not_tmp|by apply payload_not_pointer|apply not_elem_of_nil].
  - intros d Hd. apply Ha. rewrite backup_dir_eq, pointer_tmp_eq, pointer_path_eq by done.
    rewrite !not_elem_of_cons. split_and!; [intros ?; by simplify_eq..|apply not_elem_of_nil].
Qed.

(** The created branch, once the hash has been found to differ. *)
Lemma create_backup_spec w t payload h :
  repo_inv hash root w → uuids_ok → rfc3339_range t → payload_ok payload →
  hash (payload_bytes payload) = h → dir_unused (format_timestamp_dir t) (entries w) →
  wp (create_backup root t payload h) (λ r w', quiet w w' ∧ repo_inv hash root w' ∧
    st_events (w_db w') = st_events (w_db w) ∧
    match r with
    | Ok (RCreated e) => ∀ w0, entries w0 = entries w → clock (w_clock w0) = t →
        created_post w0 w' payload h e
    | Ok (RSkipped _) => False
    | Err _ => entries w' ≡ₚ entries w ∨ ∃ e, entries w' ≡ₚ e :: entries w
    | Panic _ => False
    end) w.
Proof.
  intros Hinv Huu Ht Hpl Hh Hu. set (dir := format_timestamp_dir t) in *.
  assert (is_name dir) as Hn by (by apply format_timestamp_dir_name).
  unfold create_backup. fold dir. apply wp_bind_assoc.
  eapply wp_bind_spec; [by apply payload_written|].
  intros r1 w1 (Hq1 & Hdb1 & _ & Hinv1 & Hr1). destruct r1 as [[]|err|]; wp_steps; [| |done].
  2: { rewrite Hdb1. by split_and!; auto. }
  eapply wp_mono; [apply extract_stats_spec|]. intros r2 w2 (Hio2 & Hr2).
  pose proof (repo_inv_io_only _ _ Hio2 Hinv1) as Hinv2.
  assert (quiet w w2) as Hq2 by (etrans; [done|by apply quiet_io_only]).
  destruct Hio2 as (Hfs2 & Hdb2 & _). rewrite Hdb1 in Hdb2.
  destruct r2 as [s|err|]; wp_steps; [|rewrite Hdb2; by split_and!; auto|done].
  rewrite <- Hfs2 in Hr1, Hr2. destruct Hr1 as [Hr1 Hfold].
  eapply wp_mono; [apply fs_len_spec|]. intros r3 w3 (-> & Hr3).
  pose proof (repo_inv_io_only _ _ (io_only_tick w2) Hinv2) as Hinv3.
  assert (quiet w (tick_io w2)) as Hq3 by (etrans; [done|apply quiet_io_only, io_only_tick]).
  destruct r3 as [len|err|]; wp_steps; [|cbn [w_db tick_io]; rewrite Hdb2; by split_and!; auto|done].
  apply Hr3 in Hr1 as Hlen. subst len. clear Hr3.
  eapply wp_mono; [eapply record_created_spec; try done|].
  { split_and!; simpl; [apply Huu|done|apply as_i64_range|done|].
    intros s' [= <-]. by eapply describes_stats_ok. }
  { cbn [w_db tick_io]. by rewrite Hdb2. }
  cbn [w_db w_uuid tick_io]. rewrite Hdb2. set (e := make_entry _ _).
  intros r4 w4 (Hq4 & Hinv4 & Hev4 & Hfile4 & Hfold4 & Hr4).
  assert (quiet w w4) as Hq by (by etrans).
  destruct r4 as [e'|err|]; wp_steps; [|by split_and!; naive_solver|done].
  destruct Hr4 as (-> & Hfresh & Hp). eapply wp_mono; [by apply move_pointer_spec|].
  intros r5 w5 (Hq5 & Hinv5 & Hdb5 & _ & Hsame5 & Hfold5 & Hr5). rewrite <- Hdb5 in Hev4, Hp.
  assert (quiet w w5) by (by etrans).
  destruct r5 as [[]|err|]; wp_steps; [|by split_and!; eauto|done].
  rewrite <- (Hsame5 dir Hn) in Hfile4.
  split_and!; [done..|]. intros w0 Hw0 Hclk.
  split; try done; try (by rewrite Hw0); try (by rewrite Hclk); [| | |by eexists].
  - split_and!; [done|by eexists|apply Hn].
  - change (timestamp_dir e) with dir. by rewrite (Hfold5 dir Hn), Hfold4.
  - exists s. split; [done|]. eapply describes_agree; [|done]. unfold backup_file_path. simpl.
    by rewrite Hfile4, Hr1.
Qed.

(** What [run_once] has done when it returns a skipped entry: one row, no file. *)
Record skipped_post (w w' : World S) (h : string) (e : BackupEntry) : Prop := {
  sp_entries : entries w' ≡ₚ stored e :: entries w;
  sp_fresh : id e ∉ (id <$> entries w);
  sp_consistent : entry_consistent e;
  sp_status : status e = Skipped;
  sp_hash : content_hash_of e = h;
  sp_time : created_at e = clock (w_clock w);
  sp_fs : w_fs w' = w_fs w;
}.

(** The payload is the latest backup, or it is not. *)
Definition unchanged (h : string) (es : list BackupEntry) : Prop :=
  ∃ e, latest_created es e ∧ content_hash_of e = h.
Definition changed (h : string) (es : list BackupEntry) : Prop :=
  (∀ e, e ∈ es → status e ≠ Created) ∨ ∃ e, latest_created es e ∧ content_hash_of e ≠ h.

(** The skip branch. *)
Lemma record_skipped_spec w t h :
  repo_inv hash root w → uuids_ok → rfc3339_range t →
  wp (create_and_insert_entry root (skipped_unchanged t h)) (λ r w', quiet w w' ∧
    repo_inv hash root w' ∧ st_events (w_db w') = st_events (w_db w) ∧
    match r with
    | Ok e => ∀ w0, entries w0 = entries w → w_fs w0 = w_fs w → clock (w_clock w0) = t →
        skipped_post w0 w' h e
    | Err _ => entries w' ≡ₚ entries w ∨ ∃ e, entries w' ≡ₚ e :: entries w
    | Panic _ => False
    end) w.
Proof.
  intros Hinv Huu Ht. eapply wp_mono.
  { apply create_and_insert_entry_spec; [apply Hinv|]. split_and!; simpl; done || apply Huu. }
  cbv zeta. set (e := make_entry _ _). intros r w' (Hq & Hwf & Hev & Ha & Hr).
  assert (w_fs w' = w_fs w) as Hfs.
  { apply map_eq. intros q. apply (Ha q). simpl. apply not_elem_of_nil. }
  assert (entries w' ≡ₚ entries w → repo_inv hash root w') as Hold.
  { intros Hp. eapply (repo_inv_perm w (w_fs w) (w_db w')); try done; apply Hinv. }
  assert (entries w' ≡ₚ stored e :: entries w → repo_inv hash root w') as Hnew.
  { destruct Hinv. intros Hp. split; [done| | |by rewrite Hfs].
    - rewrite Hfs. eapply files_ok_perm; [done|]. by apply files_ok_cons.
    - eapply dirs_distinct_perm; [done|]. by apply dirs_distinct_cons. }
  destruct r as [e'|err|]; [|destruct Hr as [?|[??]]|done].
  - destruct Hr as (-> & ? & Hp). split_and!; auto. intros w0 He0 Hf0 Ht0.
    split; rewrite ?He0, ?Hf0; done.
  - split_and!; auto.
  - split_and!; eauto.
Qed.

(** Both branches of [run_once], and every failure of either. *)
Lemma run_once_spec w payload h :
  repo_inv hash root w → uuids_ok → rfc3339_range (clock (w_clock w)) → payload_ok payload →
  hash (payload_bytes payload) = h →
  dir_unused (format_timestamp_dir (clock (w_clock w))) (entries w) →
  wp (run_once root payload h) (λ r w', quiet w w' ∧ repo_inv hash root w' ∧
    st_events (w_db w') = st_events (w_db w) ∧
    match r with
    | Ok (RCreated e) => changed h (entries w) ∧ created_post w w' payload h e
    | Ok (RSkipped e) => unchanged h (entries w) ∧ skipped_post w w' h e
    | Err _ => entries w' ≡ₚ entries w ∨ ∃ e, entries w' ≡ₚ e :: entries w
    | Panic _ => False
    end) w.
Proof.
  intros Hinv Huu Ht Hpl Hh Hu. unfold run_once. wp_steps.
  eapply wp_mono; [by apply last_created_hash_law, Hinv|].
  intros r1 w1 (Hdo & Hdb & Hr1). cbn [w_db tick_clock] in Hdb, Hr1.
  assert (quiet w w1) as Hq1 by (etrans; [apply quiet_clock|by apply quiet_db_only]).
  assert (w_fs w1 = w_fs w) as Hfs by apply Hdo.
  assert (repo_inv hash root w1) as Hinv1 by (destruct Hinv; by split; rewrite ?Hfs, ?Hdb).
  assert (changed h (entries w) → wp (create_backup root (clock (w_clock w)) payload h)
    (λ r w', quiet w w' ∧ repo_inv hash root w' ∧ st_events (w_db w') = st_events (w_db w) ∧
    match r with
    | Ok (RCreated e) => changed h (entries w) ∧ created_post w w' payload h e
    | Ok (RSkipped e) => unchanged h (entries w) ∧ skipped_post w w' h e
    | Err _ => entries w' ≡ₚ entries w ∨ ∃ e, entries w' ≡ₚ e :: entries w
    | Panic _ => False
    end) w1) as Hcreate.
  { intros Hch. eapply wp_mono; [apply create_backup_spec; try done; by rewrite Hdb|].
    rewrite Hdb. intros r w' (Hq & ? & ? & Hr). split_and!; [by etrans|done|done|].
    destruct r as [[e|e]|err|]; [|done..]. split; [done|]. by apply Hr. }
  destruct r1 as [[h'|]|err|]; cbn [bind_post].
  - destruct Hr1 as (l & Hl & Hlh). case_decide; wp_steps.
    + eapply wp_mono; [by apply record_skipped_spec|]. rewrite Hdb.
      intros r w' (Hq & ? & ? & Hr). assert (quiet w w') by (by etrans).
      destruct r as [e|err|]; wp_steps; [|done..]. split_and!; try done.
      * exists l. by split; [|congruence].
      * by apply Hr; rewrite ?Hdb, ?Hfs.
    + apply Hcreate. right. exists l. by split; [|congruence].
  - apply Hcreate. by left.
  - rewrite Hdb. by auto.
  - done.
Qed.

(** ** Success *)

(** What the disk must look like for a backup named [dir] to be written. *)
Record disk_ready (dir : string) (fs : FS) : Prop := {
  dr_state : state_ready root fs;
  dr_dirs q b : q `prefix_of` backup_dir root dir → fs !! q ≠ Some (File b);
  dr_payload : fs !! payload_path root dir ≠ Some Dir;
  dr_metadata : fs !! metadata_path root dir ≠ Some Dir;
}.

(** A disk on which a backup of any name can be written. *)
Definition tidy (fs : FS) : Prop := ∀ dir, is_name dir → disk_ready dir fs.

Lemma tidy_metadata fs fs' dir :
  is_name dir → agree_except [metadata_path root dir] fs fs' → fs' !! metadata_path root dir ≠ Some Dir →
  tidy fs → tidy fs'.
Proof.
  intros Hn Ha Hm Ht d Hd. destruct (Ht d Hd) as [(Hs1 & Hs2 & Hs3) Hdirs Hp Hmeta].
  assert (∀ q, q ≠ metadata_path root dir → fs' !! q = fs !! q) as Hsame.
  { intros q Hq. apply Ha, not_elem_of_cons. split; [done|apply not_elem_of_nil]. }
  rewrite metadata_path_eq in Hsame by done. split.
  - unfold state_ready in *. rewrite state_dir_eq, pointer_tmp_eq, pointer_path_eq in *.
    rewrite !Hsame; [done|intros ?; by simplify_eq/=..].
  - intros q b Hq. rewrite Hsame; [by apply Hdirs|]. intros ->. apply prefix_length in Hq.
    rewrite backup_dir_eq, !length_app in Hq by done. simpl in Hq. lia.
  - rewrite payload_path_eq in * by done. rewrite Hsame; [done|]. intros ?; by simplify_eq/=.
  - destruct (decide (d = dir)) as [->|Hne]; [done|].
    rewrite metadata_path_eq in * by done. rewrite Hsame; [done|]. intros ?; by simplify_eq/=.
Qed.
Lemma tidy_pointer fs fs' :
  agree_except [pointer_tmp root; pointer_path root] fs fs' → state_ready root fs' → tidy fs → tidy fs'.
Proof.
  intros Ha Hs Ht d Hd. destruct (Ht d Hd) as [_ Hdirs Hp Hmeta].
  assert (∀ q, q ≠ pointer_tmp root → q ≠ pointer_path root → fs' !! q = fs !! q) as Hsame.
  { intros q Hq Hq'. apply Ha. rewrite !not_elem_of_cons. split_and!; [done..|apply not_elem_of_nil]. }
  rewrite pointer_tmp_eq, pointer_path_eq in Hsame. split; [done|..].
  - intros q b Hq. rewrite Hsame; [by apply Hdirs|..]; intros ->;
      (rewrite backup_dir_eq in Hq by done; destruct Hq as [k Hk];
       rewrite <- app_assoc in Hk; by simplify_eq/=).
  - rewrite payload_path_eq in * by done. rewrite Hsame; [done|intros ?; by simplify_eq/=..].
  - rewrite metadata_path_eq in * by done. rewrite Hsame; [done|intros ?; by simplify_eq/=..].
Qed.
Lemma tidy_payload fs fs' dir b :
  is_name dir → only_adds_dirs fs fs' → (∀ q, ¬ q `prefix_of` backup_dir root dir → fs' !! q = fs !! q) →
  tidy fs → tidy (<[payload_path root dir := File b]> fs').
Proof.
  intros Hn Hadds Hpre Ht d Hd. destruct (Ht d Hd) as [(Hs1 & Hs2 & Hs3) Hdirs Hp Hmeta].
  rewrite (backup_dir_eq root dir Hn) in Hpre. rewrite (payload_path_eq root dir Hn). split.
  - unfold state_ready in *. rewrite state_dir_eq, pointer_tmp_eq, pointer_path_eq in *.
    rewrite !lookup_insert_ne by (intros ?; by simplify_eq/=).
    rewrite !Hpre; [done|..]; intros [k Hk]; rewrite <- app_assoc in Hk; by simplify_eq/=.
  - intros q c Hq. rewrite lookup_insert_ne.
    + destruct (Hadds q) as [->|[_ ->]]; [by apply Hdirs|done].
    + intros <-. apply prefix_length in Hq. rewrite backup_dir_eq, !length_app in Hq by done. simpl in Hq. lia.
  - destruct (decide (d = dir)) as [->|Hne].
    { by rewrite payload_path_eq, lookup_insert_eq. }
    rewrite payload_path_eq in * by done. rewrite lookup_insert_ne by (intros ?; by simplify_eq/=).
    rewrite Hpre; [done|]. intros Hq%prefix_length. rewrite !length_app in Hq. simpl in Hq. lia.
  - rewrite metadata_path_eq in * by done. rewrite lookup_insert_ne by (intros ?; by simplify_eq/=).
    rewrite Hpre; [done|]. intros Hq%prefix_length. rewrite !length_app in Hq. simpl in Hq. lia.
Qed.

(** Identifiers to come are not in use. *)
Definition uuids_unused w : Prop :=
  ∀ n, w_uuid w ≤ n → fresh_uuid n ∉ (id <$> entries w).

Lemma create_and_insert_entry_total new w :
  fault_free → st_wf (w_db w) → entry_ok (make_entry (fresh_uuid (w_uuid w)) new) → uuids_unused w →
  (new_status new = Created → is_name (new_timestamp_dir new) ∧
    w_fs w !! backup_dir root (new_timestamp_dir new) = Some Dir ∧
    w_fs w !! metadata_path root (new_timestamp_dir new) ≠ Some Dir) →
  wp (create_and_insert_entry root new) (λ r w', (∃ e, r = Ok e) ∧
    (new_status new = Created → w_fs w' !! metadata_path root (new_timestamp_dir new) ≠ Some Dir)) w.
Proof.
  intros Hff Hwf Hok Hun Hdisk. unfold create_and_insert_entry. wp_steps.
  set (e := make_entry _ new) in *. cbv zeta. eapply wp_mono.
  { apply wp_and; [by apply insert_entry_law|]. apply insert_entry_total; try done.
    apply Hun. done. }
  intros r1 w1 [(Hdb & _) ->]. cbn [bind_post].
  assert (w_fs w1 = w_fs w) as Hfs by apply Hdb.
  destruct (status e) eqn:Hst; wp_steps.
  2: { split; [eauto|]. intros Hc. by change (status e = Created) in Hc; rewrite Hst in Hc. }
  destruct (Hdisk Hst) as (Hn & Hd & Hm). eapply wp_mono.
  { apply wp_and; [apply fs_write_spec|]. apply fs_write_total; [done| |by rewrite Hfs].
    unfold metadata_path. rewrite join_name by (by vm_compute). apply parent_ok_snoc.
    - rewrite backup_dir_eq by done. by intros [_ ?]%app_nil.
    - by rewrite Hfs. }
  intros r2 w2 [(fs2 & -> & Hr2) ->]. destruct Hr2 as [-> _]. wp_steps. split; [eauto|]. intros _.
  cbn [w_fs set_fs]. change (new_timestamp_dir new) with (timestamp_dir e). by rewrite lookup_insert_eq.
Qed.

(** The files are in place when the entry is recorded. *)
Lemma payload_written_total dir b w :
  fault_free → is_name dir → disk_ready dir (w_fs w) →
  wp (context ("create backup dir: " +:+ display (backup_dir root dir))
        (create_dir_all (backup_dir root dir));;
      context ("write payload file: " +:+ display (payload_path root dir))
        (fs_write (payload_path root dir) b)) (λ r w', r = Ok () ∧
    quiet w w' ∧ w_db w' = w_db w ∧ w_uuid w' = w_uuid w ∧
    w_fs w' !! payload_path root dir = Some (File b) ∧
    w_fs w' !! backup_dir root dir = Some Dir ∧
    w_fs w' !! metadata_path root dir ≠ Some Dir ∧ state_ready root (w_fs w') ∧
    (tidy (w_fs w) → tidy (w_fs w'))) w.
Proof.
  intros Hff Hn [Hs Hd Hp Hm]. wp_steps.
  eapply wp_mono; [apply wp_and; [apply create_dir_all_spec|by apply create_dir_all_total]|].
  intros r1 w1 [(fs1 & -> & Ha & Hpre & Hr1) ->]. wp_steps.
  pose proof (backup_dir_eq root dir Hn) as Hbd. pose proof (payload_path_eq root dir Hn) as Hpp.
  pose proof (metadata_path_eq root dir Hn) as Hmp. rewrite Hbd in *.
  assert (∀ q, length root + 2 < length q → fs1 !! q = w_fs w !! q) as Hlong.
  { intros q Hq. apply Hpre. intros Hpf%prefix_length. rewrite length_app in Hpf. simpl in Hpf. lia. }
  assert (∀ q, fs1 !! (root ++ "state" :: q) = w_fs w !! (root ++ "state" :: q)) as Hstate.
  { intros q. apply Hpre. intros [k Hk]. rewrite <- app_assoc in Hk. by simplify_eq/=. }
  assert (∀ q, length q ≠ length root + 3 → <[payload_path root dir:=File b]> fs1 !! q = fs1 !! q) as Hshort.
  { intros q Hq. apply lookup_insert_ne. intros <-. apply Hq. rewrite Hpp, length_app. done. }
  eapply wp_mono; [apply wp_and; [apply fs_write_spec|apply fs_write_total; [done| |]]|];
    cbn [w_fs set_fs tick_io].
  { rewrite Hpp. change ["backups"; dir; "collection.anki2"] with (["backups"; dir] ++ ["collection.anki2"]).
    rewrite app_assoc. apply parent_ok_snoc; [by intros [_ ?]%app_nil|]. apply Hr1. by intros [_ ?]%app_nil. }
  { rewrite Hlong; [done|]. rewrite Hpp, length_app. simpl. lia. }
  intros r2 w2 [(fs2 & -> & Hr2) ->]. cbn [w_fs set_fs tick_io] in *. destruct Hr2 as [-> _].
  split; [done|]. split_and!; [by repeat split|done|done|apply lookup_insert_eq|..].
  - rewrite Hshort by (rewrite length_app; simpl; lia). apply Hr1. by intros [_ ?]%app_nil.
  - rewrite lookup_insert_ne by (by apply payload_not_metadata). rewrite Hlong; [done|].
    rewrite Hmp, length_app. simpl. lia.
  - unfold state_ready in *. rewrite state_dir_eq, pointer_tmp_eq, pointer_path_eq in *.
    by rewrite !Hshort, !Hstate by (rewrite length_app; simpl; lia).
  - apply tidy_payload; [done|done|]. by rewrite Hbd.
Qed.

(** Then the entry, its metadata and the pointer follow. *)
Lemma entry_recorded dir b new w :
  let e := make_entry (fresh_uuid (w_uuid w)) new in
  fault_free → st_wf (w_db w) → entry_ok e → uuids_unused w → new_status new = Created →
  new_timestamp_dir new = dir → is_name dir → w_fs w !! payload_path root dir = Some (File b) →
  w_fs w !! backup_dir root dir = Some Dir → w_fs w !! metadata_path root dir ≠ Some Dir →
  state_ready root (w_fs w) →
  wp (create_and_insert_entry root new ≫= (λ c, write_current_pointer root c;; mret (RCreated c)))
    (λ r w', r = Ok (RCreated e) ∧ quiet w w' ∧ st_wf (w_db w') ∧
      st_events (w_db w') = st_events (w_db w) ∧ (tidy (w_fs w) → tidy (w_fs w')) ∧
      (id e ∉ (id <$> entries w)) ∧ entries w' ≡ₚ stored e :: entries w ∧
      w_fs w' !! payload_path root dir = Some (File b) ∧ w_fs w' !! backup_dir root dir = Some Dir ∧
      ∃ t, w_fs w' !! pointer_path root = Some (File (pointer_bytes (id e) dir t))) w.
Proof.
  intros e Hff Hwf Hok Hun Hc <- Hn Hfile Hbd Hmd Hst. set (dir := new_timestamp_dir new) in *.
  pose proof (metadata_path_eq root dir Hn) as Hmp. apply wp_bind. eapply wp_mono; [apply wp_and;
    [by apply create_and_insert_entry_spec|by apply create_and_insert_entry_total]|].
  cbv zeta. fold e. intros r4 w4 [(Hq4 & Hwf4 & Hev4 & Ha & Hr4) [[e' ->] Hm4]].
  destruct Hr4 as (-> & Hfresh & Hp). change (status e) with (new_status new) in Ha. rewrite Hc in Ha. wp_steps.
  assert (∀ q, q ≠ metadata_path root dir → w_fs w4 !! q = w_fs w !! q) as Hsame.
  { intros q Hq. apply Ha. apply not_elem_of_cons. split; [done|apply not_elem_of_nil]. }
  eapply wp_mono; [apply wp_and; [apply write_current_pointer_spec|apply write_current_pointer_total; [done|]]|].
  { destruct Hst as (Hs1 & Hs2 & Hs3).
    split_and!; rewrite Hsame; try done;
      rewrite ?Hmp, ?state_dir_eq, ?pointer_tmp_eq, ?pointer_path_eq; intros ?; by simplify_eq/=. }
  intros r5 w5 [(Hq5 & Hdb5 & _ & Ha5 & Hptr) [-> Hst5]]. wp_steps. rewrite Hdb5.
  assert (∀ q, q ≠ metadata_path root dir → q ≠ pointer_tmp root → q ≠ pointer_path root →
    w_fs w5 !! q = w_fs w !! q) as Hsame5.
  { intros q Hq Hq1' Hq2'. rewrite Ha5; [by apply Hsame|].
    rewrite !not_elem_of_cons. split_and!; [done..|apply not_elem_of_nil]. }
  split_and!; try done; [by etrans| | | |by eexists].
  - intros Ht'. eapply tidy_pointer; [done|done|]. eapply tidy_metadata; [done|done|by apply Hm4|done].
  - rewrite Hsame5; auto with backup.
  - rewrite Hsame5; [done|..]; [by apply metadata_not_folder|
      rewrite backup_dir_eq, ?pointer_tmp_eq, ?pointer_path_eq by done; intros ?; by simplify_eq/=..].
Qed.

(** Without faults a backup is written and recorded, also in a directory that is
    another backup's. *)
Lemma create_backup_written w w0 t payload h :
  fault_free → st_wf (w_db w) → uuids_ok → rfc3339_range t → payload_ok payload →
  disk_ready (format_timestamp_dir t) (w_fs w) → uuids_unused w →
  collection_valid (payload_bytes payload) → entries w = entries w0 → t = clock (w_clock w0) →
  wp (create_backup root t payload h) (λ r w', ∃ e, r = Ok (RCreated e) ∧ quiet w w' ∧
    st_wf (w_db w') ∧ st_events (w_db w') = st_events (w_db w) ∧ (tidy (w_fs w) → tidy (w_fs w')) ∧
    created_post w0 w' payload h e) w.
Proof.
  intros Hff Hwf Huu Ht Hpl Hdisk Hun Hval He0 Ht0. set (dir := format_timestamp_dir t) in *.
  assert (is_name dir) as Hn by (by apply format_timestamp_dir_name).
  unfold create_backup. fold dir. apply wp_bind_assoc. eapply wp_bind_spec; [by apply payload_written_total|].
  intros r1 w1 (-> & Hq1 & Hdb1 & Huu1 & Hfile & Hbd & Hmd & Hst & Htidy). wp_steps.
  eapply wp_mono; [apply extract_stats_spec|]. intros r2 w2 (Hio2 & Hr2).
  destruct r2 as [s|err|]; wp_steps; [|exfalso; naive_solver|done].
  pose proof Hio2 as (Hfs2 & Hdb2 & _ & _ & _ & _ & Huu2 & _). rewrite <- Hfs2 in *.
  eapply wp_mono; [apply wp_and; [apply fs_len_spec|by eapply fs_len_total]|].
  intros r3 w3 [[-> Hr3] [len ->]]. cbn [bind_post]. pose proof Hfile as Hlen. apply Hr3 in Hlen as ->.
  rewrite Hdb1 in Hdb2. rewrite Huu1 in Huu2. 
  set (e := make_entry (fresh_uuid (w_uuid (tick_io w2))) (created t dir h
    (payload_source_revision payload) (payload_sync_duration_ms payload)
    (as_i64 (Z.of_nat (length (payload_bytes payload)))) s)).
  assert (entry_ok e) as Hok.
  { split_and!; simpl; [apply Huu|done|apply as_i64_range|done|].
    intros s' [= <-]. by eapply describes_stats_ok. }
  assert (st_wf (w_db (tick_io w2))) as Hwf2 by (cbn [w_db tick_io]; by rewrite Hdb2).
  eapply wp_mono; [apply (entry_recorded dir (payload_bytes payload)); try done|].
  { unfold uuids_unused. cbn [w_db w_uuid tick_io]. by rewrite Hdb2, Huu2. }
  cbv zeta. fold e. cbn [w_fs w_db tick_io]. rewrite Hdb2.
  intros r4 w4 (-> & Hq4 & Hwf4 & Hev4 & Htidy4 & Hfresh & Hp & Hfile4 & Hbd4 & Hptr).
  exists e. split_and!; try done.
  - etrans; [done|]. etrans; [by apply quiet_io_only|]. etrans; [by apply quiet_io_only, io_only_tick|done].
  - by auto.
  - split; rewrite <- ?He0; try done.
    + split_and!; [done|by eexists|]. by destruct Hn.
    + by rewrite <- Ht0.
    + exists s. split; [done|]. apply (describes_agree (w_fs w2)); [|exact Hr2].
      etrans; [exact Hfile4|symmetry; exact Hfile].
Qed.
(** Content that differs from every latest backup is written and recorded, whatever
    the name of its directory. *)
Lemma run_once_changed w payload h :
  fault_free → st_wf (w_db w) → uuids_ok → rfc3339_range (clock (w_clock w)) → payload_ok payload →
  (∀ l, latest_created (entries w) l → content_hash_of l ≠ h) →
  disk_ready (format_timestamp_dir (clock (w_clock w))) (w_fs w) → uuids_unused w →
  collection_valid (payload_bytes payload) →
  wp (run_once root payload h) (λ r w', ∃ e, r = Ok (RCreated e) ∧ quiet w w' ∧
    st_wf (w_db w') ∧ st_events (w_db w') = st_events (w_db w) ∧ (tidy (w_fs w) → tidy (w_fs w')) ∧
    created_post w w' payload h e) w.
Proof.
  intros Hff Hwf Huu Ht Hpl Hch Hdisk Hun Hval. unfold run_once. wp_steps.
  assert (st_wf (w_db (tick_clock w))) as Hwf' by apply Hwf.
  eapply wp_mono; [apply wp_and; [by apply last_created_hash_law|by apply last_created_hash_total]|].
  intros r1 w1 [(Hdo & Hdb & Hr1) [o ->]]. cbn [bind_post]. cbn [w_db tick_clock] in Hdb, Hr1.
  assert (w_fs w1 = w_fs w) as Hfs by apply Hdo.
  assert (w_uuid w ≤ w_uuid w1) as Hle by apply Hdo.
  assert (quiet w w1) as Hq1 by (etrans; [apply quiet_clock|by apply quiet_db_only]).
  assert (wp (create_backup root (clock (w_clock w)) payload h) (λ r w', ∃ e, r = Ok (RCreated e) ∧
    quiet w w' ∧ st_wf (w_db w') ∧ st_events (w_db w') = st_events (w_db w) ∧
    (tidy (w_fs w) → tidy (w_fs w')) ∧ created_post w w' payload h e) w1) as Hcreate.
  { eapply wp_mono; [apply (create_backup_written w1 w); try done; rewrite ?Hdb, ?Hfs; try done|].
    - intros n Hn. rewrite Hdb. apply Hun. lia.
    - intros r w2 (e & -> & Hq & ? & Hev & Htidy & ?). rewrite Hdb in Hev. rewrite Hfs in Htidy.
      exists e. split_and!; try done. by etrans. }
  destruct o as [h'|]; [|done]. case_decide as Heq; [|done].
  destruct Hr1 as (l & Hl & Hh). destruct (Hch l Hl). by rewrite Hh.
Qed.

(** Without faults, a backup of a well-formed collection succeeds. *)
Lemma run_once_total w payload h :
  fault_free → repo_inv hash root w → uuids_ok → rfc3339_range (clock (w_clock w)) →
  payload_ok payload → hash (payload_bytes payload) = h →
  dir_unused (format_timestamp_dir (clock (w_clock w))) (entries w) →
  disk_ready (format_timestamp_dir (clock (w_clock w))) (w_fs w) → uuids_unused w →
  collection_valid (payload_bytes payload) →
  wp (run_once root payload h) (λ r _, ∃ o, r = Ok o) w.
Proof.
  intros Hff Hinv Huu Ht Hpl Hh Hu Hdisk Hun Hval. unfold run_once. wp_steps.
  assert (st_wf (w_db (tick_clock w))) as Hwf by apply Hinv.
  eapply wp_mono; [apply wp_and; [by apply last_created_hash_law|by apply last_created_hash_total]|].
  intros r1 w1 [(Hdo & Hdb & _) [o ->]]. cbn [bind_post]. cbn [w_db tick_clock] in Hdb.
  assert (w_fs w1 = w_fs w) as Hfs by apply Hdo.
  assert (w_uuid w ≤ w_uuid w1) as Hle by apply Hdo.
  assert (repo_inv hash root w1) as Hinv1 by (destruct Hinv; by split; rewrite ?Hfs, ?Hdb).
  assert (uuids_unused w1) as Hun1.
  { intros n Hn. rewrite Hdb. apply Hun. lia. }
  assert (wp (create_backup root (clock (w_clock w)) payload h) (λ r _, ∃ o, r = Ok o) w1).
  { eapply wp_mono; [apply (create_backup_written w1 w); try done; by rewrite ?Hdb, ?Hfs|].
    intros r w2 (e & -> & _). eauto. }
  destruct o as [h'|]; [|done]. case_decide; [|done]. wp_steps.
  eapply wp_mono; [apply create_and_insert_entry_total|intros r2 w2 [[e ->] _]; wp_steps; eauto]; try done.
  - apply Hinv1.
  - split_and!; simpl; done || apply Huu.
Qed.
End theorems.
