(* ===== verification/RepositoryOps.v ===== *)
(** * Rollback, pruning and histories of a repository

    The remaining operations of [BackupRepository] in every outcome, the relation
    of one operation on a repository, and the invariant along every history. *)

From S2P Require Import Prelude Calendar World Crates Core Store Stats Repository RepositoryInv.
From S2P Require Import RepositoryThms.

Section ops.
Context {S : Type} `{!Env, !Chrono, !UuidCrate, !SerdeJson, !SqlEngine, !CollectionFile}.
Context `{!ChronoLaws, !SqlEngineLaws, !CollectionFileLaws}.
Context `{!MetadataStore S, !StoreModel S, !StoreLaws S}.
Context (hash : bytes → string) (root : Path).
Implicit Types w : World S.

Abbreviation entries w := (st_entries (w_db w)).
Abbreviation events w := (st_events (w_db w)).
Abbreviation stored e := (stored_entry (S := S) e).

(** ** Rolling back *)

(** The pointer names backup [e]. *)
Definition points_to (fs : FS) (e : BackupEntry) : Prop :=
  ∃ t, fs !! pointer_path root = Some (File (pointer_bytes (id e) (timestamp_dir e) t)).

(** [e] is a backup with identifier [i] that can be rolled back to. *)
Definition rollback_target (i : Uuid) (es : list BackupEntry) (e : BackupEntry) : Prop :=
  e ∈ es ∧ id e = i ∧ status e = Created.

Lemma rollback_to_spec i w :
  repo_inv hash root w → uuids_ok → uuid_ok i →
  wp (rollback_to root i) (λ r w', quiet w w' ∧ repo_inv hash root w' ∧ entries w' = entries w ∧
    agree_except [pointer_tmp root; pointer_path root] (w_fs w) (w_fs w') ∧
    match r with
    | Ok e => rollback_target i (entries w) e ∧ points_to (w_fs w') e ∧
        ∃ ev, events w' = events w ++ [(ev, i)]
    | Err _ => (w_fs w' !! pointer_path root = w_fs w !! pointer_path root ∧ events w' = events w) ∨
        ∃ e, rollback_target i (entries w) e ∧ points_to (w_fs w') e
    | Panic _ => False
    end) w.
Proof.
  intros Hinv Huu Hi. unfold rollback_to, repo_get_backup. wp_steps.
  eapply wp_mono; [by apply get_backup_law; [apply Hinv|]|]. intros r1 w1 (Hdo & Hdb & Hr1).
  assert (quiet w w1) as Hq1 by (by apply quiet_db_only).
  assert (w_fs w1 = w_fs w) as Hfs by apply Hdo.
  assert (repo_inv hash root w1) as Hinv1 by (destruct Hinv; by split; rewrite ?Hfs, ?Hdb).
  assert (agree_except [pointer_tmp root; pointer_path root] (w_fs w) (w_fs w)) as Ha1 by done.
  destruct r1 as [[e|]|err|]; wp_steps; [|rewrite Hfs, Hdb; by auto 10..|done].
  destruct Hr1 as [He Hid]. case_decide as Hst; wp_steps; [rewrite Hfs, Hdb; by auto 10|].
  assert (status e = Created) as Hc by (by destruct (status e)).
  assert (rollback_target i (entries w) e) as Htgt by done.
  eapply wp_mono; [apply wp_and; [apply write_current_pointer_spec|by apply move_pointer_spec]|].
  intros r2 w2 [(Hq2 & _ & _ & Ha2 & _) (_ & Hinv2 & Hdb2 & _ & _ & _ & Hr2)].
  rewrite Hdb in Hdb2. rewrite Hfs in Ha2, Hr2. assert (quiet w w2) as Hqw2 by (by etrans).
  destruct r2 as [[]|err|]; wp_steps; [|rewrite Hdb2; by auto 10|done].
  eapply wp_mono; [apply insert_rollback_event_law; [apply Hinv2|by subst i|done]|].
  rewrite Hdb2, Hid. intros r3 w3 (Hdo3 & Hwf3 & Hent3 & Hr3).
  assert (w_fs w3 = w_fs w2) as Hfs3 by apply Hdo3.
  assert (quiet w w3) as Hqw3 by (etrans; [done|by apply quiet_db_only]).
  assert (repo_inv hash root w3) as Hinv3.
  { destruct Hinv2 as [? ? ? ?]. rewrite Hdb2 in *. by split; rewrite ?Hent3, ?Hfs3. }
  assert (points_to (w_fs w3) e) as Hpt by (rewrite Hfs3; by eexists).
  destruct r3 as [[]|err|]; wp_steps; [| |done]; rewrite ?Hfs3 in *; split_and!; eauto.
Qed.

(** An unknown identifier and a skipped entry are refused, and nothing changes. *)
Lemma rollback_to_refused i w :
  repo_inv hash root w → uuid_ok i →
  (∀ e, ¬ rollback_target i (entries w) e) →
  wp (rollback_to root i) (λ r w', db_only w w' ∧ w_db w' = w_db w ∧
    ∃ err, r = Err err ∧
      (fault_free → err = ["backup not found: " +:+ uuid_to_string i] ∧ i ∉ (id <$> entries w) ∨
                    err = ["cannot rollback to skipped backup " +:+ uuid_to_string i] ∧
                    ∃ e, e ∈ entries w ∧ id e = i ∧ status e = Skipped)) w.
Proof.
  intros Hinv Hi Hno. unfold rollback_to, repo_get_backup. wp_steps.
  assert (st_wf (w_db w)) as Hwf by apply Hinv.
  assert (fault_free → wp (get_backup i) (λ r _, ∃ o, r = Ok o) w) as Htot
    by (intros; by apply get_backup_total).
  assert (wp (get_backup i) (λ r _, fault_free → ∃ o, r = Ok o) w) as Htot'
    by (unfold wp in *; by destruct (get_backup i w)).
  eapply wp_mono; [apply wp_and; [by apply get_backup_law|exact Htot']|].
  intros r1 w1 [(Hdo & Hdb & Hr1) Hok].
  destruct r1 as [[e|]|err|]; wp_steps; [| | |done].
  - destruct Hr1 as [He Hid]. case_decide as Hst; wp_steps.
    + split_and!; [done..|]. eexists. split; [done|]. intros _. right. rewrite Hid. split; [done|].
      exists e. split_and!; [done..|]. by destruct (status e).
    + exfalso. apply (Hno e). split_and!; [done..|]. by destruct (status e).
  - split_and!; [done..|]. eexists. split; [done|]. by left.
  - split_and!; [done..|]. eexists. split; [done|]. by intros [? [=]]%Hok.
Qed.

(** Without faults a rollback to a backup succeeds. *)
Lemma rollback_to_total i e w :
  fault_free → repo_inv hash root w → uuids_ok → uuid_ok i →
  rollback_target i (entries w) e → state_ready root (w_fs w) →
  (∀ n, w_uuid w ≤ n → fresh_uuid n ∉ (events w).*1) →
  wp (rollback_to root i) (λ r _, r = Ok e) w.
Proof.
  intros Hff Hinv Huu Hi (He & Hid & Hc) Hst Hun. unfold rollback_to, repo_get_backup. wp_steps.
  assert (st_wf (w_db w)) as Hwf by apply Hinv.
  eapply wp_mono; [apply wp_and; [by apply get_backup_law|by apply get_backup_total]|].
  intros r1 w1 [(Hdo & Hdb & Hr1) [o ->]].
  assert (w_fs w1 = w_fs w) as Hfs by apply Hdo.
  assert (w_uuid w ≤ w_uuid w1) as Hle by apply Hdo.
  destruct o as [e'|]; wp_steps.
  2: { exfalso. apply Hr1. rewrite <- Hid. by apply list_elem_of_fmap_2. }
  destruct Hr1 as [He' Hid'].
  assert (e' = e) as -> by (eapply (NoDup_fmap_elem id); [by apply st_ids_nodup|..]; congruence).
  rewrite decide_False by (by intros []). wp_steps.
  eapply wp_mono; [apply wp_and; [apply write_current_pointer_spec|
    apply write_current_pointer_total; [done|by rewrite Hfs]]|].
  intros r2 w2 [(_ & Hdb2 & Huu2 & _) [-> _]]. wp_steps. rewrite Hdb in Hdb2.
  eapply wp_mono; [apply insert_rollback_event_total|intros r3 w3 ->; by wp_steps];
    rewrite ?Hdb2; try done.
  - by rewrite Hid.
  - apply Hun. lia.
Qed.

(** ** Pruning *)

(** [fs'] has lost nodes below the directories of [dirs], and nothing else. *)
Definition loses_only (dirs : list string) (fs fs' : FS) : Prop :=
  (∀ q, fs' !! q = None ∨ fs' !! q = fs !! q) ∧
  ∀ q, (∀ d, d ∈ dirs → ¬ below (backup_dir root d) q) → fs' !! q = fs !! q.

Lemma loses_only_refl dirs fs : loses_only dirs fs fs.
Proof. split; auto. Qed.
Lemma loses_only_trans d1 d2 fs1 fs2 fs3 :
  loses_only d1 fs1 fs2 → loses_only d2 fs2 fs3 → loses_only (d1 ++ d2) fs1 fs3.
Proof.
  intros [Ha Hb] [Hc Hd]. split.
  - intros q. destruct (Hc q) as [->| ->]; auto.
  - intros q Hq. rewrite Hd, Hb; [done|..]; intros d Hd'; apply Hq, elem_of_app; auto.
Qed.

Lemma remove_backup_dirs_spec doomed w :
  Forall is_name doomed.*2 →
  wp (remove_backup_dirs root doomed) (λ r w', quiet w w' ∧ w_db w' = w_db w ∧
    w_uuid w' = w_uuid w ∧ loses_only doomed.*2 (w_fs w) (w_fs w') ∧
    match r with
    | Ok _ => fault_free → ∀ d q, d ∈ doomed.*2 → w_fs w !! backup_dir root d = Some Dir →
        below (backup_dir root d) q → w_fs w' !! q = None
    | Err _ => True
    | Panic _ => False
    end) w.
Proof.
  revert w. induction doomed as [|[i dir] doomed IH]; intros w; simpl.
  { intros _. wp_steps. split_and!; [done..|apply loses_only_refl|]. by intros ? d q ?%elem_of_nil. }
  intros [Hdn Hns]%Forall_cons. unfold fs_exists. wp_steps. case_bool_decide as Hex.
  - wp_steps. eapply wp_mono; [apply fs_remove_dir_all_spec|]. intros r1 w1 (fs1 & -> & Ha & Hb & Hr1).
    cbn [w_fs tick_io] in *.
    assert (loses_only [dir] (w_fs w) fs1) as Hl1.
    { split; [done|]. intros q Hq. apply Ha, Hq. left. }
    assert (quiet w (set_fs fs1 (tick_io (tick_io w)))) as Hq1 by (by repeat split).
    destruct r1 as [[]|err|]; wp_steps; [| |done].
    2: { split_and!; try done. apply (loses_only_trans [dir] _ _ fs1 fs1); [done|apply loses_only_refl]. }
    eapply wp_mono; [by apply IH|]. intros r2 w2 (Hq2 & Hdb & Huu & Hl2 & Hr2).
    cbn [w_fs w_db w_uuid set_fs tick_io] in *. split_and!; [by etrans|done|done| |].
    { by apply (loses_only_trans [dir] _ _ fs1). }
    destruct r2 as [[]|err|]; [|done..]. intros Hff d q Hd Hdir Hq.
    destruct (decide (d = dir)) as [->|Hne].
    + destruct Hl2 as [Hn _]. destruct (Hn q) as [->| ->]; [done|by apply Hr1].
    + apply elem_of_cons in Hd as [?|Hd]; [done|]. apply (Hr2 Hff d); [done| |done].
      rewrite Ha; [done|]. intros Hbelow. apply Hne. symmetry.
      eapply (backup_dir_below root); [done|by eapply Forall_forall|done].
  - wp_steps. eapply wp_mono; [by apply IH|]. intros r2 w2 (Hq2 & Hdb & Huu & Hl2 & Hr2).
    cbn [w_fs w_db w_uuid tick_io] in *. split_and!; [|done|done| |].
    { etrans; [|done]. apply quiet_io_only, io_only_tick. }
    { apply (loses_only_trans [dir] _ _ (w_fs w)); [apply loses_only_refl|done]. }
    destruct r2 as [[]|err|]; [|done..]. intros Hff d q [->|Hd]%elem_of_cons Hdir Hq.
    + exfalso. apply Hex. split; [apply Hff|by eexists].
    + by apply (Hr2 Hff d).
Qed.

(** Removing the directories of some entries keeps the backups of the others. *)
Lemma files_ok_pruned fs fs' (es gone kept : list BackupEntry) :
  es ≡ₚ gone ++ kept → NoDup (id <$> es) → dirs_distinct es → files_ok hash root fs es →
  Forall (λ e, status e = Created) gone → loses_only (timestamp_dir <$> gone) fs fs' →
  files_ok hash root fs' kept.
Proof.
  intros Hp Hnd Hd Hf Hc [_ Hl]. apply (files_ok_agree hash root fs).
  2: { eapply files_ok_subset; [|done]. intros e He. rewrite Hp. apply elem_of_app. auto. }
  intros e He Hce. apply Hl. intros d (g & -> & Hg)%list_elem_of_fmap Hb.
  assert (g ∈ es ∧ e ∈ es) as [Hg' He'] by (rewrite Hp, !elem_of_app; auto).
  assert (status g = Created) as Hcg by (by eapply Forall_forall in Hc).
  apply below_backup in Hb; [|by apply Hf..].
  assert (g = e) as -> by (eapply (NoDup_fmap_elem id); [done..|by apply Hd]).
  rewrite Hp in Hnd. rewrite fmap_app in Hnd. apply NoDup_app in Hnd as (_ & Hdis & _).
  eapply Hdis; by apply list_elem_of_fmap_2.
Qed.

Lemma pointer_ok_pruned fs fs' dirs :
  Forall is_name dirs → loses_only dirs fs fs' →
  fs' !! pointer_path root = fs !! pointer_path root.
Proof.
  intros Hn [_ Hl]. apply Hl. intros d Hd. apply below_pointer. by eapply Forall_forall.
Qed.

(** The cutoff of a retention of [n] days, as the code computes it. *)
Definition retention_cutoff (t : DateTime) (n : Z) : DateTime := (t - n * 86400 * ns_per_sec)%Z.

Lemma cutoff_computed t n :
  rfc3339_range t → rfc3339_range (retention_cutoff t n) → (0 < n)%Z →
  ∃ d, duration_days n = Some d ∧ datetime_sub t d = Some (retention_cutoff t n).
Proof.
  intros Ht Hc Hn. exists (n * 86400 * ns_per_sec)%Z.
  rewrite duration_days_law, datetime_sub_law. fold (retention_cutoff t n).
  assert (min_utc = -8334601228800000000000 ∧ max_utc = 8210266876799999999999 ∧
          max_duration_days = 106751991167 ∧ ns_per_sec = 1000000000 ∧ secs_per_day = 86400)%Z as (?&?&?&?&?)
    by (by vm_compute).
  unfold rfc3339_range, retention_cutoff in *. rewrite !bool_decide_true; [done|..]; lia.
Qed.

(** What pruning has done: [gone] are the entries it dropped. *)
Record prune_post (cutoff : DateTime) (w w' : World S) (gone : list BackupEntry) : Prop := {
  pp_gone : Forall (prunable (S := S) cutoff) gone;
  pp_entries : entries w ≡ₚ gone ++ entries w';
  pp_files : loses_only (timestamp_dir <$> gone) (w_fs w) (w_fs w');
  pp_events : events w' = events w;
  pp_pointer : w_fs w' !! pointer_path root = w_fs w !! pointer_path root;
}.

Lemma prune_post_inv cutoff w w' gone :
  repo_inv hash root w → st_wf (w_db w') → prune_post cutoff w w' gone → repo_inv hash root w'.
Proof.
  intros [Hwf Hf Hd Hptr] Hwf' [Hg He Hl _ Hpp].
  assert (Forall (λ e, status e = Created) gone) as Hc by (eapply Forall_impl; [done|]; by intros ? []).
  split; [done| | |by eapply pointer_ok_agree].
  - eapply files_ok_pruned; try done. by apply st_ids_nodup.
  - eapply dirs_distinct_subset; [|done]. intros e Hin. rewrite He. apply elem_of_app. auto.
Qed.

Lemma prunable_names cutoff w gone :
  repo_inv hash root w → (∀ e, e ∈ gone → e ∈ entries w ∧ prunable (S := S) cutoff e) →
  Forall is_name (timestamp_dir <$> gone).
Proof.
  intros Hinv Hg. apply Forall_fmap, Forall_forall. intros e He.
  destruct (Hg e He) as [Hin [Hc _]]. by apply (ri_files _ _ _ Hinv).
Qed.

(** Pruning in every outcome: what is gone was prunable, what is left is intact. *)
Lemma prune_spec n w :
  let cutoff := retention_cutoff (clock (w_clock w)) n in
  repo_inv hash root w → (0 < n)%Z → rfc3339_range (clock (w_clock w)) → rfc3339_range cutoff →
  wp (prune_created_older_than_days root n) (λ r w', quiet w w' ∧ repo_inv hash root w' ∧
    ∃ gone, prune_post cutoff w w' gone ∧
    match r with
    | Ok k => k = length gone ∧ gone = filter (prunable (S := S) cutoff) (entries w) ∧
        (fault_free → ∀ e q, e ∈ gone → w_fs w !! backup_dir root (timestamp_dir e) = Some Dir →
           below (backup_dir root (timestamp_dir e)) q → w_fs w' !! q = None)
    | Err _ => True
    | Panic _ => False
    end) w.
Proof.
  intros cutoff Hinv Hn Ht Hc. unfold prune_created_older_than_days.
  rewrite (proj2 (Z.leb_gt _ _)) by lia. wp_steps.
  destruct (cutoff_computed _ n Ht Hc Hn) as (d & -> & ->). fold cutoff. wp_steps.
  eapply wp_mono; [by apply prune_created_before_law; [apply Hinv|]|].
  cbn [w_db tick_clock]. intros r1 w1 (Hdo & Hwf1 & Hev & Hr1).
  assert (quiet w w1) as Hq1 by (etrans; [apply quiet_clock|by apply quiet_db_only]).
  assert (w_fs w1 = w_fs w) as Hfs by apply Hdo.
  destruct r1 as [doomed|err|]; wp_steps; [| |done].
  2: { destruct Hr1 as (gone & Hg & Hp).
       assert (prune_post cutoff w w1 gone) as Hpost
         by (split; rewrite ?Hfs; [done..|apply loses_only_refl|done|done]).
       split_and!; [done|by eapply prune_post_inv|by eexists]. }
  destruct Hr1 as [Hdoom Hent]. set (gone := filter (prunable cutoff) (entries w)) in *.
  assert (doomed.*2 ≡ₚ timestamp_dir <$> gone) as Hdirs by (by rewrite Hdoom, <- list_fmap_compose).
  assert (∀ e, e ∈ gone → e ∈ entries w ∧ prunable (S := S) cutoff e) as Hgone
    by (intros e [??]%list_elem_of_filter; auto).
  assert (Forall is_name (timestamp_dir <$> gone)) as Hnames by (by eapply prunable_names).
  eapply wp_mono; [apply remove_backup_dirs_spec; by rewrite Hdirs|].
  intros r2 w2 (Hq2 & Hdb2 & _ & [Hl1 Hl2] & Hr2). rewrite Hfs in *.
  assert (quiet w w2) by (by etrans).
  assert (loses_only (timestamp_dir <$> gone) (w_fs w) (w_fs w2)) as Hl.
  { split; [done|]. intros q Hq. apply Hl2. intros d' Hd'. rewrite Hdirs in Hd'. by apply Hq. }
  assert (prune_post cutoff w w2 gone) as Hpost.
  { split; rewrite ?Hdb2; [|rewrite Hent; apply filter_split_perm|done|done|by eapply pointer_ok_pruned].
    apply Forall_forall. intros e He. by apply Hgone. }
  assert (repo_inv hash root w2) by (eapply prune_post_inv; [done|by rewrite Hdb2|done]).
  destruct r2 as [[]|err|]; wp_steps; [|by eauto|done].
  split_and!; [done..|]. exists gone. split_and!; [done| |done|].
  { apply (Permutation_length) in Hdoom. by rewrite length_fmap in Hdoom. }
  intros Hff e q He Hdir Hb. eapply (Hr2 Hff (timestamp_dir e)); [|done..].
  rewrite Hdirs. by apply list_elem_of_fmap_2.
Qed.

(** *** Success *)

(** Without faults, directories that are directories are removed. *)
Lemma remove_backup_dirs_total doomed w :
  fault_free → (∀ d b, d ∈ doomed.*2 → w_fs w !! backup_dir root d ≠ Some (File b)) →
  wp (remove_backup_dirs root doomed) (λ r _, r = Ok ()) w.
Proof.
  intros Hff. revert w. induction doomed as [|[i dir] doomed IH]; intros w Hfile; simpl; wp_steps; [done|].
  unfold fs_exists. wp_steps. case_bool_decide as Hex; wp_steps.
  - assert (w_fs w !! backup_dir root dir = Some Dir) as Hd.
    { destruct Hex as [_ [n Hn]]. cbn [w_fs tick_io] in Hn. destruct n as [|b]; [done|].
      destruct (Hfile dir b); [left|done]. }
    eapply wp_mono; [apply wp_and; [apply fs_remove_dir_all_spec|by apply fs_remove_dir_all_total]|].
    intros r1 w1 [(fs1 & -> & _ & Hb & _) ->]. wp_steps. apply IH. intros d b Hd'.
    cbn [w_fs set_fs tick_io] in *. destruct (Hb (backup_dir root d)) as [->| ->]; [done|].
    apply Hfile. by right.
  - apply IH. intros d b Hd'. apply Hfile. by right.
Qed.

Lemma prune_total n w :
  let cutoff := retention_cutoff (clock (w_clock w)) n in
  fault_free → repo_inv hash root w → rfc3339_range (clock (w_clock w)) → rfc3339_range cutoff →
  (∀ e b, e ∈ entries w → status e = Created → w_fs w !! backup_dir root (timestamp_dir e) ≠ Some (File b)) →
  wp (prune_created_older_than_days root n) (λ r _, ∃ k, r = Ok k) w.
Proof.
  intros cutoff Hff Hinv Ht Hc Hfile. unfold prune_created_older_than_days.
  destruct (Z.leb_spec n 0) as [|Hn]; wp_steps; [by eexists|].
  destruct (cutoff_computed _ n Ht Hc Hn) as (d & -> & ->). fold cutoff. wp_steps.
  eapply wp_mono; [apply wp_and; [by apply prune_created_before_law; [apply Hinv|]|
    by apply prune_created_before_total; [apply Hinv|..]]|].
  cbn [w_db tick_clock]. intros r1 w1 [(Hdo & _ & _ & Hr1) [doomed ->]]. wp_steps.
  destruct Hr1 as [Hdoom _].
  eapply wp_mono; [apply remove_backup_dirs_total; [done|]|intros r2 w2 ->; wp_steps; by eexists].
  assert (w_fs w1 = w_fs w) as -> by apply Hdo. intros d' b Hd'.
  assert (doomed.*2 ≡ₚ timestamp_dir <$> filter (prunable cutoff) (entries w)) as Hdirs
    by (by rewrite Hdoom, <- list_fmap_compose).
  rewrite Hdirs in Hd'. apply list_elem_of_fmap in Hd' as (e & -> & [[Hst _] He]%list_elem_of_filter).
  by apply Hfile.
Qed.

(** A retention of zero or fewer days keeps everything, and reads nothing. *)
Lemma prune_disabled n w : (n ≤ 0)%Z →
  prune_created_older_than_days root n w = (Ok 0, w).
Proof. intros Hn. unfold prune_created_older_than_days. by rewrite (proj2 (Z.leb_le _ _)) by lia. Qed.

(** A retention beyond what [chrono] can represent panics before anything is
    removed. *)
Lemma prune_panics n w :
  (0 < n)%Z → (max_duration_days < n ∨ retention_cutoff (clock (w_clock w)) n < min_utc)%Z →
  ∃ msg, prune_created_older_than_days root n w = (Panic msg, tick_clock w).
Proof.
  intros Hn Hbig. unfold prune_created_older_than_days. rewrite (proj2 (Z.leb_gt _ _)) by lia.
  unfold mbind, M_bind, now. cbn. rewrite duration_days_law. case_bool_decide; [|by eexists].
  rewrite datetime_sub_law. fold (retention_cutoff (clock (w_clock w)) n).
  rewrite bool_decide_false; [by eexists|]. lia.
Qed.
End ops.
