(* ===== verification/History.v ===== *)
(** * Histories of a repository

    A repository is opened, backed up to, rolled back and pruned over the life of
    the daemon and across its restarts.  [repo_step] is one such operation with
    any outcome, and a history is a sequence of them.  This file shows the
    invariant along every history, what leaves the repository and when, and that a
    backup of unchanged content is skipped. *)

From stdpp Require Import relations.
From S2P Require Import Prelude Calendar World Crates Core Store Stats Repository RepositoryInv.
From S2P Require Import RepositoryThms RepositoryOps.

(** The operations of [BackupRepository]. *)
Inductive RepoOp :=
  | OpOpen
  | OpRunOnce (payload : BackupPayload)
  | OpList
  | OpGet (i : Uuid)
  | OpRollback (i : Uuid)
  | OpPrune (retention_days : Z).

Section history.
Context {S : Type} `{!Env, !Chrono, !UuidCrate, !SerdeJson, !SqlEngine, !CollectionFile}.
Context `{!MetadataStore S, !StoreModel S, !StoreOpen S}.
Context (hash : bytes → string) (root : Path).
Implicit Types w : World S.

Abbreviation entries w := (st_entries (w_db w)).

(** The caller's side of an operation: arguments are of their Rust types, the
    clock is between the years 0 and 9999, and a backup does not start in the
    second in which another one was named. *)
Definition op_ok (op : RepoOp) w : Prop :=
  rfc3339_range (clock (w_clock w)) ∧
  match op with
  | OpOpen | OpList => True
  | OpRunOnce payload => payload_ok payload ∧
      dir_unused (format_timestamp_dir (clock (w_clock w))) (entries w)
  | OpGet i | OpRollback i => uuid_ok i
  | OpPrune n => rfc3339_range (retention_cutoff (clock (w_clock w)) n)
  end.

(** One operation, whatever it returns. *)
Inductive repo_step : RepoOp → World S → World S → Prop :=
  | step_open r w w' : op_ok OpOpen w →
      open_repository root store_new w = (r, w') → repo_step OpOpen w w'
  | step_run_once payload r w w' : op_ok (OpRunOnce payload) w →
      run_once root payload (hash (payload_bytes payload)) w = (r, w') →
      repo_step (OpRunOnce payload) w w'
  | step_list r w w' : op_ok OpList w →
      repo_list_backups w = (r, w') → repo_step OpList w w'
  | step_get i r w w' : op_ok (OpGet i) w →
      repo_get_backup i w = (r, w') → repo_step (OpGet i) w w'
  | step_rollback i r w w' : op_ok (OpRollback i) w →
      rollback_to root i w = (r, w') → repo_step (OpRollback i) w w'
  | step_prune n r w w' : op_ok (OpPrune n) w →
      prune_created_older_than_days root n w = (r, w') → repo_step (OpPrune n) w w'.

(** A history and its operations. *)
Inductive history : list RepoOp → World S → World S → Prop :=
  | history_nil w : history [] w w
  | history_cons op ops w w1 w2 :
      repo_step op w w1 → history ops w1 w2 → history (op :: ops) w w2.

Context `{!ChronoLaws, !SqlEngineLaws, !CollectionFileLaws, !StoreLaws S, !StoreOpenLaws S}.

(** Opening keeps what is there. *)
Lemma open_repository_spec w :
  wp (open_repository root store_new) (λ r w', quiet w w' ∧
    only_adds_dirs (w_fs w) (w_fs w') ∧
    w_fs w' !! pointer_path root = w_fs w !! pointer_path root ∧
    (st_wf (w_db w) → w_db w' = w_db w) ∧ migrate (w_db w') = migrate (w_db w) ∧
    match r with
    | Ok _ => w_db w' = migrate (w_db w) ∧ w_fs w' !! state_dir root = Some Dir
    | Err _ => True
    | Panic _ => False
    end) w.
Proof.
  assert (∀ q, pointer_path root `prefix_of` q → length root + 1 < length q) as Hlen.
  { intros q Hq%prefix_length. rewrite pointer_path_eq, length_app in Hq. simpl in Hq. lia. }
  assert (∀ c, is_name c → ¬ pointer_path root `prefix_of` join root c) as Hno.
  { intros c Hc Hq%Hlen. rewrite join_name, length_app in Hq by done. simpl in Hq. lia. }
  unfold open_repository. wp_steps. eapply wp_mono; [apply create_dir_all_spec|].
  intros r1 w1 (fs1 & -> & Ha1 & Hp1 & Hr1).
  specialize (Hp1 _ (Hno "backups" ltac:(by vm_compute))).
  destruct r1 as [[]|err|]; wp_steps; [| |done].
  2: { split_and!; [apply quiet_set_fs|done..]. }
  eapply wp_mono; [apply create_dir_all_spec|]. intros r2 w2 (fs2 & -> & Ha2 & Hp2 & Hr2).
  specialize (Hp2 _ (Hno "state" ltac:(by vm_compute))). cbn [w_fs set_fs tick_io] in *.
  assert (only_adds_dirs (w_fs w) fs2) as Ha by (by eapply only_adds_dirs_trans).
  set (w2 := set_fs fs2 _). assert (quiet w w2) as Hq2 by (by repeat split).
  rewrite Hp1 in Hp2. destruct r2 as [[]|err|]; wp_steps; [| |done].
  2: { by split_and!. }
  eapply wp_mono; [apply store_new_law|]. intros r3 w3 (Hdo & Hm & Hwf & Hr3).
  assert (w_fs w3 = fs2) as Hfs by apply Hdo. rewrite Hfs.
  split_and!; [etrans; [done|by apply quiet_db_only]|done..|].
  destruct r3 as [[]|err|]; [|done..]. split; [done|]. apply Hr2. rewrite state_dir_eq.
  by intros [_ ?]%app_nil.
Qed.

(** Without faults and without files in the way, a repository can be opened; only
    the two directories and those above them are new. *)
Lemma open_repository_total w :
  fault_free →
  (∀ q b, q `prefix_of` backups_dir root ∨ q `prefix_of` state_dir root → w_fs w !! q ≠ Some (File b)) →
  wp (open_repository root store_new) (λ r w', r = Ok () ∧
    ∀ q, ¬ q `prefix_of` backups_dir root → ¬ q `prefix_of` state_dir root → w_fs w' !! q = w_fs w !! q) w.
Proof.
  intros Hff Hfile. unfold open_repository. wp_steps.
  eapply wp_mono; [apply wp_and; [apply create_dir_all_spec|apply create_dir_all_total; by auto]|].
  intros r1 w1 [(fs1 & -> & Ha1 & Hp1 & _) ->]. wp_steps.
  eapply wp_mono; [apply wp_and; [apply create_dir_all_spec|apply create_dir_all_total; [done|]]|].
  { intros q b Hq. cbn [w_fs set_fs tick_io]. destruct (Ha1 q) as [->|[_ ->]]; [by auto|done]. }
  intros r2 w2 [(fs2 & -> & Ha2 & Hp2 & _) ->]. wp_steps.
  eapply wp_mono; [apply store_new_law|]. intros r3 w3 (Hdo & _ & _ & Hr3).
  assert (w_fs w3 = fs2) as Hfs by apply Hdo. split.
  - destruct r3 as [[]|e|]; [done|by destruct Hr3|done].
  - intros q Hb Hs. rewrite Hfs, Hp2 by done. cbn [w_fs set_fs tick_io]. by apply Hp1.
Qed.

(** A repository just opened on a database with rows [es] and their files. *)
Lemma open_repository_inv w w' r :
  open_repository root store_new w = (r, w') → repo_inv hash root w → repo_inv hash root w'.
Proof.
  intros Hrun [Hwf Hf Hd Hp]. destruct (wp_run _ _ _ _ _ (open_repository_spec w) Hrun)
    as (_ & Ha & Hptr & Hdb & _).
  split; rewrite ?(Hdb Hwf); [done|by eapply files_ok_dirs|done|by eapply pointer_ok_agree].
Qed.

(** Opening an empty directory and an empty database gives a repository. *)
Lemma open_fresh w w' :
  open_repository root store_new w = (Ok (), w') → st_wf (migrate (w_db w)) → entries w = [] →
  w_fs w !! pointer_path root = None →
  repo_inv hash root w' ∧ entries w' = [] ∧ w_fs w' !! state_dir root = Some Dir.
Proof.
  intros Hrun Hwf He Hp. destruct (wp_run _ _ _ _ _ (open_repository_spec w) Hrun)
    as (_ & Ha & Hptr & _ & _ & Hdb & Hst).
  assert (entries w' = []) as He' by (by rewrite Hdb, migrate_entries).
  split_and!; [|done..]. split; rewrite ?He', ?Hdb; [done| | |left; congruence].
  - by intros e ?%elem_of_nil.
  - by intros e1 e2 ?%elem_of_nil.
Qed.

(** ** The invariant *)

Lemma repo_step_inv op w w' :
  uuids_ok → repo_inv hash root w → repo_step op w w' → repo_inv hash root w'.
Proof.
  intros Huu Hinv Hstep. destruct Hstep as
    [r w w' [Ht Hok] Hrun|payload r w w' [Ht [Hpl Hdir]] Hrun|r w w' [Ht Hok] Hrun|
     i r w w' [Ht Hok] Hrun|i r w w' [Ht Hok] Hrun|n r w w' [Ht Hok] Hrun].
  - by eapply open_repository_inv.
  - by run_spec (by apply run_once_spec) in Hrun as (_ & ? & _).
  - run_spec (apply list_backups_law, Hinv) in Hrun as (Hdo & Hdb & _).
    by eapply repo_inv_db.
  - run_spec (by apply get_backup_law; [apply Hinv|]) in Hrun as (Hdo & Hdb & _).
    by eapply repo_inv_db.
  - by run_spec (by apply rollback_to_spec) in Hrun as (_ & ? & _).
  - destruct (Z.le_gt_cases n 0).
    + rewrite prune_disabled in Hrun by done. by simplify_eq.
    + by run_spec (by apply prune_spec) in Hrun as (_ & ? & _).
Qed.

Lemma history_inv ops w w' :
  uuids_ok → history ops w w' → repo_inv hash root w → repo_inv hash root w'.
Proof. intros Huu. induction 1; eauto using repo_step_inv. Qed.

(** ** What leaves the repository *)

(** An entry leaves by pruning only, once it is older than the retention. *)
Lemma repo_step_keeps op w w' e :
  uuids_ok → repo_inv hash root w → repo_step op w w' → e ∈ entries w →
  e ∈ entries w' ∨
  ∃ n, op = OpPrune n ∧ (0 < n)%Z ∧ prunable (S := S) (retention_cutoff (clock (w_clock w)) n) e.
Proof.
  intros Huu Hinv Hstep He. destruct Hstep as
    [r w w' [Ht Hok] Hrun|payload r w w' [Ht [Hpl Hdir]] Hrun|r w w' [Ht Hok] Hrun|
     i r w w' [Ht Hok] Hrun|i r w w' [Ht Hok] Hrun|n r w w' [Ht Hok] Hrun].
  - left. destruct (wp_run _ _ _ _ _ (open_repository_spec w) Hrun) as (_ & _ & _ & Hdb & _).
    by rewrite Hdb by apply Hinv.
  - left. run_spec (by apply run_once_spec) in Hrun as (_ & _ & _ & Hr).
    destruct r as [[e'|e']|err|]; [destruct Hr as [_ [Hp _ _ _ _ _ _ _ _ _ _ _]]|
      destruct Hr as [_ [Hp _ _ _ _ _ _]]|destruct Hr as [Hp|[e' Hp]]|done];
      rewrite Hp; rewrite ?elem_of_cons; auto.
  - left. run_spec (apply list_backups_law, Hinv) in Hrun as (_ & Hdb & _). by rewrite Hdb.
  - left. run_spec (by apply get_backup_law; [apply Hinv|]) in Hrun as (_ & Hdb & _).
    by rewrite Hdb.
  - left. run_spec (by apply rollback_to_spec) in Hrun as (_ & _ & Hent & _). by rewrite Hent.
  - destruct (Z.le_gt_cases n 0).
    + left. rewrite prune_disabled in Hrun by done. by simplify_eq.
    + run_spec (by apply prune_spec) in Hrun as (_ & _ & gone & [Hg Hp _ _ _] & _).
      rewrite Hp in He. apply elem_of_app in He as [Hin|]; [right|by left].
      exists n. split_and!; [done..|]. by eapply Forall_forall in Hg.
Qed.

(** Along a history an entry stays, or some pruning found it past the
    retention. *)
Lemma history_keeps ops w w' e :
  uuids_ok → history ops w w' → repo_inv hash root w → e ∈ entries w →
  e ∈ entries w' ∨ ∃ ops1 n ops2 w1, ops = ops1 ++ OpPrune n :: ops2 ∧ history ops1 w w1 ∧
    (0 < n)%Z ∧ prunable (S := S) (retention_cutoff (clock (w_clock w1)) n) e.
Proof.
  intros Huu Hh. induction Hh as [|op ops w w1 w2 Hstep Hh IH]; intros Hinv He; [by left|].
  destruct (repo_step_keeps op w w1 e) as [He1|(n & -> & Hn & Hp)]; try done.
  - destruct IH as [|(ops1 & n & ops2 & w3 & -> & Hh1 & Hn & Hp)]; [by eapply repo_step_inv|done|by left|].
    right. exists (op :: ops1), n, ops2, w3. split_and!; [done|by econstructor|done|done].
  - right. exists [], n, ops, w. split_and!; [done|constructor|done|done].
Qed.

(** ** Unchanged content is skipped *)

(** Every most recent backup has hash [h], and there is one. *)
Definition up_to_date (h : string) (es : list BackupEntry) : Prop :=
  (∃ e, e ∈ es ∧ status e = Created) ∧ ∀ e, latest_created es e → content_hash_of e = h.

(** No payload file is written, whatever the payload and whenever it is run. *)
Lemma run_once_up_to_date w payload h :
  repo_inv hash root w → uuids_ok → rfc3339_range (clock (w_clock w)) → up_to_date h (entries w) →
  wp (run_once root payload h) (λ r w', repo_inv hash root w' ∧ quiet w w' ∧
    match r with
    | Ok (RSkipped e) => skipped_post w w' h e
    | Ok (RCreated _) | Panic _ => False
    | Err _ => True
    end) w.
Proof.
  intros Hinv Huu Ht [[e0 [He0 Hc0]] Hup]. unfold run_once. wp_steps.
  eapply wp_mono; [by apply last_created_hash_law, Hinv|].
  intros r1 w1 (Hdo & Hdb & Hr1). cbn [w_db tick_clock] in Hdb, Hr1.
  assert (w_fs w1 = w_fs w) as Hfs by apply Hdo.
  assert (quiet w w1) as Hq1 by (etrans; [apply quiet_clock|by apply quiet_db_only]).
  assert (repo_inv hash root w1) as Hinv1 by (destruct Hinv; by split; rewrite ?Hfs, ?Hdb).
  destruct r1 as [[h'|]|err|]; cbn [bind_post]; [|by destruct (Hr1 e0)|done..].
  destruct Hr1 as (l & Hl & <-). rewrite decide_True by auto. wp_steps.
  eapply wp_mono; [by apply (record_skipped_spec hash)|]. intros r w' (Hq2 & ? & _ & Hr).
  assert (quiet w w') by (by etrans).
  destruct r as [e|err|]; wp_steps; [|done..]. split_and!; [done..|]. by apply Hr; rewrite ?Hdb, ?Hfs.
Qed.

(** Without faults, it is recorded as skipped. *)
Lemma run_once_skip_total w payload h :
  fault_free → repo_inv hash root w → uuids_ok → rfc3339_range (clock (w_clock w)) →
  up_to_date h (entries w) → uuids_unused w →
  wp (run_once root payload h) (λ r _, ∃ o, r = Ok o) w.
Proof.
  intros Hff Hinv Huu Ht [[e0 [He0 Hc0]] Hup] Hun. unfold run_once. wp_steps.
  assert (st_wf (w_db (tick_clock w))) as Hwf by apply Hinv.
  eapply wp_mono; [apply wp_and; [by apply last_created_hash_law|by apply last_created_hash_total]|].
  intros r1 w1 [(Hdo & Hdb & Hr1) [o ->]]. cbn [bind_post]. cbn [w_db tick_clock] in Hdb, Hr1.
  assert (w_uuid w ≤ w_uuid w1) as Hle by apply Hdo.
  destruct o as [h'|]; [|by destruct (Hr1 e0)]. destruct Hr1 as (l & Hl & <-).
  rewrite decide_True by auto. wp_steps.
  eapply wp_mono; [apply create_and_insert_entry_total|intros r2 w2 [[e ->] _]; wp_steps; eauto]; try done.
  - by rewrite Hdb.
  - split_and!; simpl; done || apply Huu.
  - intros n Hn. rewrite Hdb. apply Hun. lia.
Qed.

(** Entries of [es] were created before [t]. *)
Definition all_before (t : DateTime) (es : list BackupEntry) : Prop :=
  ∀ e, e ∈ es → status e = Created → (created_at e < t)%Z.

Lemma up_to_date_cons es e :
  status e = Created → all_before (created_at e) es → up_to_date (content_hash_of e) (e :: es).
Proof.
  intros Hc Hb. split; [exists e; split; [left|done]|].
  intros l ([->|Hl]%elem_of_cons & Hcl & Hmax); [done|].
  specialize (Hmax e ltac:(left) Hc). specialize (Hb l Hl Hcl). lia.
Qed.
Lemma up_to_date_perm h es es' : es ≡ₚ es' → up_to_date h es → up_to_date h es'.
Proof.
  intros Hp [[e0 [He0 Hc0]] Hup]. split; [exists e0; by rewrite <- Hp|].
  intros e (He & Hc & Hmax). apply Hup. split_and!; [by rewrite Hp|done|].
  intros e'. rewrite Hp. apply Hmax.
Qed.

(** A backup that was just created is up to date. *)
Lemma created_up_to_date w w' payload h e :
  created_post root w w' payload h e → all_before (st_time (clock (w_clock w))) (entries w) →
  up_to_date h (entries w').
Proof.
  intros [Hp _ _ Hst Hh Ht _ _ _ _ _] Hb. apply (up_to_date_perm h (stored_entry e :: entries w)); [by rewrite Hp|].
  rewrite <- Hh. apply (up_to_date_cons (entries w) (stored_entry e)); [done|].
  unfold stored_entry. simpl. by rewrite Ht.
Qed.
End history.
