(* ===== verification/Sync.v ===== *)
(** * The AnkiWeb client

    Models [crates/sync/src/lib.rs]: the session identifier, one request with its
    manual redirect and its zstd bodies, login, and the download and upload of a
    collection.  What the server answers is an oracle ([http_answer]); [reqwest]'s
    views of a response are parameters. *)

From S2P Require Import Prelude Calendar World Crates Core.

(** ** reqwest and http *)

Class HttpCrates := {
  (** [Display] of a [StatusCode] *)
  status_display : Z → string;
  (** [Debug] of a [HeaderMap] *)
  headers_debug : list (string * string) → string;
  (** [HeaderValue::to_str] *)
  header_to_str : string → option string;
  (** [Response::text] of a body that was read *)
  response_text : HttpResponse → bytes → string;
}.

(** [HeaderMap::get]: the first value of a name; names are lower case. *)
Definition header_get (name : string) (resp : HttpResponse) : option string :=
  (λ p : nat * (string * string), p.2.2) <$> list_find (λ kv, kv.1 = name) (resp_headers resp).
Definition is_redirection (status : Z) : bool := (300 <=? status)%Z && (status <? 400)%Z.
Definition is_success (status : Z) : bool := (200 <=? status)%Z && (status <? 300)%Z.

(** ** Constants *)

Definition SYNC_VERSION : Z := 11.
Definition DEFAULT_ENDPOINT : string := "https://sync.ankiweb.net/".
Definition CLIENT_VERSION_SHORT : string := "25.09.2,dev,linux".
Definition CLIENT_VERSION_LONG : string := "anki,25.09.2 (dev),linux".

(** ** Data *)

Record SyncConfig := {
  cfg_username : string;
  cfg_password : string;
  cfg_endpoint : option string;
}.

Record SyncResult := {
  collection_bytes : bytes;
  sync_source_revision : option string;
  sync_duration : Z;
}.

Inductive SyncError :=
  | MissingCredentials
  | LoginFailed (msg : string)
  | DownloadFailed (msg : string).
Definition sync_error_string (e : SyncError) : string :=
  match e with
  | MissingCredentials => "ankiweb credentials are missing"
  | LoginFailed msg => "ankiweb login failed: " +:+ msg
  | DownloadFailed msg => "ankiweb download failed: " +:+ msg
  end.

Record SyncRequestResult := {
  data : bytes;
  new_endpoint : option string;
}.

Record MetaResponse := {
  server_message : string;
  empty_collection : bool;
  should_continue : bool;
}.

(** ** JSON bodies *)

Definition sync_header_json (hkey session_key : string) : Json :=
  JObject [("v", JInt SYNC_VERSION); ("k", JString hkey); ("c", JString CLIENT_VERSION_SHORT);
           ("s", JString session_key)].
Definition host_key_request (username password : string) : Json :=
  JObject [("u", JString username); ("p", JString password)].
Definition meta_request : Json :=
  JObject [("v", JInt SYNC_VERSION); ("cv", JString CLIENT_VERSION_LONG)].

Definition host_key_of_json (j : Json) : option string :=
  fs ← struct_fields ["key"] j; required 0 fs json_str.
Definition meta_of_json (j : Json) : option MetaResponse :=
  fs ← struct_fields ["msg"; "empty"; "should_continue"] j;
  msg ← or_default "" 0 fs json_str;
  e ← or_default false 1 fs json_bool;
  c ← or_default true 2 fs json_bool;
  Some {| server_message := msg; empty_collection := e; should_continue := c |}.

(** [Debug] of a string: quoted, with ASCII controls, quotes and backslashes
    escaped. *)
Definition debug_char (a : Ascii.ascii) : string :=
  if decide (a = "\"%char) then "\\"
  else if decide (a = ascii_of_N 34) then String "\" (String (ascii_of_N 34) "")
  else if decide (a = ascii_of_N 10) then "\n"
  else if decide (a = ascii_of_N 13) then "\r"
  else if decide (a = ascii_of_N 9) then "\t"
  else if decide (a = ascii_of_N 0) then "\0"
  else if (N_of_ascii a <? 16)%N then "\u{" +:+ enc 16 1 (Z.of_N (N_of_ascii a)) +:+ "}"
  else if (N_of_ascii a <? 32)%N || (N_of_ascii a =? 127)%N
  then "\u{" +:+ enc 16 2 (Z.of_N (N_of_ascii a)) +:+ "}"
  else String a "".
Fixpoint debug_chars (s : string) : string :=
  match s with EmptyString => "" | String a s => debug_char a +:+ debug_chars s end.
Definition debug_str (s : string) : string :=
  String (ascii_of_N 34) (debug_chars s +:+ String (ascii_of_N 34) "").

(** ** Session identifiers *)

Definition session_table : string := "abcdefghijklmnopqrstuvwxyzABCDEFGHIJKLMNOPQRSTUVWXYZ0123456789".
Definition session_char (i : Z) : Ascii.ascii := default "a"%char (String.get (Z.to_nat i) session_table).

(** The [while] loop, least significant digit first; six rounds exhaust a
    [u32]. *)
Fixpoint session_loop (fuel : nat) (val : Z) : string :=
  match fuel with
  | O => ""
  | S fuel =>
      if (0 <? val)%Z then String (session_char (val mod 62)) (session_loop fuel (val / 62)) else ""
  end.
Definition session_id_of (n : Z) : string := if (n =? 0)%Z then "0" else session_loop 6 n.

(** ** Requests *)

Section sync.
Context {S : Type} `{!Env, !SerdeJson, !Zstd, !HttpCrates}.

Definition simple_session_id : M S string :=
  n ← gets w_random;
  modify tick_random;;
  mret (session_id_of (random_u32 n)).

Definition zstd_compress (b : bytes) : M S bytes := from_option ["zstd error"] (zstd_encode b).
Definition zstd_decompress (b : bytes) : M S bytes := from_option ["zstd error"] (zstd_decode b).

(** [client.post(url)...send().await]: the request is handed to the HTTP client, which
    may fail before or after the server has seen it. *)
Definition http_post (req : HttpRequest) : M S HttpResponse :=
  n ← gets (λ w, length (w_sent w));
  modify (add_sent req);;
  match http_answer n req with
  | inl e => fail [e]
  | inr resp => mret resp
  end.

(** Building the client can fail, for instance on its TLS backend. *)
Definition build_client : M S () := io_step.

Definition json_body (j : Json) : bytes := bytes_of_string (json_to_string j).
Definition from_slice {A} (f : Json → option A) (b : bytes) : M S A :=
  from_option ["json error"] (json_from_str (string_of_bytes b) ≫= f).

Definition method_url (base method : string) : string :=
  trim_end "/" base +:+ "/sync/" +:+ method.
Definition sync_post (url header_json : string) (compressed_body : bytes) : HttpRequest := {|
  req_url := url;
  req_headers := [("anki-sync", header_json); ("content-type", "application/octet-stream")];
  req_body := compressed_body;
|}.

(** The end of [sync_request], from the final response. *)
Definition read_reply (method : string) (resp : HttpResponse) (new_endpoint : option string) :
    M S SyncRequestResult :=
  if negb (is_success (resp_status resp)) then
    let status := status_display (resp_status resp) in
    let body := match resp_body resp with inr b => response_text resp b | inl _ => "" end in
    log Error_ "sync request failed"
      [("status", status); ("headers", headers_debug (resp_headers resp));
       ("body_len", pretty (String.length body))];;
    fail ["sync request to " +:+ method +:+ " failed (" +:+ status +:+ "): " +:+ body]
  else
    resp_bytes ← match resp_body resp with inr b => mret b | inl e => fail [e] end;
    data ← (if decide (zstd_magic `prefix_of` resp_bytes)
            then context ("decompressing response from " +:+ method) (zstd_decompress resp_bytes)
            else mret resp_bytes);
    mret {| data := data; new_endpoint := new_endpoint |}.

Definition sync_request (endpoint method hkey session_key : string) (body : bytes) :
    M S SyncRequestResult :=
  let url := method_url endpoint method in
  log Debug "sync request" [("url", url); ("method", method)];;
  let header := sync_header_json hkey session_key in
  compressed_body ← zstd_compress body;
  let header_json := json_to_string header in
  log Debug "request details"
    [("header_json", header_json); ("body_len", pretty (length body));
     ("compressed_len", pretty (length compressed_body))];;
  resp ← context ("POST " +:+ url) (http_post (sync_post url header_json compressed_body));
  log Info "initial response status" [("status", status_display (resp_status resp))];;
  p ← (if is_redirection (resp_status resp) then
         log Info "got redirect response"
           [("status", status_display (resp_status resp)); ("headers", headers_debug (resp_headers resp))];;
         match header_get "location" resp ≫= header_to_str with
         | Some location =>
             let new_base := trim_end "/" location in
             let redirect_url := new_base +:+ "/sync/" +:+ method in
             let header_json2 := json_to_string header in
             log Info "following redirect to shard"
               [("redirect_url", redirect_url); ("header_json2", header_json2);
                ("compressed_len", pretty (length compressed_body))];;
             resp ← context ("POST " +:+ redirect_url +:+ " (redirect)")
                      (http_post (sync_post redirect_url header_json2 compressed_body));
             mret (resp, Some new_base)
         | None => mret (resp, None)
         end
       else mret (resp, None));
  let '(resp, new_endpoint) := p in
  read_reply method resp new_endpoint.

(** [map_err] to a [SyncError] of the error's message. *)
Definition map_sync_err {A} (f : string → SyncError) (m : M S A) : M S A := λ w,
  match m w with
  | (Err e, w) => (Err [sync_error_string (f (error_string e))], w)
  | p => p
  end.

Definition login (endpoint username password : string) : M S (string * string) :=
  session_key ← simple_session_id;
  let body := json_body (host_key_request username password) in
  result ← map_sync_err LoginFailed (sync_request endpoint "hostKey" "" session_key body);
  key ← context "parsing hostKey response" (from_slice host_key_of_json (data result));
  log Info "AnkiWeb login successful" [("resp", "HostKeyResponse { key: " +:+ debug_str key +:+ " }")];;
  mret (key, session_key).

(** [Instant::elapsed().as_millis() as i64] *)
Definition elapsed : M S Z :=
  n ← gets w_elapsed;
  modify tick_elapsed;;
  mret (as_i64 (elapsed_ms n)).

Definition sync_collection (config : SyncConfig) : M S SyncResult :=
  if bool_decide (cfg_username config = "") || bool_decide (cfg_password config = "")
  then fail [sync_error_string MissingCredentials]
  else
    let endpoint := default DEFAULT_ENDPOINT (cfg_endpoint config) in
    build_client;;
    '(hkey, session_key) ← login endpoint (cfg_username config) (cfg_password config);
    meta_result ← context "meta request failed"
      (sync_request endpoint "meta" hkey session_key (json_body meta_request));
    let endpoint := default endpoint (new_endpoint meta_result) in
    meta ← context "parsing meta response" (from_slice meta_of_json (data meta_result));
    (if bool_decide (server_message meta = "") then mret ()
     else log Info "AnkiWeb server message" [("message", server_message meta)]);;
    if empty_collection meta
    then fail [sync_error_string (DownloadFailed "server collection is empty")]
    else
      download_result ← map_sync_err DownloadFailed
        (sync_request endpoint "download" hkey session_key (bytes_of_string "{}"));
      let collection_bytes := data download_result in
      ms ← elapsed;
      log Info "Downloaded collection from AnkiWeb"
        [("bytes", pretty (length collection_bytes)); ("elapsed_ms", pretty ms)];;
      ms ← elapsed;
      mret {| collection_bytes := collection_bytes; sync_source_revision := None;
              sync_duration := ms |}.

Definition upload_collection (config : SyncConfig) (collection_bytes : bytes) : M S () :=
  if bool_decide (cfg_username config = "") || bool_decide (cfg_password config = "")
  then fail [sync_error_string MissingCredentials]
  else
    let endpoint := default DEFAULT_ENDPOINT (cfg_endpoint config) in
    build_client;;
    '(hkey, session_key) ← login endpoint (cfg_username config) (cfg_password config);
    meta_result ← context "meta request failed"
      (sync_request endpoint "meta" hkey session_key (json_body meta_request));
    let endpoint := default endpoint (new_endpoint meta_result) in
    context "upload request failed"
      (sync_request endpoint "upload" hkey session_key collection_bytes);;
    log Info "Uploaded collection to AnkiWeb" [("bytes", pretty (length collection_bytes))].
End sync.

(** ** Session identifiers determine the random number *)

Definition session_index (a : Ascii.ascii) : option Z :=
  (λ p : nat * Ascii.ascii, Z.of_nat p.1) <$> list_find (λ b, b = a) (String.list_ascii_of_string session_table).
Fixpoint session_value (s : string) : option Z :=
  match s with
  | EmptyString => Some 0%Z
  | String a s => d ← session_index a; v ← session_value s; Some (d + 62 * v)%Z
  end.
(** [char::is_ascii_alphanumeric] *)
Definition is_ascii_alphanumeric (a : Ascii.ascii) : bool :=
  let n := N_of_ascii a in
  ((48 <=? n) && (n <=? 57) || (65 <=? n) && (n <=? 90) || (97 <=? n) && (n <=? 122))%N.

Lemma session_char_spec i : (0 ≤ i < 62)%Z →
  session_index (session_char i) = Some i ∧ is_ascii_alphanumeric (session_char i) = true.
Proof.
  intros Hi.
  assert (Forall (λ k, session_index (session_char (Z.of_nat k)) = Some (Z.of_nat k) ∧
    is_ascii_alphanumeric (session_char (Z.of_nat k)) = true) (seq 0 62)) as Hall.
  { apply (bool_decide_unpack _). by vm_compute. }
  rewrite Forall_forall in Hall. specialize (Hall (Z.to_nat i)).
  rewrite Z2Nat.id in Hall by lia. apply Hall, elem_of_seq. lia.
Qed.

Lemma session_loop_spec fuel v : (0 ≤ v < 62 ^ Z.of_nat fuel)%Z →
  session_value (session_loop fuel v) = Some v ∧ String.length (session_loop fuel v) ≤ fuel ∧
  all_chars is_ascii_alphanumeric (session_loop fuel v) = true ∧
  ((0 < v)%Z → session_loop fuel v ≠ "").
Proof.
  revert v. induction fuel as [|fuel IH]; intros v Hv; cbn [session_loop].
  - rewrite Z.pow_0_r in Hv. assert (v = 0%Z) as -> by lia. split_and!; simpl; done || lia.
  - destruct (Z.ltb_spec 0 v).
    + assert (0 ≤ v mod 62 < 62)%Z as Hm by (apply Z.mod_pos_bound; lia).
      destruct (session_char_spec _ Hm) as [Hi Ha].
      rewrite Nat2Z.inj_succ, Z.pow_succ_r in Hv by lia.
      destruct (IH (v / 62)%Z) as (Hs & Hl & Hc & _).
      { split; [apply Z.div_pos; lia|]. apply Z.div_lt_upper_bound; lia. }
      cbn [session_value String.length all_chars]. rewrite Hi, Hs, Ha, Hc. split_and!; [|lia|done|done].
      simpl. f_equal. pose proof (Z.div_mod v 62). lia.
    + assert (v = 0%Z) as -> by lia. split_and!; simpl; done || lia.
Qed.

(** ** The protocol, without the program's plumbing *)

Section protocol.
Context `{!Env, !SerdeJson, !Zstd, !HttpCrates}.

(** The base URL a response redirects to. *)
Definition redirect_base (resp : HttpResponse) : option string :=
  if is_redirection (resp_status resp)
  then trim_end "/" <$> (header_get "location" resp ≫= header_to_str) else None.

(** The content of a reply: a successful status and a readable body,
    decompressed if it is a zstd frame. *)
Definition reply_data (resp : HttpResponse) : option bytes :=
  if is_success (resp_status resp) then
    match resp_body resp with
    | inr b => if decide (zstd_magic `prefix_of` b) then zstd_decode b else Some b
    | inl _ => None
    end
  else None.

Definition protocol_request (base method hkey sid : string) (compressed : bytes) : HttpRequest :=
  sync_post (trim_end "/" base +:+ "/sync/" +:+ method) (json_to_string (sync_header_json hkey sid))
    compressed.

(** One call: one request, or two when the first answer redirects to a shard.
    [n] is the number of requests before it. *)
Definition call (n : nat) (base method hkey sid : string) (body : bytes) :
    list HttpRequest * option (bytes * option string) :=
  match zstd_encode body with
  | None => ([], None)
  | Some compressed =>
      let req := protocol_request base method hkey sid compressed in
      match http_answer n req with
      | inl _ => ([req], None)
      | inr resp =>
          match redirect_base resp with
          | None => ([req], (λ d, (d, None)) <$> reply_data resp)
          | Some shard =>
              let req2 := sync_post (shard +:+ "/sync/" +:+ method)
                (json_to_string (sync_header_json hkey sid)) compressed in
              ([req; req2],
               match http_answer (S n) req2 with
               | inl _ => None
               | inr resp2 => (λ d, (d, Some shard)) <$> reply_data resp2
               end)
          end
      end
  end.

Definition parse_reply {A} (f : Json → option A) (b : bytes) : option A :=
  json_from_str (string_of_bytes b) ≫= f.

(** Log in, ask for the meta data, then make the call [method], at the shard if
    the meta call was redirected to one. *)
Definition session (n : nat) (cfg : SyncConfig) (sid method : string) (body : bytes)
    (go_on : bytes → bool) : list HttpRequest * option bytes :=
  let base := default DEFAULT_ENDPOINT (cfg_endpoint cfg) in
  let '(r1, o1) := call n base "hostKey" "" sid
    (json_body (host_key_request (cfg_username cfg) (cfg_password cfg))) in
  match o1 ≫= parse_reply host_key_of_json ∘ fst with
  | None => (r1, None)
  | Some key =>
      let '(r2, o2) := call (n + length r1) base "meta" key sid (json_body meta_request) in
      match o2 with
      | Some (d, shard) =>
          if go_on d then
            let '(r3, o3) := call (n + length r1 + length r2) (default base shard) method key sid body in
            (r1 ++ r2 ++ r3, fst <$> o3)
          else (r1 ++ r2, None)
      | None => (r1 ++ r2, None)
      end
  end.

(** A download goes on when the meta reply is readable and the server's
    collection is not empty; an upload in any case. *)
Definition meta_allows (d : bytes) : bool :=
  match parse_reply meta_of_json d with
  | Some meta => negb (empty_collection meta)
  | None => false
  end.
End protocol.

(** ** The program follows the protocol *)

(** Requests are sent, events logged and counters advanced; files, database, gate,
    clock and identifiers stay. *)
Definition net_only {S} (w w' : World S) : Prop :=
  w_fs w' = w_fs w ∧ w_db w' = w_db w ∧ w_gate w' = w_gate w ∧ w_clock w' = w_clock w ∧
  w_uuid w' = w_uuid w.
#[export] Instance net_only_preorder {S} : PreOrder (@net_only S).
Proof.
  split; [by intros w; repeat split|].
  intros w1 w2 w3 (?&?&?&?&?) (?&?&?&?&?). repeat split; congruence.
Qed.

Section follows.
Context {S : Type} `{!Env, !SerdeJson, !Zstd, !HttpCrates}.
Implicit Types w : World S.

(** A run sent [reqs], and its result is a value exactly when [o] is. *)
Definition followed {A B} (f : A → B → Prop) (reqs : list HttpRequest) (o : option B) w
    (r : Res A) (w' : World S) : Prop :=
  net_only w w' ∧ w_sent w' = w_sent w ++ reqs ∧
  match r with
  | Ok a => ∃ b, o = Some b ∧ f a b
  | Err _ => o = None
  | Panic _ => False
  end.

Lemma http_post_spec req w :
  wp (http_post req) (λ r w', w' = add_sent req w ∧
    match http_answer (length (w_sent w)) req with
    | inr resp => r = Ok resp
    | inl e => r = Err [e]
    end) w.
Proof.
  unfold http_post. wp_steps. cbn beta. destruct (http_answer _ req); by wp_steps.
Qed.

Lemma read_reply_spec method resp ne w :
  wp (read_reply method resp ne) (λ r w', net_only w w' ∧ w_sent w' = w_sent w ∧
    match r with
    | Ok res => reply_data resp = Some (data res) ∧ new_endpoint res = ne
    | Err _ => reply_data resp = None
    | Panic _ => False
    end) w.
Proof.
  unfold read_reply, reply_data. destruct (is_success _); simpl.
  2: { wp_steps. by repeat split. }
  destruct (resp_body resp) as [e|b]; wp_steps; [by repeat split|].
  case_decide; [|wp_steps; by repeat split]. unfold zstd_decompress. wp_steps.
  destruct (zstd_decode b); wp_steps; by repeat split.
Qed.

Lemma sync_request_spec endpoint method hkey sid body w reqs o :
  call (length (w_sent w)) endpoint method hkey sid body = (reqs, o) →
  wp (sync_request endpoint method hkey sid body)
    (followed (λ res p, p = (data res, new_endpoint res)) reqs o w) w.
Proof.
  unfold call, sync_request, protocol_request, method_url, zstd_compress. cbv zeta.
  destruct (zstd_encode body) as [compressed|]; intros Hcall.
  2: { wp_steps. simplify_eq. split_and!; [by repeat split|by rewrite app_nil_r|done]. }
  wp_steps. revert Hcall. set (req := sync_post _ _ _). intros Hcall.
  assert (∀ resp ne reqs w1, net_only w w1 → w_sent w1 = w_sent w ++ reqs →
    wp (read_reply method resp ne) (followed (λ res p, p = (data res, new_endpoint res)) reqs
      ((λ d, (d, ne)) <$> reply_data resp) w) w1) as Htail.
  { intros resp ne reqs' w1 Hn Hs. eapply wp_mono; [apply read_reply_spec|].
    intros r w2 (Hn2 & Hs2 & Hr). split_and!; [by etrans|congruence|].
    destruct r as [res|e|]; [|by rewrite Hr|done]. destruct Hr as [-> <-]. by eexists. }
  eapply wp_mono; [apply http_post_spec|]. cbn [w_sent add_log].
  intros r w1 [-> Hr]. destruct (http_answer _ req) as [e|resp]; subst r; wp_steps.
  { simplify_eq. by repeat split. }
  unfold redirect_base in Hcall. destruct (is_redirection _); wp_steps; [|simplify_eq; by apply Htail].
  destruct (_ ≫= _) as [loc|]; simpl in Hcall; wp_steps; [|simplify_eq; by apply Htail].
  set (req2 := sync_post (trim_end "/" loc +:+ _) _ _) in *. eapply wp_mono; [apply http_post_spec|].
  assert (length (w_sent w ++ [req]) = Datatypes.S (length (w_sent w))) as Hlen.
  { rewrite length_app. simpl. lia. }
  cbn [w_sent add_log add_sent]. intros r w1 [-> Hr]. rewrite Hlen in Hr.
  destruct (http_answer (Datatypes.S _) req2) as [e|resp2]; subst r; wp_steps; simplify_eq.
  - split_and!; [by repeat split| |done]. cbn [w_sent add_log add_sent]. by rewrite <- app_assoc.
  - apply Htail; [by repeat split|]. cbn [w_sent add_log add_sent]. by rewrite <- app_assoc.
Qed.

Lemma map_sync_err_spec {A} f (m : M S A) (Q : Res A → World S → Prop) w :
  wp m (λ r w', match r with
                | Err e => Q (Err [sync_error_string (f (error_string e))]) w'
                | r => Q r w'
                end) w →
  wp (map_sync_err f m) Q w.
Proof. unfold wp, map_sync_err. by destruct (m w) as [[] ?]. Qed.

Definition sid_at w : string := session_id_of (random_u32 (w_random w)).

Lemma login_spec base user pass w reqs o :
  call (length (w_sent w)) base "hostKey" "" (sid_at w) (json_body (host_key_request user pass)) =
    (reqs, o) →
  wp (login base user pass)
    (followed (λ p k, p = (k, sid_at w)) reqs (o ≫= parse_reply host_key_of_json ∘ fst) w) w.
Proof.
  intros Hcall. unfold login, simple_session_id. wp_steps. apply map_sync_err_spec.
  eapply wp_mono; [by apply sync_request_spec|]. intros r w1 (Hn & Hs & Hr).
  destruct r as [res|e|]; wp_steps; [| |done].
  2: { split_and!; [by etrans|done|]. by subst o. }
  destruct Hr as (b & -> & ->). simpl. unfold from_slice, parse_reply. wp_steps.
  destruct (_ ≫= _) as [key|]; wp_steps; (split_and!; [by etrans|done|]); [by eexists|done].
Qed.

(** The part both operations share: log in and ask for the meta data. *)
Lemma context_spec {A B} (f : A → B → Prop) msg (m : M S A) reqs o w0 w :
  wp m (followed f reqs o w0) w → wp (context msg m) (followed f reqs o w0) w.
Proof. intros Hm. apply wp_context. eapply wp_mono; [done|]. by intros [] w'. Qed.

Lemma followed_step {A B} (f : A → B → Prop) w0 w1 r1 reqs o r w' :
  net_only w0 w1 → w_sent w1 = w_sent w0 ++ r1 → followed f reqs o w1 r w' →
  followed f (r1 ++ reqs) o w0 r w'.
Proof.
  intros Hn Hs (Hn' & Hs' & Hr). split_and!; [by etrans| |done].
  by rewrite Hs', Hs, app_assoc.
Qed.

Lemma session_start {B} (f : B → bytes → Prop) cfg method body go_on
    (K : string → string → SyncRequestResult → M S B) reqs o w :
  let base := default DEFAULT_ENDPOINT (cfg_endpoint cfg) in
  session (length (w_sent w)) cfg (sid_at w) method body go_on = (reqs, o) →
  (∀ key res w2 r3 o3,
    call (length (w_sent w2)) (default base (new_endpoint res)) method key (sid_at w) body = (r3, o3) →
    wp (K key (sid_at w) res) (followed f (if go_on (data res) then r3 else [])
      (if go_on (data res) then fst <$> o3 else None) w2) w2) →
  wp ('(hkey, session_key) ← login base (cfg_username cfg) (cfg_password cfg);
      meta_result ← context "meta request failed"
        (sync_request base "meta" hkey session_key (json_body meta_request));
      K hkey session_key meta_result) (followed f reqs o w) w.
Proof.
  intros base Hses HK. unfold session in Hses. cbv zeta in Hses. fold base in Hses. wp_steps.
  destruct (call (length (w_sent w)) base "hostKey" _ _ _) as [r1 o1] eqn:Hc1.
  eapply wp_mono; [by apply login_spec|]. intros r w1 (Hn1 & Hs1 & Hr1).
  destruct r as [p|e|]; cbn [bind_post]; [| |done].
  2: { rewrite Hr1 in Hses. by simplify_eq. }
  destruct Hr1 as (key & Hkey & ->). rewrite Hkey in Hses.
  assert (length (w_sent w) + length r1 = length (w_sent w1)) as Hl1 by (by rewrite Hs1, length_app).
  rewrite Hl1 in Hses. destruct (call _ base "meta" _ _ _) as [r2 o2] eqn:Hc2.
  apply wp_bind. eapply wp_mono; [eapply context_spec; by apply sync_request_spec|].
  intros r w2 (Hn2 & Hs2 & Hr2). assert (net_only w w2) by (by etrans).
  assert (w_sent w2 = w_sent w ++ r1 ++ r2) as Hsent by (by rewrite Hs2, Hs1, app_assoc).
  destruct r as [res|e|]; cbn [bind_post]; [| |done].
  2: { subst o2. by simplify_eq. }
  destruct Hr2 as (b & -> & ->).
  assert (length (w_sent w1) + length r2 = length (w_sent w2)) as Hl2 by (by rewrite Hs2, length_app).
  rewrite Hl2 in Hses. destruct (call _ _ method _ _ _) as [r3 o3] eqn:Hc3.
  eapply wp_mono; [by eapply HK|]. intros r w3 Hf.
  replace reqs with ((r1 ++ r2) ++ (if go_on (data res) then r3 else [])).
  2: { destruct (go_on _); simplify_eq; by rewrite ?app_assoc, ?app_nil_r. }
  replace o with (if go_on (data res) then fst <$> o3 else None) by (destruct (go_on _); by simplify_eq).
  by eapply followed_step.
Qed.

(** A download follows the protocol. *)
Lemma sync_collection_spec cfg w reqs o :
  cfg_username cfg ≠ "" → cfg_password cfg ≠ "" → fault (w_io w) = None →
  session (length (w_sent w)) cfg (sid_at w) "download" (bytes_of_string "{}") meta_allows = (reqs, o) →
  wp (sync_collection cfg)
    (followed (λ res b, collection_bytes res = b ∧ is_i64 (sync_duration res)) reqs o w) w.
Proof.
  intros Hu Hp Hf Hses. unfold sync_collection, build_client.
  rewrite !bool_decide_false by done. cbv zeta. cbn [orb]. wp_steps. rewrite Hf. cbn [bind_post].
  apply (session_start (λ res b, collection_bytes res = b ∧ is_i64 (sync_duration res)) cfg "download" (bytes_of_string "{}")
    meta_allows _ reqs o (tick_io w)); [done|].
  intros key res w2 r3 o3 Hcall. unfold meta_allows, parse_reply, from_slice. wp_steps.
  destruct (_ ≫= _) as [meta|]; wp_steps; [|split_and!; [done|by rewrite app_nil_r|done]].
  case_bool_decide; (destruct (empty_collection meta); wp_steps;
    [split_and!; [done|by rewrite app_nil_r|done]|]);
    apply map_sync_err_spec; (eapply wp_mono; [by apply sync_request_spec|]);
    intros r w3 (Hn & Hs & Hr); (destruct r as [d|e|]; unfold elapsed; wp_steps; [| |done]);
    (split_and!; [by etrans|done|]); try (by subst o3);
    destruct Hr as (p & -> & ->); eexists; (split_and!; [done|done|apply as_i64_range]).
Qed.

(** So does an upload. *)
Lemma upload_collection_spec cfg b w reqs o :
  cfg_username cfg ≠ "" → cfg_password cfg ≠ "" → fault (w_io w) = None →
  session (length (w_sent w)) cfg (sid_at w) "upload" b (λ _, true) = (reqs, o) →
  wp (upload_collection cfg b) (followed (λ _ _, True) reqs o w) w.
Proof.
  intros Hu Hp Hf Hses. unfold upload_collection, build_client.
  rewrite !bool_decide_false by done. cbv zeta. cbn [orb]. wp_steps. rewrite Hf. cbn [bind_post].
  apply (session_start (λ _ _, True) cfg "upload" b (λ _, true) _ reqs o (tick_io w)); [done|].
  intros key res w2 r3 o3 Hcall. wp_steps. eapply wp_mono; [by apply sync_request_spec|].
  intros r w3 (Hn & Hs & Hr). destruct r as [d|e|]; wp_steps; [| |done];
    (split_and!; [by etrans|done|]); [|by subst o3].
  destruct Hr as (p & -> & ->). by eexists.
Qed.

(** Without credentials nothing is sent. *)
Lemma missing_credentials cfg b w :
  cfg_username cfg = "" ∨ cfg_password cfg = "" →
  sync_collection cfg w = (Err [sync_error_string MissingCredentials], w) ∧
  upload_collection cfg b w = (Err [sync_error_string MissingCredentials], w).
Proof.
  intros Hm. unfold sync_collection, upload_collection.
  assert (bool_decide (cfg_username cfg = "") || bool_decide (cfg_password cfg = "") = true) as ->; [|done].
  apply orb_true_iff. by destruct Hm; [left|right]; apply bool_decide_eq_true.
Qed.

(** A download in every outcome. *)
Lemma sync_outcomes cfg w :
  wp (sync_collection cfg) (λ r w', net_only w w' ∧ ∃ reqs, w_sent w' = w_sent w ++ reqs ∧
    match r with
    | Ok res => is_i64 (sync_duration res) ∧ session (length (w_sent w)) cfg (sid_at w) "download"
        (bytes_of_string "{}") meta_allows = (reqs, Some (collection_bytes res))
    | Err _ => True
    | Panic _ => False
    end) w.
Proof.
  destruct (decide (cfg_username cfg = "" ∨ cfg_password cfg = "")) as [Hm|Hm].
  { unfold wp. rewrite (proj1 (missing_credentials cfg [] w Hm)). split; [done|]. exists [].
    by rewrite app_nil_r. }
  destruct (fault (w_io w)) as [f|] eqn:Hf.
  { unfold sync_collection, build_client. rewrite !bool_decide_false by tauto. simpl. wp_steps.
    rewrite Hf. wp_steps. split; [done|]. exists []. by rewrite app_nil_r. }
  destruct (session _ cfg _ "download" _ meta_allows) as [reqs o] eqn:Hses.
  eapply wp_mono; [apply sync_collection_spec; [tauto|tauto|done..]|].
  intros r w' (Hn & Hs & Hr). split; [done|]. exists reqs. split; [done|].
  destruct r as [res|e|]; [|done..]. by destruct Hr as (b & -> & <- & ?).
Qed.

(** An upload in every outcome: requests are only added, and a success is a
    complete protocol run. *)
Lemma upload_outcomes cfg b w :
  wp (upload_collection cfg b) (λ r w', net_only w w' ∧ ∃ reqs, w_sent w' = w_sent w ++ reqs ∧
    match r with
    | Ok _ => ∃ reply, session (length (w_sent w)) cfg (sid_at w) "upload" b (λ _, true) = (reqs, Some reply)
    | Err _ => True
    | Panic _ => False
    end) w.
Proof.
  destruct (decide (cfg_username cfg = "" ∨ cfg_password cfg = "")) as [Hm|Hm].
  { unfold wp. rewrite (proj2 (missing_credentials cfg b w Hm)). split; [done|]. exists [].
    by rewrite app_nil_r. }
  destruct (fault (w_io w)) as [f|] eqn:Hf.
  { unfold upload_collection, build_client. rewrite !bool_decide_false by tauto. simpl. wp_steps.
    rewrite Hf. wp_steps. split; [done|]. exists []. by rewrite app_nil_r. }
  destruct (session (length (w_sent w)) cfg (sid_at w) "upload" b (λ _, true)) as [reqs o] eqn:Hses.
  eapply wp_mono; [apply upload_collection_spec; [tauto|tauto|done..]|].
  intros r w' (Hn & Hs & Hr). split; [done|]. exists reqs. split; [done|].
  destruct r as [[]|e|]; [|done..]. destruct Hr as (reply & -> & _). by exists reply.
Qed.
End follows.
