(* ===== verification/UnitTests.v ===== *)
(** * The repository's unit tests

    The tests inside [crates/storage/src/repository.rs], [crates/sync/src/lib.rs]
    and [crates/core/src/hash.rs] as programs over the model, and that they pass:
    not on one machine, but for every clock, every identifier generator, every store
    or directory they may start from, when nothing fails.  The collection that is
    backed up is a parameter here; the one of the tests is in [Sample.v]. *)

From S2P Require Import Prelude Calendar World Crates Core Sha256 Store Sqlite Stats Repository.
From S2P Require Import RepositoryInv RepositoryThms RepositoryOps History Sync.

Section harness.
Context {S : Type}.

(** [Result::unwrap]. *)
Definition unwrap {A} (m : M S A) : M S A := λ w,
  match m w with
  | (Err e, w') => (Panic ("called `Result::unwrap()` on an `Err` value: " +:+ error_string e), w')
  | r => r
  end.
(** [Result::unwrap_err]. *)
Definition unwrap_err {A} (m : M S A) : M S Error :=
  r ← attempt m;
  match r with inl e => mret e | inr _ => panic "called `Result::unwrap_err()` on an `Ok` value" end.
Definition assert_that (b : bool) : M S () := if b then mret () else panic "assertion failed".

Lemma wp_unwrap {A} (m : M S A) (Q : Res A → World S → Prop) w :
  wp m (λ r w', (∃ a, r = Ok a) ∧ Q r w') w → wp (unwrap m) Q w.
Proof. unfold wp, unwrap. destruct (m w) as [r w']. cbn. intros [[a ->] HQ]. exact HQ. Qed.
Lemma wp_assert_that (b : bool) (Q : Res () → World S → Prop) w : b = true → Q (Ok ()) w → wp (assert_that b) Q w.
Proof. by intros ->. Qed.
End harness.

(** ** [run_once_create_then_skip] *)

Section tests.
Context {S : Type} `{!Env, !Chrono, !UuidCrate, !SerdeJson, !HashCrates, !SqlEngine, !CollectionFile}.
Context `{!MetadataStore S, !StoreOpen S}.
Context (root : Path) (sample_collection : bytes).

Definition test_payload : BackupPayload := {|
  payload_bytes := sample_collection;
  payload_source_revision := None;
  payload_sync_duration_ms := Some 1%Z;
|}.
Definition is_created (o : RunOnceOutcome) : bool := match o with RCreated _ => true | RSkipped _ => false end.
Definition is_skipped (o : RunOnceOutcome) : bool := match o with RCreated _ => false | RSkipped _ => true end.

Definition run_once_create_then_skip : M S () :=
  unwrap (open_repository root store_new);;
  let hash := content_hash sample_collection in
  first ← unwrap (run_once root test_payload hash);
  assert_that (is_created first);;
  second ← unwrap (run_once root test_payload hash);
  assert_that (is_skipped second).
End tests.

(** ** An empty directory *)

Section fresh.
Context {S : Type} `{!Env, !Chrono, !UuidCrate, !SerdeJson, !HashCrates, !SqlEngine, !CollectionFile}.
Context `{!MetadataStore S, !StoreModel S, !StoreOpen S}.
Context `{!ChronoLaws, !SqlEngineLaws, !CollectionFileLaws, !StoreLaws S, !StoreOpenLaws S}.
Context (hash : bytes → string) (root : Path).
Implicit Types w : World S.

Abbreviation entries w := (st_entries (w_db w)).

(** Nothing is below the root, and no file is in the way to it. *)
Definition empty_root (fs : FS) : Prop :=
  (∀ q, below root q → q ≠ root → fs !! q = None) ∧
  (∀ q b, q `prefix_of` root → fs !! q ≠ Some (File b)).
(** An empty directory and a database without rows. *)
Definition blank w : Prop :=
  empty_root (w_fs w) ∧ entries w = [] ∧ st_wf (migrate (w_db w)).

Lemma prefix_snoc_cases (q p : Path) c : q `prefix_of` p ++ [c] → q `prefix_of` p ∨ q = p ++ [c].
Proof.
  intros [k Hk]. destruct k as [|x k _] using rev_ind.
  - right. by rewrite app_nil_r in Hk.
  - left. exists k. rewrite app_assoc in Hk. by apply app_inj_tail in Hk as [-> _].
Qed.
Lemma empty_no_file fs q c b : empty_root fs → q `prefix_of` root ++ [c] → fs !! q ≠ Some (File b).
Proof.
  intros [He Hf] [Hq| ->]%prefix_snoc_cases; [by apply Hf|].
  rewrite He; [done|by exists [c]|]. intros Heq%(f_equal length). rewrite length_app in Heq. simpl in Heq. lia.
Qed.

(** Opened, the directory is ready for a backup of any name. *)
Lemma open_blank w :
  fault_free → blank w →
  wp (open_repository root store_new) (λ r w', r = Ok () ∧ repo_inv hash root w' ∧ entries w' = [] ∧
    quiet w w' ∧ st_events (w_db w') = st_events (w_db w) ∧ tidy root (w_fs w')) w.
Proof.
  intros Hff (Hempty & He & Hwf).
  assert (backups_dir root = root ++ ["backups"]) as Hbd by (apply join_name; by vm_compute).
  pose proof (state_dir_eq root) as Hsd.
  assert (∀ q k, length root + 2 ≤ length q → q = root ++ k →
    ¬ q `prefix_of` backups_dir root ∧ ¬ q `prefix_of` state_dir root ∧ w_fs w !! q = None) as Hlong.
  { intros q k Hq ->. rewrite Hbd, Hsd. split_and!.
    - intros Hp%prefix_length. rewrite (length_app root ["backups"]) in Hp. simpl in Hp. lia.
    - intros Hp%prefix_length. rewrite (length_app root ["state"]) in Hp. simpl in Hp. lia.
    - apply Hempty; [by exists k|]. intros Heq. rewrite Heq in Hq. lia. }
  assert (∀ q b, q `prefix_of` backups_dir root ∨ q `prefix_of` state_dir root →
    w_fs w !! q ≠ Some (File b)) as Hfile.
  { intros q b [Hq|Hq]; [rewrite Hbd in Hq|rewrite Hsd in Hq]; by eapply empty_no_file. }
  eapply wp_mono; [exact (wp_and _ _ _ _ (open_repository_spec root w)
    (open_repository_total root w Hff Hfile))|].
  intros r w' [(Hq & Ha & Hptr & _ & _ & Hr) [-> Hsame]]. destruct Hr as [Hdb Hst].
  assert (∀ q k, length root + 2 ≤ length q → q = root ++ k → w_fs w' !! q = None) as Hnone.
  { intros q k Hl Hk. destruct (Hlong q k Hl Hk) as (Hb & Hs & Hn). by rewrite Hsame. }
  assert (entries w' = []) as He' by (by rewrite Hdb, migrate_entries).
  split_and!; [done| |done|done|by rewrite Hdb, migrate_events|].
  - split; rewrite ?He', ?Hdb; [done|by intros e ?%elem_of_nil|by intros e1 e2 ?%elem_of_nil|].
    left. apply (Hnone _ ["state"; "current-pointer.json"]); rewrite pointer_path_eq; [rewrite length_app; simpl; lia|done].
  - intros dir Hn. split.
    + split_and!; [done| |].
      * rewrite (Hnone _ ["state"; "current-pointer.json.tmp"]);
          rewrite ?pointer_tmp_eq; [done|rewrite length_app; simpl; lia|done].
      * rewrite (Hnone _ ["state"; "current-pointer.json"]);
          rewrite ?pointer_path_eq; [done|rewrite length_app; simpl; lia|done].
    + intros q b Hqp Hf. rewrite backup_dir_eq in Hqp by done.
      destruct (Ha q) as [Heq|[_ Hd]]; [|congruence]. rewrite Heq in Hf.
      change ["backups"; dir] with (["backups"] ++ [dir]) in Hqp. rewrite app_assoc in Hqp.
      apply prefix_snoc_cases in Hqp as [Hqp| ->]; [by eapply empty_no_file|].
      rewrite <- app_assoc in Hf. destruct Hempty as [Hempty _]. rewrite Hempty in Hf; [done|by eexists|].
      intros Heq'%(f_equal length). rewrite length_app in Heq'. simpl in Heq'. lia.
    + rewrite (Hnone _ ["backups"; dir; "collection.anki2"]);
        rewrite ?payload_path_eq by done; [done|rewrite length_app; simpl; lia|done].
    + rewrite (Hnone _ ["backups"; dir; "metadata.json"]);
        rewrite ?metadata_path_eq by done; [done|rewrite length_app; simpl; lia|done].
Qed.

(** The first backup of a repository is created. *)
Lemma first_backup w payload h :
  fault_free → repo_inv hash root w → entries w = [] → uuids_ok → rfc3339_range (clock (w_clock w)) →
  tidy root (w_fs w) → payload_ok payload →
  hash (payload_bytes payload) = h → collection_valid (payload_bytes payload) →
  wp (run_once root payload h) (λ r w', quiet w w' ∧ repo_inv hash root w' ∧
    ∃ e, r = Ok (RCreated e) ∧ created_post root w w' payload h e ∧
      st_events (w_db w') = st_events (w_db w) ∧ tidy root (w_fs w')) w.
Proof.
  intros Hff Hinv He Huu Ht Hdisk Hpl Hh Hval.
  assert (dir_unused (format_timestamp_dir (clock (w_clock w))) (entries w)) as Hu
    by (rewrite He; by intros e ?%elem_of_nil).
  eapply wp_mono; [apply wp_and; [by apply (run_once_spec hash)|apply run_once_changed; try done]|].
  - apply Hinv.
  - intros l (Hl & _). rewrite He in Hl. by apply elem_of_nil in Hl.
  - by apply Hdisk, format_timestamp_dir_name.
  - intros n _. rewrite He. apply not_elem_of_nil.
  - intros r w' [(Hq & Hinv' & _ & _) (e & -> & _ & _ & Hev & Htidy & Hpost)].
    split; [done|]. split; [done|]. exists e. split_and!; auto.
Qed.
End fresh.

Section create_then_skip.
Context {S : Type} `{!Env, !Chrono, !UuidCrate, !SerdeJson, !HashCrates, !SqlEngine, !CollectionFile}.
Context `{!MetadataStore S, !StoreModel S, !StoreOpen S}.
Context `{!ChronoLaws, !SqlEngineLaws, !CollectionFileLaws, !StoreLaws S, !StoreOpenLaws S}.
Context (root : Path) (sample_collection : bytes).
Implicit Types w : World S.

(** The identifier of the first backup is not drawn again. *)
Definition uuids_new w : Prop := ∀ w1 w2 e,
  open_repository root store_new w = (Ok (), w1) →
  run_once root (test_payload sample_collection) (content_hash sample_collection) w1 =
    (Ok (RCreated e), w2) → uuids_unused w2.

Lemma create_then_skip_passes w :
  fault_free → blank root w → uuids_ok → uuids_new w → (∀ n, rfc3339_range (clock n)) →
  collection_valid sample_collection →
  wp (run_once_create_then_skip root sample_collection) (λ r _, r = Ok ()) w.
Proof.
  intros Hff Hblank Huu Hnew Hclk Hval. unfold run_once_create_then_skip. cbv zeta.
  set (p := test_payload sample_collection). set (h := content_hash sample_collection).
  assert (payload_ok p) as Hpl by (by intros d [= <-]).
  wp_steps. apply wp_unwrap. pose proof (open_blank content_hash root w Hff Hblank) as Hopen.
  unfold wp in Hopen. destruct (open_repository root store_new w) as [r w1] eqn:Hrun1.
  unfold wp at 1. rewrite Hrun1. cbn [fst snd] in *. destruct Hopen as (-> & Hinv1 & He1 & _ & _ & Hdisk).
  split; [by eexists|]. wp_steps.
  apply wp_unwrap. pose proof (first_backup content_hash root w1 p h Hff Hinv1 He1 Huu (Hclk _) Hdisk
    Hpl eq_refl Hval) as Hfirst. unfold wp in Hfirst.
  destruct (run_once root p h w1) as [r w2] eqn:Hrun. unfold wp at 1. rewrite Hrun. cbn [fst snd] in *.
  destruct Hfirst as (_ & Hinv2 & e & -> & Hpost & _). split; [by eexists|]. wp_steps.
  apply wp_assert_that; [done|]. wp_steps. apply wp_unwrap.
  assert (up_to_date h (st_entries (w_db w2))) as Hup.
  { eapply created_up_to_date; [done|]. rewrite He1. by intros e' ?%elem_of_nil. }
  eapply wp_mono; [apply wp_and; [by apply (run_once_up_to_date content_hash)|
    apply (run_once_skip_total content_hash); try done; by eapply Hnew]|].
  intros r w3 [(_ & _ & Hr) [o ->]]. split; [by eexists|]. wp_steps. destruct o as [e'|e']; [done|].
  by apply wp_assert_that.
Qed.
End create_then_skip.

(** ** [prune_retention_deletes_old_created_backups] *)

Section prune_test.
Context `{!Env, !Chrono, !UuidCrate, !SerdeJson, !SqlEngine, !CollectionFile}.
Context (root : Path) (sample_collection : bytes).

(** [UPDATE backups SET created_at = ?1 WHERE id = ?2]. *)
Definition with_created_at (t : string) (row : SqliteRow) : SqliteRow := {|
  r_id := r_id row; r_created_at := t; r_timestamp_dir := r_timestamp_dir row;
  r_content_hash := r_content_hash row; r_status := r_status row;
  r_skip_reason := r_skip_reason row; r_source_revision := r_source_revision row;
  r_sync_duration_ms := r_sync_duration_ms row; r_size_bytes := r_size_bytes row;
  r_stats_json := r_stats_json row;
|}.
Definition update_created_at (t i : string) : M SqliteDb () :=
  rows ← backups_table;
  modify (λ w, set_db (set_backups ((λ row, if decide (r_id row = i) then with_created_at t row else row)
    <$> rows) (w_db w)) w).

Definition prune_retention_deletes_old_created_backups : M SqliteDb () :=
  unwrap (open_repository root sqlite_new);;
  outcome ← unwrap (run_once root (test_payload sample_collection) "hash1");
  match outcome with
  | RSkipped _ => panic "expected created backup"
  | RCreated created =>
      unwrap io_step;;
      t ← now;
      match duration_days 400 ≫= datetime_sub t with
      | None => panic "DateTime - TimeDelta overflowed"
      | Some old =>
          unwrap (update_created_at (to_rfc3339 old) (uuid_to_string (id created)));;
          removed ← unwrap (prune_created_older_than_days root 90);
          assert_that (bool_decide (removed = 1));;
          remaining ← unwrap repo_list_backups;
          assert_that (bool_decide (remaining = []));;
          there ← fs_exists (backup_dir root (timestamp_dir created));
          assert_that (negb there)
      end
  end.

Context `{!ChronoLaws, !UuidLaws, !SerdeJsonLaws, !SqlEngineLaws, !CollectionFileLaws}.
Implicit Types w : World SqliteDb.

Abbreviation entries w := (st_entries (w_db w)).

(** An entry with another time. *)
Definition redated (t : DateTime) (e : BackupEntry) : BackupEntry := {|
  id := id e; created_at := t; timestamp_dir := timestamp_dir e; content_hash_of := content_hash_of e;
  status := status e; skip_reason := skip_reason e; source_revision := source_revision e;
  sync_duration_ms := sync_duration_ms e; size_bytes := size_bytes e; stats := stats e;
|}.

(** The update of the only row. *)
Lemma update_created_at_only hash old e w :
  fault_free → repo_inv hash root w → entries w = [e] → rfc3339_range old →
  wp (update_created_at (to_rfc3339 old) (uuid_to_string (id e))) (λ r w', r = Ok () ∧
    repo_inv hash root w' ∧ entries w' = [redated old e] ∧ w_fs w' = w_fs w ∧
    w_clock w' = w_clock w) w.
Proof.
  intros Hff Hinv He Hold. pose proof Hinv as [Hwf Hf Hd Hp].
  pose proof (st_wf_rows _ Hwf) as (Hrows & Hok & Hnd). rewrite He in Hrows, Hok. simpl in Hrows.
  unfold update_created_at, backups_table. wp_steps. rewrite Hff. wp_steps. cbn [w_db tick_io].
  rewrite Hrows. wp_steps.
  assert (entry_ok (redated old e)) as Hok'.
  { apply Forall_singleton in Hok as (?&?&?&?&?). by split_and!. }
  set (db := set_backups _ _).
  assert (sqlite_rows db [redated old e]) as Hr.
  { split_and!; [|by constructor|by apply NoDup_singleton]. cbn. by rewrite decide_True. }
  assert (st_entries db = [redated old e]) as He' by (by apply sqlite_rows_entries).
  split_and!; [done| |exact He'|done|done].
  split; cbn [w_db w_fs set_db tick_io]; rewrite ?He'; [| | |done].
  - split; [by eexists|]. destruct Hwf as [_ Hev]. exact Hev.
  - rewrite He in Hf. intros x Hx Hc. apply list_elem_of_singleton in Hx as ->.
    exact (Hf e ltac:(by apply list_elem_of_singleton) Hc).
  - intros e1 e2 ->%list_elem_of_singleton ->%list_elem_of_singleton. done.
Qed.

(** Pruning and listing, once the row is old. *)
Lemma prune_old {B} hash old e (k : list BackupEntry → M SqliteDb B) (Q : Res B → World SqliteDb → Prop) w :
  fault_free → repo_inv hash root w → entries w = [redated old e] → status e = Created →
  w_fs w !! backup_dir root (timestamp_dir e) = Some Dir →
  rfc3339_range (clock (w_clock w)) → rfc3339_range (retention_cutoff (clock (w_clock w)) 90) →
  (old < retention_cutoff (clock (w_clock w)) 90)%Z →
  (∀ w', w_fs w' !! backup_dir root (timestamp_dir e) = None → wp (k []) Q w') →
  wp (removed ← unwrap (prune_created_older_than_days root 90);
      assert_that (bool_decide (removed = 1));;
      remaining ← unwrap repo_list_backups;
      k remaining) Q w.
Proof.
  intros Hff Hinv He Hst Hdir Ht Hcut Hold Hk. wp_steps. apply wp_unwrap.
  eapply wp_mono; [apply wp_and; [by apply (prune_spec hash)|apply (prune_total hash); try done]|].
  { intros x b. rewrite He. intros ->%list_elem_of_singleton. simpl. by rewrite Hdir. }
  intros r w1 [(_ & Hinv1 & gone & Hpost & Hr) [n ->]]. split; [by eexists|]. wp_steps.
  destruct Hr as (-> & Hgone & Hrem). rewrite He in Hgone.
  rewrite filter_cons_True, filter_nil in Hgone by (by split). subst gone.
  apply wp_assert_that; [done|]. wp_steps. apply wp_unwrap.
  assert (entries w1 = []) as He1.
  { pose proof (pp_entries _ _ _ _ _ Hpost) as Hp. rewrite He in Hp.
    apply Permutation_length in Hp. rewrite length_app in Hp. cbn [length] in Hp.
    apply nil_length_inv. lia. }
  unfold repo_list_backups.
  eapply wp_mono; [apply wp_and; [by apply list_backups_law, Hinv1|by apply list_backups_total; [apply Hinv1|]]|].
  intros r w2 [(Hdo & _ & Hl) [l ->]]. split; [by eexists|]. cbn [bind_post]. destruct Hl as [Hl _].
  rewrite He1 in Hl. apply Permutation_nil_r in Hl as ->. apply Hk.
  assert (w_fs w2 = w_fs w1) as -> by apply Hdo.
  apply (Hrem Hff (redated old e)); [left|done|by exists []; rewrite app_nil_r].
Qed.

(** Setting the only row back by [days], then pruning and listing. *)
Definition backdate_and_prune {B} (days : Z) (e : BackupEntry) (k : list BackupEntry → M SqliteDb B) :
    M SqliteDb B :=
  unwrap io_step;;
  t ← now;
  match duration_days days ≫= datetime_sub t with
  | None => panic "DateTime - TimeDelta overflowed"
  | Some old =>
      unwrap (update_created_at (to_rfc3339 old) (uuid_to_string (id e)));;
      removed ← unwrap (prune_created_older_than_days root 90);
      assert_that (bool_decide (removed = 1));;
      remaining ← unwrap repo_list_backups;
      k remaining
  end.
Lemma wp_backdate_and_prune {B} hash days e (k : list BackupEntry → M SqliteDb B)
    (Q : Res B → World SqliteDb → Prop) w :
  fault_free → repo_inv hash root w → entries w = [e] → status e = Created →
  w_fs w !! backup_dir root (timestamp_dir e) = Some Dir →
  (∀ n, rfc3339_range (clock n)) → (∀ n m, n ≤ m → (clock n ≤ clock m)%Z) → (90 < days)%Z →
  (∀ n, rfc3339_range (retention_cutoff (clock n) days)) →
  (∀ w', w_fs w' !! backup_dir root (timestamp_dir e) = None → wp (k []) Q w') →
  wp (backdate_and_prune days e k) Q w.
Proof.
  intros Hff Hinv He Hst Hdir Hclk Hmono Hdays Hcut Hk. unfold backdate_and_prune. wp_steps. apply wp_unwrap.
  unfold io_step. wp_steps. rewrite Hff. wp_steps. split; [by eexists|]. wp_steps.
  destruct (cutoff_computed (clock (w_clock w)) days (Hclk _) (Hcut _) ltac:(lia)) as (d & Hd & Hsub).
  cbn [w_clock tick_io]. rewrite Hd. cbn [mbind option_bind]. rewrite Hsub. wp_steps. apply wp_unwrap.
  eapply wp_mono; [apply (update_created_at_only hash _ e); try done|].
  { by eapply repo_inv_same; [..|exact Hinv]. }
  intros r w3 (-> & Hinv3 & He3 & Hfs3 & Hc3). split; [by eexists|]. cbn [bind_post].
  cbn [w_fs w_clock tick_io tick_clock] in Hfs3, Hc3.
  assert (rfc3339_range (retention_cutoff (clock (w_clock w3)) 90)) as Hcut90.
  { specialize (Hcut (w_clock w3)). specialize (Hclk (w_clock w3)).
    unfold rfc3339_range, retention_cutoff, ns_per_sec in *. lia. }
  eapply (prune_old hash); try done; [by rewrite Hfs3|].
  rewrite Hc3. specialize (Hmono (w_clock w) (S (w_clock w)) ltac:(lia)).
  unfold retention_cutoff, ns_per_sec. lia.
Qed.

Lemma prune_retention_passes w :
  fault_free → blank root w → uuids_ok → (∀ n, rfc3339_range (clock n)) →
  (∀ n m, n ≤ m → (clock n ≤ clock m)%Z) →
  (∀ n, rfc3339_range (retention_cutoff (clock n) 400)) →
  collection_valid sample_collection →
  wp prune_retention_deletes_old_created_backups (λ r _, r = Ok ()) w.
Proof.
  intros Hff Hblank Huu Hclk Hmono Hold400 Hval. unfold prune_retention_deletes_old_created_backups.
  set (p := test_payload sample_collection). set (hash := λ _ : bytes, "hash1").
  assert (payload_ok p) as Hpl by (by intros d [= <-]).
  wp_steps. apply wp_unwrap. eapply wp_mono; [exact (open_blank hash root w Hff Hblank)|].
  intros r w1 (-> & Hinv1 & He1 & _ & _ & Hdisk). split; [by eexists|]. wp_steps.
  apply wp_unwrap. eapply wp_mono; [by apply (first_backup hash)|].
  intros r w2 (_ & Hinv2 & e & -> & Hpost & _). split; [by eexists|]. cbn [bind_post].
  assert (entries w2 = [e]) as He2.
  { pose proof (cp_entries _ _ _ _ _ _ Hpost) as Hp. rewrite He1 in Hp. symmetry in Hp.
    apply Permutation_length_1_inv in Hp. rewrite Hp. by destruct e. }
  apply (wp_backdate_and_prune hash 400 e (λ remaining, assert_that (bool_decide (remaining = []));;
    there ← fs_exists (backup_dir root (timestamp_dir e)); assert_that (negb there))); try done.
  - apply (cp_status _ _ _ _ _ _ Hpost).
  - apply (cp_folder _ _ _ _ _ _ Hpost).
  - intros w3 Hgone. wp_steps. apply wp_assert_that; [done|]. wp_steps. unfold fs_exists. wp_steps.
    cbn [w_fs tick_io]. rewrite Hgone. apply wp_assert_that; [|done].
    rewrite bool_decide_false; [done|]. by intros [_ [? ?]].
Qed.
End prune_test.

(** ** The tests of the AnkiWeb client *)

Section sync_tests.
Context {S : Type} `{!Env, !SerdeJson, !Zstd, !HttpCrates}.
Implicit Types w : World S.

Definition contains (s sub : string) : bool := bool_decide (is_Some (String.index 0 sub s)).

Definition requires_credentials : M S () :=
  let cfg := {| cfg_username := ""; cfg_password := ""; cfg_endpoint := None |} in
  err ← unwrap_err (sync_collection cfg);
  assert_that (contains (error_string err) "credentials").
Definition zstd_roundtrip : M S () :=
  let data := bytes_of_string "hello world this is a test of zstd compression" in
  compressed ← unwrap (zstd_compress data);
  decompressed ← unwrap (zstd_decompress compressed);
  assert_that (bool_decide (data = decompressed)).
Definition session_id_is_nonempty : M S () :=
  id ← simple_session_id;
  assert_that (negb (bool_decide (id = "")));;
  assert_that (all_chars is_ascii_alphanumeric id).

Lemma requires_credentials_passes w : requires_credentials w = (Ok (), w).
Proof. reflexivity. Qed.
Lemma zstd_roundtrip_passes `{!ZstdLaws} w : zstd_roundtrip w = (Ok (), w).
Proof.
  unfold zstd_roundtrip, zstd_decompress, zstd_compress, unwrap, mbind, M_bind. cbv zeta.
  destruct (zstd_encode_total (bytes_of_string "hello world this is a test of zstd compression")) as [c Hc].
  rewrite Hc. cbn [from_option]. unfold mret, M_ret. cbn beta iota.
  rewrite (zstd_decode_encode _ _ Hc). cbn [from_option]. unfold mret, M_ret, assert_that.
  by rewrite bool_decide_true.
Qed.
Lemma session_id_passes w :
  (∀ n, (0 ≤ random_u32 n < 2 ^ 32)%Z) → session_id_is_nonempty w = (Ok (), tick_random w).
Proof.
  intros Hr. specialize (Hr (w_random w)).
  unfold session_id_is_nonempty, simple_session_id, gets, modify, mbind, M_bind, mret, M_ret.
  assert (session_id_of (random_u32 (w_random w)) ≠ "" ∧
    all_chars is_ascii_alphanumeric (session_id_of (random_u32 (w_random w))) = true) as [Hne Ha].
  { unfold session_id_of. destruct (Z.eqb_spec (random_u32 (w_random w)) 0) as [_|Hn0]; [done|].
    destruct (session_loop_spec 6 (random_u32 (w_random w))) as (_ & _ & Hc & Hne).
    - change (62 ^ Z.of_nat 6)%Z with 56800235584%Z. lia.
    - split; [apply Hne; lia|done]. }
  by rewrite bool_decide_false, Ha.
Qed.
End sync_tests.

(** ** The tests of the content hash *)

Section hash_tests.
Context {S : Type} `{!HashCrates}.

Definition hash_is_stable_for_same_content : M S () :=
  let data := bytes_of_string "anki-backup-test" in
  let left := content_hash data in
  let right := content_hash data in
  assert_that (bool_decide (left = right)).
Definition hash_changes_when_content_changes : M S () :=
  let one := content_hash (bytes_of_string "v1") in
  let two := content_hash (bytes_of_string "v2") in
  assert_that (negb (bool_decide (one = two))).

Lemma hash_stable_passes w : hash_is_stable_for_same_content w = (Ok (), w).
Proof. unfold hash_is_stable_for_same_content. cbv zeta. by rewrite bool_decide_true. Qed.
Lemma digests_differ : fips_sha256 (bytes_of_string "v1") ≠ fips_sha256 (bytes_of_string "v2").
Proof. apply (bool_decide_unpack _). vm_compute. exact I. Qed.
Lemma hash_changes_passes `{!HashLaws} w : hash_changes_when_content_changes w = (Ok (), w).
Proof.
  unfold hash_changes_when_content_changes. cbv zeta. rewrite bool_decide_false; [done|].
  rewrite content_hash_iff. exact digests_differ.
Qed.
End hash_tests.
