(* ===== verification/Config.v ===== *)
(** * Configuration

    Models [crates/daemon/src/config.rs] and the argument and environment handling
    of [crates/daemon/src/main.rs]: each setting is taken from the environment, or
    else from the configuration file, or else from a default. *)

From S2P Require Import Prelude Calendar World Crates Stats Sync Repository.

(** ** The configuration file *)

Record ServerConfig := { listen : option string }.
Record StorageConfig := {
  storage_root : option string;
  retention_days : option Z;
  database_url : option string;
}.
Record AnkiwebConfig := {
  username : option string;
  password : option string;
  endpoint : option string;
}.
Record SecurityConfig := { cfg_api_token : option string; cfg_csrf_token : option string }.
Record Config := {
  server : ServerConfig;
  storage : StorageConfig;
  ankiweb : AnkiwebConfig;
  security : SecurityConfig;
}.

(** [Config::default]: nothing is set. *)
Definition default_config : Config := {|
  server := {| listen := None |};
  storage := {| storage_root := None; retention_days := None; database_url := None |};
  ankiweb := {| username := None; password := None; endpoint := None |};
  security := {| cfg_api_token := None; cfg_csrf_token := None |};
|}.

(** [toml::from_str::<Config>]; [None] is an error. *)
Class TomlCrate := { toml_from_str : string → option Config }.

(** The process environment: [std::env::var(name).ok()] and [std::env::args]. *)
Record ProcEnv := {
  env_var : string → option string;
  args : list string;
}.

(** [str::from_utf8] accepts the bytes: no overlong forms, no surrogates, nothing
    above U+10FFFF. *)
Definition byte_Z (b : Byte.byte) : Z := Z.of_N (Byte.to_N b).
Definition between (lo hi b : Z) : bool := (lo <=? b)%Z && (b <=? hi)%Z.
Fixpoint utf8_valid (b : list Z) : bool :=
  match b with
  | [] => true
  | b0 :: r =>
      if between 0 127 b0 then utf8_valid r
      else match r with
      | b1 :: r =>
          if between 194 223 b0 then between 128 191 b1 && utf8_valid r
          else match r with
          | b2 :: r =>
              if between 224 239 b0 then
                (if b0 =? 224 then between 160 191 b1
                 else if b0 =? 237 then between 128 159 b1 else between 128 191 b1)%Z
                && between 128 191 b2 && utf8_valid r
              else match r with
              | b3 :: r =>
                  between 240 244 b0 &&
                  (if b0 =? 240 then between 144 191 b1
                   else if b0 =? 244 then between 128 143 b1 else between 128 191 b1)%Z
                  && between 128 191 b2 && between 128 191 b3 && utf8_valid r
              | [] => false
              end
          | [] => false
          end
      | [] => false
      end
  end.

Section config.
Context {S : Type} `{!Env, !TomlCrate}.

(** [Debug] of a path is its text in quotes. *)
Definition debug_path (p : string) : string := debug_str p.

(** [PathBuf::from]. *)
Definition path_from (s : string) : Path := join [] s.

(** [fs::read_to_string]: the bytes must be UTF-8. *)
Definition fs_read_to_string (p : Path) : M S string :=
  b ← fs_read p;
  if utf8_valid (byte_Z <$> b) then mret (string_of_bytes b)
  else fail ["stream did not contain valid UTF-8"].

Definition load_config (path : string) : M S Config :=
  contents ← context ("reading config file " +:+ debug_path path)
    (fs_read_to_string (path_from path));
  context ("parsing config file " +:+ debug_path path)
    (from_option ["TOML parse error"] (toml_from_str contents)).

(** The argument loop: the last [--config] and the last other argument win. *)
Fixpoint args_loop (rest : list string) (config_path mode : option string) :
    string + (option string * option string) :=
  match rest with
  | [] => inr (config_path, mode)
  | arg :: rest =>
      if decide (arg = "--config") then
        match rest with
        | [] => inl "--config requires a path argument"
        | path :: rest => args_loop rest (Some path) mode
        end
      else args_loop rest config_path (Some arg)
  end.

(** The first argument is the program's name. *)
Definition parse_args (penv : ProcEnv) : M S (Config * option string) :=
  match args_loop (drop 1 (args penv)) None None with
  | inl e => fail [e]
  | inr (config_path, mode) =>
      cfg ← match config_path with
            | Some path =>
                log Info "loading config file" [("path", debug_path path)];;
                load_config path
            | None => mret default_config
            end;
      mret (cfg, mode)
  end.
End config.

(** ** Settings *)

Definition or_else {A} (o1 o2 : option A) : option A := match o1 with Some a => Some a | None => o2 end.

Section settings.
Context (penv : ProcEnv) (cfg : Config).

(** [main]: root directory, listen address and database. *)
Definition setting_root : string :=
  default "./data" (or_else (env_var penv "ANKI_BACKUP_ROOT") (storage_root (storage cfg))).
Definition setting_listen : string :=
  default "127.0.0.1:8088" (or_else (env_var penv "ANKI_BACKUP_LISTEN") (listen (server cfg))).
Definition setting_database_url : option string :=
  or_else (env_var penv "DATABASE_URL") (database_url (storage cfg)).

Definition sync_config : SyncConfig := {|
  cfg_username := default "" (or_else (env_var penv "ANKIWEB_USERNAME") (username (ankiweb cfg)));
  cfg_password := default "" (or_else (env_var penv "ANKIWEB_PASSWORD") (password (ankiweb cfg)));
  cfg_endpoint := or_else (env_var penv "ANKIWEB_ENDPOINT") (endpoint (ankiweb cfg));
|}.

(** [run_service]: the retention in days; text that is not an [i64] counts as
    unset. *)
Definition setting_retention_days : Z :=
  default 90%Z (or_else (env_var penv "ANKI_BACKUP_RETENTION_DAYS" ≫= parse_i64)
                        (retention_days (storage cfg))).
End settings.
