(* ===== verification/Server.v ===== *)
(** * The HTTP server

    Models [crates/daemon/src/server.rs]: the routes, the two guards (bearer token
    and CSRF token), the rollback gate and every handler.  The templates' view
    models are values; their HTML is not modelled.  A handler returns a status
    code or a reply. *)

From S2P Require Import Prelude Calendar World Crates Core Store Repository Sync.

(** ** tar and axum *)

Class TarCrate := {
  (** one regular file: name, mode, content; then the end of the archive *)
  tar_single : string → Z → bytes → bytes;
  (** the files of an archive *)
  tar_entries : bytes → option (list (string * bytes));
}.
Class TarLaws `{!TarCrate} : Prop := {
  tar_entries_single name mode b : tar_entries (tar_single name mode b) = Some [(name, b)];
}.

(** The value of a path parameter; [None] when it is not UTF-8. *)
Class AxumCrate := { percent_decode : string → option string }.
(** Letters, digits and hyphens stand for themselves. *)
Definition path_plain (a : Ascii.ascii) : bool := is_ascii_alphanumeric a || bool_decide (a = "-"%char).
Class AxumLaws `{!AxumCrate} : Prop := {
  percent_decode_plain s : all_chars path_plain s = true → percent_decode s = Some s;
}.
(** Identifiers are written with hexadecimal digits and hyphens. *)
Class UuidTextLaws `{!UuidCrate} : Prop := {
  uuid_text_plain u : uuid_ok u → uuid_to_string u ≠ "" ∧ all_chars path_plain (uuid_to_string u) = true;
}.
(** A header value of visible characters and spaces is text. *)
Definition header_visible (a : Ascii.ascii) : bool :=
  let n := N_of_ascii a in ((32 <=? n) && (n <=? 126))%N.
Class HeaderLaws `{!HttpCrates} : Prop := {
  header_to_str_visible v : all_chars header_visible v = true → header_to_str v = Some v;
}.

(** ** Data *)

Record AppState := {
  csrf_token : option string;
  api_token : option string;
  app_sync_config : option SyncConfig;
}.

Record BackupListItem := {
  item_id : string;
  item_created_at : string;
  item_status : string;
  item_total_cards : Z;
  item_total_decks : Z;
  item_total_notes : Z;
  item_size_display : string;
}.
Record BackupDetailView := {
  view_id : string;
  view_created_at : string;
  view_status : string;
  view_content_hash : string;
  view_size_display : string;
  view_deck_stats : list DeckStats;
}.

Inductive Reply :=
  | JsonReply (j : Json)
  | FileReply (content_type content_disposition : string) (body : bytes)
  | IndexPage (backups : list BackupListItem)
  | DetailPage (backup : BackupDetailView) (csrf : string).

(** Request headers, in order, names in lower case. *)
Abbreviation Headers := (list (string * string)).
Definition get_header (name : string) (hs : Headers) : option string :=
  (λ p : nat * (string * string), p.2.2) <$> list_find (λ kv, kv.1 = name) hs.

(** ** Sizes *)

(** The nearest [f64] to an integer: 53 significant bits, ties to even. *)
Definition round_half_even (n d : Z) : Z :=
  let q := (n / d)%Z in
  let r := (n mod d)%Z in
  if (2 * r <? d)%Z then q
  else if (d <? 2 * r)%Z then (q + 1)%Z
  else if Z.even q then q else (q + 1)%Z.
Definition i64_as_f64 (n : Z) : Z :=
  if (Z.abs n <? 2 ^ 53)%Z then n
  else let u := (2 ^ (Z.log2 (Z.abs n) - 52))%Z in (round_half_even n u * u)%Z.

(** [{:.1}] of the double [n / d], [d] a power of two: the quotient is exact, and
    the text is the nearest tenth, ties to even. *)
Definition one_decimal (n d : Z) : string :=
  let t := round_half_even (n * 10) d in
  pretty (t / 10)%Z +:+ "." +:+ pretty (t mod 10)%Z.
Definition format_size (bytes : Z) : string :=
  if (bytes <? 1024)%Z then pretty bytes +:+ " B"
  else if (bytes <? 1024 * 1024)%Z then one_decimal (i64_as_f64 bytes) 1024 +:+ " KB"
  else one_decimal (i64_as_f64 bytes) (1024 * 1024) +:+ " MB".

Example format_size_ex : (format_size 1023, format_size 1536, format_size 1048575, format_size 1048576) =
  ("1023 B", "1.5 KB", "1024.0 KB", "1.0 MB").
Proof. by vm_compute. Qed.

(** ** [serde_json::json!] *)

(** [to_value] of a struct gives a [Map], sorted by key. *)
Fixpoint to_value (j : Json) : Json :=
  match j with
  | JArray l => JArray (to_value <$> l)
  | JObject l => json_object ((λ kv, (kv.1, to_value kv.2)) <$> l)
  | j => j
  end.
(** [Debug] of a status. *)
Definition status_debug (s : BackupStatus) : string :=
  match s with Created => "Created" | Skipped => "Skipped" end.
Definition status_label (s : BackupStatus) : string :=
  match s with Created => "created" | Skipped => "skipped" end.

(** ** Handlers *)

Section server.
Context {S : Type} `{!Env, !Chrono, !UuidCrate, !SerdeJson, !Zstd, !HttpCrates, !TarCrate, !AxumCrate}.
Context `{!MetadataStore S}.
Context (root : Path) (state : AppState).

(** [m.map_err(|_| code)?], then the rest. *)
Definition or_status {A B} (m : M S A) (code : Z) (k : A → M S (Z + B)) : M S (Z + B) :=
  r ← attempt m; match r with inr a => k a | inl _ => mret (inl code) end.
(** [o.ok_or(code)?] *)
Definition ok_or {A B} (o : option A) (code : Z) (k : A → M S (Z + B)) : M S (Z + B) :=
  match o with Some a => k a | None => mret (inl code) end.

Definition healthz : M S (Z + Reply) := mret (inr (JsonReply (JObject [("status", JString "ok")]))).

Definition require_api_auth (headers : Headers) : bool :=
  match api_token state with
  | None => true
  | Some expected =>
      match (get_header "authorization" headers ≫= header_to_str) ≫= strip_prefix "Bearer " with
      | Some token => bool_decide (token = expected)
      | None => false
      end
  end.

Definition api_list_item (b : BackupEntry) : Json :=
  json_object [("id", JString (uuid_to_string (id b)));
               ("created_at", JString (datetime_serde (created_at b)));
               ("status", JString (status_debug (status b)));
               ("size_bytes", JInt (size_bytes b));
               ("stats", to_value (option_to_json stats_to_json (stats b)))].
Definition api_list_backups (headers : Headers) : M S (Z + Reply) :=
  if negb (require_api_auth headers) then mret (inl 401%Z)
  else or_status repo_list_backups 500 (λ rows,
    mret (inr (JsonReply (JArray (api_list_item <$> rows))))).

Definition api_backup_detail (id_text : string) (headers : Headers) : M S (Z + Reply) :=
  if negb (require_api_auth headers) then mret (inl 401%Z)
  else ok_or (uuid_parse_str id_text) 400 (λ i,
    or_status (repo_get_backup i) 500 (λ found,
      ok_or found 404 (λ backup, mret (inr (JsonReply (to_value (entry_to_json backup))))))).

Definition csrf_accepted (headers : Headers) : bool :=
  match csrf_token state with
  | None => true
  | Some expected =>
      bool_decide (default "" (get_header "x-csrf-token" headers ≫= header_to_str) = expected)
  end.

(** The last rollback was less than ten seconds ago. *)
Definition gate_closed : M S bool :=
  gate ← gets w_gate;
  match gate with
  | Some last => t ← now; mret (num_seconds (t - last) <? 10)%Z
  | None => mret false
  end.

(** Sending the restored collection to AnkiWeb, if there are credentials. *)
Definition push_rolled_back {B} (rolled : BackupEntry) (k : M S (Z + B)) : M S (Z + B) :=
  match app_sync_config state with
  | Some sync_cfg =>
      let backup_path := backup_file_path root rolled in
      r ← attempt (fs_read backup_path);
      match r with
      | inl e =>
          log Error_ "failed to read backup file for upload"
            [("error", error_string e); ("backup_path", debug_str (display backup_path))];;
          mret (inl 500%Z)
      | inr collection_bytes =>
          r ← attempt (upload_collection sync_cfg collection_bytes);
          match r with
          | inl e =>
              log Error_ "failed to upload rolled-back collection to AnkiWeb"
                [("error", error_string e)];;
              mret (inl 502%Z)
          | inr _ =>
              log Info "uploaded rolled-back collection to AnkiWeb"
                [("backup_id", uuid_to_string (id rolled))];;
              k
          end
      end
  | None => log Warn "no AnkiWeb credentials configured; rollback is local-only" [];; k
  end.

Definition rollback_backup (id_text : string) (headers : Headers) : M S (Z + Reply) :=
  if negb (require_api_auth headers) then mret (inl 401%Z)
  else if negb (csrf_accepted headers) then mret (inl 403%Z)
  else
    closed ← gate_closed;
    if (closed : bool) then mret (inl 429%Z)
    else ok_or (uuid_parse_str id_text) 400 (λ i,
      or_status (rollback_to root i) 400 (λ rolled,
        push_rolled_back rolled (
          t ← now;
          modify (set_gate (Some t));;
          mret (inr (JsonReply (json_object
            [("rolled_back_to", JString (uuid_to_string (id rolled)));
             ("uploaded", JBool (bool_decide (is_Some (app_sync_config state))))])))))).

(** The archive a download sends: the payload file in a tar, compressed. *)
Definition archive (b : bytes) : option bytes := zstd_encode (tar_single "collection.anki2" 420 b).

Definition download_backup (id_text : string) (headers : Headers) : M S (Z + Reply) :=
  if negb (require_api_auth headers) then mret (inl 401%Z)
  else ok_or (uuid_parse_str id_text) 400 (λ i,
    or_status (repo_get_backup i) 500 (λ found,
      ok_or found 404 (λ backup,
        if decide (status backup ≠ Created) then mret (inl 400%Z)
        else or_status (fs_read (backup_file_path root backup)) 500 (λ b,
          ok_or (archive b) 500 (λ compressed,
            mret (inr (FileReply "application/zstd"
              ("attachment; filename=backup-" +:+ uuid_to_string (id backup) +:+ ".tar.zst")
              compressed))))))).


Definition list_item (b : BackupEntry) : BackupListItem := {|
  item_id := uuid_to_string (id b);
  item_created_at := format_ui (created_at b);
  item_status := status_label (status b);
  item_total_cards := default 0%Z (total_cards <$> stats b);
  item_total_decks := default 0%Z (total_decks <$> stats b);
  item_total_notes := default 0%Z (total_notes <$> stats b);
  item_size_display := format_size (size_bytes b);
|}.
Definition index : M S (Z + Reply) :=
  or_status repo_list_backups 500 (λ backups, mret (inr (IndexPage (list_item <$> backups)))).

Definition detail_view (b : BackupEntry) : BackupDetailView := {|
  view_id := uuid_to_string (id b);
  view_created_at := format_ui (created_at b);
  view_status := status_label (status b);
  view_content_hash := content_hash_of b;
  view_size_display := format_size (size_bytes b);
  view_deck_stats := default [] (deck_stats <$> stats b);
|}.
Definition backup_detail (id_text : string) : M S (Z + Reply) :=
  ok_or (uuid_parse_str id_text) 400 (λ i,
    or_status (repo_get_backup i) 500 (λ found,
      ok_or found 404 (λ b,
        mret (inr (DetailPage (detail_view b) (default "" (csrf_token state))))))).
End server.

(** ** Routes *)

Inductive Method := GET | HEAD | POST | OtherMethod.
#[export] Instance method_eq_dec : EqDecision Method.
Proof. solve_decision. Defined.

Record Request := {
  rq_method : Method;
  rq_path : string;
  rq_headers : Headers;
}.

(** The routes of [build_router]; a path parameter is a segment that is not
    empty. *)
Inductive Route :=
  | IndexRoute
  | DetailRoute (seg : string)
  | DownloadRoute (seg : string)
  | RollbackRoute (seg : string)
  | HealthzRoute
  | ApiListRoute
  | ApiDetailRoute (seg : string).

Definition route_of (path : string) : option Route :=
  match split_on "/" path with
  | [""; ""] => Some IndexRoute
  | [""; "backups"; seg] => if decide (seg = "") then None else Some (DetailRoute seg)
  | [""; "backups"; seg; "download"] => if decide (seg = "") then None else Some (DownloadRoute seg)
  | [""; "backups"; seg; "rollback"] => if decide (seg = "") then None else Some (RollbackRoute seg)
  | [""; "api"; "v1"; "healthz"] => Some HealthzRoute
  | [""; "api"; "v1"; "backups"] => Some ApiListRoute
  | [""; "api"; "v1"; "backups"; seg] => if decide (seg = "") then None else Some (ApiDetailRoute seg)
  | [""; "api"; "v1"; "backups"; seg; "download"] =>
      if decide (seg = "") then None else Some (DownloadRoute seg)
  | [""; "api"; "v1"; "backups"; seg; "rollback"] =>
      if decide (seg = "") then None else Some (RollbackRoute seg)
  | _ => None
  end.

Section router.
Context {S : Type} `{!Env, !Chrono, !UuidCrate, !SerdeJson, !Zstd, !HttpCrates, !TarCrate, !AxumCrate}.
Context `{!MetadataStore S}.
Context (root : Path) (state : AppState).

(** A [get] route also answers HEAD; another method is refused. *)
Definition on_get (m : Method) (h : M S (Z + Reply)) : M S (Z + Reply) :=
  match m with GET | HEAD => h | _ => mret (inl 405%Z) end.
Definition on_post (m : Method) (h : M S (Z + Reply)) : M S (Z + Reply) :=
  match m with POST => h | _ => mret (inl 405%Z) end.
Definition with_id (seg : string) (h : string → M S (Z + Reply)) : M S (Z + Reply) :=
  ok_or (percent_decode seg) 400 h.

Definition handle (rq : Request) : M S (Z + Reply) :=
  let m := rq_method rq in
  let hs := rq_headers rq in
  match route_of (rq_path rq) with
  | Some IndexRoute => on_get m index
  | Some (DetailRoute seg) => on_get m (with_id seg (backup_detail state))
  | Some (DownloadRoute seg) => on_get m (with_id seg (λ i, download_backup root state i hs))
  | Some (RollbackRoute seg) => on_post m (with_id seg (λ i, rollback_backup root state i hs))
  | Some HealthzRoute => on_get m healthz
  | Some ApiListRoute => on_get m (api_list_backups state hs)
  | Some (ApiDetailRoute seg) => on_get m (with_id seg (λ i, api_backup_detail state i hs))
  | None => mret (inl 404%Z)
  end.
End router.

Example route_ex : (route_of "/", route_of "/backups/7/rollback", route_of "/api/v1/backups/",
    route_of "/api/v1/backups/7") =
  (Some IndexRoute, Some (RollbackRoute "7"), None, Some (ApiDetailRoute "7")).
Proof. by vm_compute. Qed.
