(* ===== verification/ServerThms.v ===== *)
(** * Server theorems

    What the guards refuse, what the read-only handlers leave alone, and what a
    rollback request has done in every outcome. *)

From S2P Require Import Prelude Calendar World Crates Core Store Stats Repository RepositoryInv.
From S2P Require Import RepositoryThms RepositoryOps Sync Server.

Section server_thms.
Context {S : Type} `{!Env, !Chrono, !UuidCrate, !SerdeJson, !Zstd, !HttpCrates, !TarCrate, !AxumCrate}.
Context `{!ChronoLaws, !UuidLaws, !MetadataStore S, !StoreModel S, !StoreLaws S}.
Context (hash : bytes → string) (root : Path) (state : AppState).
Implicit Types w : World S.

Abbreviation entries w := (st_entries (w_db w)).
Abbreviation events w := (st_events (w_db w)).

(** ** Guards *)

Lemma unauthorized hs w :
  require_api_auth state hs = false → ∀ i,
  api_list_backups state hs w = (Ok (inl 401%Z), w) ∧
  api_backup_detail state i hs w = (Ok (inl 401%Z), w) ∧
  download_backup root state i hs w = (Ok (inl 401%Z), w) ∧
  rollback_backup root state i hs w = (Ok (inl 401%Z), w).
Proof.
  intros Ha i. unfold api_list_backups, api_backup_detail, download_backup, rollback_backup.
  by rewrite Ha.
Qed.

(** The routes that do not ask for a token. *)
Definition public_route (r : Route) : Prop :=
  match r with IndexRoute | DetailRoute _ | HealthzRoute => True | _ => False end.

(** A run that refuses a request: a client error, and nothing has changed. *)
Definition refused (m : M S (Z + Reply)) w : Prop :=
  ∃ code, m w = (Ok (inl code), w) ∧ (400 ≤ code < 500)%Z.

Lemma refused_code code w : (400 ≤ code < 500)%Z → refused (mret (inl code)) w.
Proof. by exists code. Qed.
Lemma refused_on_get m h w : refused h w → refused (on_get m h) w.
Proof. intros. destruct m; try done; by apply refused_code. Qed.
Lemma refused_on_post m h w : refused h w → refused (on_post m h) w.
Proof. intros. destruct m; try done; by apply refused_code. Qed.
Lemma refused_with_id seg h w : (∀ i, refused (h i) w) → refused (with_id seg h) w.
Proof.
  intros. unfold with_id, ok_or. destruct (percent_decode seg); [done|by apply refused_code].
Qed.

(** A request without the token changes nothing and gets an error, unless its
    route is public. *)
Lemma handle_unauthorized rq w :
  require_api_auth state (rq_headers rq) = false →
  (∀ r, route_of (rq_path rq) = Some r → ¬ public_route r) →
  refused (handle root state rq) w.
Proof.
  intros Ha Hpub. pose proof (unauthorized _ w Ha) as Hun. unfold handle. cbv zeta.
  destruct (route_of _) as [r|]; [|by apply refused_code]. specialize (Hpub r eq_refl).
  destruct r; try (by destruct Hpub).
  - apply refused_on_get, refused_with_id. intros i. exists 401%Z. split; [apply (Hun i)|lia].
  - apply refused_on_post, refused_with_id. intros i. exists 401%Z. split; [apply (Hun i)|lia].
  - apply refused_on_get. exists 401%Z. split; [apply (Hun "")|lia].
  - apply refused_on_get, refused_with_id. intros i. exists 401%Z. split; [apply (Hun i)|lia].
Qed.

(** ** Reading *)

Lemma wp_or_status {A B} (m : M S A) code (k : A → M S (Z + B)) (Q : Res (Z + B) → World S → Prop) w :
  wp m (λ r w', match r with
                | Ok a => wp (k a) Q w'
                | Err _ => Q (Ok (inl code)) w'
                | Panic msg => Q (Panic msg) w'
                end) w →
  wp (or_status m code k) Q w.
Proof. intros Hm. unfold or_status. wp_steps. eapply wp_mono; [done|]. by intros [] w'. Qed.

(** Nothing a client can see has changed. *)
Definition untouched w w' : Prop :=
  w_fs w' = w_fs w ∧ w_db w' = w_db w ∧ w_gate w' = w_gate w ∧ w_sent w' = w_sent w ∧
  w_log w' = w_log w.
Lemma untouched_db_only w w' : db_only w w' → w_db w' = w_db w → untouched w w'.
Proof. intros (?&?&?&?&_) ?. by repeat split. Qed.

(** The list and the index show every entry, newest first. *)
Lemma listing_spec (f : list BackupEntry → Reply) w :
  st_wf (w_db w) →
  wp (or_status repo_list_backups 500 (λ rows, mret (inr (f rows)))) (λ r w', untouched w w' ∧
    (r = Ok (inl 500%Z) ∨
     ∃ l, r = Ok (inr (f l)) ∧ l ≡ₚ entries w ∧ newest_first l)) w.
Proof.
  intros Hwf. apply wp_or_status. eapply wp_mono; [by apply list_backups_law|].
  intros r w' (Hdo & Hdb & Hr). pose proof (untouched_db_only _ _ Hdo Hdb).
  destruct r as [l|e|]; wp_steps; [|by auto|done]. split; [done|]. right. by exists l.
Qed.

(** Looking a backup up by the text of its identifier. *)
Lemma lookup_spec {B} id_text (k : BackupEntry → M S (Z + B)) (Q : Res (Z + B) → World S → Prop) w :
  st_wf (w_db w) →
  (∀ w', untouched w w' → uuid_parse_str id_text = None → Q (Ok (inl 400%Z)) w') →
  (∀ w', untouched w w' → Q (Ok (inl 500%Z)) w') →
  (∀ i w', untouched w w' → uuid_parse_str id_text = Some i → i ∉ (id <$> entries w) →
     Q (Ok (inl 404%Z)) w') →
  (∀ i e w', untouched w w' → uuid_parse_str id_text = Some i → e ∈ entries w → id e = i →
     wp (k e) Q w') →
  wp (ok_or (uuid_parse_str id_text) 400 (λ i,
        or_status (repo_get_backup i) 500 (λ found, ok_or found 404 k))) Q w.
Proof.
  intros Hwf H400 H500 H404 Hk. unfold ok_or at 1.
  destruct (uuid_parse_str id_text) as [i|] eqn:Hi; [|wp_steps; by apply H400].
  apply wp_or_status. eapply wp_mono; [apply get_backup_law; [done|by eapply uuid_parse_ok]|].
  intros r w' (Hdo & Hdb & Hr). pose proof (untouched_db_only _ _ Hdo Hdb).
  destruct r as [[e|]|e|]; simpl; [|wp_steps; by eapply H404|by apply H500|done].
  destruct Hr. by eapply Hk.
Qed.

(** A download is an archive of the backup as it was taken. *)
Definition archive_of (b : bytes) (a : bytes) : Prop :=
  ∃ t, zstd_decode a = Some t ∧ tar_entries t = Some [("collection.anki2", b)].

Lemma archive_round_trip `{!ZstdLaws, !TarLaws} b a : archive b = Some a → archive_of b a.
Proof.
  intros Ha. exists (tar_single "collection.anki2" 420 b). unfold archive in Ha.
  by rewrite (zstd_decode_encode _ _ Ha), tar_entries_single.
Qed.

Lemma download_spec `{!ZstdLaws, !TarLaws} id_text hs w :
  repo_inv hash root w →
  wp (download_backup root state id_text hs) (λ r w', untouched w w' ∧
    match r with
    | Ok (inr (FileReply _ disposition a)) => require_api_auth state hs = true ∧
        ∃ e b, e ∈ entries w ∧ uuid_parse_str id_text = Some (id e) ∧ status e = Created ∧
          disposition = "attachment; filename=backup-" +:+ uuid_to_string (id e) +:+ ".tar.zst" ∧
          archive_of b a ∧ hash b = content_hash_of e
    | Ok (inr _) => False
    | Ok (inl code) => code ∈ [401; 400; 500; 404]%Z
    | Err _ | Panic _ => False
    end) w.
Proof.
  intros Hinv. assert (untouched w w) as Hid by done. unfold download_backup.
  destruct (require_api_auth state hs); simpl; [|wp_steps; split; [done|set_solver]].
  apply lookup_spec; [apply Hinv|..]; try (intros; split; [done|set_solver]).
  intros i e w' Hu Hi He <-. case_decide as Hst; wp_steps; [split; [done|set_solver]|].
  assert (status e = Created) as Hc by (by destruct (status e)).
  destruct (ri_files _ _ _ Hinv e He Hc) as (_ & b & Hb & Hh & _).
  apply wp_or_status. eapply wp_mono; [apply fs_read_spec|]. intros r w'' [-> Hr].
  destruct Hu as (Hfs & Hrest). rewrite Hfs in Hr.
  destruct r as [b'|err|]; wp_steps; [|split; [done|set_solver]|done].
  assert (b' = b) as -> by congruence. destruct (archive b) as [a|] eqn:Ha; cbn [ok_or]; wp_steps.
  2: { split; [done|set_solver]. }
  split; [done|]. split; [done|]. exists e, b. split_and!; try done. by apply archive_round_trip.
Qed.

(** ** Rolling back *)

(** Ten seconds have passed since the last rollback. *)
Definition gate_open w : Prop :=
  ∀ last, w_gate w = Some last → (10 * ns_per_sec ≤ clock (w_clock w) - last)%Z.

Lemma gate_closed_spec w :
  wp gate_closed (λ r w', (w' = w ∨ w' = tick_clock w) ∧
    ((r = Ok true ∧ ¬ gate_open w) ∨ (r = Ok false ∧ gate_open w))) w.
Proof.
  unfold gate_closed, gate_open. wp_steps. destruct (w_gate w) as [last|] eqn:Hg; wp_steps.
  2: { split; [by left|]. right. by split. }
  split; [by right|]. rewrite num_seconds_law.
  change ns_per_sec with 1000000000%Z.
  set (d := (clock (w_clock w) - last)%Z).
  destruct (Z.ltb_spec (Z.quot d 1000000000) 10) as [Hlt|Hge].
  - left. split; [done|]. intros Ho. specialize (Ho last eq_refl). fold d in Ho.
    assert (10 ≤ Z.quot d 1000000000)%Z; [|lia]. apply Z.quot_le_lower_bound; lia.
  - right. split; [done|]. intros ? [= <-]. fold d.
    destruct (Z.le_gt_cases (10 * 1000000000) d) as [|Hsm]; [done|exfalso].
    assert (Z.quot d 1000000000 < 10)%Z; [|lia]. Z.quot_rem_to_equations. lia.
Qed.

(** The upload that goes with a rollback to [e]. *)
Definition pushed (e : BackupEntry) w w' : Prop :=
  match app_sync_config state with
  | None => w_sent w' = w_sent w
  | Some cfg => ∃ b reqs sid reply, w_fs w' !! backup_file_path root e = Some (File b) ∧
      hash b = content_hash_of e ∧ w_sent w' = w_sent w ++ reqs ∧
      session (length (w_sent w)) cfg sid "upload" b (λ _, true) = (reqs, Some reply)
  end.

Lemma push_spec {B} e (k : M S (Z + B)) (Q : Res (Z + B) → World S → Prop) w :
  backup_intact hash root (w_fs w) e →
  (∀ code w', code ∈ [500; 502]%Z → net_only w w' → Q (Ok (inl code)) w') →
  (∀ w', net_only w w' → pushed e w w' → wp k Q w') →
  wp (push_rolled_back root state e k) Q w.
Proof.
  intros (b & Hb & Hh & _) Herr Hk. unfold push_rolled_back. unfold pushed in Hk.
  destruct (app_sync_config state) as [cfg|]; wp_steps; [|by apply Hk].
  eapply wp_mono; [apply fs_read_spec|]. intros r w1 [-> Hr].
  destruct r as [b'|err|]; wp_steps; [|apply Herr; [set_solver|done]|done].
  assert (b' = b) as -> by congruence. eapply wp_mono; [apply upload_outcomes|].
  intros r w2 (Hn & reqs & Hs & Hr2). assert (net_only w w2) as Hnw by done.
  destruct r as [[]|err|]; wp_steps; [|apply Herr; [set_solver|done]|done].
  destruct Hr2 as [reply Hses]. apply Hk; [done|].
  exists b, reqs, (sid_at w), reply. split_and!; try done.
  cbn [w_fs add_log]. destruct Hnw as [-> _]. done.
Qed.

Definition rollback_reply (e : BackupEntry) : Reply :=
  JsonReply (json_object [("rolled_back_to", JString (uuid_to_string (id e)));
    ("uploaded", JBool (bool_decide (is_Some (app_sync_config state))))]).

(** What a rollback request has done when it succeeds. *)
Record rolled_back (id_text : string) (hs : Headers) w w' (e : BackupEntry) : Prop := {
  rb_auth : require_api_auth state hs = true;
  rb_csrf : csrf_accepted state hs = true;
  rb_gate : gate_open w;
  rb_id : uuid_parse_str id_text = Some (id e);
  rb_target : rollback_target (id e) (entries w) e;
  rb_pointer : points_to root (w_fs w') e;
  rb_event : ∃ ev, events w' = events w ++ [(ev, id e)];
  rb_pushed : pushed e w w';
  rb_closed : ∃ n, w_clock w ≤ n ∧ w_gate w' = Some (clock n);
}.

Lemma repo_inv_net w w' : net_only w w' → repo_inv hash root w → repo_inv hash root w'.
Proof. intros (? & ? & _). by apply repo_inv_same. Qed.

Lemma rollback_backup_spec id_text hs w :
  repo_inv hash root w → uuids_ok →
  wp (rollback_backup root state id_text hs) (λ r w', repo_inv hash root w' ∧
    entries w' = entries w ∧
    match r with
    | Ok (inr reply) => ∃ e, reply = rollback_reply e ∧ rolled_back id_text hs w w' e
    | Ok (inl code) => w_gate w' = w_gate w ∧
        (require_api_auth state hs = false → code = 401%Z) ∧
        (code ∈ [401; 403; 429]%Z → untouched w w')
    | Err _ | Panic _ => False
    end) w.
Proof.
  intros Hinv Huu. unfold rollback_backup.
  destruct (require_api_auth state hs) eqn:Ha; simpl; [|by wp_steps].
  destruct (csrf_accepted state hs) eqn:Hc; simpl; [|by wp_steps].
  wp_steps. eapply wp_mono; [apply gate_closed_spec|]. intros r w1 [Hw1 Hr].
  assert (untouched w w1 ∧ quiet w w1) as [Hu1 Hq1]
    by (destruct Hw1 as [->| ->]; (split; [done|repeat split; simpl; lia])).
  pose proof Hu1 as (Hfs1 & Hdb1 & Hg1 & Hs1 & Hl1).
  assert (repo_inv hash root w1) as Hinv1 by (by apply (repo_inv_same hash root w)).
  destruct Hr as [[-> _]|[-> Hopen]]; wp_steps; [by rewrite Hdb1|].
  unfold ok_or. destruct (uuid_parse_str id_text) as [i|] eqn:Hi; wp_steps.
  2: { rewrite Hdb1. split_and!; try done. }
  apply wp_or_status. eapply wp_mono; [apply rollback_to_spec; [done..|by eapply uuid_parse_ok]|].
  rewrite Hdb1. intros r w2 (Hq2 & Hinv2 & Hent2 & Ha2 & Hr2).
  assert (w_gate w2 = w_gate w ∧ w_sent w2 = w_sent w ∧ w_clock w ≤ w_clock w2) as (Hg2 & Hs2 & Hc2).
  { destruct Hq1 as (?&?&?&?&?&?), Hq2 as (?&?&?&?&?&?). split_and!; congruence || lia. }
  destruct r as [e|err|]; [|split_and!; try done; set_solver|done].
  destruct Hr2 as (Htgt & Hpt & Hev). pose proof Htgt as (He & <- & Hcr).
  apply push_spec.
  - rewrite <- Hent2 in He. by apply (ri_files _ _ _ Hinv2).
  - intros code w3 Hcode Hn. pose proof Hn as (Hf3 & Hd3 & Hg3 & _).
    split; [by eapply repo_inv_net|]. rewrite Hd3. split_and!; [done|congruence|done|].
    intros Hbad. exfalso. rewrite !elem_of_cons in Hcode.
    destruct Hcode as [->|[->|[]%elem_of_nil]]; by apply (bool_decide_eq_true_2 _) in Hbad.
  - intros w3 Hn Hpush. wp_steps. pose proof Hn as (Hf3 & Hd3 & Hg3 & Hc3 & _).
    assert (repo_inv hash root w3) as Hinv3 by (by eapply repo_inv_net).
    split; [by eapply repo_inv_same; [..|exact Hinv3]|]. cbn [w_db set_gate tick_clock]. rewrite Hd3.
    split; [done|]. exists e. split; [done|].
    split; cbn [w_fs w_db w_gate set_gate tick_clock]; rewrite ?Hf3, ?Hd3; try done.
    + unfold pushed in *. cbn [w_fs w_sent set_gate tick_clock]. by rewrite Hs2 in Hpush.
    + exists (w_clock w3). split; [lia|done].
Qed.
End server_thms.
