(* ===== verification/Html.v ===== *)
(** * Pages

    The templates [crates/daemon/templates/index.html] and [detail.html], as askama
    renders them for the view models of [crates/daemon/src/server.rs]: literal text
    with escaped strings and plain numbers in between.  And the requests that the
    pages make a browser send. *)

From S2P Require Import Prelude Calendar World Crates Core Server.

(** Askama's escaping of strings in HTML templates. *)
Class AskamaCrate := { html_escape : string → string }.

(** The characters it replaces. *)
Definition html_special (c : ascii) : bool :=
  bool_decide (c = "<"%char) || bool_decide (c = ">"%char) || bool_decide (c = "&"%char) ||
  bool_decide (c = "034"%char) || bool_decide (c = "'"%char).
Definition has_special (s : string) : bool :=
  has_char "<" s || has_char ">" s || has_char "&" s || has_char "034" s || has_char "'" s.

(** The characters that delimit tags, attributes and the strings of the script. *)
Definition is_markup (c : ascii) : bool := html_special c && negb (bool_decide (c = "&"%char)).
Class AskamaLaws `{!AskamaCrate} := {
  escape_markup s c : is_markup c = true → has_char c (html_escape s) = false;
  escape_plain s : has_special s = false → html_escape s = s;
  escape_special s : has_special s = true → html_escape s ≠ s;
}.

(** ** Templates *)

Inductive Piece := Lit (s : string) | Data (s : string) | Num (z : Z).

Definition index_head : list Piece := [Lit (quoted "<!DOCTYPE html>
<html lang=`en`>
<head>
  <meta charset=`utf-8`>
  <meta name=`viewport` content=`width=device-width, initial-scale=1`>
  <title>Anki Backups</title>
  <style>
    :root { --bg: #f8f9fa; --card: #fff; --border: #dee2e6; --primary: #0d6efd; --muted: #6c757d; --text: #212529; }
    * { margin: 0; padding: 0; box-sizing: border-box; }
    body { font-family: -apple-system, BlinkMacSystemFont, `Segoe UI`, Roboto, sans-serif; background: var(--bg); color: var(--text); line-height: 1.6; padding: 2rem; max-width: 960px; margin: 0 auto; }
    h1 { margin-bottom: 1.5rem; font-size: 1.75rem; }
    .backup-list { list-style: none; display: flex; flex-direction: column; gap: 0.75rem; }
    .backup-item { background: var(--card); border: 1px solid var(--border); border-radius: 8px; padding: 1rem 1.25rem; display: flex; justify-content: space-between; align-items: center; }
    .backup-meta { display: flex; flex-direction: column; gap: 0.25rem; }
    .backup-time { font-weight: 600; }
    .backup-stats { font-size: 0.875rem; color: var(--muted); }
    .backup-badge { display: inline-block; font-size: 0.75rem; padding: 0.15rem 0.5rem; border-radius: 4px; font-weight: 600; text-transform: uppercase; }
    .badge-created { background: #d1e7dd; color: #0f5132; }
    .badge-skipped { background: #fff3cd; color: #664d03; }
    .backup-actions { display: flex; gap: 0.5rem; }
    .backup-actions a { text-decoration: none; color: var(--primary); font-size: 0.875rem; padding: 0.35rem 0.75rem; border: 1px solid var(--primary); border-radius: 6px; transition: background 0.15s; }
    .backup-actions a:hover { background: var(--primary); color: #fff; }
    .empty { color: var(--muted); font-style: italic; }
  </style>
</head>
<body>
  <h1>Anki Backups</h1>
  ")].
Definition index_item (b : BackupListItem) : list Piece :=
  [Lit (quoted "
      <li class=`backup-item`>
        <div class=`backup-meta`>
          <span class=`backup-time`>"); Data (item_created_at b); Lit (quoted "</span>
          <span class=`backup-stats`>
            <span class=`backup-badge ");
   Lit (if decide (item_status b = "created") then "badge-created" else "badge-skipped");
   Lit (quoted "`>"); Data (item_status b); Lit "</span>
            &nbsp; ";
   Num (item_total_cards b); Lit " cards · "; Num (item_total_decks b); Lit " decks · ";
   Num (item_total_notes b); Lit " notes · "; Data (item_size_display b); Lit "
          </span>
        </div>
        "] ++
  (if decide (item_status b = "created") then
    [Lit (quoted "
        <div class=`backup-actions`>
          <a href=`/backups/"); Data (item_id b); Lit (quoted "`>View</a>
          <a href=`/backups/"); Data (item_id b);
     Lit (quoted "/download`>Download</a>
        </div>
        ")]
   else []) ++
  [Lit "
      </li>
    "].
Definition index_template (backups : list BackupListItem) : list Piece :=
  index_head ++
  (match backups with
   | [] => [Lit (quoted "
    <p class=`empty`>No backups yet.</p>
  ")]
   | _ => [Lit (quoted "
    <ul class=`backup-list`>
    ")] ++ (backups ≫= index_item) ++ [Lit "
    </ul>
  "]
   end) ++
  [Lit "
</body>
</html>"].

Definition detail_head (backup : BackupDetailView) : list Piece :=
  [Lit (quoted "<!DOCTYPE html>
<html lang=`en`>
<head>
  <meta charset=`utf-8`>
  <meta name=`viewport` content=`width=device-width, initial-scale=1`>
  <title>Backup "); Data (view_id backup); Lit (quoted "</title>
  <style>
    :root { --bg: #f8f9fa; --card: #fff; --border: #dee2e6; --primary: #0d6efd; --muted: #6c757d; --text: #212529; --danger: #dc3545; }
    * { margin: 0; padding: 0; box-sizing: border-box; }
    body { font-family: -apple-system, BlinkMacSystemFont, `Segoe UI`, Roboto, sans-serif; background: var(--bg); color: var(--text); line-height: 1.6; padding: 2rem; max-width: 960px; margin: 0 auto; }
    h1 { margin-bottom: 0.5rem; font-size: 1.5rem; }
    h2 { margin-top: 1.5rem; margin-bottom: 0.75rem; font-size: 1.2rem; }
    .back { display: inline-block; margin-bottom: 1rem; color: var(--primary); text-decoration: none; }
    .back:hover { text-decoration: underline; }
    .info { background: var(--card); border: 1px solid var(--border); border-radius: 8px; padding: 1.25rem; margin-bottom: 1rem; }
    .info dt { font-weight: 600; color: var(--muted); font-size: 0.85rem; text-transform: uppercase; margin-top: 0.75rem; }
    .info dt:first-child { margin-top: 0; }
    .info dd { margin-left: 0; }
    table { width: 100%; border-collapse: collapse; background: var(--card); border: 1px solid var(--border); border-radius: 8px; overflow: hidden; }
    th, td { text-align: left; padding: 0.6rem 1rem; border-bottom: 1px solid var(--border); }
    th { background: var(--bg); font-size: 0.85rem; text-transform: uppercase; color: var(--muted); }
    .actions { margin-top: 1.5rem; display: flex; gap: 0.75rem; }
    .btn { display: inline-block; padding: 0.5rem 1rem; border-radius: 6px; text-decoration: none; font-size: 0.9rem; border: none; cursor: pointer; }
    .btn-primary { background: var(--primary); color: #fff; }
    .btn-danger { background: var(--danger); color: #fff; }
  </style>
</head>
<body>
  <a class=`back` href=`/`>← All backups</a>
  <h1>Backup ");
   Data (view_id backup)].
Definition detail_info (backup : BackupDetailView) : list Piece :=
  [Lit (quoted "</h1>

  <dl class=`info`>
    <dt>Created</dt>
    <dd>"); Data (view_created_at backup); Lit "</dd>
    <dt>Status</dt>
    <dd>"; Data (view_status backup);
   Lit "</dd>
    <dt>Content hash</dt>
    <dd><code>"; Data (view_content_hash backup);
   Lit "</code></dd>
    <dt>Size</dt>
    <dd>"; Data (view_size_display backup); Lit "</dd>
  </dl>

  "].
Definition deck_row (d : DeckStats) : list Piece :=
  [Lit "
      <tr><td>"; Data (deck_name d); Lit "</td><td>"; Num (card_count d); Lit "</td></tr>
    "].
Definition detail_decks (backup : BackupDetailView) : list Piece :=
  match view_deck_stats backup with
  | [] => []
  | decks => [Lit "
  <h2>Deck breakdown</h2>
  <table>
    <thead><tr><th>Deck</th><th>Cards</th></tr></thead>
    <tbody>
    "] ++ (decks ≫= deck_row) ++ [Lit "
    </tbody>
  </table>
  "]
  end.
(** The actions, with the script of the rollback button. *)
Definition detail_actions (backup : BackupDetailView) (csrf_token : string) : list Piece :=
  if decide (view_status backup = "created") then
    [Lit (quoted "
  <div class=`actions`>
    <a class=`btn btn-primary` href=`/backups/"); Data (view_id backup); Lit (quoted "/download`>Download</a>
    <button class=`btn btn-danger` type=`button` onclick=`doRollback()`>Rollback</button>
    <script>
    function doRollback() {
      if (!confirm('Rollback to this backup?')) return;
      fetch('/backups/");
     Data (view_id backup); Lit "/rollback', {
        method: 'POST',
        headers: { 'x-csrf-token': '";
     Data csrf_token; Lit "' }
      }).then(r => {
        if (r.ok) { alert('Rollback successful'); location.reload(); }
        else { r.text().then(t => alert('Rollback failed: ' + r.status + ' ' + t)); }
      }).catch(e => alert('Error: ' + e));
    }
    </script>
  </div>
  "]
  else [].
Definition detail_template (backup : BackupDetailView) (csrf_token : string) : list Piece :=
  detail_head backup ++ detail_info backup ++ detail_decks backup ++ [Lit "

  "] ++
  detail_actions backup csrf_token ++ [Lit "
</body>
</html>"].

Section pages.
Context `{!AskamaCrate}.

Definition piece_text (p : Piece) : string :=
  match p with Lit s => s | Data s => html_escape s | Num z => pretty z end.
Fixpoint render (ps : list Piece) : string :=
  match ps with
  | [] => ""
  | p :: ps => piece_text p +:+ render ps
  end.
Definition index_html (backups : list BackupListItem) : string := render (index_template backups).
Definition detail_html (backup : BackupDetailView) (csrf_token : string) : string :=
  render (detail_template backup csrf_token).

(** ** What a browser sends from a detail page *)

(** Following the download link; [hs] are the browser's own headers. *)
Definition download_click (v : BackupDetailView) (hs : Headers) : Request :=
  {| rq_method := GET; rq_path := "/backups/" +:+ view_id v +:+ "/download"; rq_headers := hs |}.
(** [doRollback]: the text of a script is not unescaped, so that its strings are the
    escaped ones.  (A token with a backslash or a line break would be another string
    still.) *)
Definition rollback_click (v : BackupDetailView) (csrf_token : string) (hs : Headers) : Request :=
  {| rq_method := POST; rq_path := "/backups/" +:+ html_escape (view_id v) +:+ "/rollback";
     rq_headers := ("x-csrf-token", html_escape csrf_token) :: hs |}.

(** ** Markup *)

(** The markup characters of a text, in order. *)
Fixpoint markup (s : string) : string :=
  match s with
  | EmptyString => EmptyString
  | String c s => if is_markup c then String c (markup s) else markup s
  end.
Definition piece_markup (p : Piece) : string := match p with Lit s => markup s | _ => "" end.
Fixpoint literal_markup (ps : list Piece) : string :=
  match ps with
  | [] => ""
  | p :: ps => piece_markup p +:+ literal_markup ps
  end.

Lemma markup_app s1 s2 : markup (s1 +:+ s2) = markup s1 +:+ markup s2.
Proof.
  induction s1 as [|c s1 IH]; [done|]. rewrite string_app_cons. cbn [markup].
  destruct (is_markup c); by rewrite ?string_app_cons, IH.
Qed.
Lemma markup_nil s : (∀ c, is_markup c = true → has_char c s = false) → markup s = "".
Proof.
  induction s as [|a s IH]; intros Hs; [done|]. cbn [markup]. destruct (is_markup a) eqn:Ha.
  - specialize (Hs a Ha). cbn [has_char] in Hs. by rewrite bool_decide_true in Hs.
  - apply IH. intros c Hc. specialize (Hs c Hc). cbn [has_char] in Hs.
    by apply orb_false_iff in Hs as [_ ?].
Qed.
Lemma literal_markup_app ps1 ps2 :
  literal_markup (ps1 ++ ps2) = literal_markup ps1 +:+ literal_markup ps2.
Proof. induction ps1 as [|p ps1 IH]; [done|]. cbn [literal_markup app]. by rewrite IH, string_app_assoc. Qed.

(** Numbers are written with digits and a sign. *)
Lemma markup_pretty_N_go x s : markup (pretty_N_go x s) = markup s.
Proof.
  revert s. induction (N.lt_wf_0 x) as [x _ IH]; intros s.
  destruct (decide (0 < x)%N) as [Hx|Hx]; [|by replace x with 0%N by lia].
  rewrite pretty_N_go_step by done. rewrite IH by (by apply N.div_lt). cbn [markup].
  assert (is_markup (pretty_N_char (x `mod` 10)) = false) as ->; [|done].
  by unfold pretty_N_char; repeat case_match.
Qed.
Lemma markup_pretty (z : Z) : markup (pretty z) = "".
Proof.
  assert (∀ x : N, markup (pretty x) = "") as HN.
  { intros x. unfold pretty, pretty_N. case_decide; [done|]. apply markup_pretty_N_go. }
  destruct z as [|p|p]; [done|apply (HN (N.pos p))|].
  change (pretty (Z.neg p)) with ("-" +:+ pretty (N.pos p)). by rewrite markup_app, HN.
Qed.

Context `{!AskamaLaws}.

(** The markup of a page is that of the template's text. *)
Lemma markup_render ps : markup (render ps) = literal_markup ps.
Proof.
  induction ps as [|p ps IH]; [done|]. cbn [render literal_markup]. rewrite markup_app, IH. f_equal.
  destruct p as [s|s|z]; [done| |apply markup_pretty]. apply markup_nil. intros c. apply escape_markup.
Qed.

(** Lists of rows with the same markup. *)
Lemma rows_markup {A B} (f : A → list Piece) (g : B → list Piece) l1 l2 :
  Forall2 (λ a b, literal_markup (f a) = literal_markup (g b)) l1 l2 →
  literal_markup (l1 ≫= f) = literal_markup (l2 ≫= g).
Proof.
  induction 1 as [|a b l1 l2 Hab _ IH]; [done|]. rewrite !bind_cons, !literal_markup_app.
  by rewrite Hab, IH.
Qed.

(** Views of the same shape: the same lines, buttons and rows. *)
Definition same_item (b1 b2 : BackupListItem) : Prop :=
  item_status b1 = "created" ↔ item_status b2 = "created".
Definition same_view (v1 v2 : BackupDetailView) : Prop :=
  (view_status v1 = "created" ↔ view_status v2 = "created") ∧
  length (view_deck_stats v1) = length (view_deck_stats v2).

Lemma index_item_markup b1 b2 : same_item b1 b2 →
  literal_markup (index_item b1) = literal_markup (index_item b2).
Proof.
  intros Hs. unfold index_item. rewrite !literal_markup_app.
  destruct (decide (item_status b1 = "created")) as [H1|H1];
    destruct (decide (item_status b2 = "created")) as [H2|H2]; try (exfalso; by apply H2, Hs); try (exfalso; by apply H1, Hs);
    cbn [literal_markup piece_markup]; reflexivity.
Qed.
Lemma index_markup l1 l2 : Forall2 same_item l1 l2 →
  literal_markup (index_template l1) = literal_markup (index_template l2).
Proof.
  intros Hl. unfold index_template. rewrite !literal_markup_app. f_equal. f_equal.
  assert (literal_markup (l1 ≫= index_item) = literal_markup (l2 ≫= index_item)) as Hrows.
  { apply rows_markup. eapply Forall2_impl; [done|]. apply index_item_markup. }
  destruct Hl; [done|]. rewrite !literal_markup_app. by rewrite Hrows.
Qed.
Lemma head_markup v1 v2 : literal_markup (detail_head v1) = literal_markup (detail_head v2).
Proof. unfold detail_head. cbn [literal_markup piece_markup]. reflexivity. Qed.
Lemma info_markup v1 v2 : literal_markup (detail_info v1) = literal_markup (detail_info v2).
Proof. unfold detail_info. cbn [literal_markup piece_markup]. reflexivity. Qed.
Lemma row_markup d1 d2 : literal_markup (deck_row d1) = literal_markup (deck_row d2).
Proof. unfold deck_row. cbn [literal_markup piece_markup]. reflexivity. Qed.
Lemma decks_markup v1 v2 : length (view_deck_stats v1) = length (view_deck_stats v2) →
  literal_markup (detail_decks v1) = literal_markup (detail_decks v2).
Proof.
  intros Hlen. unfold detail_decks.
  assert (literal_markup (view_deck_stats v1 ≫= deck_row) =
    literal_markup (view_deck_stats v2 ≫= deck_row)) as Hrows.
  { apply rows_markup, Forall2_same_length_lookup_2; [done|]. intros. apply row_markup. }
  destruct (view_deck_stats v1), (view_deck_stats v2); try discriminate Hlen; [reflexivity|].
  rewrite !literal_markup_app, Hrows. reflexivity.
Qed.
Lemma actions_markup v1 v2 csrf1 csrf2 : (view_status v1 = "created" ↔ view_status v2 = "created") →
  literal_markup (detail_actions v1 csrf1) = literal_markup (detail_actions v2 csrf2).
Proof.
  intros Hs. unfold detail_actions.
  destruct (decide (view_status v1 = "created")) as [H1|H1];
    destruct (decide (view_status v2 = "created")) as [H2|H2];
    [|exfalso; by apply H2, Hs|exfalso; by apply H1, Hs|reflexivity].
  cbn [literal_markup piece_markup]. reflexivity.
Qed.
Lemma detail_markup v1 v2 csrf1 csrf2 : same_view v1 v2 →
  literal_markup (detail_template v1 csrf1) = literal_markup (detail_template v2 csrf2).
Proof.
  intros [Hs Hlen]. unfold detail_template. rewrite !literal_markup_app.
  rewrite (head_markup v1 v2), (info_markup v1 v2), (decks_markup v1 v2 Hlen).
  rewrite (actions_markup v1 v2 csrf1 csrf2 Hs). reflexivity.
Qed.
End pages.

(** ** Where the clicks go *)

Lemma split_on_app c s1 s2 : has_char c s1 = false →
  split_on c (s1 +:+ String c s2) = s1 :: split_on c s2.
Proof.
  assert (∀ s, split_on c s ≠ []) as Hne.
  { intros s. destruct s as [|a s]; cbn [split_on]; [done|]. destruct (split_on c s); [done|by case_decide]. }
  induction s1 as [|a s1 IH]; cbn [has_char].
  - intros _. rewrite string_app_nil_l. cbn [split_on]. destruct (split_on c s2) eqn:Hs; [by destruct (Hne s2)|].
    by rewrite decide_True.
  - rewrite orb_false_iff, bool_decide_eq_false. intros [Ha Hs1]. rewrite string_app_cons.
    cbn [split_on]. rewrite IH by done. by rewrite decide_False.
Qed.
Lemma download_route i : has_char "/" i = false → i ≠ "" →
  route_of ("/backups/" +:+ i +:+ "/download") = Some (DownloadRoute i).
Proof.
  intros Hi Hne. unfold route_of.
  change ("/backups/" +:+ ?s) with ("" +:+ String "/" ("backups" +:+ String "/" s)).
  change ("/download") with (String "/" "download").
  rewrite !split_on_app by done. simpl. by rewrite decide_False.
Qed.
Lemma rollback_route i : has_char "/" i = false → i ≠ "" →
  route_of ("/backups/" +:+ i +:+ "/rollback") = Some (RollbackRoute i).
Proof.
  intros Hi Hne. unfold route_of.
  change ("/backups/" +:+ ?s) with ("" +:+ String "/" ("backups" +:+ String "/" s)).
  change ("/rollback") with (String "/" "rollback").
  rewrite !split_on_app by done. simpl. by rewrite decide_False.
Qed.
Lemma detail_route i : has_char "/" i = false → i ≠ "" →
  route_of ("/backups/" +:+ i) = Some (DetailRoute i).
Proof.
  intros Hi Hne. unfold route_of.
  change ("/backups/" +:+ ?s) with ("" +:+ String "/" ("backups" +:+ String "/" s)).
  rewrite !split_on_app, split_on_name by done. by rewrite decide_False.
Qed.
Lemma api_detail_route i : has_char "/" i = false → i ≠ "" →
  route_of ("/api/v1/backups/" +:+ i) = Some (ApiDetailRoute i).
Proof.
  intros Hi Hne. unfold route_of.
  change ("/api/v1/backups/" +:+ ?s) with
    ("" +:+ String "/" ("api" +:+ String "/" ("v1" +:+ String "/" ("backups" +:+ String "/" s)))).
  rewrite !split_on_app, split_on_name by done. by rewrite decide_False.
Qed.
