(* ===== verification/ApiTypes.v ===== *)
(** * Types of the JSON replies

    A small language of JSON types, the types of the four JSON replies of
    [crates/daemon/src/server.rs], and that every reply has its type. *)

From S2P Require Import Prelude Calendar World Crates Core Store Repository Sync Server.

(** ** Types *)

#[warnings="-register-all"]
Inductive JsonType :=
  | TBool
  | TInt
  | TText
  | TEnum (values : list string)
  | TOption (t : JsonType)
  | TList (t : JsonType)
  | TStruct (fields : list (string * JsonType)).

(** Objects have the fields of their struct and no other, sorted by name. *)
Fixpoint typed (t : JsonType) (j : Json) {struct t} : bool :=
  match t, j with
  | TBool, JBool _ => true
  | TInt, JInt _ => true
  | TText, JString _ => true
  | TEnum values, JString s => bool_decide (s ∈ values)
  | TOption _, JNull => true
  | TOption t, _ => typed t j
  | TList t, JArray l => forallb (typed t) l
  | TStruct fields, JObject l =>
      (fix go (fields : list (string * JsonType)) (l : list (string * Json)) {struct fields} : bool :=
        match fields, l with
        | [], [] => true
        | (k, t) :: fields, (k', v) :: l => bool_decide (k = k') && typed t v && go fields l
        | _, _ => false
        end) fields l
  | _, _ => false
  end.

Definition status_type : JsonType := TEnum ["Created"; "Skipped"].
Definition deck_type : JsonType :=
  TStruct [("card_count", TInt); ("deck_id", TInt); ("deck_name", TText)].
Definition stats_type : JsonType :=
  TStruct [("deck_stats", TList deck_type); ("total_cards", TInt); ("total_decks", TInt);
           ("total_notes", TInt); ("total_revlog", TInt)].
Definition item_type : JsonType :=
  TStruct [("created_at", TText); ("id", TText); ("size_bytes", TInt); ("stats", TOption stats_type);
           ("status", status_type)].
Definition entry_type : JsonType :=
  TStruct [("content_hash", TText); ("created_at", TText); ("id", TText); ("size_bytes", TInt);
           ("skip_reason", TOption (TEnum ["Unchanged"])); ("source_revision", TOption TText);
           ("stats", TOption stats_type); ("status", status_type);
           ("sync_duration_ms", TOption TInt); ("timestamp_dir", TText)].
Definition rollback_type : JsonType := TStruct [("rolled_back_to", TText); ("uploaded", TBool)].
Definition healthz_type : JsonType := TStruct [("status", TEnum ["ok"])].

(** The type of a route's JSON replies; the other routes have none. *)
Definition reply_type (r : Route) : option JsonType :=
  match r with
  | HealthzRoute => Some healthz_type
  | ApiListRoute => Some (TList item_type)
  | ApiDetailRoute _ => Some entry_type
  | RollbackRoute _ => Some rollback_type
  | _ => None
  end.

(** A document with a type is one that [serde_json] reads back as it was. *)
Lemma typed_plain t j : typed t j = true → json_plain j.
Proof.
  revert t j. fix IH 1. intros [| | |values|t|t|fields] j Hj; destruct j as [|b|z|s|s|l|l]; try done.
  - exact (IH t (JReal s) Hj).
  - exact (IH t (JArray l) Hj).
  - exact (IH t (JObject l) Hj).
  - cbn [typed json_plain] in *. induction l as [|x l IHl]; [done|]. cbn [forallb] in *.
    apply andb_true_iff in Hj as [Hx Hl]. apply andb_True. split; [exact (IH t x Hx)|exact (IHl Hl)].
  - cbn [typed json_plain] in *. revert l Hj. induction fields as [|[k t] fields IHf]; intros [|[k' v] l] Hj; try done.
    apply andb_true_iff in Hj as [[_ Hv]%andb_true_iff Hl]. cbn [forallb]. apply andb_True.
    split; [exact (IH t v Hv)|exact (IHf l Hl)].
Qed.

(** ** The replies have them *)

Section typing.
Context `{!Chrono, !UuidCrate}.

Lemma deck_typed d : typed deck_type (to_value (deck_stats_to_json d)) = true.
Proof. reflexivity. Qed.
Lemma stats_typed s : typed stats_type (to_value (stats_to_json s)) = true.
Proof.
  assert (typed stats_type (to_value (stats_to_json s)) =
    forallb (typed deck_type) (to_value <$> (deck_stats_to_json <$> deck_stats s)) && true) as ->
    by reflexivity.
  rewrite andb_true_r. induction (deck_stats s) as [|d l IH]; [done|].
  rewrite !fmap_cons. cbn [forallb]. by rewrite deck_typed.
Qed.
(** A struct whose only open question is its statistics. *)
Lemma item_typed b : typed item_type (api_list_item b) = true.
Proof.
  assert (typed item_type (api_list_item b) =
    typed (TOption stats_type) (to_value (option_to_json stats_to_json (stats b))) &&
      (bool_decide (status_debug (status b) ∈ ["Created"; "Skipped"]) && true)) as -> by reflexivity.
  destruct (stats b) as [s|]; cbn [option_to_json].
  - assert (typed (TOption stats_type) (to_value (stats_to_json s)) = true) as -> by apply stats_typed.
    by destruct (status b).
  - by destruct (status b).
Qed.
Lemma entry_typed e : typed entry_type (to_value (entry_to_json e)) = true.
Proof.
  destruct e as [i t dir h st sr rev dur size [s|]].
  - transitivity (typed stats_type (to_value (stats_to_json s)) && true); [|by rewrite stats_typed].
    destruct st, sr as [[]|], rev, dur; reflexivity.
  - destruct st, sr as [[]|], rev, dur; reflexivity.
Qed.
End typing.

Section replies.
Context {S : Type} `{!Env, !Chrono, !UuidCrate, !SerdeJson, !Zstd, !HttpCrates, !TarCrate, !AxumCrate,
  !MetadataStore S}.
Context (root : Path) (state : AppState).
Implicit Types w : World S.

(** Any JSON that [m] replies has a type that [t] names. *)
Definition replies (t : option JsonType) (m : M S (Z + Reply)) : Prop :=
  ∀ w j w', m w = (Ok (inr (JsonReply j)), w') → ∃ ty, t = Some ty ∧ typed ty j = true.

Lemma replies_code t code : replies t (mret (inl code)).
Proof. by intros w j w'. Qed.
Lemma replies_ret t r : (∀ j, r = JsonReply j → ∃ ty, t = Some ty ∧ typed ty j = true) →
  replies t (mret (inr r)).
Proof. intros Hr w j w' Hm. apply Hr. by injection Hm. Qed.
Lemma replies_bind {A} t (m : M S A) (k : A → M S (Z + Reply)) :
  (∀ a, replies t (k a)) → replies t (m ≫= k).
Proof.
  intros Hk w j w'. unfold mbind, M_bind. destruct (m w) as [[a|e|msg] w1]; [apply Hk|done..].
Qed.
Lemma replies_or_status {A} t (m : M S A) code (k : A → M S (Z + Reply)) :
  (∀ a, replies t (k a)) → replies t (or_status m code k).
Proof. intros Hk. apply replies_bind. intros [e|a]; [apply replies_code|apply Hk]. Qed.
Lemma replies_ok_or {A} t (o : option A) code (k : A → M S (Z + Reply)) :
  (∀ a, replies t (k a)) → replies t (ok_or o code k).
Proof. intros Hk. destruct o; [apply Hk|apply replies_code]. Qed.
Lemma replies_lookup t id_text (k : BackupEntry → M S (Z + Reply)) :
  (∀ e, replies t (k e)) →
  replies t (ok_or (uuid_parse_str id_text) 400 (λ i,
    or_status (repo_get_backup i) 500 (λ found, ok_or found 404 k))).
Proof.
  intros Hk. apply replies_ok_or. intros i. apply replies_or_status. intros o. by apply replies_ok_or.
Qed.

Lemma replies_rollback i hs : replies (Some rollback_type) (rollback_backup root state i hs).
Proof.
  unfold rollback_backup. do 2 (destruct (negb _); [apply replies_code|]).
  apply replies_bind. intros [|]; [apply replies_code|]. apply replies_ok_or. intros u.
  apply replies_or_status. intros e. unfold push_rolled_back. cbv zeta.
  assert (replies (Some rollback_type) (t ← now; modify (set_gate (Some t));;
    mret (inr (JsonReply (json_object
      [("rolled_back_to", JString (uuid_to_string (id e)));
       ("uploaded", JBool (bool_decide (is_Some (app_sync_config state))))]))))) as Hend.
  { do 2 (apply replies_bind; intros ?). apply replies_ret. intros j [= <-]. by exists rollback_type. }
  destruct (app_sync_config state); [|apply replies_bind; by intros _].
  apply replies_bind. intros [err|b]; [apply replies_bind; intros _; apply replies_code|].
  apply replies_bind. intros [err|[]]; apply replies_bind; intros _; [apply replies_code|apply Hend].
Qed.

Lemma replies_on_get t m h : replies t h → replies t (on_get m h).
Proof. intros Hh. destruct m; try done; apply replies_code. Qed.
Lemma replies_on_post t m h : replies t h → replies t (on_post m h).
Proof. intros Hh. destruct m; try done; apply replies_code. Qed.

Lemma handle_replies rq r : route_of (rq_path rq) = Some r → replies (reply_type r) (handle root state rq).
Proof.
  intros Hr. unfold handle. rewrite Hr. cbv zeta.
  destruct r as [|seg|seg|seg| | |seg]; cbn [reply_type]; try apply replies_on_get;
    try (apply replies_on_post); try (apply replies_ok_or; intros i).
  - apply replies_or_status. intros l. by apply replies_ret.
  - apply replies_lookup. intros e. by apply replies_ret.
  - unfold download_backup. destruct (negb _); [apply replies_code|]. apply replies_lookup. intros e.
    case_decide; [apply replies_code|]. apply replies_or_status. intros b.
    apply replies_ok_or. intros a. by apply replies_ret.
  - apply replies_rollback.
  - apply replies_ret. intros j [= <-]. by exists healthz_type.
  - unfold api_list_backups. destruct (negb _); [apply replies_code|]. apply replies_or_status. intros l.
    apply replies_ret. intros j [= <-]. eexists. split; [done|]. cbn [typed].
    induction l as [|b l IH]; [done|]. rewrite fmap_cons. cbn [forallb]. by rewrite item_typed.
  - unfold api_backup_detail. destruct (negb _); [apply replies_code|]. apply replies_lookup. intros e.
    apply replies_ret. intros j [= <-]. eexists. split; [done|]. apply entry_typed.
Qed.
End replies.
