(* ===== verification/IntegrationTests.v ===== *)
(** * The integration tests

    [crates/daemon/tests/integration.rs]: each test opens a repository in an empty
    directory, takes backups of sample collections, starts a server on it and sends
    requests.  Here they are programs over the model, with [handle] in the place of
    the connection between the test's client and the server, and they pass: for
    every clock, identifier generator and (where the test does not open the SQLite
    file itself) store, when nothing fails. *)

From S2P Require Import Prelude Calendar World Crates Core Store Sqlite Stats Sample Repository.
From S2P Require Import RepositoryInv RepositoryThms RepositoryOps History Sync UnitTests.
From S2P Require Import Server ServerThms Html ApiTypes.

(** ** The client's side of a reply *)

Definition resp_code (r : Z + Reply) : Z := match r with inl code => code | inr _ => 200 end.

Section client.
Context `{!SerdeJson, !AskamaCrate}.

(** [Response::json] as a [serde_json::Value]. *)
Definition resp_json (r : Z + Reply) : option Json :=
  match r with inr (JsonReply j) => json_from_str (json_to_string j) | _ => None end.
(** [Response::json] as a [Vec<serde_json::Value>]. *)
Definition resp_array (r : Z + Reply) : option (list Json) :=
  match resp_json r with Some (JArray l) => Some l | _ => None end.
(** [Response::text] of a page. *)
Definition resp_text (r : Z + Reply) : string :=
  match r with
  | inr (IndexPage items) => index_html items
  | inr (DetailPage v csrf) => detail_html v csrf
  | _ => ""
  end.
(** The headers of a download and its bytes. *)
Definition resp_file (r : Z + Reply) : option (string * string * bytes) :=
  match r with inr (FileReply ct cd b) => Some (ct, cd, b) | _ => None end.
(** [body[k] == s] for a [serde_json::Value]. *)
Definition field_is (k s : string) (j : Json) : bool :=
  match json_get k j with Some (JString s') => bool_decide (s' = s) | _ => false end.
End client.

(** ** The tests *)

Section tests.
Context {S : Type} `{!Env, !Chrono, !UuidCrate, !SerdeJson, !HashCrates, !Zstd, !SqlEngine,
  !CollectionFile, !SqliteFile, !HttpCrates, !TarCrate, !AxumCrate, !AskamaCrate}.
Context `{!MetadataStore S, !StoreOpen S}.
Context (root : Path).

(** The server of a test has a gate of its own and no AnkiWeb account. *)
Definition start_server (api_token csrf_token : option string) : M S AppState :=
  modify (set_gate None);;
  mret {| csrf_token := csrf_token; api_token := api_token; app_sync_config := None |}.
Definition request_of (m : Method) (path : string) (headers : Headers) : Request :=
  {| rq_method := m; rq_path := path; rq_headers := headers |}.
Definition send (srv : AppState) (m : Method) (path : string) (headers : Headers) : M S (Z + Reply) :=
  handle root srv (request_of m path headers).
(** [create_backup]. *)
Definition backup_data (data : bytes) : M S RunOnceOutcome :=
  unwrap (run_once root (test_payload data) (content_hash data)).
Definition expect_created (o : RunOnceOutcome) : M S BackupEntry :=
  match o with RCreated e => mret e | RSkipped _ => panic "expected created" end.
Definition assert_code (r : Z + Reply) (code : Z) : M S () := assert_that (bool_decide (resp_code r = code)).

Definition test_healthz : M S () :=
  unwrap (open_repository root store_new);;
  srv ← start_server None None;
  resp ← send srv GET "/api/v1/healthz" [];
  assert_code resp 200;;
  body ← unwrap (from_option ["error decoding response body"] (resp_json resp));
  assert_that (field_is "status" "ok" body).

Definition test_index_html : M S () :=
  unwrap (open_repository root store_new);;
  _ ← backup_data sample_collection;
  srv ← start_server None None;
  resp ← send srv GET "/" [];
  assert_code resp 200;;
  let body := resp_text resp in
  assert_that (contains body "Anki Backups");;
  assert_that (contains body "3 cards").

Definition test_api_list_backups : M S () :=
  unwrap (open_repository root store_new);;
  _ ← backup_data sample_collection;
  srv ← start_server None None;
  resp ← send srv GET "/api/v1/backups" [];
  assert_code resp 200;;
  body ← unwrap (from_option ["error decoding response body"] (resp_array resp));
  assert_that (bool_decide (length body = 1));;
  match body !! 0 with
  | None => panic "index out of bounds"
  | Some item => assert_that (field_is "status" "Created" item)
  end.

Definition test_api_backup_detail : M S () :=
  unwrap (open_repository root store_new);;
  outcome ← backup_data sample_collection;
  e ← expect_created outcome;
  srv ← start_server None None;
  resp ← send srv GET ("/api/v1/backups/" +:+ uuid_to_string (id e)) [];
  assert_code resp 200;;
  body ← unwrap (from_option ["error decoding response body"] (resp_json resp));
  assert_that (field_is "id" (uuid_to_string (id e)) body).

Definition test_download : M S () :=
  unwrap (open_repository root store_new);;
  outcome ← backup_data sample_collection;
  e ← expect_created outcome;
  srv ← start_server None None;
  resp ← send srv GET ("/backups/" +:+ uuid_to_string (id e) +:+ "/download") [];
  assert_code resp 200;;
  match resp_file resp with
  | None => panic "called `Option::unwrap()` on a `None` value"
  | Some (ct, cd, bytes) =>
      assert_that (bool_decide (ct = "application/zstd"));;
      assert_that (contains cd ".tar.zst");;
      assert_that (negb (bool_decide (bytes = [])))
  end.

Definition test_rollback : M S () :=
  unwrap (open_repository root store_new);;
  outcome ← backup_data sample_collection;
  e ← expect_created outcome;
  srv ← start_server None None;
  resp ← send srv POST ("/backups/" +:+ uuid_to_string (id e) +:+ "/rollback") [];
  assert_code resp 200;;
  body ← unwrap (from_option ["error decoding response body"] (resp_json resp));
  assert_that (field_is "rolled_back_to" (uuid_to_string (id e)) body).

Definition test_unchanged_content_skipped : M S () :=
  unwrap (open_repository root store_new);;
  first ← backup_data sample_collection;
  assert_that (is_created first);;
  second ← backup_data sample_collection;
  assert_that (is_skipped second).

Definition test_changed_content_creates_new : M S () :=
  unwrap (open_repository root store_new);;
  _ ← backup_data sample_collection;
  second ← backup_data sample_collection_v2;
  assert_that (is_created second).

Definition test_api_auth_rejected_without_token : M S () :=
  unwrap (open_repository root store_new);;
  _ ← backup_data sample_collection;
  srv ← start_server (Some "secret-token") None;
  resp ← send srv GET "/api/v1/backups" [];
  assert_code resp 401.

Definition test_api_auth_accepted_with_token : M S () :=
  unwrap (open_repository root store_new);;
  _ ← backup_data sample_collection;
  srv ← start_server (Some "secret-token") None;
  resp ← send srv GET "/api/v1/backups" [("authorization", "Bearer secret-token")];
  assert_code resp 200.

Definition test_csrf_on_rollback : M S () :=
  unwrap (open_repository root store_new);;
  outcome ← backup_data sample_collection;
  e ← expect_created outcome;
  srv ← start_server None (Some "csrf-secret");
  resp ← send srv POST ("/backups/" +:+ uuid_to_string (id e) +:+ "/rollback") [];
  assert_code resp 403;;
  resp ← send srv POST ("/backups/" +:+ uuid_to_string (id e) +:+ "/rollback")
           [("x-csrf-token", "csrf-secret")];
  assert_code resp 200.

Definition test_backup_detail_html : M S () :=
  unwrap (open_repository root store_new);;
  outcome ← backup_data sample_collection;
  e ← expect_created outcome;
  srv ← start_server None None;
  resp ← send srv GET ("/backups/" +:+ uuid_to_string (id e)) [];
  assert_code resp 200;;
  let body := resp_text resp in
  assert_that (contains body "Backup");;
  assert_that (contains body "Default");;
  assert_that (contains body "Spanish").
End tests.

(** [test_retention_pruning] opens the SQLite file itself to set a row back. *)
Section retention.
Context `{!Env, !Chrono, !UuidCrate, !SerdeJson, !HashCrates, !SqlEngine, !CollectionFile, !SqliteFile}.
Context (root : Path).

Definition test_retention_pruning : M SqliteDb () :=
  unwrap (open_repository root sqlite_new);;
  outcome ← backup_data root sample_collection;
  entry ← expect_created outcome;
  unwrap io_step;;
  t ← now;
  match duration_days 200 ≫= datetime_sub t with
  | None => panic "DateTime - TimeDelta overflowed"
  | Some old =>
      unwrap (update_created_at (to_rfc3339 old) (uuid_to_string (id entry)));;
      removed ← unwrap (prune_created_older_than_days root 90);
      assert_that (bool_decide (removed = 1));;
      remaining ← unwrap repo_list_backups;
      assert_that (bool_decide (remaining = []))
  end.
End retention.

(** ** Text inside a page *)

Definition occurs (sub s : string) : Prop := ∃ a b, s = a +:+ sub +:+ b.

Lemma prefix_app sub b : String.prefix sub (sub +:+ b) = true.
Proof.
  induction sub as [|c sub IH]; [by destruct b|]. rewrite string_app_cons. simpl.
  destruct (Ascii.ascii_dec c c); [done|congruence].
Qed.
Lemma prefix_split sub s : String.prefix sub s = true → ∃ b, s = sub +:+ b.
Proof.
  revert s. induction sub as [|c sub IH]; intros s; [by exists s|].
  destruct s as [|d s]; [done|]. simpl. destruct (Ascii.ascii_dec c d) as [->|]; [|done].
  intros (b & ->)%IH. by exists b.
Qed.
Lemma occurs_contains sub s : occurs sub s → contains s sub = true.
Proof.
  intros (a & b & ->). apply bool_decide_eq_true. induction a as [|c a IH].
  - rewrite string_app_nil_l. pose proof (prefix_app sub b) as Hp.
    destruct (sub +:+ b) as [|c s] eqn:Hs.
    + destruct sub; [|done]. by eexists.
    + cbn [String.index]. rewrite Hp. by eexists.
  - rewrite string_app_cons. cbn [String.index]. destruct (String.prefix _ _); [by eexists|].
    destruct IH as [n ->]. by eexists.
Qed.
Lemma contains_occurs sub s : contains s sub = true → occurs sub s.
Proof.
  unfold contains. rewrite bool_decide_eq_true. induction s as [|c s IH]; cbn [String.index].
  - destruct sub; [|intros [? [=]]]. by exists "", "".
  - destruct (String.prefix sub (String c s)) eqn:Hp.
    + apply prefix_split in Hp as [b ->]. by exists "", b.
    + destruct (String.index 0 sub s); [|intros [? [=]]]. intros _.
      destruct IH as (a & b & ->); [by eexists|]. by exists (String c a), b.
Qed.
Lemma occurs_l sub s1 s2 : occurs sub s1 → occurs sub (s1 +:+ s2).
Proof. intros (a & b & ->). exists a, (b +:+ s2). by rewrite !string_app_assoc. Qed.
Lemma occurs_r sub s1 s2 : occurs sub s2 → occurs sub (s1 +:+ s2).
Proof. intros (a & b & ->). exists (s1 +:+ a), b. by rewrite !string_app_assoc. Qed.

Section pages.
Context `{!AskamaCrate, !AskamaLaws}.

Lemma render_app ps1 ps2 : render (ps1 ++ ps2) = render ps1 +:+ render ps2.
Proof. induction ps1 as [|p ps IH]; [done|]. cbn [render app]. by rewrite IH, string_app_assoc. Qed.
(** Text of a literal, and of data without special characters. *)
Lemma occurs_lit sub s ps : Lit s ∈ ps → contains s sub = true → occurs sub (render ps).
Proof.
  intros Hin Hs. apply list_elem_of_split in Hin as (l1 & l2 & ->). rewrite render_app. apply occurs_r.
  cbn [render piece_text]. apply occurs_l. by apply contains_occurs.
Qed.
Lemma occurs_data s ps : Data s ∈ ps → has_special s = false → occurs s (render ps).
Proof.
  intros Hin Hs. apply list_elem_of_split in Hin as (l1 & l2 & ->). rewrite render_app. apply occurs_r.
  cbn [render piece_text]. rewrite escape_plain by done. by exists "", (render l2).
Qed.

Lemma index_title items : occurs "Anki Backups" (index_html items).
Proof.
  unfold index_html, index_template. rewrite render_app. apply occurs_l.
  eapply occurs_lit; [left|]. vm_compute. reflexivity.
Qed.
(** The line of a backup says how many cards it has. *)
Lemma index_cards items b : b ∈ items → item_total_cards b = 3%Z → occurs "3 cards" (index_html items).
Proof.
  intros Hin Hc. unfold index_html, index_template. rewrite !render_app. apply occurs_r, occurs_l.
  apply list_elem_of_split in Hin as (l1 & l2 & ->).
  assert (occurs "3 cards" (render ((l1 ++ b :: l2) ≫= index_item))) as Hitem.
  { rewrite bind_app, bind_cons, !render_app. apply occurs_r, occurs_l. unfold index_item. rewrite render_app.
    apply occurs_l. rewrite Hc. do 7 (cbn [render]; apply occurs_r). cbn [render piece_text].
    exists "". eexists. change (pretty 3%Z) with "3". reflexivity. }
  destruct (l1 ++ b :: l2) as [|b' l] eqn:Hl; [by destruct l1|]. rewrite !render_app.
  apply occurs_r, occurs_l. exact Hitem.
Qed.
Lemma detail_title v csrf : occurs "Backup" (detail_html v csrf).
Proof.
  unfold detail_html, detail_template. rewrite render_app. apply occurs_l.
  eapply occurs_lit; [left|]. vm_compute. reflexivity.
Qed.
Lemma detail_deck v csrf d :
  d ∈ view_deck_stats v → has_special (deck_name d) = false → occurs (deck_name d) (detail_html v csrf).
Proof.
  intros Hin Hs. unfold detail_html, detail_template. rewrite !render_app. apply occurs_r, occurs_r, occurs_l.
  unfold detail_decks. destruct (view_deck_stats v) as [|d' ds] eqn:Hv; [by apply elem_of_nil in Hin|].
  rewrite !render_app. apply occurs_r, occurs_l. apply occurs_data; [|done].
  apply list_elem_of_bind. exists d. split; [|done]. unfold deck_row. set_solver.
Qed.
End pages.

(** ** A repository with one backup, behind a server *)

Section passes.
Context {S : Type} `{!Env, !Chrono, !UuidCrate, !SerdeJson, !HashCrates, !Zstd, !SqlEngine,
  !CollectionFile, !SqliteFile, !HttpCrates, !TarCrate, !AxumCrate, !AskamaCrate}.
Context `{!MetadataStore S, !StoreModel S, !StoreOpen S}.
Context `{!ChronoLaws, !UuidLaws, !UuidTextLaws, !SerdeJsonLaws, !ZstdLaws, !SqlEngineLaws,
  !CollectionFileLaws, !SqliteFileLaws, !HeaderLaws, !AxumLaws, !AskamaLaws}.
Context `{!StoreLaws S, !StoreOpenLaws S}.
Context (root : Path).
Implicit Types w : World S.

Abbreviation entries w := (st_entries (w_db w)).

(** What the tests need of the machine: nothing fails, identifiers and clock
    readings are in range, and [serde_json] reads the deck column. *)
Record sound_machine : Prop := {
  sm_faults : fault_free;
  sm_uuids : uuids_ok;
  sm_clock n : rfc3339_range (clock n);
  sm_json : json_from_str sample_decks_text = Some sample_decks;
}.
Context (Hm : sound_machine).

(** After a first backup of the sample, before any rollback. *)
Record one_backup (e : BackupEntry) w : Prop := {
  ob_inv : repo_inv content_hash root w;
  ob_entries : entries w = [stored_entry e];
  ob_id : uuid_ok (id e);
  ob_status : status e = Created;
  ob_hash : content_hash_of e = content_hash sample_collection;
  ob_stats : stats e = Some sample_stats;
  ob_tidy : tidy root (w_fs w);
  ob_file : w_fs w !! backup_file_path root e = Some (File sample_collection);
  ob_folder : w_fs w !! backup_dir root (timestamp_dir e) = Some Dir;
  ob_size : is_i64 (size_bytes e);
  ob_duration : sync_duration_ms e = Some 1%Z;
}.

Lemma test_payload_ok data : payload_ok (test_payload data).
Proof. by intros d [= <-]. Qed.

(** The beginning that the tests share. *)
Lemma wp_first_backup {B} (k : RunOnceOutcome → M S B) (Q : Res B → World S → Prop) w :
  blank root w →
  (∀ e w1 w2, open_repository root store_new w = (Ok (), w1) →
     run_once root (test_payload sample_collection) (content_hash sample_collection) w1 =
       (Ok (RCreated e), w2) →
     one_backup e w2 → st_events (w_db w2) = st_events (w_db w) → wp (k (RCreated e)) Q w2) →
  wp (unwrap (open_repository root store_new);; o ← backup_data root sample_collection; k o) Q w.
Proof.
  intros Hblank Hk. destruct Hm as [Hff Huu Hclk Hjson]. wp_steps. apply wp_unwrap.
  pose proof (open_blank content_hash root w Hff Hblank) as Hopen. unfold wp in Hopen.
  destruct (open_repository root store_new w) as [r w1] eqn:Hrun1. unfold wp at 1. rewrite Hrun1.
  cbn [fst snd] in *. destruct Hopen as (-> & Hinv1 & He1 & _ & Hev1 & Htidy1).
  split; [by eexists|]. cbn [bind_post]. wp_steps. unfold backup_data. apply wp_unwrap.
  pose proof (first_backup content_hash root w1 (test_payload sample_collection) _ Hff Hinv1 He1 Huu
    (Hclk _) Htidy1 (test_payload_ok _) eq_refl (sample_valid Hjson)) as Hfirst. unfold wp in Hfirst.
  destruct (run_once _ _ _ w1) as [r w2] eqn:Hrun2. unfold wp at 1. cbn [payload_bytes test_payload] in *.
  rewrite Hrun2 in *. cbn [fst snd] in *.
  destruct Hfirst as (_ & Hinv2 & e & -> & Hpost & Hev2 & Htidy2).
  split; [by eexists|]. cbn [bind_post]. apply (Hk e w1 w2 eq_refl Hrun2); [|congruence].
  assert (entries w2 = [stored_entry e]) as He2.
  { pose proof (cp_entries _ _ _ _ _ _ Hpost) as Hp. rewrite He1 in Hp. symmetry in Hp.
    by apply Permutation_length_1_inv in Hp. }
  destruct (cp_stats _ _ _ _ _ _ Hpost) as (s & Hs & Hdesc).
  pose proof (cp_file _ _ _ _ _ _ Hpost) as Hfile. cbn [payload_bytes test_payload] in Hfile.
  split; try done.
  - apply (st_entries_ok (w_db w2) (stored_entry e)); [apply Hinv2|]. rewrite He2. left.
  - apply (cp_status _ _ _ _ _ _ Hpost).
  - apply (cp_hash _ _ _ _ _ _ Hpost).
  - rewrite Hs. f_equal. by eapply (sample_described Hjson).
  - apply (cp_folder _ _ _ _ _ _ Hpost).
  - rewrite (cp_size _ _ _ _ _ _ Hpost). apply as_i64_range.
  - apply (cp_duration _ _ _ _ _ _ Hpost).
Qed.

Lemma one_backup_gate e w : one_backup e w → one_backup e (set_gate None w).
Proof. intros []. split; try done. by apply (repo_inv_same content_hash root w). Qed.

(** Starting a server. *)
Lemma wp_start_server {B} api csrf (k : AppState → M S B) (Q : Res B → World S → Prop) w :
  wp (k {| csrf_token := csrf; api_token := api; app_sync_config := None |}) Q (set_gate None w) →
  wp (start_server api csrf ≫= k) Q w.
Proof. intros Hk. unfold start_server. wp_steps. exact Hk. Qed.
Lemma wp_assert_code (r : Z + Reply) code (Q : Res () → World S → Prop) w :
  resp_code r = code → Q (Ok ()) w → wp (assert_code r code) Q w.
Proof. intros Hr HQ. apply wp_assert_that; [by apply bool_decide_eq_true|done]. Qed.
Lemma resp_json_typed t j : typed t j = true → json_small 127 j → resp_json (inr (JsonReply j)) = Some j.
Proof.
  intros Hj Hs. cbn [resp_json]. apply json_from_to_string. split; [by eapply typed_plain|done].
Qed.

(** A request with the identifier of the backup in its path. *)
Lemma id_plain e w : one_backup e w →
  has_char "/" (uuid_to_string (id e)) = false ∧ uuid_to_string (id e) ≠ "" ∧
  percent_decode (uuid_to_string (id e)) = Some (uuid_to_string (id e)).
Proof.
  intros Hob. destruct (uuid_text_plain (id e) (ob_id _ _ Hob)) as [Hne Hp].
  split_and!; [by eapply all_chars_has_char|done|by apply percent_decode_plain].
Qed.

(** The backup is found. *)
Lemma wp_lookup {B} e (k : BackupEntry → M S (Z + B)) (Q : Res (Z + B) → World S → Prop) w :
  one_backup e w → (∀ w', untouched w w' → wp (k (stored_entry e)) Q w') →
  wp (ok_or (uuid_parse_str (uuid_to_string (id e))) 400 (λ i,
        or_status (repo_get_backup i) 500 (λ found, ok_or found 404 k))) Q w.
Proof.
  intros Hob Hk. pose proof (ob_id _ _ Hob) as Hid. rewrite uuid_parse_to_string by done. cbn [ok_or].
  apply wp_or_status. assert (st_wf (w_db w)) as Hwf by apply (ob_inv _ _ Hob).
  eapply wp_mono; [apply wp_and; [by apply get_backup_law|by apply get_backup_total, Hm]|].
  intros r w' [(Hdo & Hdb & Hr) [o ->]]. rewrite (ob_entries _ _ Hob) in Hr.
  destruct o as [e'|]; cbn [ok_or].
  - destruct Hr as [->%list_elem_of_singleton _]. apply Hk. by apply untouched_db_only.
  - exfalso. apply Hr. by apply list_elem_of_singleton.
Qed.
(** The list is the backup. *)
Lemma wp_list {B} e (k : list BackupEntry → M S (Z + B)) (Q : Res (Z + B) → World S → Prop) w :
  one_backup e w → (∀ w', untouched w w' → wp (k [stored_entry e]) Q w') →
  wp (or_status repo_list_backups 500 k) Q w.
Proof.
  intros Hob Hk. apply wp_or_status. assert (st_wf (w_db w)) as Hwf by apply (ob_inv _ _ Hob).
  eapply wp_mono; [apply wp_and; [by apply list_backups_law|by apply list_backups_total, Hm]|].
  intros r w' [(Hdo & Hdb & Hr) [l ->]]. destruct Hr as [Hl _]. rewrite (ob_entries _ _ Hob) in Hl. symmetry in Hl.
  apply Permutation_length_1_inv in Hl as ->. apply Hk. by apply untouched_db_only.
Qed.

(** ** Each test passes *)

Definition passes (m : M S ()) w : Prop := wp m (λ r _, r = Ok ()) w.

(** A request goes to the handler of its route. *)
Ltac to_route H :=
  unfold send at 1, handle at 1; cbn [request_of rq_path rq_method rq_headers]; cbv zeta; rewrite H;
  cbn [on_get on_post].

Lemma test_healthz_passes w : blank root w → passes (test_healthz root) w.
Proof.
  intros Hblank. unfold passes, test_healthz. wp_steps. apply wp_unwrap.
  eapply wp_mono; [apply (open_blank content_hash root w (sm_faults Hm) Hblank)|].
  intros r w1 (-> & _). split; [by eexists|]. cbn [bind_post]. apply wp_start_server.
  assert (route_of "/api/v1/healthz" = Some HealthzRoute) as Hr by reflexivity. to_route Hr.
  unfold healthz. wp_steps. apply wp_assert_code; [done|]. wp_steps. apply wp_unwrap.
  rewrite (resp_json_typed healthz_type) by done.
  wp_steps. split; [by eexists|]. wp_steps. by apply wp_assert_that.
Qed.
Lemma test_index_html_passes w : blank root w → passes (test_index_html root) w.
Proof.
  intros Hblank. unfold passes, test_index_html. apply wp_first_backup; [done|].
  intros e w1 w2 _ _ Hob%one_backup_gate _. apply wp_start_server.
  assert (route_of "/" = Some IndexRoute) as Hr by reflexivity. to_route Hr. unfold index. wp_steps.
  eapply wp_list; [done|]. intros w3 _. wp_steps. apply wp_assert_code; [done|]. wp_steps.
  apply wp_assert_that; [by apply occurs_contains, index_title|]. wp_steps.
  apply wp_assert_that; [|done]. apply occurs_contains.
  apply (index_cards _ (list_item (stored_entry e))); [left|]. cbn. by rewrite (ob_stats _ _ Hob).
Qed.
(** The documents about a backup of the sample are within the parser's limits. *)
Lemma list_small e : is_i64 (size_bytes e) → stats e = Some sample_stats →
  json_small 127 (JArray [api_list_item e]).
Proof.
  intros Hz Hs. destruct e as [i t dir h st sr rev dur size s]. cbn in Hs, Hz. subst s.
  change (Is_true (json_small 125 (JInt size) && true && true)). rewrite !andb_True. split_and!; try done.
  by apply json_small_int.
Qed.
Lemma detail_small e : is_i64 (size_bytes e) → stats e = Some sample_stats →
  sync_duration_ms e = Some 1%Z → json_small 127 (to_value (entry_to_json e)).
Proof.
  intros Hz Hs Hd. destruct e as [i t dir h st sr rev dur size s]. cbn in Hs, Hz, Hd. subst s dur.
  assert (json_small 126 (JInt size)) as Hsize by (by apply json_small_int).
  destruct st, sr as [[]|], rev; (change (Is_true (json_small 126 (JInt size) && true)));
    rewrite andb_True; by split.
Qed.
Lemma list_typed e : typed (TList item_type) (JArray [api_list_item e]) = true.
Proof. cbn [typed forallb]. by rewrite item_typed. Qed.
Lemma test_api_list_backups_passes w : blank root w → passes (test_api_list_backups root) w.
Proof.
  intros Hblank. unfold passes, test_api_list_backups. apply wp_first_backup; [done|].
  intros e w1 w2 _ _ Hob%one_backup_gate _. apply wp_start_server.
  assert (route_of "/api/v1/backups" = Some ApiListRoute) as Hr by reflexivity. to_route Hr.
  unfold api_list_backups. cbn [require_api_auth api_token negb]. wp_steps.
  eapply wp_list; [done|]. intros w3 _. wp_steps. apply wp_assert_code; [done|]. wp_steps. apply wp_unwrap.
  unfold resp_array. rewrite (resp_json_typed (TList item_type)); [|apply list_typed|apply list_small; apply Hob].
  wp_steps. split; [by eexists|]. wp_steps. apply wp_assert_that; [done|]. wp_steps.
  apply wp_assert_that; [|done].
  change (bool_decide (status_debug (status e) = "Created") = true). by rewrite (ob_status _ _ Hob).
Qed.
Lemma test_api_backup_detail_passes w : blank root w → passes (test_api_backup_detail root) w.
Proof.
  intros Hblank. unfold passes, test_api_backup_detail. apply wp_first_backup; [done|].
  intros e w1 w2 _ _ Hob%one_backup_gate _. cbn [expect_created]. wp_steps. apply wp_start_server.
  destruct (id_plain _ _ Hob) as (Hslash & Hne & Hdec). to_route (api_detail_route _ Hslash Hne).
  unfold with_id. rewrite Hdec. cbn [ok_or]. unfold api_backup_detail.
  cbn [require_api_auth api_token negb]. wp_steps. eapply wp_lookup; [done|]. intros w3 _. wp_steps.
  apply wp_assert_code; [done|]. wp_steps. apply wp_unwrap.
  rewrite (resp_json_typed entry_type); [|apply entry_typed|apply detail_small; apply Hob].
  wp_steps. split; [by eexists|]. wp_steps. apply wp_assert_that; [|done].
  change (bool_decide (uuid_to_string (id e) = uuid_to_string (id e)) = true). by apply bool_decide_eq_true.
Qed.
Lemma test_download_passes w : blank root w → passes (test_download root) w.
Proof.
  intros Hblank. unfold passes, test_download. apply wp_first_backup; [done|].
  intros e w1 w2 _ _ Hob%one_backup_gate _. cbn [expect_created]. wp_steps. apply wp_start_server.
  destruct (id_plain _ _ Hob) as (Hslash & Hne & Hdec). to_route (download_route _ Hslash Hne).
  unfold with_id. rewrite Hdec. cbn [ok_or]. unfold download_backup.
  cbn [require_api_auth api_token negb]. wp_steps. eapply wp_lookup; [done|]. intros w3 (Hfs & _).
  rewrite decide_False by (intros Hst; exact (Hst (ob_status _ _ Hob))). apply wp_or_status.
  change (backup_file_path root (stored_entry e)) with (backup_file_path root e).
  eapply wp_mono; [apply fs_read_spec|].
  intros r w4 [-> Hread].
  destruct r as [b|err|]; [|exfalso|done].
  2: { rewrite Hfs in Hread. exact (Hread (sm_faults Hm _) _ (ob_file _ _ Hob)). }
  destruct (zstd_encode_total (tar_single "collection.anki2" 420 b)) as [a Ha].
  unfold archive. rewrite Ha. cbn [ok_or].
  wp_steps. apply wp_assert_code; [done|]. wp_steps. cbn [resp_file]. wp_steps.
  apply wp_assert_that; [done|]. wp_steps. apply wp_assert_that; [|wp_steps; apply wp_assert_that; [|done]].
  - apply occurs_contains. exists ("attachment; filename=backup-" +:+ uuid_to_string (id e)), "".
    by rewrite string_app_nil_r, string_app_assoc.
  - destruct (zstd_encode_magic _ _ Ha) as [k Hk]. by rewrite Hk.
Qed.
Lemma test_backup_detail_html_passes w : blank root w → passes (test_backup_detail_html root) w.
Proof.
  intros Hblank. unfold passes, test_backup_detail_html. apply wp_first_backup; [done|].
  intros e w1 w2 _ _ Hob%one_backup_gate _. cbn [expect_created]. wp_steps. apply wp_start_server.
  destruct (id_plain _ _ Hob) as (Hslash & Hne & Hdec). to_route (detail_route _ Hslash Hne).
  unfold with_id. rewrite Hdec. cbn [ok_or]. unfold backup_detail. wp_steps.
  eapply wp_lookup; [done|]. intros w3 _. wp_steps. apply wp_assert_code; [done|]. wp_steps.
  assert (view_deck_stats (detail_view (stored_entry e)) = deck_stats sample_stats) as Hv.
  { cbn. by rewrite (ob_stats _ _ Hob). }
  apply wp_assert_that; [by apply occurs_contains, detail_title|]. wp_steps.
  apply wp_assert_that; [|wp_steps; apply wp_assert_that; [|done]]; apply occurs_contains.
  - apply (detail_deck _ _ (deck 10 "Default" 2)); [rewrite Hv; left|done].
  - apply (detail_deck _ _ (deck 20 "Spanish" 1)); [rewrite Hv; right; left|done].
Qed.
Lemma test_api_auth_rejected_passes w : blank root w → passes (test_api_auth_rejected_without_token root) w.
Proof.
  intros Hblank. unfold passes, test_api_auth_rejected_without_token. apply wp_first_backup; [done|].
  intros e w1 w2 _ _ _ _. apply wp_start_server.
  assert (route_of "/api/v1/backups" = Some ApiListRoute) as Hr by reflexivity. to_route Hr.
  unfold api_list_backups. cbn [require_api_auth api_token get_header]. wp_steps. by apply wp_assert_code.
Qed.
Lemma test_api_auth_accepted_passes w : blank root w → passes (test_api_auth_accepted_with_token root) w.
Proof.
  intros Hblank. unfold passes, test_api_auth_accepted_with_token. apply wp_first_backup; [done|].
  intros e w1 w2 _ _ Hob%one_backup_gate _. apply wp_start_server.
  assert (route_of "/api/v1/backups" = Some ApiListRoute) as Hr by reflexivity. to_route Hr.
  unfold api_list_backups.
  assert (header_to_str "Bearer secret-token" = Some "Bearer secret-token") as Hh
    by (by apply header_to_str_visible).
  assert (require_api_auth {| csrf_token := None; api_token := Some "secret-token"; app_sync_config := None |}
    [("authorization", "Bearer secret-token")] = true) as ->.
  { unfold require_api_auth. cbn [api_token].
    change (get_header "authorization" _) with (Some "Bearer secret-token"). cbn [mbind option_bind].
    by rewrite Hh. }
  cbn [negb]. wp_steps. eapply wp_list; [done|]. intros w3 _. wp_steps. by apply wp_assert_code.
Qed.

(** A rollback that the guards let through, with no account to upload to. *)
Lemma rollback_accepted srv hs e w :
  one_backup e w → w_gate w = None → st_events (w_db w) = [] → require_api_auth srv hs = true →
  csrf_accepted srv hs = true → app_sync_config srv = None →
  wp (rollback_backup root srv (uuid_to_string (id e)) hs)
    (λ r _, r = Ok (inr (rollback_reply srv (stored_entry e)))) w.
Proof.
  intros Hob Hg Hev Ha Hc Hcfg. unfold rollback_backup. rewrite Ha, Hc. cbn [negb].
  unfold gate_closed. wp_steps. rewrite Hg. wp_steps. pose proof (ob_id _ _ Hob) as Hid.
  rewrite uuid_parse_to_string by done. cbn [ok_or]. apply wp_or_status. destruct Hm as [Hff Huu _ _].
  eapply wp_mono; [apply (rollback_to_total content_hash root (id e) (stored_entry e)); try done|].
  - apply (ob_inv _ _ Hob).
  - split_and!; [rewrite (ob_entries _ _ Hob); left|done|apply (ob_status _ _ Hob)].
  - by apply (ob_tidy _ _ Hob "x").
  - intros n _. rewrite Hev. apply not_elem_of_nil.
  - intros r w1 ->. unfold push_rolled_back, rollback_reply. rewrite Hcfg. by wp_steps.
Qed.
Lemma send_rollback srv e w hs : one_backup e w →
  send root srv POST ("/backups/" +:+ uuid_to_string (id e) +:+ "/rollback") hs =
    rollback_backup root srv (uuid_to_string (id e)) hs.
Proof.
  intros Hob. destruct (id_plain _ _ Hob) as (Hslash & Hne & Hdec). to_route (rollback_route _ Hslash Hne).
  unfold with_id. by rewrite Hdec.
Qed.
Lemma test_rollback_passes w : blank root w → st_events (w_db w) = [] → passes (test_rollback root) w.
Proof.
  intros Hblank Hev. unfold passes, test_rollback. apply wp_first_backup; [done|].
  intros e w1 w2 _ _ Hob%one_backup_gate Hev2. cbn [expect_created]. wp_steps. apply wp_start_server.
  wp_steps. rewrite (send_rollback _ _ _ _ Hob).
  eapply wp_mono; [apply rollback_accepted; try done; cbn [w_db set_gate]; congruence|]. intros r w3 ->. wp_steps.
  apply wp_assert_code; [done|]. wp_steps. apply wp_unwrap.
  unfold rollback_reply. rewrite (resp_json_typed rollback_type) by done. wp_steps. split; [by eexists|]. wp_steps.
  apply wp_assert_that; [|done].
  change (bool_decide (uuid_to_string (id e) = uuid_to_string (id e)) = true). by apply bool_decide_eq_true.
Qed.
Lemma test_csrf_on_rollback_passes w :
  blank root w → st_events (w_db w) = [] → passes (test_csrf_on_rollback root) w.
Proof.
  intros Hblank Hev. unfold passes, test_csrf_on_rollback. apply wp_first_backup; [done|].
  intros e w1 w2 _ _ Hob%one_backup_gate Hev2. cbn [expect_created]. wp_steps. apply wp_start_server.
  wp_steps. rewrite (send_rollback _ _ _ [] Hob). apply wp_eq.
  change (rollback_backup _ _ _ [] _) with ((Ok (inl 403%Z) : Res (Z + Reply)), set_gate None w2).
  cbn [fst snd bind_post]. wp_steps. apply wp_assert_code; [done|]. wp_steps.
  rewrite (send_rollback _ _ _ _ Hob).
  eapply wp_mono; [apply rollback_accepted; try done; [cbn [w_db set_gate]; congruence|]|].
  - unfold csrf_accepted. cbn [csrf_token].
    change (get_header "x-csrf-token" _) with (Some "csrf-secret"). cbn [mbind option_bind].
    by rewrite header_to_str_visible.
  - intros r w3 ->. wp_steps. by apply wp_assert_code.
Qed.

(** The two tests that take a second backup: its identifier is a new one. *)
Lemma test_unchanged_content_skipped_passes w :
  blank root w → uuids_new root sample_collection w → passes (test_unchanged_content_skipped root) w.
Proof.
  intros Hblank Hnew. unfold passes, test_unchanged_content_skipped. apply wp_first_backup; [done|].
  intros e w1 w2 Hopen Hrun Hob _. wp_steps. apply wp_assert_that; [done|]. wp_steps.
  unfold backup_data. apply wp_unwrap. destruct Hm as [Hff Huu Hclk _].
  pose proof (ob_inv _ _ Hob) as Hinv.
  assert (up_to_date (content_hash sample_collection) (entries w2)) as Hup.
  { rewrite (ob_entries _ _ Hob), <- (ob_hash _ _ Hob).
    apply (up_to_date_cons [] (stored_entry e)); [apply (ob_status _ _ Hob)|]. by intros e' ?%elem_of_nil. }
  eapply wp_mono; [apply wp_and; [by apply (run_once_up_to_date content_hash)|
    apply (run_once_skip_total content_hash); try done; by eapply Hnew]|].
  intros r w3 [(_ & _ & Hr) [o ->]]. split; [by eexists|]. wp_steps. destruct o as [e'|e']; [done|].
  by apply wp_assert_that.
Qed.
(** Also when both fall into the same second, and share a directory. *)
Lemma test_changed_content_passes w :
  blank root w → uuids_new root sample_collection w →
  content_hash sample_collection ≠ content_hash sample_collection_v2 →
  passes (test_changed_content_creates_new root) w.
Proof.
  intros Hblank Hnew Hne. unfold passes, test_changed_content_creates_new. apply wp_first_backup; [done|].
  intros e w1 w2 Hopen Hrun Hob _. wp_steps. unfold backup_data. apply wp_unwrap.
  destruct Hm as [Hff Huu Hclk Hjson]. pose proof (ob_inv _ _ Hob) as Hinv.
  eapply wp_mono; [apply (run_once_changed root w2 (test_payload sample_collection_v2)); try done|].
  - apply Hinv.
  - apply test_payload_ok.
  - intros l (Hl & _). rewrite (ob_entries _ _ Hob) in Hl. apply list_elem_of_singleton in Hl as ->.
    change (content_hash_of (stored_entry e)) with (content_hash_of e). by rewrite (ob_hash _ _ Hob).
  - by apply (ob_tidy _ _ Hob), format_timestamp_dir_name.
  - by eapply Hnew.
  - apply (sample_v2_valid Hjson).
  - intros r w3 (e2 & -> & _). split; [by eexists|]. wp_steps. by apply wp_assert_that.
Qed.
End passes.

Section retention_passes.
Context `{!Env, !Chrono, !UuidCrate, !SerdeJson, !HashCrates, !SqlEngine, !CollectionFile, !SqliteFile}.
Context `{!ChronoLaws, !UuidLaws, !SerdeJsonLaws, !SqlEngineLaws, !CollectionFileLaws, !SqliteFileLaws}.
Context (root : Path).

Lemma test_retention_pruning_passes (w : World SqliteDb) :
  sound_machine → blank root w → (∀ n m, n ≤ m → (clock n ≤ clock m)%Z) →
  (∀ n, rfc3339_range (retention_cutoff (clock n) 200)) →
  wp (test_retention_pruning root) (λ r _, r = Ok ()) w.
Proof.
  intros Hm Hblank Hmono Hcut. unfold test_retention_pruning.
  change (open_repository root sqlite_new) with (open_repository root (store_new (S := SqliteDb))).
  apply (wp_first_backup root Hm); [done|]. intros e w1 w2 _ _ Hob _. cbn [expect_created].
  change (mret e ≫= ?k) with (k e). cbv beta.
  assert (st_entries (w_db w2) = [e]) as He by (rewrite (ob_entries _ _ _ Hob); by destruct e).
  apply (wp_backdate_and_prune root content_hash 200 e
    (λ remaining, assert_that (bool_decide (remaining = [])))); try done.
  - apply (sm_faults Hm).
  - apply (ob_inv _ _ _ Hob).
  - apply (ob_status _ _ _ Hob).
  - apply (ob_folder _ _ _ Hob).
  - apply (sm_clock Hm).
Qed.
End retention_passes.
