(* ===== verification/Daemon.v ===== *)
(** * The daemon

    Models the rest of [crates/daemon/src/main.rs]: one backup from the command
    line ([run_once]), the state of the service ([run_service]) and the hourly
    scheduler ([scheduler_loop]), composed of the sync client and the repository.
    [run_service] itself, with its listen address, is in [Service.v]; the requests
    a server receives are the argument of [Server.handle]. *)

From S2P Require Import Prelude Calendar World Crates Core Store Stats Repository RepositoryInv.
From S2P Require Import RepositoryThms RepositoryOps Sync Config Server.

(** ** The service *)

Definition service_state (penv : ProcEnv) (cfg : Config) : AppState :=
  let sc := sync_config penv cfg in
  {| csrf_token := or_else (env_var penv "ANKI_BACKUP_CSRF_TOKEN") (cfg_csrf_token (security cfg));
     api_token := or_else (env_var penv "ANKI_BACKUP_API_TOKEN") (cfg_api_token (security cfg));
     app_sync_config :=
       if bool_decide (cfg_username sc = "") || bool_decide (cfg_password sc = "") then None
       else Some sc |}.

Inductive Mode := RunOnceMode | ServiceMode.
Definition run_mode (mode : option string) : Mode :=
  match mode with
  | Some m => if decide (m = "run-once") then RunOnceMode else ServiceMode
  | None => ServiceMode
  end.

Section daemon.
Context {S : Type} `{!Env, !Chrono, !UuidCrate, !SerdeJson, !HashCrates, !Zstd, !SqlEngine,
  !CollectionFile, !HttpCrates, !MetadataStore S}.
Context (root : Path).

Definition payload_of (sync : SyncResult) : BackupPayload := {|
  payload_bytes := collection_bytes sync;
  payload_source_revision := sync_source_revision sync;
  payload_sync_duration_ms := Some (sync_duration sync);
|}.

(** [run_once] of [main.rs]. *)
Definition run_once_main (config : SyncConfig) : M S () :=
  sync ← sync_collection config;
  let hash := content_hash (collection_bytes sync) in
  outcome ← run_once root (payload_of sync) hash;
  match outcome with
  | RCreated entry => log Info "backup created" [("backup_id", uuid_to_string (id entry))]
  | RSkipped entry => log Info "backup skipped (unchanged)" [("backup_id", uuid_to_string (id entry))]
  end.

(** Seconds to the next full hour; the [u64] subtraction cannot wrap. *)
Definition secs_to_next_hour (t : DateTime) : Z := 3600 - (dt_minute t * 60 + dt_second t).

(** The backup of one scheduler round. *)
Definition scheduled_backup (sync : SyncResult) : M S () :=
  let hash := content_hash (collection_bytes sync) in
  r ← attempt (run_once root (payload_of sync) hash);
  match r with
  | inr (RCreated entry) =>
      log Info "scheduled backup created" [("backup_id", uuid_to_string (id entry))]
  | inr (RSkipped _) => log Info "scheduled backup skipped (unchanged)" []
  | inl e => log Error_ "scheduled backup failed" [("error", error_string e)]
  end.
(** Its retention pruning. *)
Definition scheduled_pruning (retention_days : Z) : M S () :=
  r ← attempt (prune_created_older_than_days root retention_days);
  match r with
  | inr removed =>
      if decide (0 < removed) then
        log Info "retention pruning removed old backups"
          [("removed", pretty removed); ("retention_days", pretty retention_days)]
      else mret ()
  | inl e =>
      log Error_ "retention pruning failed"
        [("error", error_string e); ("retention_days", pretty retention_days)]
  end.

(** One round of [scheduler_loop] after its sleep. *)
Definition scheduler_round (config : SyncConfig) (retention_days : Z) : M S () :=
  r ← attempt (sync_collection config);
  match r with
  | inr sync => scheduled_backup sync;; scheduled_pruning retention_days
  | inl e => log Error_ "ankiweb sync failed" [("error", error_string e)]
  end.

(** The delay before a round, in seconds. *)
Definition scheduler_delay : M S Z :=
  t ← now; mret (Z.max (secs_to_next_hour t) 1).

(** The first [n] iterations of the loop. *)
Fixpoint scheduler_loop (n : nat) (config : SyncConfig) (retention_days : Z) : M S () :=
  match n with
  | O => mret ()
  | Datatypes.S n =>
      scheduler_delay;; scheduler_round config retention_days;; scheduler_loop n config retention_days
  end.
End daemon.

(** ** The scheduler's clock *)

Section clock.
Context `{!Chrono, !ChronoLaws}.

(** A round starts at a full hour: within the hour, never late, never at once. *)
Lemma secs_to_next_hour_spec t :
  (1 ≤ secs_to_next_hour t ≤ 3600 ∧ Z.max (secs_to_next_hour t) 1 = secs_to_next_hour t ∧
   (secs t + secs_to_next_hour t) mod 3600 = 0)%Z.
Proof.
  unfold secs_to_next_hour. rewrite dt_minute_law, dt_second_law.
  pose proof (time_ranges t) as (?&?&?&Hs). pose proof (secs_day_split t) as Hd.
  split_and!; [lia|lia|lia|]. rewrite Hd, Hs.
  replace (_ + _)%Z with ((day_of t * 24 + hour t + 1) * 3600)%Z by lia. apply Z.mod_mul. lia.
Qed.
End clock.

(** ** Rounds keep the repository *)

Section daemon_thms.
Context {S : Type} `{!Env, !Chrono, !UuidCrate, !SerdeJson, !HashCrates, !Zstd, !SqlEngine,
  !CollectionFile, !HttpCrates}.
Context `{!ChronoLaws, !SqlEngineLaws, !CollectionFileLaws}.
Context `{!MetadataStore S, !StoreModel S, !StoreLaws S}.
Context (root : Path).
Implicit Types w : World S.

Abbreviation entries w := (st_entries (w_db w)).
Abbreviation events w := (st_events (w_db w)).

(** Clock readings stay within the years 0 and 9999, cutoffs too. *)
Definition clock_ok (days : Z) : Prop :=
  ∀ n, rfc3339_range (clock n) ∧ rfc3339_range (retention_cutoff (clock n) days).

(** Pruning from any reading. *)
Lemma scheduled_pruning_spec days w :
  repo_inv content_hash root w → clock_ok days →
  wp (scheduled_pruning root days) (λ r w', r = Ok () ∧ repo_inv content_hash root w' ∧
    events w' = events w ∧ w_gate w' = w_gate w ∧ ∃ gone, entries w ≡ₚ gone ++ entries w' ∧
      Forall (prunable (S := S) (retention_cutoff (clock (w_clock w)) days)) gone) w.
Proof.
  intros Hinv Hclk. unfold scheduled_pruning. destruct (Z.le_gt_cases days 0).
  { unfold wp, mbind, M_bind, attempt. rewrite prune_disabled by done. simpl.
    split_and!; [done..|]. exists []. by split. }
  wp_steps. eapply wp_mono; [apply prune_spec; [done|lia|apply Hclk..]|].
  intros r w' (Hq & Hinv' & gone & [Hg He _ Hev _] & Hr).
  assert (w_gate w' = w_gate w) as Hgate by apply Hq.
  assert (∀ l, repo_inv content_hash root (add_log l w')) as Hlog.
  { intros l. by eapply repo_inv_same; [..|exact Hinv']. }
  destruct r as [k|e|]; wp_steps; [|by eauto 7|done].
  case_decide; wp_steps; by eauto 7.
Qed.

Lemma scheduled_backup_spec sync w :
  repo_inv content_hash root w → uuids_ok → rfc3339_range (clock (w_clock w)) →
  is_i64 (sync_duration sync) →
  dir_unused (format_timestamp_dir (clock (w_clock w))) (entries w) →
  wp (scheduled_backup root sync) (λ r w', r = Ok () ∧ repo_inv content_hash root w' ∧
    events w' = events w ∧ w_gate w' = w_gate w ∧ ∀ e, e ∈ entries w → e ∈ entries w') w.
Proof.
  intros Hinv Huu Ht Hdur Hdir. unfold scheduled_backup. wp_steps.
  eapply wp_mono; [apply run_once_spec; try done; by intros d [= <-]|].
  intros r w' (Hq & Hinv' & Hev & Hr).
  assert (w_gate w' = w_gate w) as Hgate by apply Hq.
  assert (∀ l, repo_inv content_hash root (add_log l w')) as Hlog.
  { intros l. by eapply repo_inv_same; [..|exact Hinv']. }
  assert (match r with Panic _ => False | _ => ∀ e, e ∈ entries w → e ∈ entries w' end) as Hkeep.
  { destruct r as [[e'|e']|err|]; [destruct Hr as [_ [Hp _ _ _ _ _ _ _ _ _ _ _]]|
      destruct Hr as [_ [Hp _ _ _ _ _ _]]|destruct Hr as [Hp|[e' Hp]]|done];
      intros e He; rewrite Hp; rewrite ?elem_of_cons; auto. }
  destruct r as [[e|e]|err|]; wp_steps; by auto.
Qed.

(** A round never fails: errors are logged and the repository stays sound.  Only
    pruning removes entries. *)
Lemma scheduler_round_spec cfg days w :
  repo_inv content_hash root w → uuids_ok → clock_ok days →
  dir_unused (format_timestamp_dir (clock (w_clock w))) (entries w) →
  wp (scheduler_round root cfg days) (λ r w', r = Ok () ∧ repo_inv content_hash root w' ∧
    events w' = events w ∧ w_gate w' = w_gate w ∧ ∀ e, e ∈ entries w → e ∉ entries w' → ∃ n,
      prunable (S := S) (retention_cutoff (clock n) days) e) w.
Proof.
  intros Hinv Huu Hclk Hdir. unfold scheduler_round. wp_steps.
  eapply wp_mono; [apply sync_outcomes|]. intros r w1 (Hn & reqs & Hs & Hr).
  pose proof Hn as (Hfs & Hdb & Hg1 & Hc & _).
  assert (repo_inv content_hash root w1) as Hinv1 by (by apply (repo_inv_same content_hash root w)).
  destruct r as [sync|e|]; wp_steps; [| |done].
  2: { split_and!; [done|by eapply repo_inv_same; [..|exact Hinv1]|by cbn; rewrite Hdb|done|].
       intros e' He' Hne. destruct Hne. cbn [w_db add_log]. by rewrite Hdb. }
  destruct Hr as [Hdur _]. eapply wp_mono.
  { apply scheduled_backup_spec; try done; [apply Hclk|by rewrite Hdb, Hc]. }
  intros r w2 (-> & Hinv2 & Hev2 & Hg2 & Hkeep2). wp_steps.
  eapply wp_mono; [by apply scheduled_pruning_spec|]. intros r w3 (-> & Hinv3 & Hev3 & Hg3 & gone & Hp & Hg).
  rewrite Hdb in Hev2. split_and!; [done|done|congruence..|]. intros e He Hne. rewrite Hdb in Hkeep2. apply Hkeep2 in He.
  rewrite Hp, elem_of_app in He. destruct He as [He|He]; [|done].
  exists (w_clock w2). by eapply Forall_forall in Hg.
Qed.
End daemon_thms.
