(* ===== verification/Async.v ===== *)
(** * The operations as tasks

    The same functions as in [Repository.v], [Server.v] and [Daemon.v], cut where
    another thread of the runtime can act: one action per call of the metadata
    store, of [std::fs], of the AnkiWeb client, of the clock and of the random
    generator.  The rollback handler holds [rollback_gate]'s mutex from its gate
    check to its end.  Run alone, each task is the operation it comes from. *)

From S2P Require Import Prelude Calendar World Tasks Crates Core Store Stats Repository Sync.
From S2P Require Import Config Server Daemon.

Section async.
Context {S : Type} `{!Env, !Chrono, !UuidCrate, !SerdeJson, !HashCrates, !Zstd, !SqlEngine,
  !CollectionFile, !HttpCrates, !TarCrate, !AxumCrate, !MetadataStore S}.
Context (root : Path).

(** ** The repository *)

Definition write_current_pointer_task (backup : BackupEntry) : Task S () :=
  t ← act now;
  let ptr := pointer_bytes (id backup) (timestamp_dir backup) t in
  act (context "write current pointer tmp" (fs_write (pointer_tmp root) ptr));;
  act (context "atomic rename current pointer" (fs_rename (pointer_tmp root) (pointer_path root))).

Definition create_and_insert_entry_task (new_entry : NewBackupEntry) : Task S BackupEntry :=
  i ← act new_v4;
  let entry := make_entry i new_entry in
  act (insert_entry entry);;
  match status entry with
  | Created =>
      act (context ("write backup metadata: " +:+ display (metadata_path root (timestamp_dir entry)))
        (fs_write (metadata_path root (timestamp_dir entry)) (metadata_bytes entry)));;
      mret entry
  | Skipped => mret entry
  end.

Definition create_backup_task (now_ : DateTime) (payload : BackupPayload) (content_hash : string) :
    Task S RunOnceOutcome :=
  let dir := format_timestamp_dir now_ in
  act (context ("create backup dir: " +:+ display (backup_dir root dir))
    (create_dir_all (backup_dir root dir)));;
  act (context ("write payload file: " +:+ display (payload_path root dir))
    (fs_write (payload_path root dir) (payload_bytes payload)));;
  stats ← act (context "extract backup stats" (extract_stats (payload_path root dir)));
  len ← act (context ("stat payload file: " +:+ display (payload_path root dir))
    (fs_len (payload_path root dir)));
  created_ ← create_and_insert_entry_task
    (created now_ dir content_hash (payload_source_revision payload)
       (payload_sync_duration_ms payload) (as_i64 len) stats);
  write_current_pointer_task created_;;
  mret (RCreated created_).

Definition run_once_task (payload : BackupPayload) (content_hash : string) :
    Task S RunOnceOutcome :=
  now_ ← act now;
  last ← act last_created_hash;
  match last with
  | Some last_hash =>
      if decide (last_hash = content_hash) then
        skipped ← create_and_insert_entry_task (skipped_unchanged now_ content_hash);
        mret (RSkipped skipped)
      else create_backup_task now_ payload content_hash
  | None => create_backup_task now_ payload content_hash
  end.

Definition rollback_to_task (i : Uuid) : Task S BackupEntry :=
  found ← act (repo_get_backup i);
  backup ← task_option ["backup not found: " +:+ uuid_to_string i] found;
  if decide (status backup ≠ Created)
  then task_fail ["cannot rollback to skipped backup " +:+ uuid_to_string (id backup)]
  else
    write_current_pointer_task backup;;
    act (insert_rollback_event (id backup));;
    mret backup.

Fixpoint remove_backup_dirs_task (doomed : list (string * string)) : Task S () :=
  match doomed with
  | [] => mret ()
  | (_, dir) :: doomed =>
      there ← act (fs_exists (backup_dir root dir));
      (if (there : bool)
       then act (context ("remove old backup dir: " +:+ display (backup_dir root dir))
              (fs_remove_dir_all (backup_dir root dir)))
       else mret ());;
      remove_backup_dirs_task doomed
  end.

Definition prune_task (retention_days : Z) : Task S nat :=
  if (retention_days <=? 0)%Z then mret 0
  else
    t ← act now;
    match duration_days retention_days with
    | None => task_panic "TimeDelta::days out of bounds"
    | Some d =>
        match datetime_sub t d with
        | None => task_panic "DateTime - TimeDelta overflowed"
        | Some cutoff =>
            doomed ← act (prune_created_before cutoff);
            remove_backup_dirs_task doomed;;
            mret (length doomed)
        end
    end.

(** ** The scheduler *)

Definition scheduled_backup_task (sync : SyncResult) : Task S () :=
  let hash := content_hash (collection_bytes sync) in
  r ← task_attempt (run_once_task (payload_of sync) hash);
  match r with
  | inr (RCreated entry) =>
      act (log Info "scheduled backup created" [("backup_id", uuid_to_string (id entry))])
  | inr (RSkipped _) => act (log Info "scheduled backup skipped (unchanged)" [])
  | inl e => act (log Error_ "scheduled backup failed" [("error", error_string e)])
  end.
Definition scheduled_pruning_task (retention_days : Z) : Task S () :=
  r ← task_attempt (prune_task retention_days);
  match r with
  | inr removed =>
      if decide (0 < removed) then
        act (log Info "retention pruning removed old backups"
          [("removed", pretty removed); ("retention_days", pretty retention_days)])
      else mret ()
  | inl e =>
      act (log Error_ "retention pruning failed"
        [("error", error_string e); ("retention_days", pretty retention_days)])
  end.
Definition scheduler_round_task (config : SyncConfig) (retention_days : Z) : Task S () :=
  r ← task_attempt (act (sync_collection config));
  match r with
  | inr sync => scheduled_backup_task sync;; scheduled_pruning_task retention_days
  | inl e => act (log Error_ "ankiweb sync failed" [("error", error_string e)])
  end.

(** ** The server *)

Section server_tasks.
Context (state : AppState).

Definition or_status_task {A B} (t : Task S A) (code : Z) (k : A → Task S (Z + B)) :
    Task S (Z + B) :=
  r ← task_attempt t; match r with inr a => k a | inl _ => mret (inl code) end.
Definition ok_or_task {A B} (o : option A) (code : Z) (k : A → Task S (Z + B)) : Task S (Z + B) :=
  match o with Some a => k a | None => mret (inl code) end.

Definition push_rolled_back_task {B} (rolled : BackupEntry) (k : Task S (Z + B)) :
    Task S (Z + B) :=
  match app_sync_config state with
  | Some sync_cfg =>
      let backup_path := backup_file_path root rolled in
      r ← task_attempt (act (fs_read backup_path));
      match r with
      | inl e =>
          act (log Error_ "failed to read backup file for upload"
            [("error", error_string e); ("backup_path", debug_str (display backup_path))]);;
          mret (inl 500%Z)
      | inr collection_bytes =>
          r ← task_attempt (act (upload_collection sync_cfg collection_bytes));
          match r with
          | inl e =>
              act (log Error_ "failed to upload rolled-back collection to AnkiWeb"
                [("error", error_string e)]);;
              mret (inl 502%Z)
          | inr _ =>
              act (log Info "uploaded rolled-back collection to AnkiWeb"
                [("backup_id", uuid_to_string (id rolled))]);;
              k
          end
      end
  | None => act (log Warn "no AnkiWeb credentials configured; rollback is local-only" []);; k
  end.

Definition rollback_backup_task (id_text : string) (headers : Headers) : Task S (Z + Reply) :=
  if negb (require_api_auth state headers) then mret (inl 401%Z)
  else if negb (csrf_accepted state headers) then mret (inl 403%Z)
  else Lock (
    closed ← act gate_closed;
    if (closed : bool) then mret (inl 429%Z)
    else ok_or_task (uuid_parse_str id_text) 400 (λ i,
      or_status_task (rollback_to_task i) 400 (λ rolled,
        push_rolled_back_task rolled (
          t ← act now;
          act (modify (set_gate (Some t)));;
          mret (inr (JsonReply (json_object
            [("rolled_back_to", JString (uuid_to_string (id rolled)));
             ("uploaded", JBool (bool_decide (is_Some (app_sync_config state))))]))))))).

Definition download_backup_task (id_text : string) (headers : Headers) : Task S (Z + Reply) :=
  if negb (require_api_auth state headers) then mret (inl 401%Z)
  else ok_or_task (uuid_parse_str id_text) 400 (λ i,
    or_status_task (act (repo_get_backup i)) 500 (λ found,
      ok_or_task found 404 (λ backup,
        if decide (status backup ≠ Created) then mret (inl 400%Z)
        else or_status_task (act (fs_read (backup_file_path root backup))) 500 (λ b,
          ok_or_task (archive b) 500 (λ compressed,
            mret (inr (FileReply "application/zstd"
              ("attachment; filename=backup-" +:+ uuid_to_string (id backup) +:+ ".tar.zst")
              compressed))))))).

Definition index_task : Task S (Z + Reply) :=
  or_status_task (act repo_list_backups) 500 (λ backups,
    mret (inr (IndexPage (list_item <$> backups)))).
Definition backup_detail_task (id_text : string) : Task S (Z + Reply) :=
  ok_or_task (uuid_parse_str id_text) 400 (λ i,
    or_status_task (act (repo_get_backup i)) 500 (λ found,
      ok_or_task found 404 (λ b,
        mret (inr (DetailPage (detail_view b) (default "" (csrf_token state))))))).
Definition api_list_backups_task (headers : Headers) : Task S (Z + Reply) :=
  if negb (require_api_auth state headers) then mret (inl 401%Z)
  else or_status_task (act repo_list_backups) 500 (λ rows,
    mret (inr (JsonReply (JArray (api_list_item <$> rows))))).
Definition api_backup_detail_task (id_text : string) (headers : Headers) : Task S (Z + Reply) :=
  if negb (require_api_auth state headers) then mret (inl 401%Z)
  else ok_or_task (uuid_parse_str id_text) 400 (λ i,
    or_status_task (act (repo_get_backup i)) 500 (λ found,
      ok_or_task found 404 (λ backup, mret (inr (JsonReply (to_value (entry_to_json backup))))))).
Definition healthz_task : Task S (Z + Reply) :=
  mret (inr (JsonReply (JObject [("status", JString "ok")]))).

(** The routes. *)
Definition on_get_task (m : Method) (h : Task S (Z + Reply)) : Task S (Z + Reply) :=
  match m with GET | HEAD => h | _ => mret (inl 405%Z) end.
Definition on_post_task (m : Method) (h : Task S (Z + Reply)) : Task S (Z + Reply) :=
  match m with POST => h | _ => mret (inl 405%Z) end.
Definition with_id_task (seg : string) (h : string → Task S (Z + Reply)) : Task S (Z + Reply) :=
  ok_or_task (percent_decode seg) 400 h.

Definition handle_task (rq : Request) : Task S (Z + Reply) :=
  let m := rq_method rq in
  let hs := rq_headers rq in
  match route_of (rq_path rq) with
  | Some IndexRoute => on_get_task m index_task
  | Some (DetailRoute seg) => on_get_task m (with_id_task seg backup_detail_task)
  | Some (DownloadRoute seg) => on_get_task m (with_id_task seg (λ i, download_backup_task i hs))
  | Some (RollbackRoute seg) => on_post_task m (with_id_task seg (λ i, rollback_backup_task i hs))
  | Some HealthzRoute => on_get_task m healthz_task
  | Some ApiListRoute => on_get_task m (api_list_backups_task hs)
  | Some (ApiDetailRoute seg) =>
      on_get_task m (with_id_task seg (λ i, api_backup_detail_task i hs))
  | None => mret (inl 404%Z)
  end.
End server_tasks.

(** ** Run alone, a task is the operation *)

Lemma means_write_current_pointer e :
  means (write_current_pointer_task e) (write_current_pointer root e).
Proof. unfold write_current_pointer_task, write_current_pointer. means_solve. Qed.
Hint Resolve means_write_current_pointer : means.

Lemma means_create_and_insert_entry n :
  means (create_and_insert_entry_task n) (create_and_insert_entry root n).
Proof.
  unfold create_and_insert_entry_task, create_and_insert_entry.
  repeat (apply means_bind; [by auto with means|intros ?]). cbv zeta.
  destruct (status _); means_solve.
Qed.
Hint Resolve means_create_and_insert_entry : means.

Lemma means_create_backup t p h : means (create_backup_task t p h) (create_backup root t p h).
Proof. unfold create_backup_task, create_backup. cbv zeta. means_solve. Qed.
Hint Resolve means_create_backup : means.

Lemma means_run_once p h : means (run_once_task p h) (run_once root p h).
Proof.
  unfold run_once_task, run_once. do 2 (apply means_bind; [by auto with means|intros ?]).
  case_match; [case_decide|]; means_solve.
Qed.
Hint Resolve means_run_once : means.

Lemma means_rollback_to i : means (rollback_to_task i) (rollback_to root i).
Proof.
  unfold rollback_to_task, rollback_to. do 2 (apply means_bind; [by auto with means|intros ?]).
  case_decide; means_solve.
Qed.
Hint Resolve means_rollback_to : means.

Lemma means_remove_backup_dirs doomed :
  means (remove_backup_dirs_task doomed) (remove_backup_dirs root doomed).
Proof.
  induction doomed as [|[i dir] doomed IH];
    cbn [remove_backup_dirs_task remove_backup_dirs]; [by auto with means|].
  apply means_bind; [by auto with means|intros [|]]; means_solve.
Qed.
Hint Resolve means_remove_backup_dirs : means.

Lemma means_prune n : means (prune_task n) (prune_created_older_than_days root n).
Proof.
  unfold prune_task, prune_created_older_than_days. case_match; [by auto with means|].
  apply means_bind; [by auto with means|intros ?]. repeat (case_match; [|by auto with means]).
  means_solve.
Qed.
Hint Resolve means_prune : means.

Lemma means_scheduler_round cfg n :
  means (scheduler_round_task cfg n) (scheduler_round root cfg n).
Proof.
  unfold scheduler_round_task, scheduler_round, scheduled_backup_task, scheduled_backup,
    scheduled_pruning_task, scheduled_pruning.
  apply means_bind; [by auto with means|]. intros [e|sync]; [by auto with means|].
  apply means_bind; [|intros _]; (apply means_bind; [by auto with means|]).
  - intros [e|[entry|entry]]; by auto with means.
  - intros [e|removed]; [by auto with means|]. case_decide; by auto with means.
Qed.

Section server_means.
Context (state : AppState).

Lemma means_or_status {A B} (t : Task S A) m code (k : A → Task S (Z + B)) k' :
  means t m → (∀ a, means (k a) (k' a)) → means (or_status_task t code k) (or_status m code k').
Proof.
  intros Ht Hk. apply means_bind; [by auto with means|]. intros [e|a]; [by auto with means|apply Hk].
Qed.
Lemma means_ok_or {A B} (o : option A) code (k : A → Task S (Z + B)) k' :
  (∀ a, means (k a) (k' a)) → means (ok_or_task o code k) (ok_or o code k').
Proof. intros Hk. destruct o; [apply Hk|apply means_ret]. Qed.

Lemma means_push {B} e (t : Task S (Z + B)) k :
  means t k → means (push_rolled_back_task state e t) (push_rolled_back root state e k).
Proof.
  intros Hk. unfold push_rolled_back_task, push_rolled_back. destruct (app_sync_config state).
  2: { apply means_bind; [by auto with means|by intros _]. }
  apply means_bind; [by auto with means|]. intros [e1|b]; [by means_solve|].
  apply means_bind; [by auto with means|]. intros [e1|[]]; means_solve.
Qed.

Lemma means_rollback_backup i hs :
  means (rollback_backup_task state i hs) (rollback_backup root state i hs).
Proof.
  unfold rollback_backup_task, rollback_backup.
  destruct (negb _); [by auto with means|]. destruct (negb _); [by auto with means|].
  apply means_lock, means_bind; [by auto with means|]. intros [|]; [by auto with means|].
  apply means_ok_or. intros j. apply means_or_status; [by auto with means|]. intros e.
  apply means_push. means_solve.
Qed.

Lemma means_lookup {B} id_text (k : BackupEntry → Task S (Z + B)) k' :
  (∀ e, means (k e) (k' e)) →
  means (ok_or_task (uuid_parse_str id_text) 400 (λ i,
      or_status_task (act (repo_get_backup i)) 500 (λ found, ok_or_task found 404 k)))
    (ok_or (uuid_parse_str id_text) 400 (λ i,
      or_status (repo_get_backup i) 500 (λ found, ok_or found 404 k'))).
Proof.
  intros Hk. apply means_ok_or. intros i. apply means_or_status; [by auto with means|]. intros o.
  by apply means_ok_or.
Qed.

Lemma means_download_backup i hs :
  means (download_backup_task state i hs) (download_backup root state i hs).
Proof.
  unfold download_backup_task, download_backup. destruct (negb _); [by auto with means|].
  apply means_lookup. intros e. case_decide; [by auto with means|].
  apply means_or_status; [by auto with means|]. intros b. apply means_ok_or. by auto with means.
Qed.

Lemma means_handle rq : means (handle_task state rq) (handle root state rq).
Proof.
  unfold handle_task, handle, with_id_task, with_id, on_get_task, on_post_task, on_get, on_post.
  cbv zeta. destruct (route_of (rq_path rq)) as [[]|]; [..|by auto with means];
    (destruct (rq_method rq); try by auto with means).
  all: try (apply means_ok_or; intros i); auto using means_download_backup, means_rollback_backup.
  all: try (apply means_or_status; by auto with means); try (apply means_lookup; by auto with means).
  all: unfold api_list_backups_task, api_list_backups, api_backup_detail_task, api_backup_detail.
  all: destruct (negb _); [by auto with means|].
  all: try (apply means_or_status; by auto with means); apply means_lookup; by auto with means.
Qed.
End server_means.

(** ** How long they take *)

Lemma bounded_act_bind {A B} n (m : M S A) (k : A → Task S B) :
  (∀ a, bounded n (k a)) → bounded (1 + n) (act m ≫= k).
Proof. intros Hk. apply bounded_bind; [apply bounded_act|done]. Qed.
Lemma bounded_or_status {A B} n (m : M S A) code (k : A → Task S (Z + B)) :
  (∀ a, bounded n (k a)) → bounded (1 + n) (or_status_task (act m) code k).
Proof.
  intros Hk. apply (bounded_bind 1); [apply bounded_attempt, bounded_act|].
  intros [e|a]; [apply bounded_done|done].
Qed.
Lemma bounded_ok_or {A B} n (o : option A) code (k : A → Task S (Z + B)) :
  (∀ a, bounded n (k a)) → bounded n (ok_or_task o code k).
Proof. intros Hk. destruct o; [apply Hk|apply bounded_done]. Qed.

Lemma bounded_write_current_pointer e : bounded 3 (write_current_pointer_task e).
Proof. do 2 (apply bounded_act_bind; intros ?). apply bounded_act. Qed.
Lemma bounded_rollback_to i : bounded 5 (rollback_to_task i).
Proof.
  apply (bounded_act_bind 4). intros [e|]; [|apply bounded_done]. change (bounded 4 ?t) with (bounded (0 + 4) t).
  apply bounded_bind; [apply bounded_done|]. intros b. case_decide; [apply bounded_done|].
  apply (bounded_bind 3 1); [apply bounded_write_current_pointer|]. intros [].
  apply (bounded_act_bind 0). intros []. apply bounded_done.
Qed.
Lemma bounded_push {B} state n e (k : Task S (Z + B)) :
  bounded n k → bounded (3 + n) (push_rolled_back_task state e k).
Proof.
  intros Hk. unfold push_rolled_back_task. cbv zeta. destruct (app_sync_config state).
  - apply (bounded_bind 1 (2 + n)); [apply bounded_attempt, bounded_act|].
    intros [err|b]; [apply (bounded_act_bind (1 + n)); intros []; apply bounded_done|].
    apply (bounded_bind 1 (1 + n)); [apply bounded_attempt, bounded_act|].
    intros [err|[]]; apply bounded_act_bind; intros []; [apply bounded_done|done].
  - apply (bounded_act_bind (2 + n)). intros []. apply (bounded_le n); [done|lia].
Qed.
Lemma bounded_rollback_backup state i hs : bounded 12 (rollback_backup_task state i hs).
Proof.
  unfold rollback_backup_task. do 2 (destruct (negb _); [apply bounded_done|]).
  apply (bounded_lock 11), (bounded_act_bind 10). intros [|]; [apply bounded_done|].
  apply bounded_ok_or. intros u. apply (bounded_bind 5 5); [apply bounded_attempt, bounded_rollback_to|].
  intros [err|e]; [apply bounded_done|]. apply (bounded_push _ 2).
  apply (bounded_act_bind 1). intros t. apply (bounded_act_bind 0). intros []. apply bounded_done.
Qed.
Lemma bounded_lookup {B} n id_text (k : BackupEntry → Task S (Z + B)) :
  (∀ e, bounded n (k e)) →
  bounded (1 + n) (ok_or_task (uuid_parse_str id_text) 400 (λ i,
    or_status_task (act (repo_get_backup i)) 500 (λ found, ok_or_task found 404 k))).
Proof. intros Hk. apply bounded_ok_or. intros i. apply bounded_or_status. intros o. by apply bounded_ok_or. Qed.

Lemma bounded_handle state rq : bounded 12 (handle_task state rq).
Proof.
  unfold handle_task, with_id_task, on_get_task, on_post_task. cbv zeta.
  destruct (route_of (rq_path rq)) as [[|seg|seg|seg| | |seg]|]; [..|apply bounded_done];
    (destruct (rq_method rq); try apply bounded_done); try (apply bounded_ok_or; intros i);
    try apply bounded_rollback_backup; try apply bounded_done.
  all: unfold index_task, backup_detail_task, download_backup_task, api_list_backups_task, api_backup_detail_task.
  all: try (destruct (negb _); [apply bounded_done|]).
  all: try (apply (bounded_or_status 11); intros ?; apply bounded_done).
  all: apply (bounded_lookup 11); intros e; try apply bounded_done.
  all: case_decide; [apply bounded_done|]; apply (bounded_or_status 10); intros ?.
  all: apply bounded_ok_or; intros ?; apply bounded_done.
Qed.
End async.
