(* ===== verification/Interference.v ===== *)
(** * What tasks do to each other

    The backups stay sound whatever the order of the actions of the scheduler and
    of the requests.  [backups_inv] is the repository invariant without the
    pointer file, which two tasks can spoil (see [PointerFile.v]).  Requests leave
    the backups alone; the scheduler adds a backup in a directory of its own and
    removes only what is past the retention. *)

From S2P Require Import Prelude Calendar World Tasks Crates Core Store Stats Repository.
From S2P Require Import RepositoryInv RepositoryThms RepositoryOps Sync Config Server ServerThms.
From S2P Require Import Daemon Async.

Section interference.
Context {S : Type} `{!Env, !Chrono, !UuidCrate, !SerdeJson, !HashCrates, !Zstd, !SqlEngine,
  !CollectionFile, !HttpCrates, !TarCrate, !AxumCrate}.
Context `{!ChronoLaws, !UuidLaws, !SqlEngineLaws, !CollectionFileLaws}.
Context `{!MetadataStore S, !StoreModel S, !StoreLaws S}.
Context (root : Path).
Implicit Types w : World S.

Abbreviation entries w := (st_entries (w_db w)).

(** ** The invariant *)

Record backups_inv w : Prop := {
  bi_wf : st_wf (w_db w);
  bi_files : files_ok content_hash root (w_fs w) (entries w);
  bi_dirs : dirs_distinct (entries w);
}.
Lemma repo_inv_backups w : repo_inv content_hash root w → backups_inv w.
Proof. by intros []. Qed.

(** A step that others do not notice in the backups. *)
Record keeps_backups w w' : Prop := {
  kb_fs : agree_except [pointer_tmp root; pointer_path root] (w_fs w) (w_fs w');
  kb_entries : entries w' = entries w;
  kb_clock : w_clock w ≤ w_clock w';
  kb_uuid : w_uuid w ≤ w_uuid w';
}.
#[export] Instance keeps_backups_preorder : PreOrder keeps_backups.
Proof.
  split; [by intros w; split|]. intros w1 w2 w3 [Hf1 He1 Hc1 Hu1] [Hf2 He2 Hc2 Hu2].
  split; [|congruence|lia..]. intros q Hq. by rewrite Hf2, Hf1.
Qed.

(** Nor in the rollback gate. *)
Definition harmless w w' : Prop :=
  backups_inv w' ∧ keeps_backups w w' ∧ w_gate w' = w_gate w.

Lemma harmless_keeps w w' :
  backups_inv w → st_wf (w_db w') → keeps_backups w w' → backups_inv w'.
Proof.
  intros [_ Hf Hd] Hwf [Ha He _ _]. split; [done|..]; rewrite He; [by eapply files_ok_pointer|done].
Qed.
Lemma harmless_same w w' :
  w_fs w' = w_fs w → w_db w' = w_db w → w_gate w' = w_gate w → w_clock w ≤ w_clock w' →
  w_uuid w ≤ w_uuid w' → backups_inv w → harmless w w'.
Proof.
  intros Hfs Hdb Hg Hc Hu Hi. assert (keeps_backups w w') as Hk
    by (split; [intros q _; by rewrite Hfs|by rewrite Hdb|done..]).
  split_and!; [|done..]. eapply harmless_keeps; [done| |done]. rewrite Hdb. apply Hi.
Qed.

(** ** Harmless actions *)

(** [m] is harmless, does not panic, and has result [P]. *)
Definition calm {A} (m : M S A) (P : World S → A → Prop) : Prop := ∀ w, backups_inv w →
  wp m (λ r w', harmless w w' ∧ match r with Ok a => P w a | Err _ => True | Panic _ => False end) w.

Lemma calm_mono {A} (m : M S A) (P Q : World S → A → Prop) :
  calm m P → (∀ w a, P w a → Q w a) → calm m Q.
Proof.
  intros Hm HPQ w Hi. eapply wp_mono; [by apply Hm|]. intros [a|e|] w' [? ?]; by auto.
Qed.
Lemma calm_context {A} msg (m : M S A) P : calm m P → calm (context msg m) P.
Proof.
  intros Hm w Hi. apply wp_context. eapply wp_mono; [by apply Hm|]. by intros [a|e|] w' [? ?].
Qed.
Lemma calm_now : calm now (λ w t, ∃ n, w_clock w ≤ n ∧ t = clock n).
Proof. intros w Hi. split; [by apply harmless_same; simpl; [..|lia|lia|]|by exists (w_clock w)]. Qed.
Lemma calm_new_v4 : uuids_ok → calm new_v4 (λ w i, uuid_ok i ∧ ∃ n, w_uuid w ≤ n ∧ i = fresh_uuid n).
Proof.
  intros Huu w Hi. split; [by apply harmless_same; simpl; [..|lia|]|].
  split; [apply Huu|by exists (w_uuid w)].
Qed.
Lemma calm_log l msg fs : calm (log l msg fs) (λ _ _, True).
Proof. intros w Hi. split; [by apply harmless_same|done]. Qed.
Lemma calm_io_only {A} (m : M S A) P :
  (∀ w, wp m (λ r w', io_only w w' ∧
     match r with Ok a => P w a | Err _ => True | Panic _ => False end) w) → calm m P.
Proof.
  intros Hm w Hi. eapply wp_mono; [apply Hm|]. intros r w' [(Hfs & Hdb & Hg & _ & _ & Hc & Hu & _) Hr].
  split; [|done]. apply harmless_same; [done..|lia|lia|done].
Qed.
Lemma calm_net_only {A} (m : M S A) P :
  (∀ w, wp m (λ r w', net_only w w' ∧
     match r with Ok a => P w a | Err _ => True | Panic _ => False end) w) → calm m P.
Proof.
  intros Hm w Hi. eapply wp_mono; [apply Hm|]. intros r w' [(Hfs & Hdb & Hg & Hc & Hu) Hr].
  split; [|done]. apply harmless_same; [done..|lia|lia|done].
Qed.
Lemma calm_db_only {A} (m : M S A) P :
  (∀ w, st_wf (w_db w) → wp m (λ r w', db_only w w' ∧ w_db w' = w_db w ∧
     match r with Ok a => P w a | Err _ => True | Panic _ => False end) w) → calm m P.
Proof.
  intros Hm w Hi. eapply wp_mono; [apply Hm, Hi|].
  intros r w' ((Hfs & Hg & _ & _ & Hc & Hu & _) & Hdb & Hr). split; [|done]. by apply harmless_same.
Qed.

Lemma calm_read p : calm (fs_read p) (λ w b, w_fs w !! p = Some (File b)).
Proof.
  apply calm_io_only. intros w. eapply wp_mono; [apply fs_read_spec|].
  intros [b|e|] w' [-> Hr]; (split; [apply io_only_tick|done]).
Qed.
Lemma calm_len p : calm (fs_len p) (λ w n, ∀ b, w_fs w !! p = Some (File b) → n = Z.of_nat (length b)).
Proof.
  apply calm_io_only. intros w. eapply wp_mono; [apply fs_len_spec|].
  intros [b|e|] w' [-> Hr]; (split; [apply io_only_tick|done]).
Qed.
Lemma calm_exists p : calm (fs_exists p) (λ _ _, True).
Proof. apply calm_io_only. intros w. unfold fs_exists. wp_steps. split; [apply io_only_tick|done]. Qed.
Lemma calm_stats p : calm (extract_stats p) (λ _ s, stats_ok s).
Proof.
  apply calm_io_only. intros w. eapply wp_mono; [apply extract_stats_spec|].
  intros [s|e|] w' [Hio Hr]; (split; [done|]); [by eapply describes_stats_ok|done..].
Qed.
Lemma calm_sync cfg : calm (sync_collection cfg) (λ _ res, is_i64 (sync_duration res)).
Proof.
  apply calm_net_only. intros w. eapply wp_mono; [apply sync_outcomes|].
  intros [res|e|] w' (Hn & reqs & _ & Hr); (split; [done|]); [by destruct Hr|done..].
Qed.
Lemma calm_upload cfg b : calm (upload_collection cfg b) (λ _ _, True).
Proof.
  apply calm_net_only. intros w. eapply wp_mono; [apply upload_outcomes|].
  by intros [res|e|] w' (Hn & reqs & _ & Hr).
Qed.
Lemma calm_last_hash : calm last_created_hash (λ _ _, True).
Proof.
  apply calm_db_only. intros w Hwf. eapply wp_mono; [by apply last_created_hash_law|].
  by intros [o|e|] w' (Hdo & Hdb & Hr).
Qed.
Lemma calm_get i : uuid_ok i → calm (repo_get_backup i) (λ w o, ∀ e, o = Some e → e ∈ entries w ∧ id e = i).
Proof.
  intros Hi. apply calm_db_only. intros w Hwf. eapply wp_mono; [by apply get_backup_law|].
  intros [[e|]|e|] w' (Hdo & Hdb & Hr); (split_and!; [done..|]); [|done..].
  intros e' [= <-]. by destruct Hr.
Qed.
Lemma calm_list : calm repo_list_backups (λ _ _, True).
Proof.
  apply calm_db_only. intros w Hwf. eapply wp_mono; [by apply list_backups_law|].
  by intros [o|e|] w' (Hdo & Hdb & Hr).
Qed.
Lemma calm_event i : uuids_ok → uuid_ok i → calm (insert_rollback_event i) (λ _ _, True).
Proof.
  intros Huu Hi w Hinv. eapply wp_mono; [by apply insert_rollback_event_law; [apply Hinv|..]|].
  intros r w' ((Hfs & Hg & _ & _ & Hc & Hu & _) & Hwf & He & Hr).
  assert (keeps_backups w w') as Hk by (split; [intros q _; by rewrite Hfs|done..]).
  split; [|by destruct r]. split_and!; [by eapply harmless_keeps|done..].
Qed.

(** The two halves of a pointer update. *)
Lemma calm_fs {A} (m : M S A) P :
  (∀ w, wp m (λ r w', (∃ fs', w' = set_fs fs' (tick_io w) ∧
      agree_except [pointer_tmp root; pointer_path root] (w_fs w) fs') ∧
     match r with Ok a => P w a | Err _ => True | Panic _ => False end) w) → calm m P.
Proof.
  intros Hm w Hi. eapply wp_mono; [apply Hm|]. intros r w' [(fs' & -> & Ha) Hr]. split; [|done].
  assert (keeps_backups w (set_fs fs' (tick_io w))) as Hk by (by split).
  split_and!; [|done..]. eapply harmless_keeps; [done|apply Hi|done].
Qed.
Lemma calm_write_tmp b : calm (fs_write (pointer_tmp root) b) (λ _ _, True).
Proof.
  apply calm_fs. intros w. eapply wp_mono; [apply fs_write_spec|]. intros r w' (fs' & -> & Hr).
  split; [|by destruct r]. exists fs'. split; [done|]. intros q [Hq _]%not_elem_of_cons.
  destruct r as [[]|e|]; [destruct Hr as [-> _]|destruct Hr as [->|(k & -> & _)]; [done|]|done];
    by rewrite lookup_insert_ne.
Qed.
Lemma calm_rename : calm (fs_rename (pointer_tmp root) (pointer_path root)) (λ _ _, True).
Proof.
  apply calm_fs. intros w. eapply wp_mono; [apply fs_rename_spec|]. intros r w' (fs' & -> & Hr).
  split; [|by destruct r]. exists fs'. split; [done|]. intros q. rewrite !not_elem_of_cons.
  intros (?&?&_). destruct r as [[]|e|]; [|by subst fs'|done].
  destruct Hr as (b & _ & -> & _). by rewrite lookup_insert_ne, lookup_delete_ne.
Qed.

(** ** The scheduler *)

(** Past the retention at one of the clock's readings. *)
Definition expired (days : Z) (e : BackupEntry) : Prop :=
  ∃ n, prunable (S := S) (retention_cutoff (clock n) days) e.

Section scheduler.
(** Which entries may leave. *)
Context (may_go : BackupEntry → Prop).

Definition kept w w' : Prop := ∀ e, e ∈ entries w → e ∈ entries w' ∨ may_go e.
#[export] Instance kept_preorder : PreOrder kept.
Proof.
  split; [by left|]. intros w1 w2 w3 Hk1 Hk2 e He. destruct (Hk1 e He) as [?|]; [by apply Hk2|by right].
Qed.

(** The scheduler relies on requests to leave the backups alone, and leaves the
    gate to them. *)
Definition sched_rely (_ : bool) w w' : Prop := keeps_backups w w'.
#[export] Instance sched_rely_preorder b : PreOrder (sched_rely b).
Proof. unfold sched_rely. apply _. Qed.
Definition sched_guar (_ : bool) w w' : Prop :=
  w_gate w' = w_gate w ∧ w_clock w ≤ w_clock w' ∧ kept w w'.
Definition wps {A} := wpi (A := A) backups_inv sched_rely sched_guar.

Lemma harmless_guar b w w' : harmless w w' → sched_guar b w w'.
Proof. intros (_ & [_ He Hc _] & Hg). split_and!; [done..|]. intros e. rewrite He. by left. Qed.

(** The tasks of the scheduler may fail, never panic, and take no mutex. *)
Definition sound_end {A} (b : bool) (r : Res A) w : Prop :=
  b = true ∧ match r with Panic _ => False | _ => True end.
Definition sound {A} (t : Task S A) w : Prop := wps true t sound_end w.

Lemma sound_assoc {A B C} (t : Task S A) (f : A → Task S B) (g : B → Task S C) w :
  sound (t ≫= λ a, f a ≫= g) w → sound ((t ≫= f) ≫= g) w.
Proof. apply wpi_assoc. Qed.
Lemma sound_rely {A} (t : Task S A) w w' : keeps_backups w w' → sound t w → sound t w'.
Proof. apply (wpi_rely _ sched_rely _ true). Qed.

(** An action in a sequence: harmless, or with its own effect. *)
Lemma sound_calm {A B} (m : M S A) P (k : A → Task S B) w :
  calm m P →
  (∀ a w1 w', keeps_backups w w1 → keeps_backups w1 w' → P w1 a → sound (k a) w') →
  sound (act m ≫= k) w.
Proof.
  intros Hm Hk. apply wpi_bind; [apply _|]. apply wpi_act. intros w1 Hr Hi.
  eapply wp_mono; [by apply Hm|]. intros r w2 [Hh Hpost].
  split_and!; [apply Hh|by apply harmless_guar|]. intros w3 Hr3 Hi3.
  destruct r as [a|e|]; simpl; [|done..]. apply (Hk a w1); [done| |done].
  etrans; [apply Hh|done].
Qed.
Lemma sound_act {A B} (m : M S A) (k : A → Task S B) w :
  (∀ w1, keeps_backups w w1 → backups_inv w1 → wp m (λ r w2, backups_inv w2 ∧
    sched_guar true w1 w2 ∧ match r with
      | Ok a => ∀ w3, keeps_backups w2 w3 → sound (k a) w3
      | Err _ => True
      | Panic _ => False
      end) w1) →
  sound (act m ≫= k) w.
Proof.
  intros Hm. apply wpi_bind; [apply _|]. apply wpi_act. intros w1 Hr Hi.
  eapply wp_mono; [by apply Hm|]. intros r w2 (Hi2 & Hg & Hpost). split_and!; [done..|].
  intros w3 Hr3 Hi3. destruct r as [a|e|]; simpl; [by apply Hpost|done..].
Qed.
Lemma sound_last {A} (m : M S A) P w : calm m P → sound (act m) w.
Proof.
  intros Hm. apply wpi_act. intros w1 Hr Hi. eapply wp_mono; [by apply Hm|].
  intros r w2 [Hh Hpost]. split_and!; [apply Hh|by apply harmless_guar|]. intros. by destruct r.
Qed.
Lemma sound_ret {A} (a : A) w : sound (mret a) w.
Proof. done. Qed.
Lemma sound_fail {A} e w : sound (task_fail (A := A) e) w.
Proof. done. Qed.

Lemma sound_bind {A B} (t : Task S A) (k : A → Task S B) w :
  sound t w → (∀ a w', sound (k a) w') → sound (t ≫= k) w.
Proof.
  intros Ht Hk. apply wpi_bind; [apply _|]. eapply wpi_mono; [exact Ht|].
  intros b [a|e|] w' [-> Hr]; cbn [task_post]; [apply Hk|done..].
Qed.
Lemma sound_attempt {A} (t : Task S A) w : sound t w → sound (task_attempt t) w.
Proof.
  intros Ht. apply wpi_attempt. eapply wpi_mono; [exact Ht|]. by intros b [] w' [-> ?].
Qed.

(** ** Recording an entry *)

(** What makes a new entry sound. *)
Definition recordable (e : BackupEntry) w : Prop := entry_ok e ∧
  (status e = Created → is_name (timestamp_dir e) ∧ dir_unused (timestamp_dir e) (entries w) ∧
     backup_intact content_hash root (w_fs w) e).

Lemma recordable_keeps e w w' : keeps_backups w w' → recordable e w → recordable e w'.
Proof.
  intros [Ha He _ _] [Hok Hc]. split; [done|]. intros Hst. destruct (Hc Hst) as (Hn & Hu & b & Hb & ?).
  split_and!; [done|by rewrite He|]. exists b. split; [|done]. rewrite Ha; [done|].
  rewrite !not_elem_of_cons. split_and!; [by apply payload_not_tmp|by apply payload_not_pointer|].
  apply not_elem_of_nil.
Qed.

(** Adding entries or replacing files outside the backups keeps what is there. *)
Lemma guar_adds b w w' :
  (∀ e, e ∈ entries w → e ∈ entries w') → w_gate w' = w_gate w → w_clock w ≤ w_clock w' →
  sched_guar b w w'.
Proof. intros He Hg Hc. split_and!; [done..|]. intros e Hin. left. by apply He. Qed.

Lemma insert_entry_sound e w :
  backups_inv w → recordable e w →
  wp (insert_entry e) (λ r w', backups_inv w' ∧ sched_guar true w w' ∧
    w_fs w' = w_fs w ∧ match r with Panic _ => False | _ => True end) w.
Proof.
  intros [Hwf Hf Hd] [Hok Hc]. eapply wp_mono; [by apply insert_entry_law|].
  intros r w' ((Hfs & Hg & _ & _ & Hclk & _) & Hwf' & _ & Hr).
  assert (entries w' ≡ₚ entries w ∨ entries w' ≡ₚ stored_entry e :: entries w) as Hp
    by (destruct r as [[]|err|]; naive_solver).
  assert (∀ e', e' ∈ entries w → e' ∈ entries w') as Hk
    by (intros e' He'; destruct Hp as [Hp|Hp]; rewrite Hp; rewrite ?elem_of_cons; auto).
  split_and!; [|by apply guar_adds|done|by destruct r]. split; [done|..]; rewrite ?Hfs.
  - destruct Hp as [Hp|Hp]; (eapply files_ok_perm; [done|]); [done|].
    apply files_ok_cons; [|done]. intros Hst. destruct (Hc Hst) as (?&_&?). done.
  - destruct Hp as [Hp|Hp]; (eapply dirs_distinct_perm; [done|]); [done|].
    apply dirs_distinct_cons; [|done]. intros Hst. by apply Hc.
Qed.

Lemma metadata_write_sound msg dir b w :
  backups_inv w → is_name dir →
  wp (context msg (fs_write (metadata_path root dir) b)) (λ r w', backups_inv w' ∧
    sched_guar true w w' ∧ match r with Panic _ => False | _ => True end) w.
Proof.
  intros [Hwf Hf Hd] Hn. apply wp_context. eapply wp_mono; [apply fs_write_spec|].
  intros r w' (fs' & -> & Hr).
  assert (files_ok content_hash root fs' (entries w)) as Hf'.
  { destruct r as [[]|e|]; [destruct Hr as [-> _]|destruct Hr as [->|(k & -> & _)]; [done|]|done];
      by apply files_ok_metadata. }
  assert (sched_guar true w (set_fs fs' (tick_io w))) by (by apply guar_adds).
  destruct r as [[]|e|]; [| |done]; by split_and!.
Qed.

Lemma sound_create_and_insert {B} new (k : BackupEntry → Task S B) w :
  uuids_ok → (∀ i, uuid_ok i → recordable (make_entry i new) w) →
  (∀ e w', sound (k e) w') → sound (create_and_insert_entry_task root new ≫= k) w.
Proof.
  intros Huu Hrec Hk. unfold create_and_insert_entry_task. apply sound_assoc.
  eapply sound_calm; [by apply calm_new_v4|]. intros i w1 w2 Hk1 Hk2 [Hi _]. apply sound_assoc.
  assert (recordable (make_entry i new) w2) as Hr
    by (apply (recordable_keeps _ w); [by trans w1|by apply Hrec]).
  apply sound_act. intros w3 Hk3 Hi3.
  eapply wp_mono; [by apply insert_entry_sound, (recordable_keeps _ w2)|].
  intros r w4 (Hi4 & Hg4 & _ & Hr4). split_and!; [done..|].
  destruct r as [[]|e|]; [|done..]. intros w5 Hk5.
  destruct (status (make_entry i new)) eqn:Hst; [|by apply Hk].
  apply sound_assoc, sound_act. intros w6 Hk6 Hi6.
  eapply wp_mono; [apply metadata_write_sound; [done|by apply Hr]|].
  intros r w7 (Hi7 & Hg7 & Hr7). split_and!; [done..|]. destruct r as [[]|e|]; [|done..].
  intros w8 _. apply Hk.
Qed.

Lemma sound_write_pointer {B} e (k : () → Task S B) w :
  (∀ w', sound (k ()) w') → sound (write_current_pointer_task root e ≫= k) w.
Proof.
  intros Hk. unfold write_current_pointer_task. apply sound_assoc.
  eapply sound_calm; [apply calm_now|]. intros t w1 w2 _ _ _. apply sound_assoc.
  eapply sound_calm; [apply calm_context, calm_write_tmp|]. intros [] w3 w4 _ _ _.
  eapply sound_calm; [apply calm_context, calm_rename|]. intros [] w5 w6 _ _ _. apply Hk.
Qed.

(** ** A backup *)

(** No clock reading to come falls in the second in which a backup was named. *)
Definition fresh_seconds w : Prop :=
  ∀ n, w_clock w ≤ n → dir_unused (format_timestamp_dir (clock n)) (entries w).
Lemma fresh_seconds_keeps w w' : keeps_backups w w' → fresh_seconds w → fresh_seconds w'.
Proof. intros [_ He Hc _] Hf n Hn. rewrite He. apply Hf. lia. Qed.

Lemma create_dir_sound msg dir w :
  backups_inv w →
  wp (context msg (create_dir_all (backup_dir root dir))) (λ r w', backups_inv w' ∧
    sched_guar true w w' ∧ entries w' = entries w ∧ match r with Panic _ => False | _ => True end) w.
Proof.
  intros [Hwf Hf Hd]. apply wp_context. eapply wp_mono; [apply create_dir_all_spec|].
  intros r w' (fs' & -> & Ha & _ & Hr).
  assert (backups_inv (set_fs fs' (tick_io w))) by (split; [done|by eapply files_ok_dirs|done]).
  assert (sched_guar true w (set_fs fs' (tick_io w))) by (by apply guar_adds).
  destruct r as [[]|e|]; [| |done]; by split_and!.
Qed.
Lemma payload_write_sound msg dir b w :
  backups_inv w → is_name dir → dir_unused dir (entries w) →
  wp (context msg (fs_write (payload_path root dir) b)) (λ r w', backups_inv w' ∧
    sched_guar true w w' ∧ entries w' = entries w ∧ match r with
      | Ok _ => w_fs w' !! payload_path root dir = Some (File b)
      | Err _ => True
      | Panic _ => False
      end) w.
Proof.
  intros [Hwf Hf Hd] Hn Hu. apply wp_context. eapply wp_mono; [apply fs_write_spec|].
  intros r w' (fs' & -> & Hr).
  assert (files_ok content_hash root fs' (entries w)) as Hf'.
  { destruct r as [[]|e|]; [destruct Hr as [-> _]|destruct Hr as [->|(k & -> & _)]; [done|]|done];
      by apply files_ok_insert. }
  assert (sched_guar true w (set_fs fs' (tick_io w))) by (by apply guar_adds).
  destruct r as [[]|e|]; [| |done]; split_and!; try done.
  destruct Hr as [-> _]. apply lookup_insert_eq.
Qed.

(** The payload is on the disk, and its directory is still nobody else's. *)
Definition payload_ready dir b w : Prop :=
  dir_unused dir (entries w) ∧ w_fs w !! payload_path root dir = Some (File b).
Lemma payload_ready_keeps dir b w w' :
  is_name dir → keeps_backups w w' → payload_ready dir b w → payload_ready dir b w'.
Proof.
  intros Hn [Ha He _ _] [Hu Hb]. split; [by rewrite He|]. rewrite Ha; [done|].
  rewrite !not_elem_of_cons. split_and!; [by apply payload_not_tmp|by apply payload_not_pointer|].
  apply not_elem_of_nil.
Qed.

Lemma sound_create_backup t payload w :
  uuids_ok → rfc3339_range t → payload_ok payload →
  dir_unused (format_timestamp_dir t) (entries w) →
  sound (create_backup_task root t payload (content_hash (payload_bytes payload))) w.
Proof.
  intros Huu Ht Hpl Hu. unfold create_backup_task. cbv zeta.
  assert (is_name (format_timestamp_dir t)) as Hn by (by apply format_timestamp_dir_name).
  set (dir := format_timestamp_dir t) in *. apply sound_act. intros w1 Hk1 Hi1.
  eapply wp_mono; [by apply create_dir_sound|]. intros r1 w2 (Hi2 & Hg2 & He2 & Hr1).
  split_and!; [done..|]. destruct r1 as [[]|e|]; [|done..]. intros w3 Hk3.
  apply sound_act. intros w4 Hk4 Hi4. assert (dir_unused dir (entries w4)) as Hu4.
  { rewrite (kb_entries _ _ Hk4), (kb_entries _ _ Hk3), He2, (kb_entries _ _ Hk1). done. }
  eapply wp_mono; [by apply payload_write_sound|]. intros r2 w5 (Hi5 & Hg5 & He5 & Hr5).
  split_and!; [done..|]. destruct r2 as [[]|e|]; [|done..]. intros w6 Hk6.
  assert (payload_ready dir (payload_bytes payload) w6) as Hp6.
  { eapply payload_ready_keeps; [done|done|]. split; [by rewrite He5|done]. }
  eapply sound_calm; [apply calm_context, calm_stats|]. intros s w7 w8 Hk7 Hk8 Hs.
  eapply sound_calm; [apply calm_context, calm_len|]. intros len w9 w10 Hk9 Hk10 Hlen.
  assert (payload_ready dir (payload_bytes payload) w9) as Hp9.
  { apply (payload_ready_keeps _ _ w6); [done| |done]. trans w7; [done|]. by trans w8. }
  rewrite (Hlen _ (proj2 Hp9)).
  apply sound_create_and_insert; [done| |].
  - intros i Hi. split.
    + split_and!; simpl; [done|done|apply as_i64_range|done|]. by intros s' [= <-].
    + intros _. apply (payload_ready_keeps _ _ w9 w10) in Hp9 as [Hu10 Hb]; [|done..].
      split_and!; [done..|]. by exists (payload_bytes payload).
  - intros e w11. apply sound_write_pointer. intros w12. apply sound_ret.
Qed.

Lemma sound_run_once payload w :
  uuids_ok → (∀ n, rfc3339_range (clock n)) → payload_ok payload → fresh_seconds w →
  sound (run_once_task root payload (content_hash (payload_bytes payload))) w.
Proof.
  intros Huu Hclk Hpl Hfs. unfold run_once_task.
  eapply sound_calm; [apply calm_now|]. intros t w1 w2 Hk1 Hk2 (n & Hn & ->).
  assert (dir_unused (format_timestamp_dir (clock n)) (entries w2)) as Hu2.
  { rewrite (kb_entries _ _ Hk2), (kb_entries _ _ Hk1). apply Hfs.
    pose proof (kb_clock _ _ Hk1). lia. }
  eapply sound_calm; [apply calm_last_hash|]. intros last w3 w4 Hk3 Hk4 _.
  assert (sound (create_backup_task root (clock n) payload (content_hash (payload_bytes payload))) w4)
    as Hcreate.
  { apply sound_create_backup; try done.
    by rewrite (kb_entries _ _ Hk4), (kb_entries _ _ Hk3). }
  destruct last as [h|]; [|done]. case_decide; [|done].
  apply sound_create_and_insert; [done| |intros e w5; apply sound_ret].
  intros i Hi. split; [|done]. split_and!; simpl; [done|apply Hclk| |done|done].
  unfold is_i64. split; by vm_compute.
Qed.

(** ** Pruning *)

Context (days : Z) (Hdays : ∀ e, expired days e → may_go e).

(** Directories that no entry uses any more. *)
Definition abandoned (dirs : list string) w : Prop :=
  Forall (λ d, is_name d ∧ dir_unused d (entries w)) dirs.

Lemma prune_sound n w :
  backups_inv w → rfc3339_range (retention_cutoff (clock n) days) →
  wp (prune_created_before (retention_cutoff (clock n) days)) (λ r w', backups_inv w' ∧
    sched_guar true w w' ∧ match r with
      | Ok doomed => abandoned doomed.*2 w'
      | Err _ => True
      | Panic _ => False
      end) w.
Proof.
  intros [Hwf Hf Hd] Hc. set (cutoff := retention_cutoff (clock n) days) in *.
  eapply wp_mono; [by apply prune_created_before_law|].
  intros r w' ((Hfs & Hg & _ & _ & Hclk & _) & Hwf' & _ & Hr).
  assert (∃ gone, Forall (prunable cutoff) gone ∧ entries w ≡ₚ gone ++ entries w') as (gone & Hgone & Hp).
  { destruct r as [doomed|e|]; [|done..]. destruct Hr as [_ Hent].
    exists (filter (prunable cutoff) (entries w)). split.
    - apply Forall_forall. by intros e [? _]%list_elem_of_filter.
    - rewrite Hent. apply filter_split_perm. }
  assert (∀ e, e ∈ entries w' → e ∈ entries w) as Hsub
    by (intros e He; rewrite Hp, elem_of_app; auto).
  assert (kept w w') as Hkept.
  { intros e He. rewrite Hp, elem_of_app in He. destruct He as [He|]; [right|by left].
    apply Hdays. exists n. by eapply Forall_forall in Hgone. }
  split_and!; [|by split_and!|].
  - split; [done|..]; rewrite ?Hfs; [by eapply files_ok_subset|by eapply dirs_distinct_subset].
  - destruct r as [doomed|e|]; [|done..]. destruct Hr as [Hdoom Hent]. apply Forall_forall.
    intros d Hd'. assert (d ∈ timestamp_dir <$> filter (prunable (S := S) cutoff) (entries w)) as Hin.
    { rewrite Hdoom, <- list_fmap_compose in Hd'. done. }
    apply list_elem_of_fmap in Hin as (e & -> & [[Hce Hold] He]%list_elem_of_filter).
    split; [by apply Hf|]. intros e' He' Hc' Heq.
    assert (e' ∈ entries w) as Hew by auto.
    assert (e' = e) as ->.
    { eapply (NoDup_fmap_elem id); [exact (st_ids_nodup _ Hwf)|done|done|]. by apply Hd. }
    rewrite Hent, list_elem_of_filter in He'. destruct He' as [Hno _]. by apply Hno.
Qed.

Lemma remove_dir_sound msg d w :
  backups_inv w → is_name d → dir_unused d (entries w) →
  wp (context msg (fs_remove_dir_all (backup_dir root d))) (λ r w', backups_inv w' ∧
    sched_guar true w w' ∧ entries w' = entries w ∧ match r with Panic _ => False | _ => True end) w.
Proof.
  intros [Hwf Hf Hd] Hn Hu. apply wp_context. eapply wp_mono; [apply fs_remove_dir_all_spec|].
  intros r w' (fs' & -> & Ha & _ & Hr).
  assert (backups_inv (set_fs fs' (tick_io w))) as Hi.
  { split; [done| |done]. apply (files_ok_agree content_hash root (w_fs w)); [|done].
    intros e He Hc. apply Ha. intros Hb. destruct (Hf e He Hc) as [Hne _].
    apply below_backup in Hb; [|done..]. by apply (Hu e). }
  assert (sched_guar true w (set_fs fs' (tick_io w))) by (by apply guar_adds).
  destruct r as [[]|e|]; [| |done]; by split_and!.
Qed.

Lemma abandoned_same dirs w w' : entries w' = entries w → abandoned dirs w → abandoned dirs w'.
Proof. unfold abandoned. by intros ->. Qed.

Lemma sound_remove_dirs {B} doomed (k : () → Task S B) w :
  abandoned doomed.*2 w → (∀ w', sound (k ()) w') →
  sound (remove_backup_dirs_task root doomed ≫= k) w.
Proof.
  revert w. induction doomed as [|[i d] doomed IH]; intros w Hab Hk;
    cbn [remove_backup_dirs_task]; [by apply Hk|].
  apply Forall_cons in Hab as [[Hn Hu] Hab]. apply sound_assoc.
  eapply sound_calm; [apply calm_exists|]. intros there w1 w2 Hk1 Hk2 _. apply sound_assoc.
  assert (entries w2 = entries w) as He2 by (by rewrite (kb_entries _ _ Hk2), (kb_entries _ _ Hk1)).
  destruct there; [|apply IH; [by eapply abandoned_same|done]].
  apply sound_act. intros w3 Hk3 Hi3. pose proof (kb_entries _ _ Hk3) as He3. rewrite He2 in He3.
  eapply wp_mono; [apply remove_dir_sound; [done|done|by rewrite He3]|].
  intros r w4 (Hi4 & Hg4 & He4 & Hr4). split_and!; [done..|]. destruct r as [[]|e|]; [|done..].
  intros w5 Hk5. apply IH; [|done]. eapply abandoned_same; [|done].
  by rewrite (kb_entries _ _ Hk5), He4.
Qed.

Lemma sound_prune w : clock_ok days → sound (prune_task root days) w.
Proof.
  intros Hclk. unfold prune_task. destruct (Z.leb_spec days 0) as [|Hd]; [apply sound_ret|].
  eapply sound_calm; [apply calm_now|]. intros t w1 w2 Hk1 Hk2 (n & Hn & ->).
  destruct (Hclk n) as [Ht Hc]. destruct (cutoff_computed _ days Ht Hc Hd) as (d & -> & ->).
  apply sound_act. intros w3 Hk3 Hi3. eapply wp_mono; [by apply prune_sound|].
  intros r w4 (Hi4 & Hg4 & Hr4). split_and!; [done..|]. destruct r as [doomed|e|]; [|done..].
  intros w5 Hk5. apply sound_remove_dirs; [|intros w6; apply sound_ret].
  eapply abandoned_same; [|done]. by rewrite (kb_entries _ _ Hk5).
Qed.

(** ** A round *)

Lemma sound_scheduler_round cfg w :
  uuids_ok → clock_ok days → fresh_seconds w → sound (scheduler_round_task root cfg days) w.
Proof.
  intros Huu Hclk Hfs. unfold scheduler_round_task.
  apply wpi_bind; [apply _|]. apply wpi_attempt, wpi_act. intros w1 Hr1 Hi1.
  eapply wp_mono; [by apply calm_sync|]. intros r w2 [Hh Hr].
  split_and!; [apply Hh|by apply harmless_guar|]. intros w3 Hk3 Hi3.
  destruct r as [sync|e|]; cbn [task_post]; [|by eapply sound_last, calm_log|done].
  assert (fresh_seconds w3) as Hfs3.
  { apply (fresh_seconds_keeps w); [|done]. trans w1; [done|]. etrans; [apply Hh|done]. }
  apply sound_bind.
  - unfold scheduled_backup_task. cbv zeta. apply sound_bind.
    + apply sound_attempt, (sound_run_once (payload_of sync)); [done|apply Hclk| |done].
      by intros d [= <-].
    + intros [e|[e|e]] w4; eapply sound_last, calm_log.
  - intros [] w4. unfold scheduled_pruning_task. apply sound_bind.
    + by apply sound_attempt, sound_prune.
    + intros [e|k] w5; [eapply sound_last, calm_log|].
      case_decide; [eapply sound_last, calm_log|apply sound_ret].
Qed.
End scheduler.
End interference.
