(* ===== verification/Service.v ===== *)
(** * The service and the program

    [run_service] and [main] of [crates/daemon/src/main.rs]: the arguments, the
    settings, the store that the database URL selects, the mode, and the address
    that the service listens on.  And the service as it runs when nothing
    interleaves: scheduler rounds and requests in any order, each of them atomic
    ([service_step]); [Pool.v] has the interleavings. *)

From S2P Require Import Prelude Calendar Net World Crates Core Store Sqlite Postgres Stats Repository.
From S2P Require Import RepositoryInv RepositoryThms RepositoryOps History Sync Config Server.
From S2P Require Import ServerThms Daemon.

(** ** [main] *)

(** What [run_service] starts: the scheduler with its account and retention, the
    server with its state and address. *)
Record ServiceStart := {
  start_state : AppState;
  start_account : SyncConfig;
  start_retention : Z;
  start_listen : SocketAddr;
}.
Definition service_start (penv : ProcEnv) (cfg : Config) (addr : SocketAddr) : ServiceStart := {|
  start_state := service_state penv cfg;
  start_account := sync_config penv cfg;
  start_retention := setting_retention_days penv cfg;
  start_listen := addr;
|}.
(** Up to the endless [axum::serve].  The scheduler is spawned before the address is
    read: it begins with a sleep, and ends with the process when [run_service]
    fails. *)
Definition run_service {S} `{!Env} (penv : ProcEnv) (cfg : Config) (listen : string) :
    M S ServiceStart :=
  addr ← context ("invalid listen address: " +:+ listen)
    (from_option ["invalid socket address syntax"] (socket_addr_from_str listen));
  log Info "starting daemon API/UI server" [("addr", show_socket_addr addr)];;
  (* TcpListener::bind *)
  io_step;;
  mret (service_start penv cfg addr).

(** The end of [main]: a backup was taken, or the service starts. *)
Inductive MainEnd := BackedUp | Serving (s : ServiceStart).

(** The databases a process can reach: the SQLite file below the root, the
    PostgreSQL database of the URL. *)
Record Databases := { db_sqlite : SqliteDb; db_postgres : PgDb }.
Definition set_sqlite (db : SqliteDb) (dbs : Databases) : Databases :=
  {| db_sqlite := db; db_postgres := db_postgres dbs |}.
Definition set_postgres (db : PgDb) (dbs : Databases) : Databases :=
  {| db_sqlite := db_sqlite dbs; db_postgres := db |}.

(** The same world around another database. *)
Definition with_db {S T} (db : T) (w : World S) : World T :=
  {| w_fs := w_fs w; w_db := db; w_gate := w_gate w; w_sent := w_sent w; w_log := w_log w;
     w_clock := w_clock w; w_uuid := w_uuid w; w_io := w_io w; w_random := w_random w;
     w_elapsed := w_elapsed w |}.
(** An operation on one of the databases. *)
Definition on_db {S T A} (get : T → S) (set : S → T → T) (m : M S A) : M T A := λ w,
  let '(r, w') := m (with_db (get (w_db w)) w) in (r, with_db (set (w_db w') (w_db w)) w').

Section main.
Context `{!Env, !Chrono, !UuidCrate, !SerdeJson, !HashCrates, !Zstd, !SqlEngine, !CollectionFile,
  !HttpCrates, !TomlCrate, !PgTimestamps}.

(** [main] once the store is known. *)
Definition main_on {S} `{!MetadataStore S, !StoreOpen S} (penv : ProcEnv) (cfg : Config)
    (mode : option string) : M S MainEnd :=
  let root := path_from (setting_root penv cfg) in
  let listen := setting_listen penv cfg in
  open_repository root store_new;;
  match run_mode mode with
  | RunOnceMode => run_once_main root (sync_config penv cfg);; mret BackedUp
  | ServiceMode => s ← run_service penv cfg listen; mret (Serving s)
  end.

Definition main (penv : ProcEnv) : M Databases MainEnd :=
  '(cfg, mode) ← parse_args penv;
  match init_backend (setting_database_url penv cfg) with
  | SqliteBackend => on_db db_sqlite set_sqlite (main_on penv cfg mode)
  | PostgresBackend => on_db db_postgres set_postgres (main_on penv cfg mode)
  end.
End main.

(** ** The running service *)

Inductive ServiceOp := OpSleep | OpRound | OpRequest (rq : Request).

Section service.
Context {S : Type} `{!Env, !Chrono, !UuidCrate, !SerdeJson, !HashCrates, !Zstd, !SqlEngine,
  !CollectionFile, !HttpCrates, !TarCrate, !AxumCrate, !MetadataStore S, !StoreModel S}.
Context (root : Path) (start : ServiceStart).
Implicit Types w : World S.

Abbreviation entries w := (st_entries (w_db w)).
Abbreviation events w := (st_events (w_db w)).

(** The scheduler reads the clock and sleeps, or runs a round; the server
    answers a request.  A round does not start in the second in which another
    backup was named. *)
Inductive service_step : ServiceOp → World S → World S → Prop :=
  | service_sleep r w w' : scheduler_delay w = (r, w') → service_step OpSleep w w'
  | service_round r w w' :
      dir_unused (format_timestamp_dir (clock (w_clock w))) (entries w) →
      scheduler_round root (start_account start) (start_retention start) w = (r, w') →
      service_step OpRound w w'
  | service_request rq r w w' :
      handle root (start_state start) rq w = (r, w') → service_step (OpRequest rq) w w'.

Inductive service_run : list ServiceOp → World S → World S → Prop :=
  | service_run_nil w : service_run [] w w
  | service_run_cons op ops w w1 w2 :
      service_step op w w1 → service_run ops w1 w2 → service_run (op :: ops) w w2.

(** A request to roll back that carries the tokens. *)
Definition may_roll_back (rq : Request) : Prop :=
  (∃ seg, route_of (rq_path rq) = Some (RollbackRoute seg)) ∧ rq_method rq = POST ∧
  require_api_auth (start_state start) (rq_headers rq) = true ∧
  csrf_accepted (start_state start) (rq_headers rq) = true.
#[export] Instance may_roll_back_dec rq : Decision (may_roll_back rq).
Proof.
  unfold may_roll_back.
  destruct (route_of (rq_path rq)) as [[|?|?|s| | |?]|]; try (right; by intros [[? [=]] _]).
  destruct (decide (rq_method rq = POST ∧
    require_api_auth (start_state start) (rq_headers rq) = true ∧
    csrf_accepted (start_state start) (rq_headers rq) = true)) as [Hd|Hd].
  - left. split; [by exists s|done].
  - right. by intros [_ ?].
Defined.
Definition is_roll_back (op : ServiceOp) : Prop :=
  match op with OpRequest rq => may_roll_back rq | _ => False end.

(** ** Requests *)

Context `{!ChronoLaws, !UuidLaws, !SqlEngineLaws, !CollectionFileLaws, !ZstdLaws, !TarLaws,
  !StoreLaws S}.
Abbreviation state := (start_state start).
Abbreviation inv := (repo_inv content_hash root).

(** A handler that answers and touches nothing. *)
Definition answers (m : M S (Z + Reply)) w : Prop :=
  wp m (λ r w', untouched w w' ∧ ∃ reply, r = Ok reply) w.

Lemma answers_ret (x : Z + Reply) w : answers (mret x) w.
Proof. split; [done|by eexists]. Qed.
Lemma answers_listing f w : inv w →
  answers (or_status repo_list_backups 500 (λ rows, mret (inr (f rows)))) w.
Proof.
  intros Hinv. unfold answers. eapply wp_mono; [apply listing_spec, Hinv|].
  intros r w' [Hu [->|(l & -> & _)]]; (split; [done|by eexists]).
Qed.
Lemma answers_lookup id_text (f : BackupEntry → Reply) w : inv w →
  answers (ok_or (uuid_parse_str id_text) 400 (λ i,
    or_status (repo_get_backup i) 500 (λ found, ok_or found 404 (λ e, mret (inr (f e)))))) w.
Proof.
  intros Hinv. unfold answers. apply lookup_spec; [apply Hinv|..]; intros; try apply wp_ret;
    (split; [done|by eexists]).
Qed.
Lemma answers_download id_text hs w : inv w → answers (download_backup root state id_text hs) w.
Proof.
  intros Hinv. unfold answers. eapply wp_mono; [by apply (download_spec content_hash)|].
  intros r w' [Hu Hr]. split; [done|]. destruct r as [reply|e|]; [by eexists|done..].
Qed.
Lemma answers_detail id_text hs w : inv w → answers (api_backup_detail state id_text hs) w.
Proof.
  intros Hinv. unfold api_backup_detail. destruct (require_api_auth state hs); [|apply answers_ret].
  by apply (answers_lookup id_text (λ b, JsonReply (to_value (entry_to_json b)))).
Qed.
Lemma answers_list hs w : inv w → answers (api_list_backups state hs) w.
Proof.
  intros Hinv. unfold api_list_backups. destruct (require_api_auth state hs); [|apply answers_ret].
  by apply (answers_listing (λ l, JsonReply (JArray (api_list_item <$> l)))).
Qed.
Lemma answers_on_get m h w : answers h w → answers (on_get m h) w.
Proof. intros. destruct m; try done; apply answers_ret. Qed.
Lemma answers_with_id seg h w : (∀ i, answers (h i) w) → answers (with_id seg h) w.
Proof. intros. unfold with_id, ok_or. destruct (percent_decode seg); [done|apply answers_ret]. Qed.

(** Every request is answered, keeps the repository and its entries, and touches
    nothing unless it may roll back. *)
Definition request_post (rq : Request) w (r : Res (Z + Reply)) w' : Prop :=
  inv w' ∧ entries w' = entries w ∧ (∃ reply, r = Ok reply) ∧ (¬ may_roll_back rq → untouched w w').

Lemma answers_post rq m w : inv w → answers m w → wp m (request_post rq w) w.
Proof.
  intros Hinv Hm. unfold answers in Hm. eapply wp_mono; [eexact Hm|]. cbn beta. intros r w' [Hu Hr]. pose proof Hu as (Hfs & Hdb & _).
  split_and!; [by apply (repo_inv_same content_hash root w)|by rewrite Hdb|done|done].
Qed.

(** A rollback without the CSRF token touches nothing. *)
Lemma rollback_forbidden id_text hs w :
  csrf_accepted state hs = false → answers (rollback_backup root state id_text hs) w.
Proof.
  intros Hc. unfold rollback_backup. rewrite Hc.
  destruct (require_api_auth state hs); apply answers_ret.
Qed.
Lemma rollback_post rq seg i w :
  inv w → uuids_ok → route_of (rq_path rq) = Some (RollbackRoute seg) → rq_method rq = POST →
  wp (rollback_backup root state i (rq_headers rq)) (request_post rq w) w.
Proof.
  intros Hinv Huu Hr Hm. destruct (csrf_accepted state (rq_headers rq)) eqn:Hc.
  2: { by apply answers_post, rollback_forbidden. }
  eapply wp_mono; [by apply (rollback_backup_spec content_hash)|].
  intros r w' (Hinv' & He & Hpost). split_and!; [done|done| |].
  - destruct r as [reply|e|]; [by eexists|done..].
  - intros Hno. destruct (require_api_auth state (rq_headers rq)) eqn:Ha.
    { destruct Hno. split_and!; by eauto. }
    destruct r as [[code|reply]|e|]; [|destruct Hpost as (e & _ & []); congruence|done..].
    destruct Hpost as (_ & H401 & Hu). apply Hu. rewrite H401 by done. left.
Qed.

Lemma rollback_route_post rq seg w :
  inv w → uuids_ok → route_of (rq_path rq) = Some (RollbackRoute seg) →
  wp (on_post (rq_method rq) (with_id seg (λ i, rollback_backup root state i (rq_headers rq))))
    (request_post rq w) w.
Proof.
  intros Hinv Huu Hr. destruct (rq_method rq) eqn:Hm; cbn [on_post];
    try (by apply answers_post, answers_ret).
  unfold with_id, ok_or. destruct (percent_decode seg) as [i|]; [by eapply rollback_post|].
  by apply answers_post, answers_ret.
Qed.

Lemma handle_spec rq w : inv w → uuids_ok → wp (handle root state rq) (request_post rq w) w.
Proof.
  intros Hinv Huu. unfold handle. cbv zeta.
  destruct (route_of (rq_path rq)) as [[|seg|seg|seg| | |seg]|] eqn:Hr;
    try (by apply rollback_route_post); (apply answers_post; [done|]); try apply answers_on_get;
    try (apply answers_with_id; intros i).
  - by apply (answers_listing (λ l, IndexPage (list_item <$> l))).
  - by apply (answers_lookup i (λ b, DetailPage (detail_view b) (default "" (csrf_token state)))).
  - by apply answers_download.
  - apply answers_ret.
  - by apply answers_list.
  - by apply answers_detail.
  - apply answers_ret.
Qed.

(** ** Runs *)

(** What one step leaves of the repository. *)
Lemma service_step_spec op w w' :
  inv w → uuids_ok → clock_ok (start_retention start) → service_step op w w' →
  inv w' ∧ (events w' = events w ∨ is_roll_back op) ∧
  ∀ e, e ∈ entries w → e ∈ entries w' ∨
    ∃ n, prunable (S := S) (retention_cutoff (clock n) (start_retention start)) e.
Proof.
  intros Hinv Huu Hclk Hstep. destruct Hstep as [r w w' Hrun|r w w' Hdir Hrun|rq r w w' Hrun].
  - injection Hrun as _ <-. split_and!; [by apply (repo_inv_same content_hash root w)|by left|by left].
  - run_spec (by apply scheduler_round_spec) in Hrun as (_ & Hinv' & Hev & _ & Hkeep).
    split_and!; [done|by left|]. intros e He.
    destruct (decide (e ∈ entries w')); [by left|right; by apply Hkeep].
  - run_spec (by apply handle_spec) in Hrun as (Hinv' & He & _ & Hu). split_and!; [done| |].
    + destruct (decide (events w' = events w)) as [|Hne]; [by left|right].
      destruct (decide (may_roll_back rq)) as [|Hno]; [done|].
      destruct (Hu Hno) as (_ & Hdb & _). by rewrite Hdb in Hne.
    + intros e. rewrite He. by left.
Qed.

Lemma service_run_spec ops w w' :
  uuids_ok → clock_ok (start_retention start) → service_run ops w w' → inv w →
  inv w' ∧ (events w' = events w ∨ Exists is_roll_back ops) ∧
  ∀ e, e ∈ entries w → e ∈ entries w' ∨
    ∃ n, prunable (S := S) (retention_cutoff (clock n) (start_retention start)) e.
Proof.
  intros Huu Hclk. induction 1 as [|op ops w w1 w2 Hstep Hrun IH]; intros Hinv; [by auto|].
  destruct (service_step_spec op w w1) as (Hinv1 & Hev1 & Hk1); try done.
  destruct (IH Hinv1) as (Hinv2 & Hev2 & Hk2). split_and!; [done| |].
  - destruct Hev1 as [Hev1|]; [|right; by left]. destruct Hev2 as [->|]; [by left|right; by right].
  - intros e He. destruct (Hk1 e He) as [He1|]; [by apply Hk2|by right].
Qed.
End service.

(** ** [main] keeps the repository *)

Section main_thms.
Context {S : Type} `{!Env, !Chrono, !UuidCrate, !SerdeJson, !HashCrates, !Zstd, !SqlEngine,
  !CollectionFile, !HttpCrates, !TomlCrate, !PgTimestamps}.
Context `{!ChronoLaws, !SqlEngineLaws, !CollectionFileLaws}.
Context `{!MetadataStore S, !StoreModel S, !StoreLaws S, !StoreOpen S, !StoreOpenLaws S}.
Context (root : Path).
Implicit Types w : World S.

Abbreviation entries w := (st_entries (w_db w)).

(** A directory and a database that [init] turns into a repository: sound once
    the missing tables are there. *)
Record openable w : Prop := {
  op_wf : st_wf (migrate (w_db w));
  op_files : files_ok content_hash root (w_fs w) (entries w);
  op_dirs : dirs_distinct (entries w);
  op_pointer : pointer_ok root (w_fs w);
}.

Lemma openable_repo_inv w : repo_inv content_hash root w → openable w.
Proof. intros []. split; [by rewrite migrate_wf|done..]. Qed.

Lemma open_repository_sound w :
  openable w →
  wp (open_repository root store_new) (λ r w', openable w' ∧ quiet w w' ∧ entries w' = entries w ∧
    match r with
    | Ok _ => repo_inv content_hash root w'
    | Err _ => True
    | Panic _ => False
    end) w.
Proof.
  intros [Hwf Hf Hd Hp]. eapply wp_mono; [exact (open_repository_spec root w)|].
  intros r w' (Hq & Ha & Hptr & _ & Hm & Hr).
  assert (entries w' = entries w) as He by (by rewrite <- migrate_entries, Hm, migrate_entries).
  assert (files_ok content_hash root (w_fs w') (entries w')) by (rewrite He; by eapply files_ok_dirs).
  assert (dirs_distinct (entries w')) by (by rewrite He).
  assert (pointer_ok root (w_fs w')) by (by eapply pointer_ok_agree).
  split_and!; [by split; [rewrite Hm|..]|done|done|].
  destruct r as [[]|e|]; [|done..]. destruct Hr as [Hdb _]. split; [by rewrite Hdb|done..].
Qed.

(** AnkiWeb delivered a collection, and a backup of it is in the repository. *)
Definition backed_up (account : SyncConfig) w w' : Prop :=
  ∃ reqs b e, session (length (w_sent w)) account (sid_at w) "download" (bytes_of_string "{}")
      meta_allows = (reqs, Some b) ∧ w_sent w' = w_sent w ++ reqs ∧
    e ∈ entries w' ∧ status e = Created ∧ content_hash_of e = content_hash b ∧
    backup_intact content_hash root (w_fs w') e.

Lemma run_once_main_spec account w :
  repo_inv content_hash root w → uuids_ok → rfc3339_range (clock (w_clock w)) →
  dir_unused (format_timestamp_dir (clock (w_clock w))) (entries w) →
  wp (run_once_main root account) (λ r w', repo_inv content_hash root w' ∧
    (∀ e, e ∈ entries w → e ∈ entries w') ∧
    match r with Ok _ => backed_up account w w' | Err _ => True | Panic _ => False end) w.
Proof.
  intros Hinv Huu Ht Hdir. unfold run_once_main. wp_steps.
  eapply wp_mono; [apply sync_outcomes|]. intros r w1 (Hn & reqs & Hs & Hr).
  pose proof Hn as (Hfs & Hdb & _ & Hc & _).
  assert (repo_inv content_hash root w1) as Hinv1 by (by apply (repo_inv_same content_hash root w)).
  destruct r as [sync|e|]; wp_steps; [|by rewrite Hdb|done]. destruct Hr as [Hdur Hses].
  eapply wp_mono; [apply run_once_spec; rewrite ?Hdb, ?Hc; try done; by intros d [= <-]|].
  rewrite ?Hdb. intros r w2 (Hq & Hinv2 & _ & Hr2).
  assert (w_sent w2 = w_sent w ++ reqs) as Hs2 by (rewrite <- Hs; apply Hq).
  assert (∀ e l, e ∈ entries w2 → status e = Created →
    content_hash_of e = content_hash (collection_bytes sync) → backed_up account w (add_log l w2)) as Hb.
  { intros e l He Hst Hh. exists reqs, (collection_bytes sync), e.
    split_and!; try done. by apply (ri_files _ _ _ Hinv2). }
  assert (∀ l, repo_inv content_hash root (add_log l w2)) as Hlog
    by (intros l; by eapply repo_inv_same; [..|exact Hinv2]).
  destruct r as [[e|e]|err|]; wp_steps; [| | |done].
  - destruct Hr2 as [_ [Hp _ _ Hst Hh _ _ _ _ _ _]]. rewrite Hdb in Hp.
    assert (stored_entry e ∈ entries w2) as Hin by (rewrite Hp; left).
    split_and!; [done| |by apply (Hb (stored_entry e))].
    intros e' He'. cbn [w_db add_log]. rewrite Hp. by right.
  - destruct Hr2 as [(e' & (He' & Hst & _) & Hh) [Hp _ _ _ _ _ _]]. rewrite Hdb in Hp.
    assert (∀ e0, e0 ∈ entries w → e0 ∈ entries w2) as Hkeep by (intros e0 ?; rewrite Hp; by right).
    split_and!; [done|done|]. by apply (Hb e'); [apply Hkeep|..].
  - split_and!; [done| |done].
    intros e He. destruct Hr2 as [Hp|[e' Hp]]; rewrite Hp; [done|by right].
Qed.
End main_thms.

Section main_outcomes.
Context `{!Env, !Chrono, !UuidCrate, !SerdeJson, !HashCrates, !Zstd, !SqlEngine, !CollectionFile,
  !HttpCrates, !TomlCrate, !PgTimestamps}.
Context `{!ChronoLaws, !UuidLaws, !SerdeJsonLaws, !SqlEngineLaws, !CollectionFileLaws,
  !PgTimestampLaws}.

(** Before: the chosen store can be opened, and no clock reading to come falls in
    the second in which a backup was named. *)
Definition main_pre {S} `{!StoreModel S, !StoreOpen S} (root : Path) (w : World S) : Prop :=
  openable root w ∧
  ∀ n, w_clock w ≤ n → dir_unused (format_timestamp_dir (clock n)) (st_entries (w_db w)).
(** After: nothing is lost, and the result is what the mode asked for. *)
Definition main_post {S} `{!StoreModel S, !StoreOpen S} (penv : ProcEnv) (cfg : Config)
    (mode : option string) (w : World S) (r : Res MainEnd) (w' : World S) : Prop :=
  let root := path_from (setting_root penv cfg) in
  openable root w' ∧ (∀ e, e ∈ st_entries (w_db w) → e ∈ st_entries (w_db w')) ∧
  match r with
  | Ok BackedUp => mode = Some "run-once" ∧ repo_inv content_hash root w' ∧
      backed_up root (sync_config penv cfg) w w'
  | Ok (Serving s) => mode ≠ Some "run-once" ∧ repo_inv content_hash root w' ∧
      w_sent w' = w_sent w ∧
      ∃ addr, socket_addr_from_str (setting_listen penv cfg) = Some addr ∧
        s = service_start penv cfg addr
  | Err _ => True
  | Panic _ => False
  end.

Lemma run_mode_spec mode :
  match run_mode mode with
  | RunOnceMode => mode = Some "run-once"
  | ServiceMode => mode ≠ Some "run-once"
  end.
Proof. destruct mode as [m|]; simpl; [case_decide|]; congruence. Qed.

(** The service starts on the address that the setting spells, or fails; it has
    sent nothing and touched nothing by then. *)
Lemma run_service_spec {S} penv cfg listen (w : World S) :
  wp (run_service penv cfg listen) (λ r w', w_sent w' = w_sent w ∧ w_fs w' = w_fs w ∧
    w_db w' = w_db w ∧
    match r with
    | Ok s => ∃ addr, socket_addr_from_str listen = Some addr ∧ s = service_start penv cfg addr
    | Err _ => True
    | Panic _ => False
    end) w.
Proof.
  unfold run_service. destruct (socket_addr_from_str listen) as [addr|]; wp_steps.
  2: { by split_and!. }
  destruct (fault _) as [f|]; wp_steps.
  - by split_and!.
  - split_and!; [done..|]. by exists addr.
Qed.

Lemma main_on_spec {S} `{!MetadataStore S, !StoreModel S, !StoreLaws S, !StoreOpen S,
    !StoreOpenLaws S} penv cfg mode (w : World S) :
  uuids_ok → (∀ n, rfc3339_range (clock n)) → main_pre (path_from (setting_root penv cfg)) w →
  wp (main_on penv cfg mode) (main_post penv cfg mode w) w.
Proof.
  intros Huu Hclk [Hop Hdir]. unfold main_on. cbv zeta. set (root := path_from _) in *. wp_steps.
  eapply wp_mono; [by apply open_repository_sound|]. intros r w1 (Hop1 & Hq & He & Hr).
  pose proof Hq as (_ & Hs & _ & Hrand & _ & Hc).
  destruct r as [[]|e|]; wp_steps; [|split_and!; [done|by rewrite He|done]|done].
  pose proof (run_mode_spec mode) as Hm. destruct (run_mode mode); wp_steps.
  2: { eapply wp_mono; [apply run_service_spec|]. intros r w2 (Hq2 & Hfs2 & Hdb2 & Hr2).
       assert (repo_inv content_hash root w2) as Hinv2 by (by apply (repo_inv_same content_hash root w1)).
       assert (∀ e, e ∈ st_entries (w_db w) → e ∈ st_entries (w_db w2)) as Hk
         by (by rewrite Hdb2, He).
       destruct r as [s|e|]; wp_steps; [|by split_and!; [by apply openable_repo_inv|..]|done].
       split_and!; [by apply openable_repo_inv|done..|by rewrite Hq2|done]. }
  eapply wp_mono; [apply run_once_main_spec; try done; rewrite He; by apply Hdir|].
  rewrite He. intros r w2 (Hinv2 & Hk & Hr2). pose proof (openable_repo_inv _ _ Hinv2) as Hop2.
  destruct r as [[]|e|]; wp_steps; [|by split_and!|done]. split_and!; try done.
  unfold backed_up, sid_at in *. by rewrite Hs, Hrand in Hr2.
Qed.

(** ** The choice of the store *)

Lemma wp_on_db {S T A} (get : T → S) (set : S → T → T) (m : M S A) (Q : Res A → World T → Prop) w :
  wp m (λ r w', Q r (with_db (set (w_db w') (w_db w)) w')) (with_db (get (w_db w)) w) →
  wp (on_db get set m) Q w.
Proof. unfold wp, on_db. by destruct (m _). Qed.

(** Reading the arguments and the configuration file changes nothing. *)
Definition reads_only {S} (w w' : World S) : Prop :=
  w_fs w' = w_fs w ∧ w_db w' = w_db w ∧ w_gate w' = w_gate w ∧ w_sent w' = w_sent w ∧
  w_clock w' = w_clock w ∧ w_random w' = w_random w.
Lemma parse_args_spec {S} penv (w : World S) :
  wp (parse_args penv) (λ r w', reads_only w w' ∧ match r with Panic _ => False | _ => True end) w.
Proof.
  unfold parse_args. destruct (args_loop _ _ _) as [e|[[path|] mode]]; wp_steps; try (by repeat split).
  unfold load_config, fs_read_to_string. wp_steps. eapply wp_mono; [apply fs_read_spec|].
  intros r w' [-> Hr]. destruct r as [b|e|]; wp_steps; [|by repeat split|done].
  destruct (utf8_valid _); wp_steps; [|by repeat split].
  destruct (toml_from_str _); wp_steps; by repeat split.
Qed.

Lemma main_pre_reads {S} `{!StoreModel S, !StoreOpen S} root (w w1 : World S) :
  reads_only w w1 → main_pre root w → main_pre root w1.
Proof.
  intros (Hfs & Hdb & _ & _ & Hc & _) [[] Hdir].
  split; [split; by rewrite ?Hfs, ?Hdb|]. intros n. rewrite Hc, Hdb. apply Hdir.
Qed.
Lemma main_post_reads {S} `{!StoreModel S, !StoreOpen S} penv cfg mode (w w1 : World S) r w' :
  reads_only w w1 → main_post penv cfg mode w1 r w' → main_post penv cfg mode w r w'.
Proof.
  intros (_ & Hdb & _ & Hs & _ & Hrand). unfold main_post, backed_up, sid_at.
  by rewrite Hdb, Hs, Hrand.
Qed.
Lemma reads_with_db {S T} (db : T) (w w1 : World S) :
  reads_only w w1 → reads_only (with_db db w) (with_db db w1).
Proof. by intros (?&?&?&?&?&?). Qed.

(** [main] on one of the databases. *)
Lemma main_at {S} `{!MetadataStore S, !StoreModel S, !StoreLaws S, !StoreOpen S, !StoreOpenLaws S}
    (get : Databases → S) (set : S → Databases → Databases) penv cfg mode (w w1 : World Databases) :
  (∀ db dbs, get (set db dbs) = db) → uuids_ok → (∀ n, rfc3339_range (clock n)) →
  reads_only w w1 → main_pre (path_from (setting_root penv cfg)) (with_db (get (w_db w)) w) →
  wp (on_db get set (main_on penv cfg mode)) (λ r w', (∃ db, w_db w' = set db (w_db w)) ∧
    main_post penv cfg mode (with_db (get (w_db w)) w) r (with_db (get (w_db w')) w')) w1.
Proof.
  intros Hgs Huu Hclk Hr Hpre. assert (w_db w1 = w_db w) as Hdb by apply Hr.
  apply wp_on_db. rewrite Hdb. pose proof (reads_with_db (get (w_db w)) _ _ Hr) as Hr'.
  eapply wp_mono; [apply main_on_spec; [done..|by eapply main_pre_reads]|].
  intros r w' Hpost%(main_post_reads _ _ _ _ _ _ _ Hr'). cbn [w_db with_db].
  split; [by eexists|]. rewrite Hgs. by destruct w'.
Qed.
End main_outcomes.
