(* ===== verification/Pool.v ===== *)
(** * The running daemon

    A [Pool] is the daemon in execution: the world, the scheduler's task and the
    requests being served.  [pool_step] lets any of them act next, lets requests
    arrive and their clients give up, and grants the rollback mutex to one request
    at a time.  Along every run the backups stay sound, and rollbacks that
    succeed are ten seconds apart. *)

From stdpp Require Import relations.
From S2P Require Import Prelude Calendar World Tasks Crates Core Store Stats Repository.
From S2P Require Import RepositoryInv RepositoryThms RepositoryOps Sync Config Server ServerThms.
From S2P Require Import Daemon Async Interference Service.

(** A request being served: what is left of its handler, and whether it holds the
    mutex. *)
Record Job (S : Type) := { j_task : Task S (Z + Reply); j_locked : bool }.
Arguments j_task {S} j.
Arguments j_locked {S} j.
Record Pool (S : Type) := {
  p_world : World S;
  p_sched : Task S ();
  p_jobs : gmap nat (Job S);
}.
Arguments p_world {S} p.
Arguments p_sched {S} p.
Arguments p_jobs {S} p.

Section pool.
Context {S : Type} `{!Env, !Chrono, !UuidCrate, !SerdeJson, !HashCrates, !Zstd, !SqlEngine,
  !CollectionFile, !HttpCrates, !TarCrate, !AxumCrate, !MetadataStore S, !StoreModel S}.
Context (root : Path) (start : ServiceStart).
Implicit Types (w : World S) (p : Pool S).

Abbreviation entries w := (st_entries (w_db w)).
Abbreviation state := (start_state start).

(** ** Steps *)

Definition set_world w p : Pool S :=
  {| p_world := w; p_sched := p_sched p; p_jobs := p_jobs p |}.
Definition set_sched (t : Task S ()) p : Pool S :=
  {| p_world := p_world p; p_sched := t; p_jobs := p_jobs p |}.
Definition set_jobs (jobs : gmap nat (Job S)) p : Pool S :=
  {| p_world := p_world p; p_sched := p_sched p; p_jobs := jobs |}.

(** No request holds the mutex. *)
Definition unlocked p : Prop := ∀ n j, p_jobs p !! n = Some j → j_locked j = false.

Inductive pool_step : Pool S → Pool S → Prop :=
  (** the scheduler acts *)
  | pool_sched next upd p : p_sched p = Act next upd →
      pool_step p (set_sched (next (p_world p)) (set_world (upd (p_world p)) p))
  (** it reads the clock to see how long to sleep *)
  | pool_sleep p : p_sched p = Done (Ok ()) →
      pool_step p (set_world (scheduler_delay (p_world p)).2 p)
  (** it has slept, and starts a round; no backup is named after a second to come *)
  | pool_round p : p_sched p = Done (Ok ()) → fresh_seconds (p_world p) →
      pool_step p (set_sched (scheduler_round_task root (start_account start) (start_retention start)) p)
  (** a request arrives *)
  | pool_arrive n rq p : p_jobs p !! n = None →
      pool_step p (set_jobs (<[n := {| j_task := handle_task root state rq; j_locked := false |}]> (p_jobs p)) p)
  (** a handler acts *)
  | pool_act n j next upd p : p_jobs p !! n = Some j → j_task j = Act next upd →
      pool_step p (set_world (upd (p_world p)) (set_jobs
        (<[n := {| j_task := next (p_world p); j_locked := j_locked j |}]> (p_jobs p)) p))
  (** it gets the mutex *)
  | pool_lock n j t p : p_jobs p !! n = Some j → j_task j = Lock t → unlocked p →
      pool_step p (set_jobs (<[n := {| j_task := t; j_locked := true |}]> (p_jobs p)) p)
  (** it has ended, and a mutex it holds is released *)
  | pool_end n j r p : p_jobs p !! n = Some j → j_task j = Done r →
      pool_step p (set_jobs (delete n (p_jobs p)) p)
  (** its client is gone, and it is dropped where it stands *)
  | pool_cancel n p : pool_step p (set_jobs (delete n (p_jobs p)) p).

(** ** Schedules *)

(** Who acts next; a round starts by [pool_round]. *)
Inductive Choice := ChSched | ChArrive (n : nat) (rq : Request) | ChJob (n : nat) | ChEnd (n : nat).

#[export] Instance unlocked_dec p : Decision (unlocked p).
Proof.
  refine (cast_if (decide (map_Forall (λ _ j, j_locked j = false) (p_jobs p)))); by unfold unlocked.
Defined.

Definition pool_next (c : Choice) p : option (Pool S) :=
  match c with
  | ChSched =>
      match p_sched p with
      | Act next upd => Some (set_sched (next (p_world p)) (set_world (upd (p_world p)) p))
      | _ => None
      end
  | ChArrive n rq =>
      match p_jobs p !! n with
      | None => Some (set_jobs
          (<[n := {| j_task := handle_task root state rq; j_locked := false |}]> (p_jobs p)) p)
      | Some _ => None
      end
  | ChJob n =>
      match p_jobs p !! n with
      | Some {| j_task := Act next upd; j_locked := b |} =>
          Some (set_world (upd (p_world p)) (set_jobs
            (<[n := {| j_task := next (p_world p); j_locked := b |}]> (p_jobs p)) p))
      | Some {| j_task := Lock t |} =>
          if decide (unlocked p) then
            Some (set_jobs (<[n := {| j_task := t; j_locked := true |}]> (p_jobs p)) p)
          else None
      | _ => None
      end
  | ChEnd n =>
      match p_jobs p !! n with
      | Some {| j_task := Done _ |} => Some (set_jobs (delete n (p_jobs p)) p)
      | _ => None
      end
  end.
Fixpoint pool_exec (cs : list Choice) p : option (Pool S) :=
  match cs with
  | [] => Some p
  | c :: cs => p' ← pool_next c p; pool_exec cs p'
  end.

Lemma pool_next_step c p p' : pool_next c p = Some p' → pool_step p p'.
Proof.
  destruct c as [|n rq|n|n]; cbn [pool_next].
  - destruct (p_sched p) eqn:Ht; try done. intros [= <-]. by apply pool_sched.
  - destruct (p_jobs p !! n) eqn:Hn; [done|]. intros [= <-]. by apply pool_arrive.
  - destruct (p_jobs p !! n) as [[[r|next upd|t] b]|] eqn:Hn; try done.
    + intros [= <-]. exact (pool_act n _ next upd p Hn eq_refl).
    + case_decide; [|done]. intros [= <-]. by eapply pool_lock.
  - destruct (p_jobs p !! n) as [[[r|next upd|t] b]|] eqn:Hn; try done. intros [= <-].
    by eapply pool_end.
Qed.
Lemma pool_exec_steps cs p p' : pool_exec cs p = Some p' → rtc pool_step p p'.
Proof.
  revert p. induction cs as [|c cs IH]; intros p; cbn [pool_exec].
  { by intros [= <-]. }
  destruct (pool_next c p) as [p1|] eqn:Hc; [|done]. intros Hcs.
  eapply rtc_l; [by eapply pool_next_step|by apply IH].
Qed.

(** ** What requests rely on and guarantee *)

(** Ten seconds after the last rollback. *)
Definition spaced w w' : Prop :=
  ∃ t, w_gate w' = Some t ∧ ∀ last, w_gate w = Some last → (last + 10 * ns_per_sec ≤ t)%Z.

Definition req_rely (b : bool) w w' : Prop :=
  (b = true → w_gate w' = w_gate w) ∧ w_clock w ≤ w_clock w'.
#[export] Instance req_rely_preorder b : PreOrder (req_rely b).
Proof.
  split; [by intros w; split|]. intros w1 w2 w3 [Hg1 Hc1] [Hg2 Hc2].
  split; [|lia]. intros Hb. by rewrite Hg2, Hg1.
Qed.
Definition req_guar (b : bool) w w' : Prop :=
  keeps_backups root w w' ∧ (w_gate w' = w_gate w ∨ b = true ∧ spaced w w').

(** The gate was closed at [g] or later, and the clock has been read [c] times: a
    moment that the tasks to come have behind them. *)
Definition since (s : option (DateTime * nat)) w : Prop :=
  match s with
  | Some (g, c) => c ≤ w_clock w ∧ ∃ t, w_gate w = Some t ∧ (g ≤ t)%Z
  | None => True
  end.
Definition inv_since s w : Prop := backups_inv root w ∧ since s w.
(** The reply to a rollback that succeeded. *)
Definition success_reply (i : string) (uploaded : bool) : Reply :=
  JsonReply (json_object [("rolled_back_to", JString i); ("uploaded", JBool uploaded)]).
Definition told_success (r : Res (Z + Reply)) : Prop :=
  ∃ i uploaded, r = Ok (inr (success_reply i uploaded)).
(** The gate was closed at a reading of the clock; after [s], if there is an [s]. *)
Definition closed_since s w : Prop := ∃ k, w_gate w = Some (clock k) ∧ k < w_clock w ∧
  match s with Some (g, c) => c ≤ k ∧ (g + 10 * ns_per_sec ≤ clock k)%Z | None => True end.
(** A request is answered; if it is told that it has rolled back, it holds the mutex
    and has closed the gate. *)
Definition served s (b : bool) (t : Task S (Z + Reply)) w : Prop :=
  wpi (inv_since s) req_rely req_guar b t (λ b r w', (∃ reply, r = Ok reply) ∧
    (told_success r → b = true ∧ closed_since s w')) w.

Context `{!ChronoLaws, !UuidLaws, !SqlEngineLaws, !CollectionFileLaws, !StoreLaws S}.

Lemma harmless_rely b w w' : harmless root w w' → req_rely b w w'.
Proof. intros (_ & [_ _ ? _] & ?). by split. Qed.
Lemma harmless_req_guar b w w' : harmless root w w' → req_guar b w w'.
Proof. intros (_ & ? & ?). split; auto. Qed.
Lemma since_rely s w w' : req_rely true w w' → since s w → since s w'.
Proof.
  intros [Hg Hc]. destruct s as [[g c]|]; [|done]. intros [Hle (t & Ht & Hgt)].
  split; [lia|]. exists t. by rewrite Hg.
Qed.
Lemma since_guar s b w w' : req_guar b w w' → since s w → since s w'.
Proof.
  intros [Hk Hg]. destruct s as [[g c]|]; [|done]. intros [Hle (t & Ht & Hgt)].
  pose proof (kb_clock _ _ _ Hk) as Hc. split; [lia|].
  destruct Hg as [->|[_ (t' & -> & Hsp)]]; [by exists t|]. exists t'. split; [done|].
  specialize (Hsp t Ht). unfold ns_per_sec in Hsp. lia.
Qed.
Lemma closed_since_rely s w w' : req_rely true w w' → closed_since s w → closed_since s w'.
Proof. intros [Hg Hc] (k & Hk & Hlt & Hs). exists k. rewrite Hg by done. split_and!; [done|lia|done]. Qed.
Lemma harmless_since s w w' : harmless root w w' → inv_since s w → inv_since s w'.
Proof.
  intros Hh [_ Hs]. split; [apply Hh|]. eapply since_rely; [by apply harmless_rely|done].
Qed.

Implicit Types s : option (DateTime * nat).

Lemma served_ret s b (x : Z + Reply) w : ¬ told_success (Ok x) → served s b (mret x) w.
Proof. intros Hx w' _ _. split; [by eexists|done]. Qed.
Lemma served_code s b code w : served s b (mret (inl code)) w.
Proof. apply served_ret. by intros (i & up & [=]). Qed.

(** A call whose outcome is a value. *)
Lemma served_attempt {A} s b (m : M S A) P (k : Error + A → Task S (Z + Reply)) w :
  calm root m P →
  (∀ r w1 w', req_rely b w w' → match r with inr a => P w1 a | inl _ => True end →
    served s b (k r) w') →
  served s b (task_attempt (act m) ≫= k) w.
Proof.
  intros Hm Hk. apply wpi_bind; [apply _|]. apply wpi_attempt, wpi_act. intros w1 Hr1 Hi1.
  eapply wp_mono; [apply Hm, Hi1|]. intros r w2 [Hh Hr].
  split_and!; [by eapply harmless_since|by apply harmless_req_guar|]. intros w3 Hr3 Hi3.
  assert (req_rely b w w3) as Hw.
  { trans w1; [done|]. etrans; [by apply harmless_rely|done]. }
  destruct r as [a|e|]; cbn [task_post]; [by apply (Hk (inr a) w1)|by apply (Hk (inl e) w1)|done].
Qed.
Lemma served_or_status {A} s b (m : M S A) P code (k : A → Task S (Z + Reply)) w :
  calm root m P → (∀ a w1 w', req_rely b w w' → P w1 a → served s b (k a) w') →
  served s b (or_status_task (act m) code k) w.
Proof.
  intros Hm Hk. eapply served_attempt; [done|]. intros [e|a] w1 w' Hr HP; [apply served_code|].
  by eapply Hk.
Qed.
(** A call that cannot fail. *)
Lemma served_sure {A} s b (m : M S A) P (k : A → Task S (Z + Reply)) w :
  calm root m P → (∀ w, ∃ a, (m w).1 = Ok a) →
  (∀ a w1 w', req_rely b w w1 → req_rely b (m w1).2 w' → P w1 a → (m w1).1 = Ok a → since s w1 →
    served s b (k a) w') →
  served s b (act m ≫= k) w.
Proof.
  intros Hm Hok Hk. apply wpi_bind; [apply _|]. apply wpi_act. intros w1 Hr1 Hi1.
  destruct (Hok w1) as [a Ha]. specialize (Hm w1 (proj1 Hi1)). unfold wp in *. rewrite Ha in *.
  destruct Hm as [Hh HP]. split_and!; [by eapply harmless_since|by apply harmless_req_guar|].
  intros w3 Hr3 Hi3. apply (Hk a w1); [done..|apply Hi1].
Qed.

(** ** Reading handlers *)

Lemma served_lookup s b id_text (k : BackupEntry → Task S (Z + Reply)) w :
  (∀ e w', served s b (k e) w') →
  served s b (ok_or_task (uuid_parse_str id_text) 400 (λ i,
    or_status_task (act (repo_get_backup i)) 500 (λ found, ok_or_task found 404 k))) w.
Proof.
  intros Hk. unfold ok_or_task at 1. destruct (uuid_parse_str id_text) as [i|] eqn:Hi; [|apply served_code].
  eapply served_or_status; [by eapply calm_get, uuid_parse_ok|]. intros [e|] w1 w' _ _; [apply Hk|].
  apply served_code.
Qed.
Lemma served_list s b (f : list BackupEntry → Reply) w :
  (∀ rows, ¬ told_success (Ok (inr (f rows)))) →
  served s b (or_status_task (act repo_list_backups) 500 (λ rows, mret (inr (f rows)))) w.
Proof. intros Hf. eapply served_or_status; [apply calm_list|]. intros rows w1 w' _ _. by apply served_ret. Qed.
Lemma served_download s b id_text hs w : served s b (download_backup_task root state id_text hs) w.
Proof.
  unfold download_backup_task. destruct (negb _); [apply served_code|]. apply served_lookup.
  intros e w'. case_decide; [apply served_code|].
  eapply served_or_status; [apply calm_read|]. intros x w1 w2 _ _.
  destruct (archive x); [apply served_ret; by intros (i & up & [=])|apply served_code].
Qed.

(** ** The rollback handler *)

Lemma calm_gate_closed : calm root gate_closed (λ w b, b = false → gate_open w).
Proof.
  intros w Hi. eapply wp_mono; [apply gate_closed_spec|]. intros r w' [Hw Hr]. split.
  - destruct Hw as [->| ->]; apply harmless_same; simpl; try done; lia.
  - destruct Hr as [[-> _]|[-> ?]]; [done|]. by intros _.
Qed.

Context (clock_mono : ∀ n m, n ≤ m → (clock n ≤ clock m)%Z).

(** Every reading to come is ten seconds after the last rollback. *)
Definition gate_past w : Prop := ∀ last n, w_gate w = Some last → w_clock w ≤ n →
  (last + 10 * ns_per_sec ≤ clock n)%Z.
Lemma gate_past_rely w w' : req_rely true w w' → gate_past w → gate_past w'.
Proof. intros [Hg Hc] Hp last n. rewrite Hg by done. intros ? ?. apply Hp; [done|lia]. Qed.
Lemma gate_open_past w : gate_open w → gate_past w.
Proof.
  intros Ho last n Hg Hn. specialize (Ho last Hg). specialize (clock_mono (w_clock w) n Hn). lia.
Qed.

Lemma gate_closed_ok w : ∃ b, (gate_closed w).1 = Ok b.
Proof. destruct (gate_closed_spec w) as [_ [[-> _]|[-> _]]]; by eexists. Qed.

(** The steps of [rollback_to] keep the gate as it is. *)
Definition steady {A} s (w0 : World S) (t : Task S A) w : Prop :=
  wpi (inv_since s) req_rely req_guar true t (λ b r w',
    b = true ∧ req_rely true w0 w' ∧ match r with Panic _ => False | _ => True end) w.
Lemma steady_calm {A B} s w0 (m : M S A) P (k : A → Task S B) w :
  calm root m P → req_rely true w0 w →
  (∀ a w1 w', req_rely true w0 w' → P w1 a → steady s w0 (k a) w') → steady s w0 (act m ≫= k) w.
Proof.
  intros Hm Hw Hk. apply wpi_bind; [apply _|]. apply wpi_act. intros w1 Hr1 Hi1.
  eapply wp_mono; [apply Hm, Hi1|]. intros r w2 [Hh Hr].
  split_and!; [by eapply harmless_since|by apply harmless_req_guar|]. intros w3 Hr3 Hi3.
  assert (req_rely true w0 w3) as Hw3.
  { trans w; [done|]. trans w1; [done|]. etrans; [by apply harmless_rely|done]. }
  destruct r as [a|e|]; cbn [task_post]; [by apply (Hk a w1)|by split_and!|done].
Qed.
Lemma steady_done {A} s w0 (r : Res A) w :
  req_rely true w0 w → match r with Panic _ => False | _ => True end → steady s w0 (Done r) w.
Proof. intros Hw Hr w' Hr' _. split_and!; [done|by etrans|done]. Qed.
Lemma steady_assoc {A B C} s w0 (t : Task S A) (f : A → Task S B) (g : B → Task S C) w :
  steady s w0 (t ≫= λ a, f a ≫= g) w → steady s w0 ((t ≫= f) ≫= g) w.
Proof. apply wpi_assoc. Qed.

Lemma steady_rollback s i w : uuids_ok → uuid_ok i → steady s w (rollback_to_task root i) w.
Proof.
  intros Huu Hi. unfold rollback_to_task.
  eapply steady_calm; [by apply calm_get|done|]. intros o w1 w2 Hw2 Ho.
  destruct o as [e|]; [|by apply steady_done]. destruct (Ho e eq_refl) as [_ He]. clear Ho. cbn [task_option].
  change (mret e ≫= ?k) with (k e). cbv beta. case_decide; [by apply steady_done|].
  unfold write_current_pointer_task. apply steady_assoc.
  eapply steady_calm; [apply calm_now|done|]. intros t w3 w4 Hw4 _. apply steady_assoc.
  eapply steady_calm; [apply calm_context, calm_write_tmp|done|]. intros [] w5 w6 Hw6 _.
  eapply steady_calm; [apply calm_context, calm_rename|done|]. intros [] w7 w8 Hw8 _.
  eapply steady_calm; [apply calm_event; [done|by rewrite He]|done|]. intros [] w9 w10 Hw10 _.
  by apply steady_done.
Qed.

(** Closing the gate, ten seconds after it was last closed. *)
Lemma served_close_gate s (x : Z + Reply) w :
  gate_past w → served s true (t ← act now; act (modify (set_gate (Some t)));; mret x) w.
Proof.
  intros Hp. eapply served_sure; [apply calm_now|by eexists|].
  intros t w1 w2 Hr1 Hr2 _ Ht Hs1. injection Ht as <-.
  apply wpi_bind; [apply _|]. apply wpi_act. intros w3 Hr3 Hi3.
  assert (req_rely true (tick_clock w1) w3) as Hr13 by (by trans w2).
  assert (req_rely true w w3) as Hr by (trans w1; [done|]; trans (tick_clock w1); [by split; [|simpl; lia]|done]).
  assert (req_guar true w3 (set_gate (Some (clock (w_clock w1))) w3)) as Hg.
  { split; [by split|right]. split; [done|]. eexists. split; [done|]. intros last Hl.
    apply Hp; [by rewrite <- (proj1 Hr)|apply Hr1]. }
  assert (closed_since s (set_gate (Some (clock (w_clock w1))) w3)) as Hcl.
  { exists (w_clock w1). split_and!; [done|destruct Hr13 as [_ Hc13]; simpl in *; lia|].
    destruct s as [[g c]|]; [|done]. destruct Hs1 as [Hc (t & Ht & Hgt)]. split; [done|].
    pose proof (gate_past_rely _ _ Hr1 Hp t (w_clock w1) Ht (le_n _)). lia. }
  split_and!; [|done|].
  - split; [by destruct Hi3 as [[] _]|]. eapply since_guar; [exact Hg|apply Hi3].
  - intros w4 Hr4 _ w5 Hr5 _. split; [by eexists|]. intros _. split; [done|].
    eapply closed_since_rely; [|exact Hcl]. by trans w4.
Qed.

Lemma served_push s e (t : Task S (Z + Reply)) w :
  (∀ w', req_rely true w w' → served s true t w') → served s true (push_rolled_back_task root state e t) w.
Proof.
  intros Ht. unfold push_rolled_back_task. cbv zeta. destruct (app_sync_config state) as [cfg|].
  - eapply served_attempt; [apply calm_read|]. intros [err|b] w1 w2 Hr2 _.
    { eapply served_sure; [apply calm_log|by eexists|]. intros [] w3 w4 _ _ _ _ _. apply served_code. }
    eapply served_attempt; [apply calm_upload|]. intros [err|[]] w3 w4 Hr4 _.
    { eapply served_sure; [apply calm_log|by eexists|]. intros [] w5 w6 _ _ _ _ _. apply served_code. }
    eapply served_sure; [apply calm_log|by eexists|]. intros [] w5 w6 Hr5 Hr6 _ _ _.
    apply Ht. trans w2; [done|]. trans w4; [done|]. by trans w5.
  - eapply served_sure; [apply calm_log|by eexists|]. intros [] w5 w6 Hr5 Hr6 _ _ _.
    apply Ht. by trans w5.
Qed.

(** What the rollback handler does with the mutex. *)
Definition locked_rollback (id_text : string) : Task S (Z + Reply) :=
  closed ← act gate_closed;
  if (closed : bool) then mret (inl 429%Z)
  else ok_or_task (uuid_parse_str id_text) 400 (λ i,
    or_status_task (rollback_to_task root i) 400 (λ rolled,
      push_rolled_back_task root state rolled (
        t ← act now;
        act (modify (set_gate (Some t)));;
        mret (inr (success_reply (uuid_to_string (id rolled))
          (bool_decide (is_Some (app_sync_config state)))))))).
Lemma rollback_locks id_text hs : rollback_backup_task root state id_text hs =
  if negb (require_api_auth state hs) then mret (inl 401%Z)
  else if negb (csrf_accepted state hs) then mret (inl 403%Z)
  else Lock (locked_rollback id_text).
Proof. done. Qed.
Lemma served_locked s id_text w : uuids_ok → served s true (locked_rollback id_text) w.
Proof.
  intros Huu. unfold locked_rollback. eapply served_sure; [apply calm_gate_closed|apply gate_closed_ok|].
  intros closed w1 w2 Hr1 Hr2 Hopen Hclosed _. destruct closed; [apply served_code|].
  unfold ok_or_task. destruct (uuid_parse_str id_text) as [i|] eqn:Hi; [|apply served_code].
  assert (gate_past w2) as Hp2.
  { apply (gate_past_rely w1); [|by apply gate_open_past, Hopen]. trans (gate_closed w1).2; [|done].
    destruct (gate_closed_spec w1) as [[->| ->] _]; [done|]. by split; [|simpl; lia]. }
  apply wpi_bind; [apply _|]. apply wpi_attempt.
  eapply wpi_mono; [apply steady_rollback; [done|by eapply uuid_parse_ok]|].
  intros b r w3 (-> & Hr3 & Hr). destruct r as [e|err|]; cbn [task_post]; [|apply served_code|done].
  apply served_push. intros w4 Hr4. apply served_close_gate.
  apply (gate_past_rely w2); [by trans w3|done].
Qed.
Lemma served_rollback s id_text hs w :
  uuids_ok → served s false (rollback_backup_task root state id_text hs) w.
Proof.
  intros Huu. rewrite rollback_locks. do 2 (destruct (negb _); [apply served_code|]).
  apply wpi_lock. intros w0 _ _. by apply served_locked.
Qed.

(** The other replies tell nobody that he has rolled back. *)
Lemma list_not_rolled_back rows : ¬ told_success (Ok (inr (JsonReply (JArray (api_list_item <$> rows))))).
Proof. by intros (i & up & [=]). Qed.
Lemma detail_not_rolled_back e : ¬ told_success (Ok (inr (JsonReply (to_value (entry_to_json e))))).
Proof. by intros (i & up & [=]). Qed.

Lemma served_handle s rq w : uuids_ok → served s false (handle_task root state rq) w.
Proof.
  intros Huu. unfold handle_task, with_id_task, on_get_task, on_post_task. cbv zeta.
  assert (∀ (o : option string) h w', (∀ i w', served s false (h i) w') → served s false (ok_or_task o 400 h) w') as Hid.
  { intros [i|] h w' Hh; [apply Hh|apply served_code]. }
  destruct (route_of (rq_path rq)) as [[]|]; [..|apply served_code];
    (destruct (rq_method rq); try apply served_code).
  all: try (apply Hid; intros i w'); auto using served_download, served_rollback.
  all: unfold index_task, backup_detail_task, api_list_backups_task, api_backup_detail_task.
  all: try (destruct (negb _); [by apply served_code|]).
  all: first [by apply (served_list _ _ (λ l, IndexPage (list_item <$> l))); intros rows (i & up & [=])
    |apply (served_list _ _ (λ l, JsonReply (JArray (api_list_item <$> l)))), list_not_rolled_back
    |apply served_ret; by intros (i' & up & [=])
    |apply served_lookup; intros e w''; apply served_ret; by intros (i' & up & [=])].
Qed.

(** ** The invariant of the pool *)

Record pool_inv p : Prop := {
  pi_backups : backups_inv root (p_world p);
  pi_sched : sound root (expired (start_retention start)) (p_sched p) (p_world p);
  pi_jobs : ∀ n j, p_jobs p !! n = Some j → served None (j_locked j) (j_task j) (p_world p);
  pi_mutex : ∀ n m j k, p_jobs p !! n = Some j → p_jobs p !! m = Some k →
    j_locked j = true → j_locked k = true → n = m;
}.

Lemma inv_none w : backups_inv root w → inv_since None w.
Proof. by split. Qed.

(** What a step does to the shared state. *)
Record pool_change p p' : Prop := {
  pc_kept : kept (expired (start_retention start)) (p_world p) (p_world p');
  pc_gate : w_gate (p_world p') = w_gate (p_world p) ∨ spaced (p_world p) (p_world p');
}.
Lemma pool_change_same p p' : p_world p' = p_world p → pool_change p p'.
Proof. intros Hw. split; rewrite Hw; [done|by left]. Qed.

(** The others go on after a step of the scheduler or of request [n]. *)
Lemma jobs_after_sched p w' n j :
  pool_inv p → sched_guar (expired (start_retention start)) true (p_world p) w' → p_jobs p !! n = Some j →
  served None (j_locked j) (j_task j) w'.
Proof.
  intros Hinv (Hg & Hc & _) Hj. eapply wpi_rely; [apply _| |by apply (pi_jobs _ Hinv n)]. by split.
Qed.
Lemma jobs_after_req p w' n j m k :
  pool_inv p → p_jobs p !! n = Some j → req_guar (j_locked j) (p_world p) w' →
  p_jobs p !! m = Some k → m ≠ n → served None (j_locked k) (j_task k) w'.
Proof.
  intros Hinv Hj [Hk Hg] Hm Hne. eapply wpi_rely; [apply _| |by apply (pi_jobs _ Hinv m)].
  split; [|apply Hk]. intros Hl. destruct Hg as [|[Hb _]]; [done|].
  destruct Hne. by apply (pi_mutex _ Hinv m n k j).
Qed.

Context (Huu : uuids_ok) (Hclk : clock_ok (start_retention start)).

Lemma sched_step_inv next upd p :
  p_sched p = Act next upd → pool_inv p →
  let p' := set_sched (next (p_world p)) (set_world (upd (p_world p)) p) in
  pool_inv p' ∧ pool_change p p'.
Proof.
  intros Ht Hinv p'. pose proof (pi_sched _ Hinv) as Hs.
  unfold sound, wps in Hs. rewrite Ht in Hs.
  destruct (Hs (p_world p) (reflexivity _) (pi_backups _ Hinv)) as (Hi & Hg & Hs').
  split; [split; cbn [p_world p_sched p_jobs set_sched set_world]|].
  - done.
  - exact Hs'.
  - intros n j Hj. by eapply jobs_after_sched.
  - apply (pi_mutex _ Hinv).
  - split; [apply Hg|left; apply Hg].
Qed.
Lemma act_step_inv n j next upd p :
  p_jobs p !! n = Some j → j_task j = Act next upd → pool_inv p →
  let p' := set_world (upd (p_world p)) (set_jobs
    (<[n := {| j_task := next (p_world p); j_locked := j_locked j |}]> (p_jobs p)) p) in
  pool_inv p' ∧ pool_change p p'.
Proof.
  intros Hj Ht Hinv p'. pose proof (pi_jobs _ Hinv n j Hj) as Hs. unfold served in Hs. rewrite Ht in Hs.
  destruct (Hs (p_world p) (reflexivity _) (inv_none _ (pi_backups _ Hinv))) as ([Hi _] & [Hk Hg] & Hs').
  subst p'. split; [split; cbn [p_world p_sched p_jobs set_world set_jobs]|].
  - done.
  - eapply sound_rely; [done|apply (pi_sched _ Hinv)].
  - intros m x [[<- <-]|[Hne Hx]]%lookup_insert_Some; [exact Hs'|].
    by apply (jobs_after_req p _ n j m x).
  - intros m m' x x' [[<- <-]|[? Hx]]%lookup_insert_Some [[<- <-]|[? Hx']]%lookup_insert_Some Hl Hl';
      [done|by apply (pi_mutex _ Hinv n m' j x')|by apply (pi_mutex _ Hinv m n x j)|].
    by apply (pi_mutex _ Hinv m m' x x').
  - split; [|destruct Hg as [|[_ ?]]; by auto]. intros e. cbn [p_world set_world].
    rewrite (kb_entries _ _ _ Hk). by left.
Qed.

(** Reading the clock. *)
Lemma sleep_step_inv p :
  p_sched p = Done (Ok ()) → pool_inv p →
  let p' := set_world (scheduler_delay (p_world p)).2 p in pool_inv p' ∧ pool_change p p'.
Proof.
  intros Ht Hinv p'. assert (keeps_backups root (p_world p) (tick_clock (p_world p))) as Hk
    by (split; simpl; [done|done|lia|lia]).
  split; [split; cbn [p_world p_sched p_jobs set_world]|].
  - by destruct (pi_backups _ Hinv).
  - eapply sound_rely; [exact Hk|apply (pi_sched _ Hinv)].
  - intros n j Hj. eapply jobs_after_sched; [done| |done]. split_and!; [done|simpl; lia|by left].
  - apply (pi_mutex _ Hinv).
  - split; [by left|by left].
Qed.

(** Steps that leave the world alone. *)
Lemma jobs_step_inv p jobs :
  pool_inv p → (∀ n j, jobs !! n = Some j → served None (j_locked j) (j_task j) (p_world p)) →
  (∀ n m j k, jobs !! n = Some j → jobs !! m = Some k → j_locked j = true → j_locked k = true → n = m) →
  pool_inv (set_jobs jobs p) ∧ pool_change p (set_jobs jobs p).
Proof.
  intros [Hi Hs _ _] Hj Hm. split; [by split|by apply pool_change_same].
Qed.

Lemma delete_step_inv n p :
  pool_inv p → let p' := set_jobs (delete n (p_jobs p)) p in pool_inv p' ∧ pool_change p p'.
Proof.
  intros Hinv p'. apply jobs_step_inv; [done|..].
  - intros m x [_ Hx]%lookup_delete_Some. by apply (pi_jobs _ Hinv m).
  - intros m m' x x' [_ Hx]%lookup_delete_Some [_ Hx']%lookup_delete_Some.
    by apply (pi_mutex _ Hinv m m' x x').
Qed.

Lemma pool_step_inv p p' : pool_step p p' → pool_inv p → pool_inv p' ∧ pool_change p p'.
Proof.
  intros Hstep Hinv. destruct Hstep as
    [next upd p Ht|p Ht|p Ht Hfs|n rq p Hn|n j next upd p Hj Ht|n j t p Hj Ht Hun|n j r p _ _|n p].
  - by apply sched_step_inv.
  - by apply sleep_step_inv.
  - split; [|by apply pool_change_same]. destruct Hinv as [Hi _ Hj Hm]. split; try done.
    cbn [p_sched set_sched p_world]. by apply (sound_scheduler_round _ _ (start_retention start)).
  - apply jobs_step_inv; [done|..].
    + intros m x [[<- <-]|[_ Hx]]%lookup_insert_Some; [by apply served_handle|].
      by apply (pi_jobs _ Hinv m).
    + intros m m' x x' [[<- <-]|[_ Hx]]%lookup_insert_Some; [done|].
      intros [[<- <-]|[_ Hx']]%lookup_insert_Some; [done|]. by apply (pi_mutex _ Hinv m m' x x').
  - by apply act_step_inv.
  - pose proof (pi_jobs _ Hinv n j Hj) as Hs. unfold served in Hs. rewrite Ht in Hs.
    destruct (Hs (p_world p) (reflexivity _) (inv_none _ (pi_backups _ Hinv))) as [_ Hs'].
    apply jobs_step_inv; [done|..].
    + intros m x [[<- <-]|[_ Hx]]%lookup_insert_Some; [exact Hs'|by apply (pi_jobs _ Hinv m)].
    + intros m m' x x' [[<- <-]|[_ Hx]]%lookup_insert_Some [[<- <-]|[_ Hx']]%lookup_insert_Some Hl Hl';
        [done|by rewrite (Hun m' x' Hx') in Hl'|by rewrite (Hun m x Hx) in Hl|].
      by apply (pi_mutex _ Hinv m m' x x').
  - by apply delete_step_inv.
  - by apply delete_step_inv.
Qed.

(** ** Runs *)

(** The daemon at its start: the scheduler is about to sleep, nobody has asked for
    anything. *)
Definition initial_pool w : Pool S := {| p_world := w; p_sched := Done (Ok ()); p_jobs := ∅ |}.
Lemma initial_pool_inv w : backups_inv root w → pool_inv (initial_pool w).
Proof. intros Hi. by split; [|split| |]. Qed.

Lemma pool_run_inv p p' : rtc pool_step p p' → pool_inv p →
  pool_inv p' ∧ kept (expired (start_retention start)) (p_world p) (p_world p').
Proof.
  induction 1 as [p|p p1 p2 Hstep Hrun IH]; intros Hinv; [done|].
  destruct (pool_step_inv p p1 Hstep Hinv) as [Hinv1 [Hk1 _]].
  destruct (IH Hinv1) as [Hinv2 Hk2]. split; [done|]. by etrans.
Qed.

Lemma pool_reachable w p : repo_inv content_hash root w → rtc pool_step (initial_pool w) p →
  pool_inv p ∧ kept (expired (start_retention start)) w (p_world p).
Proof.
  intros Hinv Hrun. by apply (pool_run_inv (initial_pool w) p Hrun), initial_pool_inv, repo_inv_backups.
Qed.

(** A request that has ended has a reply. *)
Lemma ended_replies p n j r :
  pool_inv p → p_jobs p !! n = Some j → j_task j = Done r → ∃ reply, r = Ok reply.
Proof.
  intros Hinv Hj Ht. pose proof (pi_jobs _ Hinv n j Hj) as Hs. unfold served in Hs. rewrite Ht in Hs.
  exact (proj1 (Hs (p_world p) (reflexivity _) (inv_none _ (pi_backups _ Hinv)))).
Qed.

(** A request that holds the mutex can act or has ended: it waits for nobody. *)
Lemma holder_runs p n j :
  pool_inv p → p_jobs p !! n = Some j → j_locked j = true →
  (∃ reply, j_task j = Done (Ok reply)) ∨ ∃ next upd, j_task j = Act next upd.
Proof.
  intros Hinv Hj Hl. pose proof (pi_jobs _ Hinv n j Hj) as Hs. unfold served in Hs. rewrite Hl in Hs.
  destruct (j_task j) as [r|next upd|t] eqn:Ht; [|by right; eexists _, _|].
  - left. destruct (ended_replies p n j r Hinv Hj Ht) as [reply ->]. by eexists.
  - by destruct (Hs (p_world p) (reflexivity _) (inv_none _ (pi_backups _ Hinv))) as [? _].
Qed.

(** ** Requests finish *)

Definition finished (j : Job S) : Prop := ∃ reply, j_task j = Done (Ok reply).

(** Request [n] acts or gets the mutex. *)
Definition job_step (n : nat) p p' : Prop := pool_next (ChJob n) p = Some p'.
(** The request that holds the mutex acts or ends. *)
Definition holder_step p p' : Prop := ∃ m j, p_jobs p !! m = Some j ∧ j_locked j = true ∧
  (pool_next (ChJob m) p = Some p' ∨ pool_next (ChEnd m) p = Some p').
Definition serving_step (n : nat) p p' : Prop := job_step n p p' ∨ holder_step p p'.
Lemma serving_step_pool n p p' : serving_step n p p' → pool_step p p'.
Proof.
  intros [Hn|(m & j & _ & _ & [Hm|Hm])]; by eapply pool_next_step.
Qed.

(** Twelve actions are enough for every request. *)
Definition pool_bounded p : Prop := ∀ n j, p_jobs p !! n = Some j → bounded 12 (j_task j).
Lemma pool_bounded_step p p' : pool_step p p' → pool_bounded p → pool_bounded p'.
Proof.
  assert (∀ p n x, pool_bounded p → bounded 12 (j_task x) → pool_bounded (set_jobs (<[n := x]> (p_jobs p)) p)) as Hput.
  { intros q n x Hq Hx m y. cbn [p_jobs set_jobs].
    intros [[<- <-]|[_ Hy]]%lookup_insert_Some; [done|by apply (Hq m)]. }
  intros Hstep Hb. destruct Hstep as
    [next upd p Ht|p Ht|p Ht Hfs|n rq p Hn|n j next upd p Hj Ht|n j t p Hj Ht Hun|n j r p _ _|n p]; try done.
  - apply Hput; [done|]. apply bounded_handle.
  - apply (Hput p); [done|]. specialize (Hb n j Hj). rewrite Ht in Hb.
    apply (bounded_le 11); [apply Hb|lia].
  - apply Hput; [done|]. specialize (Hb n j Hj). rewrite Ht in Hb. apply (bounded_le 11); [apply Hb|lia].
  - intros m x. cbn [p_jobs set_jobs]. intros [_ Hx]%lookup_delete_Some. by apply (Hb m).
  - intros m x. cbn [p_jobs set_jobs]. intros [_ Hx]%lookup_delete_Some. by apply (Hb m).
Qed.
Lemma pool_bounded_run p p' : rtc pool_step p p' → pool_bounded p → pool_bounded p'.
Proof. induction 1; [done|]. intros Hb. by eauto using pool_bounded_step. Qed.
Lemma initial_pool_bounded w : pool_bounded (initial_pool w).
Proof. by intros n j. Qed.

(** A request that holds the mutex, or that nobody keeps from it, can act until it
    has its reply; the other requests stay where they are. *)
Lemma job_finishes n j p k :
  pool_inv p → p_jobs p !! n = Some j → (j_locked j = true ∨ unlocked p) → bounded k (j_task j) →
  ∃ i p' j', i ≤ k ∧ nsteps (job_step n) i p p' ∧ p_jobs p' = <[n := j']> (p_jobs p) ∧ finished j' ∧
    (j_locked j = true → nsteps holder_step i p p' ∧ j_locked j' = true).
Proof.
  remember (j_task j) as t eqn:Ht. revert j p k Ht.
  induction t as [r|next IH upd|t IH]; intros j p k Ht Hinv Hj Hfree Hb; symmetry in Ht.
  - exists 0, p, j. destruct (ended_replies p n j r Hinv Hj Ht) as [reply ->].
    split_and!; [lia|constructor|by rewrite insert_id|by exists reply|by split; [constructor|]].
  - destruct k as [|k]; [done|]. set (j1 := {| j_task := next (p_world p); j_locked := j_locked j |}).
    set (p1 := set_world (upd (p_world p)) (set_jobs (<[n := j1]> (p_jobs p)) p)).
    assert (pool_next (ChJob n) p = Some p1) as Hstep.
    { cbn [pool_next]. rewrite Hj. destruct j as [t l]. cbn in Ht. by rewrite Ht. }
    destruct (IH (p_world p) j1 p1 k) as (i & p' & j' & Hi & Hrun & Hjobs & Hfin & Hl); [done|..].
    + apply (pool_step_inv p p1); [by eapply pool_next_step|done].
    + apply lookup_insert_eq.
    + destruct Hfree as [|Hun]; [by left|right]. unfold unlocked. cbn [p_jobs p1 set_world set_jobs].
      intros m x [[<- <-]|[_ Hx]]%lookup_insert_Some; [exact (Hun n j Hj)|exact (Hun m x Hx)].
    + apply Hb.
    + exists (Datatypes.S i), p', j'. split_and!; [lia|by eapply nsteps_l| |done|].
      * rewrite Hjobs. cbn [p_jobs p1 set_world set_jobs]. apply insert_insert_eq.
      * intros Hlj. destruct (Hl Hlj) as [Hr' ?]. split; [|done]. eapply nsteps_l; [|exact Hr'].
        exists n, j. by auto.
  - destruct Hfree as [Hl|Hun].
    { destruct (holder_runs p n j Hinv Hj Hl) as [[? ?]|(? & ? & ?)]; congruence. }
    destruct k as [|k]; [done|]. set (j1 := {| j_task := t; j_locked := true |}).
    set (p1 := set_jobs (<[n := j1]> (p_jobs p)) p).
    assert (pool_next (ChJob n) p = Some p1) as Hstep.
    { cbn [pool_next]. rewrite Hj. destruct j as [tj l]. cbn in Ht. rewrite Ht. by rewrite decide_True. }
    destruct (IH j1 p1 k) as (i & p' & j' & Hi & Hrun & Hjobs & Hfin & Hl); [done| | |by left|done|].
    + apply (pool_step_inv p p1); [by eapply pool_next_step|done].
    + apply lookup_insert_eq.
    + exists (Datatypes.S i), p', j'. split_and!; [lia|by eapply nsteps_l| |done|].
      * rewrite Hjobs. cbn [p_jobs p1 set_jobs]. apply insert_insert_eq.
      * intros Hlj. by rewrite (Hun n j Hj) in Hlj.
Qed.

(** If another request holds the mutex, it can finish first. *)
Lemma mutex_released p n j :
  pool_inv p → pool_bounded p → p_jobs p !! n = Some j → j_locked j = false →
  ∃ i p', i ≤ 13 ∧ nsteps holder_step i p p' ∧ pool_inv p' ∧ p_jobs p' !! n = Some j ∧ unlocked p'.
Proof.
  intros Hinv Hb Hj Hl. destruct (decide (map_Exists (λ _ k, j_locked k = true) (p_jobs p))) as [Hex|Hno].
  - destruct Hex as (m & k & Hk & Hlk).
    destruct (job_finishes m k p 12 Hinv Hk (or_introl Hlk) (Hb m k Hk))
      as (i & p1 & k' & Hi & _ & Hjobs & [reply Hfin] & Hl').
    destruct (Hl' Hlk) as [Hrun Hlk']. assert (m ≠ n) as Hne by (intros ->; congruence).
    destruct (pool_run_inv p p1) as [Hinv1 _]; [|done|].
    { apply (rtc_congruence (R := holder_step) (λ x, x)); [|by eapply rtc_nsteps_2].
      intros x y Hxy. apply (serving_step_pool 0). by right. }
    assert (p_jobs p1 !! m = Some k') as Hk' by (rewrite Hjobs; apply lookup_insert_eq).
    set (p2 := set_jobs (delete m (p_jobs p1)) p1).
    assert (pool_next (ChEnd m) p1 = Some p2) as Hend.
    { cbn [pool_next]. rewrite Hk'. destruct k' as [tk lk]. cbn in Hfin. by rewrite Hfin. }
    exists (Datatypes.S i), p2. split_and!.
    + lia.
    + eapply nsteps_r; [exact Hrun|]. exists m, k'. by auto.
    + apply (pool_step_inv p1); [by eapply pool_next_step|done].
    + cbn [p_jobs set_jobs p2]. by rewrite lookup_delete_ne, Hjobs, lookup_insert_ne.
    + unfold unlocked. cbn [p_jobs set_jobs p2]. intros q x [Hq Hx]%lookup_delete_Some.
      rewrite Hjobs, lookup_insert_ne in Hx by done.
      destruct (j_locked x) eqn:Hlx; [|done]. exfalso. apply Hq. by apply (pi_mutex _ Hinv m q k x).
  - exists 0, p. split_and!; [lia|constructor|done..|]. intros i x Hx. destruct (j_locked x) eqn:Hlx; [|done].
    exfalso. apply Hno. by exists i, x.
Qed.

Lemma request_can_finish p n j :
  pool_inv p → pool_bounded p → p_jobs p !! n = Some j →
  ∃ i p' j', i ≤ 25 ∧ nsteps (serving_step n) i p p' ∧ p_jobs p' !! n = Some j' ∧ finished j'.
Proof.
  intros Hinv Hb Hj. pose proof (Hb n j Hj) as Hbj.
  assert (∀ i q q', nsteps (job_step n) i q q' → nsteps (serving_step n) i q q') as Hown.
  { intros i q q' Hr. apply (nsteps_congruence (R := job_step n) (λ x, x)); [by left|exact Hr]. }
  destruct (j_locked j) eqn:Hl.
  - destruct (job_finishes n j p 12 Hinv Hj (or_introl Hl) Hbj) as (i & p' & j' & Hi & Hrun & Hjobs & Hfin & _).
    exists i, p', j'. split_and!; [lia|by apply Hown| |done]. rewrite Hjobs. apply lookup_insert_eq.
  - destruct (mutex_released p n j Hinv Hb Hj Hl) as (i1 & p1 & Hi1 & Hrun1 & Hinv1 & Hj1 & Hun).
    destruct (job_finishes n j p1 12 Hinv1 Hj1 (or_intror Hun) Hbj) as (i & p' & j' & Hi & Hrun & Hjobs & Hfin & _).
    exists (i1 + i), p', j'. split_and!; [lia| | |done].
    + eapply nsteps_trans; [|by apply Hown]. apply (nsteps_congruence (R := holder_step) (λ x, x)); [by right|exact Hrun1].
    + rewrite Hjobs. apply lookup_insert_eq.
Qed.
End pool.
