(* ===== verification/Spacing.v ===== *)
(** * Rollbacks are spaced

    The gate lets a rollback through ten seconds after the last one.  That holds of
    requests that overlap because the check and the closing of the gate happen
    under one mutex: [pool_since] follows a run from the moment a rollback was
    answered, and says of every later rollback when it closed the gate. *)

From stdpp Require Import relations.
From S2P Require Import Prelude Calendar World Tasks Crates Core Store Stats Repository.
From S2P Require Import RepositoryInv RepositoryThms RepositoryOps Sync Config Server ServerThms.
From S2P Require Import Daemon Async Interference Service Pool.

Section spacing.
Context {S : Type} `{!Env, !Chrono, !UuidCrate, !SerdeJson, !HashCrates, !Zstd, !SqlEngine,
  !CollectionFile, !HttpCrates, !TarCrate, !AxumCrate, !MetadataStore S, !StoreModel S}.
Context (root : Path) (start : ServiceStart).
Context `{!ChronoLaws, !UuidLaws, !SqlEngineLaws, !CollectionFileLaws, !StoreLaws S}.
Context (clock_mono : ∀ n m, n ≤ m → (clock n ≤ clock m)%Z).
Context (Huu : uuids_ok) (Hclk : clock_ok (start_retention start)).
Implicit Types (w : World S) (p : Pool S) (s : option (DateTime * nat)).

Abbreviation step := (pool_step root start).
Abbreviation state := (start_state start).

(** ** Requests without the mutex *)

(** It is not told that it has rolled back before it has had the mutex. *)
Fixpoint patient (t : Task S (Z + Reply)) : Prop :=
  match t with
  | Done r => ¬ told_success r
  | Act next _ => ∀ w, patient (next w)
  | Lock t => ∀ s w, served root s true t w
  end.
Lemma patient_ret x : ¬ told_success (Ok x) → patient (mret x).
Proof. done. Qed.
Lemma patient_code code : patient (mret (inl code)).
Proof. by intros (i & up & [=]). Qed.
Lemma patient_ok_or {A} (o : option A) code (k : A → Task S (Z + Reply)) :
  (∀ a, patient (k a)) → patient (ok_or_task o code k).
Proof. intros Hk. destruct o; [apply Hk|apply patient_code]. Qed.
Lemma patient_or_status {A} (m : M S A) code (k : A → Task S (Z + Reply)) :
  (∀ a, patient (k a)) → patient (or_status_task (act m) code k).
Proof.
  intros Hk w. cbn. destruct (m w).1 as [a|err|]; cbn; [apply Hk|apply patient_code|].
  by intros (i & up & [=]).
Qed.
Lemma patient_rollback id_text hs : patient (rollback_backup_task root state id_text hs).
Proof.
  rewrite rollback_locks. do 2 (destruct (negb _); [apply patient_code|]).
  intros s w. by apply served_locked.
Qed.
Lemma patient_handle rq : patient (handle_task root state rq).
Proof.
  unfold handle_task, with_id_task, on_get_task, on_post_task. cbv zeta.
  destruct (route_of (rq_path rq)) as [[]|]; [..|apply patient_code];
    (destruct (rq_method rq); try apply patient_code).
  all: try (apply patient_ok_or; intros i); try apply patient_rollback.
  all: unfold index_task, backup_detail_task, download_backup_task, api_list_backups_task, api_backup_detail_task.
  all: try (destruct (negb _); [apply patient_code|]).
  all: try (apply patient_ok_or; intros u).
  all: try (apply patient_or_status; intros o); try (apply patient_ok_or; intros e).
  all: try case_decide; try apply patient_code.
  all: try (apply patient_or_status; intros x; apply patient_ok_or; intros y).
  all: apply patient_ret; by intros (i' & up & [=]).
Qed.

(** ** Runs after a rollback *)

Definition on_time s w (j : Job S) : Prop :=
  if j_locked j then served root s true (j_task j) w else patient (j_task j).
(** [old] are requests that had ended before. *)
Record pool_since s (old : nat → Job S → Prop) p : Prop := {
  ps_since : since s (p_world p);
  ps_jobs : ∀ n j, p_jobs p !! n = Some j → old n j ∨ on_time s (p_world p) j;
}.

Lemma on_time_rely s w w' j : req_rely true w w' → on_time s w j → on_time s w' j.
Proof. unfold on_time. destruct (j_locked j); [|done]. by apply wpi_rely, _. Qed.

Section old.
Context (s : option (DateTime * nat)) (old : nat → Job S → Prop).
Context (old_ended : ∀ n j, old n j → ∃ r, j_task j = Done r).

(** The world moves, the requests stay. *)
Lemma since_world p w' t :
  req_rely true (p_world p) w' → pool_since s old p → pool_since s old (set_sched t (set_world w' p)).
Proof.
  intros Hr [Hs Hj]. split; [by eapply since_rely|]. intros n j Hn.
  destruct (Hj n j Hn) as [|Ho]; [by left|right]. by eapply on_time_rely.
Qed.
(** Requests come and go. *)
Lemma since_put p n j :
  on_time s (p_world p) j → pool_since s old p → pool_since s old (set_jobs (<[n := j]> (p_jobs p)) p).
Proof.
  intros Ho [Hs Hj]. split; [done|]. cbn [p_jobs set_jobs]. intros m x [[<- <-]|[_ Hx]]%lookup_insert_Some; [by right|by apply Hj].
Qed.
Lemma since_delete p n : pool_since s old p → pool_since s old (set_jobs (delete n (p_jobs p)) p).
Proof. intros [Hs Hj]. split; [done|]. cbn [p_jobs set_jobs]. intros m x [_ Hx]%lookup_delete_Some. by apply Hj. Qed.

(** A request acts: with the mutex it is the only one, without it the gate stays. *)
Lemma since_act p n j next upd :
  pool_inv root start p → p_jobs p !! n = Some j → j_task j = Act next upd → pool_since s old p →
  pool_since s old (set_world (upd (p_world p)) (set_jobs
    (<[n := {| j_task := next (p_world p); j_locked := j_locked j |}]> (p_jobs p)) p)).
Proof.
  intros Hinv Hn Ht [Hs Hj]. pose proof (pi_jobs _ _ _ Hinv n j Hn) as Hsv. unfold served in Hsv. rewrite Ht in Hsv.
  destruct (Hsv (p_world p) (reflexivity _) (inv_none root _ (pi_backups _ _ _ Hinv))) as (_ & Hg & _).
  split; [by eapply since_guar|]. cbn [p_jobs p_world set_world set_jobs].
  intros m x [[<- <-]|[Hne Hx]]%lookup_insert_Some.
  - right. destruct (Hj n j Hn) as [[r Hr]%old_ended|Ho]; [congruence|]. unfold on_time in *.
    cbn [j_task j_locked]. destruct (j_locked j); rewrite Ht in Ho; [|by apply Ho].
    by apply (Ho (p_world p) (reflexivity _) (conj (pi_backups _ _ _ Hinv) Hs)).
  - destruct (Hj m x Hx) as [|Ho]; [by left|right]. unfold on_time in *.
    destruct (j_locked x) eqn:Hlx; [|done]. eapply wpi_rely; [apply _| |exact Ho].
    destruct Hg as [Hk Hg]. split; [|apply Hk]. intros _. destruct Hg as [|[Hl _]]; [done|].
    destruct Hne. by apply (pi_mutex _ _ _ Hinv n m j x).
Qed.

Lemma since_step p p' : pool_inv root start p → step p p' → pool_since s old p → pool_since s old p'.
Proof.
  intros Hinv Hstep Hps. destruct Hstep as
    [next upd p Ht|p Ht|p Ht Hfs|n rq p Hn|n j next upd p Hj Ht|n j t p Hj Ht Hun|n j r p _ _|n p].
  - apply since_world; [|done]. pose proof (pi_sched _ _ _ Hinv) as Hs. unfold sound, wps in Hs. rewrite Ht in Hs.
    destruct (Hs (p_world p) (reflexivity _) (pi_backups _ _ _ Hinv)) as (_ & (Hg & Hc & _) & _). by split.
  - apply (since_world p _ (p_sched p)); [|done]. by split; [|simpl; lia].
  - by apply (since_world p (p_world p)).
  - apply since_put; [apply patient_handle|done].
  - by apply since_act.
  - apply since_put; [|done]. destruct (ps_jobs _ _ _ Hps n j Hj) as [[r Hr]%old_ended|Ho]; [congruence|].
    unfold on_time in *. rewrite (Hun n j Hj), Ht in Ho. apply Ho.
  - by apply since_delete.
  - by apply since_delete.
Qed.
Lemma since_run p p' : rtc step p p' → pool_inv root start p → pool_since s old p → pool_since s old p'.
Proof.
  induction 1 as [p|p p1 p2 Hstep _ IH]; [done|]. intros Hinv Hps. apply IH.
  - by apply (pool_step_inv root start clock_mono Huu Hclk p).
  - by eapply since_step.
Qed.
End old.

(** ** Rollbacks that are answered *)

Definition told_rolled_back (n : nat) p : Prop :=
  ∃ j r, p_jobs p !! n = Some j ∧ j_task j = Done r ∧ told_success r.

(** The request has closed the gate, and still has the mutex. *)
Lemma told_closed s old n p j r :
  pool_inv root start p → pool_since s old p → ¬ old n j → p_jobs p !! n = Some j → j_task j = Done r →
  told_success r → j_locked j = true ∧ closed_since s (p_world p).
Proof.
  intros Hinv Hps Hold Hj Ht Hr. destruct (ps_jobs _ _ _ Hps n j Hj) as [|Ho]; [done|].
  unfold on_time in Ho. destruct (j_locked j); rewrite Ht in Ho; [|by destruct Ho]. split; [done|].
  destruct (Ho (p_world p) (reflexivity _) (conj (pi_backups _ _ _ Hinv) (ps_since _ _ _ Hps))) as [_ Ho'].
  by apply Ho'.
Qed.

Lemma rollbacks_apart p0 p1 p2 p2' n m :
  pool_inv root start p0 → pool_since None (λ _ _, False) p0 →
  rtc step p0 p1 → told_rolled_back n p1 →
  rtc step p1 p2 → step p2 p2' → ¬ told_rolled_back m p2 → told_rolled_back m p2' →
  ∃ k1 k2, w_gate (p_world p1) = Some (clock k1) ∧ w_gate (p_world p2') = Some (clock k2) ∧
    k1 < w_clock (p_world p1) ≤ k2 ∧ k2 < w_clock (p_world p2') ∧
    (clock k1 + 10 * ns_per_sec ≤ clock k2)%Z.
Proof.
  intros Hinv0 Hps0 Hrun1 (j1 & r1 & Hj1 & Ht1 & Hr1) Hrun2 Hstep Hnot (j2 & r2 & Hj2 & Ht2 & Hr2).
  assert (∀ p p', rtc step p p' → pool_inv root start p → pool_inv root start p') as Hkeep.
  { intros p p' Hr Hi. by apply (pool_run_inv root start clock_mono Huu Hclk p p'). }
  assert (pool_inv root start p1) as Hinv1 by (by eapply Hkeep).
  assert (pool_inv root start p2) as Hinv2 by (by eapply Hkeep).
  assert (pool_since None (λ _ _, False) p1) as Hps1 by (eapply since_run; [|done..]; done).
  destruct (told_closed None _ n p1 j1 r1 Hinv1 Hps1 (λ x, x) Hj1 Ht1 Hr1) as (Hl1 & k1 & Hg1 & Hk1 & _).
  set (s := Some (clock k1, w_clock (p_world p1))).
  assert (pool_since s (λ i j, i = n ∧ j = j1) p2) as Hps2.
  { eapply since_run; [by intros ? ? [-> ->]; eauto|exact Hrun2|done|]. split; [by split; [|exists (clock k1)]|].
    intros i j Hj. destruct (j_locked j) eqn:Hl.
    - left. assert (i = n) as -> by (by apply (pi_mutex _ _ _ Hinv1 i n j j1)). naive_solver.
    - right. destruct (ps_jobs _ _ _ Hps1 i j Hj) as [[]|Ho]. unfold on_time in *. by rewrite Hl in *. }
  (* the second answer is new *)
  assert (pool_since s (λ i j, (i = n ∧ j = j1) ∧ i ≠ m) p2') as Hps2'.
  { eapply since_step; [by intros ? ? [[-> ->] _]; eauto|exact Hinv2|exact Hstep|]. split; [apply Hps2|].
    intros i j Hj. destruct (ps_jobs _ _ _ Hps2 i j Hj) as [[-> ->]|]; [|by right].
    left. split; [done|]. intros ->. apply Hnot. by exists j1, r1. }
  assert (pool_inv root start p2') as Hinv2' by (by apply (Hkeep p2); [apply rtc_once|]).
  assert (¬ ((m = n ∧ j2 = j1) ∧ m ≠ m)) as Hnew by (by intros [_ ?]).
  destruct (told_closed s _ m p2' j2 r2 Hinv2' Hps2' Hnew Hj2 Ht2 Hr2) as (_ & k2 & Hg2 & Hk2 & Hc & Hsp).
  exists k1, k2. by split_and!.
Qed.

Lemma initial_since w : pool_since None (λ _ _, False) (initial_pool w).
Proof. by split. Qed.
End spacing.
