(* ===== verification/Downloads.v ===== *)
(** * Downloads while backups are taken and pruned

    A download reads the entry, then the payload file; in between the scheduler may
    prune the backup and write others.  A [Log] remembers every created entry that
    was ever recorded, with its payload: [known] ties it to the world, [logged]
    follows the scheduler, which adds to it, and [honest] a request, which reads
    what is in it. *)

From stdpp Require Import relations.
From S2P Require Import Prelude Calendar World Tasks Crates Core Store Stats Repository.
From S2P Require Import RepositoryInv RepositoryThms RepositoryOps Sync Config Server ServerThms.
From S2P Require Import Daemon Async Interference Service Pool.

Section downloads.
Context {S : Type} `{!Env, !Chrono, !UuidCrate, !SerdeJson, !HashCrates, !Zstd, !SqlEngine,
  !CollectionFile, !HttpCrates, !TarCrate, !AxumCrate}.
Context `{!ChronoLaws, !UuidLaws, !SqlEngineLaws, !CollectionFileLaws}.
Context `{!MetadataStore S, !StoreModel S, !StoreLaws S}.
Context (root : Path) (start : ServiceStart).
Implicit Types w : World S.

Abbreviation entries w := (st_entries (w_db w)).
Abbreviation payload e := (payload_path root (timestamp_dir e)).
Abbreviation Log := (list (BackupEntry * bytes)).
Implicit Types L : Log.

(** ** The log *)

(** No reading of the clock from [c] on gives this name. *)
Definition past (c : nat) (d : string) : Prop := ∀ n, c ≤ n → format_timestamp_dir (clock n) ≠ d.
(** Named after the reading before [c] at which it was created. *)
Definition timed (c : nat) (e : BackupEntry) : Prop :=
  ∃ k, k < c ∧ created_at e = st_time (clock k) ∧ timestamp_dir e = format_timestamp_dir (clock k).

Record known (c : nat) L w : Prop := {
  kn_clock : c ≤ w_clock w;
  kn_entries : ∀ e, e ∈ entries w → status e = Created → ∃ b, (e, b) ∈ L;
  kn_good : ∀ e b, (e, b) ∈ L → is_name (timestamp_dir e) ∧ status e = Created ∧
    content_hash b = content_hash_of e ∧ size_bytes e = as_i64 (Z.of_nat (length b));
  kn_file : ∀ e b b', (e, b) ∈ L → w_fs w !! payload e = Some (File b') → b' = b;
  kn_past : ∀ e b, (e, b) ∈ L → past (w_clock w) (timestamp_dir e) ∨ e ∈ entries w;
}.

(** The names in the log are not given again; a backup of this round may be an
    exception. *)
Definition clear (c : nat) L : Prop := ∀ e b, (e, b) ∈ L → past c (timestamp_dir e).
Definition settled (c : nat) L : Prop := ∀ e b, (e, b) ∈ L → past c (timestamp_dir e) ∨ timed c e.
Definition unnamed (d : string) L : Prop := ∀ e b, (e, b) ∈ L → timestamp_dir e ≠ d.

Lemma past_le c c' d : c ≤ c' → past c d → past c' d.
Proof. intros Hc Hp n Hn. apply Hp. lia. Qed.
Lemma clear_le c c' L : c ≤ c' → clear c L → clear c' L.
Proof. intros Hc Hl e b He. eapply past_le; [done|by eapply Hl]. Qed.
Lemma clear_settled c L : clear c L → settled c L.
Proof. intros Hl e b He. left. by eapply Hl. Qed.
Lemma settled_le c c' L : c ≤ c' → settled c L → settled c' L.
Proof.
  intros Hc Hl e b He. destruct (Hl e b He) as [Hp|(k & Hk & ?)]; [left; by eapply past_le|].
  right. exists k. split; [lia|done].
Qed.

(** The log grows by entries that are in the store. *)
Definition extends L L' w : Prop := L ⊆ L' ∧ ∀ e b, (e, b) ∈ L' → (e, b) ∈ L ∨ e ∈ entries w.
Lemma extends_refl L w : extends L L w.
Proof. by split; [|left]. Qed.
Hint Resolve extends_refl : core.

(** Steps that lose entries or files, and write no payload of the log. *)
Lemma known_step c c' L w w' :
  known c L w → c' ≤ w_clock w' → w_clock w ≤ w_clock w' →
  (∀ e, e ∈ entries w' → status e = Created → e ∈ entries w) →
  (∀ e b b', (e, b) ∈ L → w_fs w' !! payload e = Some (File b') → w_fs w !! payload e = Some (File b')) →
  (∀ e b, (e, b) ∈ L → e ∈ entries w → past (w_clock w') (timestamp_dir e) ∨ e ∈ entries w') →
  known c' L w'.
Proof.
  intros [_ He Hg Hf Hp] Hc Hle He' Hf' Hp'. split; [done|..|done| |].
  - intros e Hin Hst. by apply He; [apply He'|].
  - intros e b b' Hin Hb. eapply Hf; [done|by eapply Hf'].
  - intros e b Hin. destruct (Hp e b Hin) as [Hpast|Hent]; [left; by eapply past_le|by eapply Hp'].
Qed.
Lemma known_keeps c L w w' : keeps_backups root w w' → known c L w → known c L w'.
Proof.
  intros [Ha He Hc _] Hk. eapply known_step; [done| |done|..]; try (rewrite He; by auto).
  - pose proof (kn_clock _ _ _ Hk). lia.
  - intros e b b' Hin. destruct (kn_good _ _ _ Hk e b Hin) as [Hn _]. rewrite Ha; [done|].
    rewrite !not_elem_of_cons.
    split_and!; [by apply payload_not_tmp|by apply payload_not_pointer|apply not_elem_of_nil].
Qed.
Lemma known_fs c L w fs' :
  (∀ e b b', (e, b) ∈ L → fs' !! payload e = Some (File b') → w_fs w !! payload e = Some (File b')) →
  known c L w → known c L (set_fs fs' (tick_io w)).
Proof. intros Hf Hk. eapply known_step; [done|apply Hk|done|done|exact Hf|by right]. Qed.

(** ** Following the scheduler *)

Fixpoint logged {A} (Q : nat → Log → Res A → Prop) (c : nat) L (t : Task S A) : Prop :=
  match t with
  | Done r => Q c L r
  | Act next upd => ∀ w, backups_inv root w → backups_inv root (upd w) → known c L w →
      ∃ c' L', c ≤ c' ∧ extends L L' (upd w) ∧ known c' L' (upd w) ∧ logged Q c' L' (next w)
  | Lock _ => False
  end.
(** With a settled log at the end, and [P] of a result. *)
Definition ends {A} (P : nat → Log → A → Prop) (c : nat) L (r : Res A) : Prop :=
  settled c L ∧ match r with Ok a => P c L a | _ => True end.
Definition tracked {A} (c : nat) L (t : Task S A) (P : nat → Log → A → Prop) : Prop :=
  logged (ends P) c L t.
Definition tracks {A} (c : nat) L (m : M S A) (P : nat → Log → A → Prop) : Prop :=
  ∀ w, backups_inv root w → backups_inv root (m w).2 → known c L w →
    wp m (λ r w', ∃ c' L', c ≤ c' ∧ extends L L' w' ∧ known c' L' w' ∧ ends P c' L' r) w.
Abbreviation any := (λ _ _ _, True).

Lemma logged_mono {A} (Q Q' : nat → Log → Res A → Prop) c L t :
  logged Q c L t → (∀ c' L' r, Q c' L' r → Q' c' L' r) → logged Q' c L t.
Proof.
  intros Ht HQ. revert c L Ht. induction t as [r|next IH upd|t IH]; intros c L Ht; cbn [logged] in *;
    [by apply HQ| |done].
  intros w Hi Hi' Hk. destruct (Ht w Hi Hi' Hk) as (c' & L' & ? & ? & ? & ?).
  exists c', L'. by auto.
Qed.
Lemma logged_bind {A B} (t : Task S A) (k : A → Task S B) Q c L :
  logged (λ c L r, match r with
                   | Ok a => logged Q c L (k a)
                   | Err e => Q c L (Err e)
                   | Panic msg => Q c L (Panic msg)
                   end) c L t →
  logged Q c L (t ≫= k).
Proof.
  unfold mbind, Task_bind. revert c L. induction t as [r|next IH upd|t IH]; intros c L Ht; cbn in *;
    [by destruct r| |done].
  intros w Hi Hi' Hk. destruct (Ht w Hi Hi' Hk) as (c' & L' & ? & ? & ? & ?).
  exists c', L'. by auto.
Qed.
Lemma tracked_ret {A} c L (a : A) (P : nat → Log → A → Prop) : settled c L → P c L a → tracked c L (mret a) P.
Proof. by split. Qed.
Lemma tracked_act {A} c L (m : M S A) P : tracks c L m P → tracked c L (act m) P.
Proof. intros Hm w Hi Hi' Hk. destruct (Hm w Hi Hi' Hk) as (c' & L' & ?). by exists c', L'. Qed.
Lemma tracked_bind {A B} c L (t : Task S A) (k : A → Task S B) P Q :
  tracked c L t P → (∀ c' L' a, settled c' L' → P c' L' a → tracked c' L' (k a) Q) →
  tracked c L (t ≫= k) Q.
Proof.
  intros Ht Hk. apply logged_bind. eapply logged_mono; [exact Ht|]. intros c' L' [a|e|] [Hs HP];
    [by apply Hk|by split..].
Qed.
Lemma tracked_attempt {A} c L (t : Task S A) P : tracked c L t P → tracked c L (task_attempt t) any.
Proof.
  unfold tracked. revert c L. induction t as [r|next IH upd|t IH]; intros c L Ht; cbn in *; [| |done].
  - destruct Ht as [Hs _]. by destruct r.
  - intros w Hi Hi' Hk. destruct (Ht w Hi Hi' Hk) as (c' & L' & ? & ? & ? & ?). exists c', L'. by auto.
Qed.

(** ** Actions *)

Context (Huu : uuids_ok) (Hclk : clock_ok (start_retention start)).
Context (clock_mono : ∀ n m, n ≤ m → (clock n ≤ clock m)%Z).

Lemma tracks_context {A} c L msg (m : M S A) P : tracks c L m P → tracks c L (context msg m) P.
Proof.
  intros Hm w Hi Hi' Hk. apply wp_context. eapply wp_mono; [apply Hm; [done| |done]|].
  - unfold context in Hi'. by destruct (m w) as [[] ?].
  - intros [] w' (c' & L' & ? & ? & ? & ? & ?); by exists c', L'.
Qed.
(** An action that others do not notice. *)
Lemma tracks_calm {A} c L (m : M S A) P :
  settled c L → calm root m P → tracks c L m (λ c' L' a, c' = c ∧ L' = L ∧ ∃ w, P w a).
Proof.
  intros Hs Hm w Hi _ Hk. eapply wp_mono; [by apply Hm|]. intros r w' [(_ & Hkeep & _) Hr].
  exists c, L. split_and!; [done|done|by eapply known_keeps|]. split; [done|].
  destruct r; [|done..]. split_and!; [done..|]. by exists w.
Qed.
Lemma tracks_now c L : settled c L →
  tracks c L now (λ c' L' t, L' = L ∧ ∃ n, c ≤ n < c' ∧ t = clock n).
Proof.
  intros Hs w Hi _ Hk. pose proof (kn_clock _ _ _ Hk) as Hc. exists (Datatypes.S (w_clock w)), L.
  assert (keeps_backups root w (tick_clock w)) as Hkeep by (split; simpl; [done|done|lia|lia]).
  split_and!; [lia|done| |].
  - destruct (known_keeps _ _ _ _ Hkeep Hk). by split.
  - split; [eapply settled_le; [|done]; lia|]. split; [done|]. exists (w_clock w). split; [lia|done].
Qed.
(** A write outside the payloads of the log. *)
Lemma tracks_fs {A} c L (m : M S A) (P : nat → Log → A → Prop) :
  settled c L → (∀ a, P c L a) →
  (∀ w, known c L w → wp m (λ r w', ∃ fs', w' = set_fs fs' (tick_io w) ∧
    ∀ e b b', (e, b) ∈ L → fs' !! payload e = Some (File b') → w_fs w !! payload e = Some (File b')) w) →
  tracks c L m P.
Proof.
  intros Hs HP Hm w Hi _ Hk. eapply wp_mono; [by apply Hm|]. intros r w' (fs' & -> & Hf).
  exists c, L. split_and!; [done|done|by apply known_fs|]. split; [done|]. by destruct r.
Qed.
Abbreviation still c L := (λ c' L' _, c' = c ∧ L' = L).
Lemma tracks_write c L p x :
  settled c L → (∀ e b, (e, b) ∈ L → is_name (timestamp_dir e) → p ≠ payload e) →
  tracks c L (fs_write p x) (still c L).
Proof.
  intros Hs Hp. apply tracks_fs; [done|done|]. intros w Hk. eapply wp_mono; [apply fs_write_spec|].
  intros r w' (fs' & -> & Hr). exists fs'. split; [done|]. intros e b b' He.
  assert (p ≠ payload e) as Hne by (eapply Hp; [done|by eapply kn_good]).
  destruct r as [[]|err|]; [destruct Hr as [-> _]|destruct Hr as [->|(k & -> & _)]; [done|]|done];
    by rewrite lookup_insert_ne.
Qed.
Lemma tracks_create_dir c L p : settled c L → tracks c L (create_dir_all p) (still c L).
Proof.
  intros Hs. apply tracks_fs; [done|done|]. intros w Hk. eapply wp_mono; [apply create_dir_all_spec|].
  intros r w' (fs' & -> & Ha & _). exists fs'. split; [done|]. intros e b b' _ Hb.
  destruct (Ha (payload e)) as [Heq|[_ Heq]]; congruence.
Qed.
Lemma tracks_remove_dir c L p : settled c L → tracks c L (fs_remove_dir_all p) (still c L).
Proof.
  intros Hs. apply tracks_fs; [done|done|]. intros w Hk. eapply wp_mono; [apply fs_remove_dir_all_spec|].
  intros r w' (fs' & -> & _ & Ha & _). exists fs'. split; [done|]. intros e b b' _ Hb.
  destruct (Ha (payload e)) as [Heq|Heq]; congruence.
Qed.

(** A new entry enters the log with the payload it finds in its directory. *)
Lemma known_insert c L e b w w' :
  backups_inv root w' → entries w' ≡ₚ e :: entries w → w_fs w' = w_fs w → w_clock w ≤ w_clock w' →
  known c L w → status e = Created → w_fs w' !! payload e = Some (File b) →
  content_hash b = content_hash_of e → size_bytes e = as_i64 (Z.of_nat (length b)) →
  known c ((e, b) :: L) w'.
Proof.
  intros Hi Hp Hfs Hc [Hcl He Hg Hf Hpast] Hst Hb Hh Hsz.
  assert (e ∈ entries w') as Hin by (rewrite Hp; left). split.
  - lia.
  - intros e'. rewrite Hp, elem_of_cons. intros [->|He'] Hst'; [exists b; left|].
    destruct (He e' He' Hst') as [b' ?]. exists b'. by right.
  - intros e' b' [[= -> ->]|?]%elem_of_cons; [|by eapply Hg]. split_and!; [|done..].
    by apply (bi_files _ _ Hi).
  - intros e' b' b'' [[= -> ->]|?]%elem_of_cons; [congruence|]. rewrite Hfs. by eapply Hf.
  - intros e' b' [[= -> ->]|Hin']%elem_of_cons; [by right|]. rewrite Hp, elem_of_cons.
    destruct (Hpast e' b' Hin') as [Hpa|]; [left; by eapply past_le|by auto].
Qed.
Lemma tracks_insert c L e :
  settled c L → entry_ok e → (status e = Created → timed c (stored_entry e)) →
  tracks c L (insert_entry e) (λ c' _ _, c' = c).
Proof.
  intros Hs Hok Ht w Hi Hi' Hk. pose proof (insert_entry_law e w (bi_wf _ _ Hi) Hok) as Hlaw.
  unfold wp in Hlaw |- *. destruct (insert_entry e w) as [r w'] eqn:Hrun. cbn [fst snd] in *.
  destruct Hlaw as ((Hfs & _ & _ & _ & Hc & _) & _ & _ & Hr).
  assert (∀ L', settled c L' → ends (λ c' _ _, c' = c) c L' r) as Hend by (intros L' ?; by split; [|destruct r]).
  assert ((entries w' ≡ₚ entries w ∨ status e = Skipped ∧ entries w' ≡ₚ stored_entry e :: entries w) ∨
    status e = Created ∧ entries w' ≡ₚ stored_entry e :: entries w) as [Hp|[Hst Hp]].
  { destruct r as [[]|err|]; destruct (status e); naive_solver. }
  - exists c, L. split_and!; [done|done| |by apply Hend].
    eapply known_step; [done|pose proof (kn_clock _ _ _ Hk); lia|done| |by rewrite Hfs|].
    + intros x. destruct Hp as [-> |[Hst ->]]; [done|]. intros [->|?]%elem_of_cons Hst'; [|done].
      cbn in Hst'. congruence.
    + intros x b _ Hx. right. destruct Hp as [-> |[_ ->]]; [done|by right].
  - assert (stored_entry e ∈ entries w') as Hin by (rewrite Hp; left).
    destruct (bi_files _ _ Hi' _ Hin Hst) as (_ & b & Hb & Hh & Hsz).
    exists c, ((stored_entry e, b) :: L). split_and!; [done|..].
    + split; [by intros x ?; right|]. intros x b' [[= -> ->]|?]%elem_of_cons; [by right|by left].
    + by eapply known_insert.
    + apply Hend. intros x b' [[= -> ->]|?]%elem_of_cons; [right; by apply Ht|by eapply Hs].
Qed.

(** What is past the retention was named in a second that has passed. *)
Lemma expired_past c m e :
  (0 < start_retention start)%Z → m < c → timed c e →
  prunable (S := S) (retention_cutoff (clock m) (start_retention start)) e → past c (timestamp_dir e).
Proof.
  intros Hd Hm (k & _ & Hcr & ->) [_ Hold] n Hn Heq. rewrite Hcr in Hold.
  assert (clock k < retention_cutoff (clock m) (start_retention start))%Z as Hlt.
  { apply Z.nle_gt. intros Hle%(st_time_mono (S := S)). lia. }
  apply format_timestamp_dir_iff in Heq; [|apply Hclk..].
  pose proof (clock_mono m n ltac:(lia)) as Hmn. unfold retention_cutoff in Hlt. unfold secs in Heq.
  assert (clock k / ns_per_sec < clock n / ns_per_sec)%Z; [|lia].
  apply Z.div_lt_upper_bound; [done|]. pose proof (Z.mul_div_le (clock n) ns_per_sec ltac:(done)).
  pose proof (Z.mod_pos_bound (clock n) ns_per_sec ltac:(done)).
  rewrite Z.mod_eq in * by done. unfold ns_per_sec in *. nia.
Qed.
Lemma tracks_prune c L m :
  settled c L → (0 < start_retention start)%Z → m < c →
  tracks c L (prune_created_before (retention_cutoff (clock m) (start_retention start))) (still c L).
Proof.
  intros Hs Hd Hm w Hi _ Hk. set (cutoff := retention_cutoff (clock m) (start_retention start)).
  eapply wp_mono; [apply prune_created_before_law; [apply Hi|apply Hclk]|].
  intros r w' ((Hfs & _ & _ & _ & Hc & _) & _ & _ & Hr). exists c, L.
  pose proof (kn_clock _ _ _ Hk) as Hcl. split_and!; [done|done| |split; [done|by destruct r]].
  assert (∃ gone, Forall (prunable (S := S) cutoff) gone ∧ entries w ≡ₚ gone ++ entries w') as (gone & Hgone & Hp).
  { destruct r as [doomed|err|]; [|done..]. destruct Hr as [_ Hent].
    exists (filter (prunable cutoff) (entries w)). split.
    - apply Forall_forall. by intros x [? _]%list_elem_of_filter.
    - rewrite Hent. apply filter_split_perm. }
  eapply known_step; [done|lia|done| |by rewrite Hfs|].
  - intros e He _. rewrite Hp, elem_of_app. by right.
  - intros e b He Hin. rewrite Hp, elem_of_app in Hin. destruct Hin as [Hg|]; [left|by right].
    eapply (past_le c); [lia|]. destruct (Hs e b He) as [|Ht]; [done|].
    eapply expired_past; [done|done|done|]. by eapply Forall_forall in Hgone.
Qed.

(** ** The scheduler *)

Lemma tracked_calm {A B} c L (m : M S A) P (k : A → Task S B) Q :
  settled c L → calm root m P → (∀ a w, P w a → tracked c L (k a) Q) → tracked c L (act m ≫= k) Q.
Proof.
  intros Hs Hm Hk. eapply tracked_bind; [by apply tracked_act, tracks_calm|].
  intros c' L' a _ (-> & -> & w & ?). by eapply Hk.
Qed.
Lemma tracked_still {A B} c L (m : M S A) (k : A → Task S B) Q :
  tracks c L m (still c L) → (∀ a, tracked c L (k a) Q) → tracked c L (act m ≫= k) Q.
Proof.
  intros Hm Hk. eapply tracked_bind; [by apply tracked_act|]. intros c' L' a _ [-> ->]. apply Hk.
Qed.
Lemma tracked_last {A} c L (m : M S A) P : settled c L → calm root m P → tracked c L (act m) any.
Proof.
  intros Hs Hm. eapply logged_mono; [by apply tracked_act, tracks_calm|]. by intros c' L' r [? _]; split; [|destruct r].
Qed.
Lemma tracked_any {A} c L (t : Task S A) P : tracked c L t P → tracked c L t any.
Proof. intros Ht. eapply logged_mono; [exact Ht|]. by intros c' L' r [? _]; split; [|destruct r]. Qed.

Lemma tracked_write_pointer c L e : settled c L → tracked c L (write_current_pointer_task root e) any.
Proof.
  intros Hs. unfold write_current_pointer_task. eapply tracked_calm; [done|apply calm_now|]. intros t _ _.
  eapply tracked_calm; [done|apply calm_context, calm_write_tmp|]. intros [] _ _.
  eapply tracked_last; [done|]. apply calm_context, calm_rename.
Qed.
Lemma tracked_create_and_insert c L new :
  settled c L → (∀ i, uuid_ok i → entry_ok (make_entry i new)) →
  (∀ i, status (make_entry i new) = Created → timed c (stored_entry (make_entry i new)) ∧
     is_name (timestamp_dir (make_entry i new))) →
  tracked c L (create_and_insert_entry_task root new) any.
Proof.
  intros Hs Hok Ht. unfold create_and_insert_entry_task.
  eapply tracked_calm; [done|by apply calm_new_v4|]. intros i _ [Hi _].
  eapply tracked_bind; [apply tracked_act, (tracks_insert c L (make_entry i new)); [done|by apply Hok|apply Ht]|].
  intros c' L' [] Hs' _. destruct (status (make_entry i new)) eqn:Hst; [|by apply tracked_ret].
  apply tracked_still; [|intros []; by apply tracked_ret].
  apply tracks_context, tracks_write; [done|]. intros x b _ Hx Heq. symmetry in Heq.
  apply payload_not_metadata in Heq; [done|done|]. by apply Ht.
Qed.
Lemma tracked_create_backup c L n pl h :
  settled c L → n < c → unnamed (format_timestamp_dir (clock n)) L → payload_ok pl →
  tracked c L (create_backup_task root (clock n) pl h) any.
Proof.
  intros Hs Hn Hun Hpl. unfold create_backup_task. cbv zeta.
  assert (is_name (format_timestamp_dir (clock n))) as Hname by apply format_timestamp_dir_name, Hclk.
  apply tracked_still; [by apply tracks_context, tracks_create_dir|]. intros [].
  apply tracked_still.
  { apply tracks_context, tracks_write; [done|]. intros x b Hx Hnx Heq.
    apply payload_path_inj in Heq; [|done..]. by apply (Hun x b). }
  intros []. eapply tracked_calm; [done|apply calm_context, calm_stats|]. intros s w Hst.
  eapply tracked_calm; [done|apply calm_context, calm_len|]. intros len _ _.
  eapply tracked_bind; [apply tracked_create_and_insert; [done|..]|].
  - intros i Hi. split_and!; simpl; [done|apply Hclk|apply as_i64_range|done|]. by intros s' [= <-].
  - intros i _. split; [|done]. by exists n.
  - intros c' L' e Hs' _. eapply tracked_bind; [by apply tracked_write_pointer|].
    intros c2 L2 [] Hs2 _. by apply tracked_ret.
Qed.
Lemma tracked_run_once c L pl h :
  clear c L → payload_ok pl → tracked c L (run_once_task root pl h) any.
Proof.
  intros Hcl Hpl. unfold run_once_task.
  eapply tracked_bind; [by apply tracked_act, tracks_now, clear_settled|].
  intros c' L' t Hs (-> & n & Hn & ->). eapply tracked_calm; [done|apply calm_last_hash|].
  assert (tracked c' L (create_backup_task root (clock n) pl h) any).
  { apply tracked_create_backup; [done|lia| |done]. intros x b Hx Heq. apply (Hcl x b Hx n); [lia|done]. }
  intros [last|] _ _; [|done]. case_decide; [|done].
  eapply tracked_bind; [apply tracked_create_and_insert; [done| |done]|].
  - intros i Hi. split_and!; simpl; [done|apply Hclk| |done|done]. unfold is_i64. split; by vm_compute.
  - intros c2 L2 e Hs2 _. by apply tracked_ret.
Qed.

Lemma tracked_remove_dirs c L doomed : settled c L → tracked c L (remove_backup_dirs_task root doomed) any.
Proof.
  intros Hs. induction doomed as [|[i d] doomed IH]; cbn [remove_backup_dirs_task]; [by apply tracked_ret|].
  eapply tracked_calm; [done|apply calm_exists|]. intros [] _ _; [|exact IH].
  apply tracked_still; [by apply tracks_context, tracks_remove_dir|done].
Qed.
Lemma tracked_prune c L : settled c L → tracked c L (prune_task root (start_retention start)) any.
Proof.
  intros Hs. unfold prune_task. destruct (Z.leb_spec (start_retention start) 0) as [|Hd]; [by apply tracked_ret|].
  eapply tracked_bind; [by apply tracked_act, tracks_now|]. intros c' L' t Hs' (-> & n & Hn & ->).
  destruct (Hclk n) as [Ht Hc]. destruct (cutoff_computed _ _ Ht Hc Hd) as (d & -> & ->).
  apply tracked_still; [apply tracks_prune; [done|done|lia]|]. intros doomed.
  eapply tracked_bind; [by apply tracked_remove_dirs|]. intros c2 L2 [] Hs2 _. by apply tracked_ret.
Qed.
Lemma tracked_scheduler_round c L cfg :
  clear c L → tracked c L (scheduler_round_task root cfg (start_retention start)) any.
Proof.
  intros Hcl. assert (settled c L) as Hs by (by apply clear_settled).
  unfold scheduler_round_task, scheduled_backup_task, scheduled_pruning_task.
  assert (tracked c L (task_attempt (act (sync_collection cfg))) (λ c' L' r, c' = c ∧ L' = L ∧
    match r with inr sync => is_i64 (sync_duration sync) | inl _ => True end)) as Hsync.
  { intros w Hi Hi' Hk. cbn [task_attempt act]. pose proof (calm_sync root cfg w Hi) as Hsy.
    unfold wp in Hsy. destruct (sync_collection cfg w) as [r w'] eqn:Hr. cbn [fst snd] in *.
    destruct Hsy as [(_ & Hkeep & _) Hres]. exists c, L.
    split_and!; [done|done|by eapply known_keeps|]. by destruct r. }
  eapply tracked_bind; [exact Hsync|]. intros c' L' [err|sync] _ (-> & -> & Hd); [by eapply tracked_last, calm_log|].
  eapply tracked_bind; [|intros c1 L1 [] Hs1 _]; cbv zeta.
  - eapply tracked_bind; [eapply tracked_attempt, tracked_run_once; [done|by intros d [= <-]]|].
    intros c1 L1 [err|[e|e]] Hs1 _; by eapply tracked_last, calm_log.
  - eapply tracked_bind; [by eapply tracked_attempt, tracked_prune|].
    intros c2 L2 [err|k] Hs2 _; [by eapply tracked_last, calm_log|].
    case_decide; [by eapply tracked_last, calm_log|by apply tracked_ret].
Qed.

(** ** The requests *)

Definition disposition_of (i : Uuid) : string :=
  "attachment; filename=backup-" +:+ uuid_to_string i +:+ ".tar.zst".
(** A file that is sent is the archive of a payload in the log, under the name of its
    entry. *)
Definition faithful L (r : Res (Z + Reply)) : Prop :=
  ∀ kind name body, r = Ok (inr (FileReply kind name body)) →
    ∃ e b, (e, b) ∈ L ∧ name = disposition_of (id e) ∧ archive b = Some body.
Fixpoint honest L (t : Task S (Z + Reply)) : Prop :=
  match t with
  | Done r => faithful L r
  | Act next _ => ∀ w L', L ⊆ L' → backups_inv root w → (∃ c, known c L' w) → honest L' (next w)
  | Lock t => honest L t
  end.
Lemma honest_grows L L' t : L ⊆ L' → honest L t → honest L' t.
Proof.
  intros HL. induction t as [r|next IH upd|t IH]; cbn [honest]; intros Ht; [| |by apply IH].
  - intros kind name body Hr. destruct (Ht kind name body Hr) as (e & b & ? & ?). exists e, b. by auto.
  - intros w L2 HL2. apply Ht. set_solver.
Qed.

(** Handlers that send no file. *)
Definition no_file (r : Res (Z + Reply)) : Prop :=
  match r with Ok (inr (FileReply _ _ _)) => False | _ => True end.
Fixpoint fileless (t : Task S (Z + Reply)) : Prop :=
  match t with
  | Done r => no_file r
  | Act next _ => ∀ w, fileless (next w)
  | Lock t => fileless t
  end.
Lemma fileless_honest L t : fileless t → honest L t.
Proof.
  revert L. induction t as [r|next IH upd|t IH]; intros L; cbn [fileless honest]; intros Ht; [| |by apply IH].
  - by intros kind name body ->.
  - intros w L' _ _ _. by apply IH.
Qed.
Lemma fileless_bind {A} (t : Task S A) (k : A → Task S (Z + Reply)) :
  (∀ a, fileless (k a)) → fileless (t ≫= k).
Proof. intros Hk. unfold mbind, Task_bind. induction t as [[]|next IH upd|t IH]; cbn; auto. Qed.
Lemma fileless_ok_or {A} (o : option A) code (k : A → Task S (Z + Reply)) :
  (∀ a, fileless (k a)) → fileless (ok_or_task o code k).
Proof. intros Hk. destruct o; [apply Hk|done]. Qed.
Lemma fileless_or_status {A} (t : Task S A) code (k : A → Task S (Z + Reply)) :
  (∀ a, fileless (k a)) → fileless (or_status_task t code k).
Proof. intros Hk. apply fileless_bind. intros [err|a]; [done|apply Hk]. Qed.
Lemma fileless_push e (k : Task S (Z + Reply)) :
  fileless k → fileless (push_rolled_back_task root (start_state start) e k).
Proof.
  intros Hk. unfold push_rolled_back_task. cbv zeta. destruct (app_sync_config (start_state start)).
  2: { apply fileless_bind. intros []. exact Hk. }
  apply fileless_bind. intros [err|b]; [by apply fileless_bind|].
  apply fileless_bind. intros [err|[]]; apply fileless_bind; [done|]. intros []. exact Hk.
Qed.
Lemma fileless_rollback id_text hs : fileless (rollback_backup_task root (start_state start) id_text hs).
Proof.
  unfold rollback_backup_task. do 2 (destruct (negb _); [done|]). cbn [fileless].
  apply fileless_bind. intros [|]; [done|]. apply fileless_ok_or. intros i. apply fileless_or_status.
  intros e. apply fileless_push. apply fileless_bind. intros t. by apply fileless_bind.
Qed.

(** A call whose outcome others may have changed. *)
Lemma honest_or_status {A} L (m : M S A) code (k : A → Task S (Z + Reply)) :
  (∀ w L', L ⊆ L' → backups_inv root w → (∃ c, known c L' w) →
    match (m w).1 with Ok a => honest L' (k a) | _ => True end) →
  honest L (or_status_task (act m) code k).
Proof.
  intros Hm w L' HL Hi Hk. specialize (Hm w L' HL Hi Hk). cbn.
  by destruct (m w).1 as [a|err|].
Qed.
Lemma honest_ok_or {A} L (o : option A) code (k : A → Task S (Z + Reply)) :
  (∀ a, o = Some a → honest L (k a)) → honest L (ok_or_task o code k).
Proof. intros Hk. destruct o; [by apply Hk|done]. Qed.
Lemma honest_download L id_text hs : honest L (download_backup_task root (start_state start) id_text hs).
Proof.
  unfold download_backup_task. destruct (negb _); [done|].
  apply honest_ok_or. intros i Hid. apply uuid_parse_ok in Hid.
  apply honest_or_status. intros w L1 _ Hi (c & Hk).
  pose proof (calm_get root i Hid w Hi) as Hget. unfold wp in Hget.
  destruct (repo_get_backup i w).1 as [o|err|]; [|done..]. destruct Hget as [_ Hget].
  apply honest_ok_or. intros e ->. destruct (Hget e eq_refl) as [Hin _].
  case_decide as Hst; [done|]. destruct (kn_entries _ _ _ Hk e Hin Hst) as [b Hb].
  apply honest_or_status. intros w2 L2 HL2 Hi2 (c2 & Hk2).
  pose proof (calm_read root (backup_file_path root e) w2 Hi2) as Hread. unfold wp in Hread.
  destruct (fs_read (backup_file_path root e) w2).1 as [x|err|]; [|done..]. destruct Hread as [_ Hx].
  assert (x = b) as -> by (by eapply (kn_file _ _ _ Hk2); [apply HL2|]).
  apply honest_ok_or. intros a Ha kind name body [= _ <- <-]. exists e, b. by auto.
Qed.
Lemma honest_handle L rq : honest L (handle_task root (start_state start) rq).
Proof.
  unfold handle_task, with_id_task, on_get_task, on_post_task. cbv zeta.
  destruct (route_of (rq_path rq)) as [[]|]; [..|done]; (destruct (rq_method rq); try done).
  all: try (apply honest_ok_or; intros i _); auto using honest_download, fileless_honest, fileless_rollback.
  all: unfold index_task, backup_detail_task, api_list_backups_task, api_backup_detail_task.
  all: try (destruct (negb _); [done|]); apply fileless_honest.
  all: try (apply fileless_ok_or; intros u); apply fileless_or_status; intros o;
    first [done|by apply fileless_ok_or].
Qed.

(** ** The pool *)

Abbreviation step := (pool_step root start).

(** Recorded at some point of the run from [p0] to [p]. *)
Definition recorded (p0 p : Pool S) (e : BackupEntry) : Prop :=
  ∃ p1, rtc step p0 p1 ∧ rtc step p1 p ∧ e ∈ entries (p_world p1).
Lemma recorded_step p0 p p' e : step p p' → recorded p0 p e → recorded p0 p' e.
Proof. intros Hs (p1 & ? & ? & ?). exists p1. split_and!; [done|by eapply rtc_r|done]. Qed.

Record pool_log (p0 p : Pool S) (c : nat) L : Prop := {
  pl_known : known c L (p_world p);
  pl_sched : logged (λ _ _ _, True) c L (p_sched p);
  pl_jobs : ∀ n j, p_jobs p !! n = Some j → honest L (j_task j);
  pl_recorded : ∀ e b, (e, b) ∈ L → recorded p0 p e;
}.

(** Steps of a request, or that leave the world alone. *)
Lemma pool_log_jobs p0 p w jobs c L :
  let p' := set_world w (set_jobs jobs p) in
  step p p' → keeps_backups root (p_world p) w → pool_log p0 p c L →
  (∀ n j, jobs !! n = Some j → honest L (j_task j)) → pool_log p0 p' c L.
Proof.
  intros p' Hstep Hkeep [Hk Hs _ Hrec] Hj. split; [by eapply known_keeps|done|done|].
  intros e b He. by eapply recorded_step, Hrec.
Qed.
Lemma pool_log_same p0 p jobs c L :
  step p (set_jobs jobs p) → pool_log p0 p c L →
  (∀ n j, jobs !! n = Some j → honest L (j_task j)) → pool_log p0 (set_jobs jobs p) c L.
Proof. intros Hstep. by apply (pool_log_jobs p0 p (p_world p) jobs). Qed.
Lemma pool_log_act p0 p c L n j next upd :
  pool_inv root start p → p_jobs p !! n = Some j → j_task j = Act next upd → pool_log p0 p c L →
  pool_log p0 (set_world (upd (p_world p)) (set_jobs
    (<[n := {| j_task := next (p_world p); j_locked := j_locked j |}]> (p_jobs p)) p)) c L.
Proof.
  intros Hinv Hj Ht Hpl. pose proof (pi_jobs _ _ _ Hinv n j Hj) as Hsv. unfold served in Hsv. rewrite Ht in Hsv.
  destruct (Hsv (p_world p) (reflexivity _) (inv_none root _ (pi_backups _ _ _ Hinv))) as (_ & [Hkeep _] & _).
  apply pool_log_jobs; [by apply (pool_act _ _ n j next)|done|done|].
  intros m x [[<- <-]|[_ Hx]]%lookup_insert_Some; [|by eapply (pl_jobs _ _ _ _ Hpl)].
  pose proof (pl_jobs _ _ _ _ Hpl n j Hj) as Hh. rewrite Ht in Hh.
  apply Hh; [done|by apply (pi_backups _ _ _ Hinv)|]. exists c. apply Hpl.
Qed.
Lemma pool_log_sched p0 p c L next upd :
  pool_inv root start p → rtc step p0 p → p_sched p = Act next upd → pool_log p0 p c L →
  ∃ c' L', pool_log p0 (set_sched (next (p_world p)) (set_world (upd (p_world p)) p)) c' L'.
Proof.
  intros Hinv Hrun Ht [Hk Hs Hj Hrec]. set (p' := set_sched _ _).
  assert (step p p') as Hstep by (by apply pool_sched).
  destruct (sched_step_inv root start next upd p Ht Hinv) as [Hinv' _]. rewrite Ht in Hs.
  destruct (Hs (p_world p) (pi_backups _ _ _ Hinv) (pi_backups _ _ _ Hinv') Hk)
    as (c' & L' & Hc & [HL Hnew] & Hk' & Hs').
  exists c', L'. split; [done|done| |].
  - intros n j Hn. eapply honest_grows; [done|by eapply Hj].
  - intros e b He. destruct (Hnew e b He) as [Hold|Hin]; [by eapply recorded_step, Hrec|].
    exists p'. split_and!; [by eapply rtc_r|done|exact Hin].
Qed.
Lemma pool_log_round p0 p c L :
  p_sched p = Done (Ok ()) → fresh_seconds (p_world p) → pool_log p0 p c L →
  pool_log p0 (set_sched (scheduler_round_task root (start_account start) (start_retention start)) p)
    (w_clock (p_world p)) L.
Proof.
  intros Ht Hfs Hpl. pose proof Hpl as [Hk _ Hj Hrec]. split; [by destruct Hk| |done|].
  - eapply logged_mono; [apply tracked_scheduler_round|done]. intros e b He n Hn Heq.
    destruct (kn_past _ _ _ Hk e b He) as [Hp|Hin]; [by apply (Hp n)|].
    apply (Hfs n Hn e Hin); [by apply (kn_good _ _ _ Hk e b)|done].
  - intros e b He. eapply recorded_step; [by apply pool_round|by eapply Hrec].
Qed.
Lemma pool_log_step p0 p p' c L :
  pool_inv root start p → rtc step p0 p → step p p' → pool_log p0 p c L → ∃ c' L', pool_log p0 p' c' L'.
Proof.
  intros Hinv Hrun Hstep Hpl. pose proof Hstep as Hs. destruct Hs as
    [next upd p Ht|p Ht|p Ht Hfs|n rq p Hn|n j next upd p Hj Ht|n j t p Hj Ht Hun|n j r p _ _|n p].
  - by eapply pool_log_sched.
  - exists c, L. apply (pool_log_jobs p0 p _ (p_jobs p)); [done|by split; simpl; [| |lia|]|done|].
    apply Hpl.
  - exists (w_clock (p_world p)), L. by eapply pool_log_round.
  - exists c, L. apply pool_log_same; [done|done|].
    intros m x [[<- <-]|[_ Hx]]%lookup_insert_Some; [apply honest_handle|by eapply (pl_jobs _ _ _ _ Hpl)].
  - exists c, L. by eapply pool_log_act.
  - exists c, L. apply pool_log_same; [done|done|].
    intros m x [[<- <-]|[_ Hx]]%lookup_insert_Some; [|by eapply (pl_jobs _ _ _ _ Hpl)].
    pose proof (pl_jobs _ _ _ _ Hpl n j Hj) as Hh. by rewrite Ht in Hh.
  - exists c, L. apply pool_log_same; [done|done|].
    intros m x [_ Hx]%lookup_delete_Some. by eapply (pl_jobs _ _ _ _ Hpl).
  - exists c, L. apply pool_log_same; [done|done|].
    intros m x [_ Hx]%lookup_delete_Some. by eapply (pl_jobs _ _ _ _ Hpl).
Qed.

(** The log at the start: the created entries with the payloads they find. *)
Definition log_of w : Log :=
  omap (λ e, match status e, w_fs w !! payload e with
             | Created, Some (File b) => Some (e, b)
             | _, _ => None
             end) (entries w).
Lemma elem_of_log_of w e b :
  (e, b) ∈ log_of w ↔ e ∈ entries w ∧ status e = Created ∧ w_fs w !! payload e = Some (File b).
Proof.
  unfold log_of. rewrite list_elem_of_omap. split.
  - intros (x & Hx & Hl). destruct (status x) eqn:?, (w_fs w !! payload x) as [[]|] eqn:?; naive_solver.
  - intros (He & Hst & Hb). exists e. by rewrite Hst, Hb.
Qed.
Lemma known_initial w : backups_inv root w → known (w_clock w) (log_of w) w.
Proof.
  intros Hi. split; [done|..].
  - intros e He Hst. destruct (bi_files _ _ Hi e He Hst) as (_ & b & Hb & _).
    exists b. by apply elem_of_log_of.
  - intros e b (He & Hst & Hb)%elem_of_log_of.
    destruct (bi_files _ _ Hi e He Hst) as (Hn & b' & Hb' & Hh & Hsz). change (backup_file_path root e) with (payload e) in Hb'.
    simplify_eq. by split_and!.
  - intros e b b' (_ & _ & Hb)%elem_of_log_of Hb'. congruence.
  - intros e b (He & _ & _)%elem_of_log_of. by right.
Qed.
Lemma pool_logged w p :
  backups_inv root w → rtc step (initial_pool w) p → ∃ c L, pool_log (initial_pool w) p c L.
Proof.
  intros Hi Hrun. assert (∃ c L, pool_log (initial_pool w) (initial_pool w) c L) as Hinit.
  { exists (w_clock w), (log_of w). split; [by apply known_initial|done|done|].
    intros e b (He & _ & _)%elem_of_log_of. by exists (initial_pool w). }
  assert (∀ p1, rtc step (initial_pool w) p1 → (∃ c L, pool_log (initial_pool w) p1 c L) →
    rtc step p1 p → ∃ c L, pool_log (initial_pool w) p c L) as Hgo; [|by apply (Hgo (initial_pool w))].
  clear Hinit Hrun. intros p1 Hr1 Hp1 Hrun. induction Hrun as [p|p1 p2 p Hstep Hrun IH]; [done|].
  apply IH; [by eapply rtc_r|]. destruct Hp1 as (c & L & Hpl). eapply pool_log_step; [|done..].
  apply (pool_run_inv root start) in Hr1; [by destruct Hr1|done..|by apply initial_pool_inv].
Qed.

(** A file that was sent is a payload that was recorded. *)
Lemma sent_recorded w p n j kind name body :
  backups_inv root w → rtc step (initial_pool w) p → p_jobs p !! n = Some j →
  j_task j = Done (Ok (inr (FileReply kind name body))) →
  ∃ e b, recorded (initial_pool w) p e ∧ status e = Created ∧ name = disposition_of (id e) ∧
    archive b = Some body ∧ content_hash b = content_hash_of e ∧
    size_bytes e = as_i64 (Z.of_nat (length b)).
Proof.
  intros Hi Hrun Hj Ht. destruct (pool_logged w p Hi Hrun) as (c & L & Hpl).
  pose proof (pl_jobs _ _ _ _ Hpl n j Hj) as Hh. rewrite Ht in Hh.
  destruct (Hh _ _ _ eq_refl) as (e & b & Heb & Hname & Harch). exists e, b.
  destruct (kn_good _ _ _ (pl_known _ _ _ _ Hpl) e b Heb) as (_ & Hst & Hhash & Hsz).
  split_and!; try done. by eapply (pl_recorded _ _ _ _ Hpl).
Qed.
End downloads.
