(* ===== verification/Lives.v ===== *)
(** * Processes that come and go

    The disk outlives the daemon.  A [life] is one process on it: it opens the
    repository and then takes one backup or serves, and it is killed after any of
    its calls, or ends by itself.  What the next process finds is what the last
    one left. *)

From stdpp Require Import relations.
From S2P Require Import Prelude Calendar World Tasks Crates Core Store Stats Repository.
From S2P Require Import RepositoryInv RepositoryThms RepositoryOps History Sync Config Server ServerThms.
From S2P Require Import Daemon Async Interference Service Pool.

(** ** Running a task up to a point *)

Inductive executes {S A} : Task S A → World S → Task S A → World S → Prop :=
  | executes_stop t w : executes t w t w
  | executes_act next upd w t' w' :
      executes (next w) (upd w) t' w' → executes (Act next upd) w t' w'.

Section executes.
Context {S : Type} (I : World S → Prop) (rely guar : bool → World S → World S → Prop).
Context `{!∀ b, PreOrder (rely b), !∀ b, PreOrder (guar b)}.

Lemma executes_wpi {A} b (t t' : Task S A) Q w w' :
  executes t w t' w' → I w → wpi I rely guar b t Q w →
  I w' ∧ guar b w w' ∧ wpi I rely guar b t' Q w'.
Proof.
  induction 1 as [t w|next upd w t' w' _ IH]; intros Hi Hw; [done|].
  destruct (Hw w (reflexivity _) Hi) as (Hi' & Hg & Hw'). destruct (IH Hi' Hw') as (? & ? & ?).
  split_and!; [done|by etrans|done].
Qed.
End executes.

(** [n] actions. *)
Fixpoint run_for {S A} (n : nat) (t : Task S A) (w : World S) : Task S A * World S :=
  match n, t with S n, Act next upd => run_for n (next w) (upd w) | _, _ => (t, w) end.
Lemma executes_for {S A} n (t t' : Task S A) w w' : run_for n t w = (t', w') → executes t w t' w'.
Proof.
  revert t w. induction n as [|n IH]; intros t w; cbn [run_for]; [intros [= -> ->]; constructor|].
  destruct t; try (intros [= <- ->]; constructor). intros Hr. constructor. by apply IH.
Qed.

(** To its end, without a mutex. *)
Fixpoint lock_free {S A} (t : Task S A) : Prop :=
  match t with Done _ => True | Act next _ => ∀ w, lock_free (next w) | Lock _ => False end.
Lemma executes_run {S A} (t : Task S A) w r w' :
  run_task t w = (r, w') → lock_free t → executes t w (Done r) w'.
Proof.
  revert w. induction t as [r0|next IH upd|t IH]; intros w Hr Hl; simpl in *; [|by constructor; apply IH|done].
  injection Hr as -> ->. constructor.
Qed.
Lemma lock_free_act_bind {S A B} (m : M S A) (k : A → Task S B) :
  (∀ a, lock_free (k a)) → lock_free (act m ≫= k).
Proof. intros Hk w. cbn. by destruct (m w).1. Qed.

Section lives.
Context {S : Type} `{!Env, !Chrono, !UuidCrate, !SerdeJson, !HashCrates, !Zstd, !SqlEngine,
  !CollectionFile, !HttpCrates, !TarCrate, !AxumCrate, !MetadataStore S, !StoreModel S, !StoreOpen S}.
Context (root : Path).
Implicit Types w : World S.

Abbreviation entries w := (st_entries (w_db w)).

(** ** The two kinds of process *)

Definition open_repository_task : Task S () :=
  act (context "create backups directory" (create_dir_all (backups_dir root)));;
  act (context "create state directory" (create_dir_all (state_dir root)));;
  act store_new.

Definition run_once_main_task (config : SyncConfig) : Task S () :=
  sync ← act (sync_collection config);
  let hash := content_hash (collection_bytes sync) in
  outcome ← run_once_task root (payload_of sync) hash;
  match outcome with
  | RCreated entry => act (log Info "backup created" [("backup_id", uuid_to_string (id entry))])
  | RSkipped entry =>
      act (log Info "backup skipped (unchanged)" [("backup_id", uuid_to_string (id entry))])
  end.

Lemma means_open_repository : means open_repository_task (open_repository root store_new).
Proof. unfold open_repository_task, open_repository. means_solve. Qed.
Lemma means_run_once_main config : means (run_once_main_task config) (run_once_main root config).
Proof.
  unfold run_once_main_task, run_once_main. apply means_bind; [by auto with means|intros sync].
  apply means_bind; [apply means_run_once|]. intros [e|e]; by auto with means.
Qed.

(** The settings under which services were started. *)
Context (configured : ServiceStart → Prop).

(** A process starts without a closed gate.  A backup is not named after a second
    that has passed. *)
Inductive life : World S → World S → Prop :=
  (** it is killed or fails while it opens the repository *)
  | life_opens w t w' : executes open_repository_task w t w' → life w w'
  (** [run-once] *)
  | life_once account w w1 t w' :
      executes open_repository_task w (Done (Ok ())) w1 → fresh_seconds w1 →
      executes (run_once_main_task account) w1 t w' → life w w'
  (** the service *)
  | life_serves start w w1 p :
      configured start → executes open_repository_task w (Done (Ok ())) w1 →
      rtc (pool_step root start) (initial_pool (set_gate None w1)) p → life w (p_world p).

(** ** What the disk holds *)

(** The backups are sound; the tables may be missing. *)
Record disk_inv w : Prop := {
  di_wf : st_wf (migrate (w_db w));
  di_files : files_ok content_hash root (w_fs w) (entries w);
  di_dirs : dirs_distinct (entries w);
}.

Context `{!ChronoLaws, !UuidLaws, !SqlEngineLaws, !CollectionFileLaws, !StoreLaws S, !StoreOpenLaws S}.

Lemma backups_disk_inv w : backups_inv root w → disk_inv w.
Proof. intros [Hwf Hf Hd]. split; [by rewrite migrate_wf|done..]. Qed.

Definition same_entries w w' : Prop := entries w' = entries w.
#[local] Instance same_entries_preorder : PreOrder same_entries.
Proof. split; [done|]. intros w1 w2 w3 He1 He2. unfold same_entries in *. congruence. Qed.

Definition opening {A} (t : Task S A) (Q : bool → Res A → World S → Prop) w : Prop :=
  wpi disk_inv (λ _, eq) (λ _, same_entries) true t Q w.
Lemma opening_dir {B} msg p (k : () → Task S B) Q w :
  (∀ err w', Q true (Err err) w') → (∀ w', opening (k ()) Q w') →
  opening (act (context msg (create_dir_all p)) ≫= k) Q w.
Proof.
  intros He Hk. apply wpi_bind; [apply _|]. apply wpi_act. intros w1 _ [Hwf Hf Hd].
  apply wp_context. eapply wp_mono; [apply create_dir_all_spec|]. intros r w' (fs' & -> & Ha & _ & Hr).
  assert (disk_inv (set_fs fs' (tick_io w1))) by (split; [done|by eapply files_ok_dirs|done]).
  destruct r as [[]|err|]; [..|done]; (split_and!; [done|done|]);
    intros w3 <- _; cbn [task_post]; [apply Hk|apply He].
Qed.
Lemma opening_repository w :
  opening open_repository_task (λ _ r w', r = Ok () → st_wf (w_db w')) w.
Proof.
  unfold open_repository_task. apply opening_dir; [done|intros w1].
  apply opening_dir; [done|intros w2].
  apply wpi_act. intros w3 _ [Hwf Hf Hd]. eapply wp_mono; [apply store_new_law|].
  intros r w' (Hdo & Hm & _ & Hr). assert (entries w' = entries w3) as He
    by (by rewrite <- migrate_entries, Hm, migrate_entries).
  assert (w_fs w' = w_fs w3) as Hfs by apply Hdo.
  split_and!; [by split; rewrite ?Hm, ?Hfs, ?He|done|].
  intros w4 <- _ ->. by rewrite Hr.
Qed.
Lemma opened_disk w t w' :
  executes open_repository_task w t w' → disk_inv w →
  disk_inv w' ∧ entries w' = entries w ∧ (t = Done (Ok ()) → backups_inv root w').
Proof.
  intros Hex Hi. destruct (executes_wpi disk_inv (λ _, eq) (λ _, same_entries) true _ _ _ w w' Hex Hi
    (opening_repository w)) as (Hi' & He & Hw).
  split_and!; [done|done|]. intros ->. destruct Hi' as [Hwf Hf Hd]. split; [|done..].
  by apply (Hw w').
Qed.

Lemma opened_runs w w' :
  open_repository root store_new w = (Ok (), w') → disk_inv w →
  backups_inv root w' ∧ entries w' = entries w.
Proof.
  intros Hop Hi. destruct (opened_disk w (Done (Ok ())) w') as (_ & He & Hb); [|done|by auto].
  apply (executes_run _ _ (Ok ()) w'); [by rewrite means_open_repository|].
  apply lock_free_act_bind; intros []. apply lock_free_act_bind; intros []. by intros.
Qed.

Context (Huu : uuids_ok) (Hclk : ∀ start, configured start → clock_ok (start_retention start)).
Context (Hrange : ∀ n, rfc3339_range (clock n)).
Context (clock_mono : ∀ n m, n ≤ m → (clock n ≤ clock m)%Z).

#[local] Instance sched_guar_preorder may_go b : PreOrder (sched_guar (S := S) may_go b).
Proof.
  split; [by intros w; split_and!; [|lia|]|]. intros w1 w2 w3 (Hg1 & Hc1 & Hk1) (Hg2 & Hc2 & Hk2).
  split_and!; [congruence|lia|by etrans].
Qed.
Lemma sound_run_once_main may_go account w :
  fresh_seconds w → sound root may_go (run_once_main_task account) w.
Proof.
  intros Hfs. unfold run_once_main_task. eapply sound_calm; [apply calm_sync|].
  intros sync w1 w2 Hk1 Hk2 Hd. cbv zeta. apply sound_bind.
  - apply (sound_run_once root may_go (payload_of sync)); [done..|by intros d [= <-]|].
    apply (fresh_seconds_keeps root w); [by trans w1|done].
  - intros [e|e] w3; eapply sound_last, calm_log.
Qed.

(** What one process does to the disk. *)
Definition outlived w w' : Prop := ∀ e, e ∈ entries w → e ∈ entries w' ∨
  ∃ start, configured start ∧ expired (S := S) (start_retention start) e.
#[export] Instance outlived_preorder : PreOrder outlived.
Proof.
  split; [by left|]. intros w1 w2 w3 He1 He2 e He. destruct (He1 e He) as [?|]; [by apply He2|by right].
Qed.
Lemma life_disk w w' : life w w' → disk_inv w → disk_inv w' ∧ outlived w w'.
Proof.
  intros Hlife Hi. destruct Hlife as [w t w' Hex|account w w1 t w' Hop Hfs Hex|start w w1 p Hs Hop Hrun].
  - destruct (opened_disk _ _ _ Hex Hi) as (Hi' & He & _). split; [done|].
    intros e. rewrite He. by left.
  - destruct (opened_disk _ _ _ Hop Hi) as (_ & He & Hb). specialize (Hb eq_refl).
    destruct (executes_wpi (backups_inv root) (sched_rely root) (sched_guar (λ _, False)) true _ _ _ w1 w'
      Hex Hb (sound_run_once_main (λ _, False) account w1 Hfs)) as (Hi' & (_ & _ & Hk) & _).
    split; [by apply backups_disk_inv|]. intros e. rewrite <- He. intros Hin. left.
    by destruct (Hk e Hin).
  - destruct (opened_disk _ _ _ Hop Hi) as (_ & He & Hb). specialize (Hb eq_refl).
    destruct (pool_run_inv root start clock_mono Huu (Hclk start Hs) _ _ Hrun) as [Hp Hk].
    { apply initial_pool_inv. by destruct Hb. }
    split; [apply backups_disk_inv, Hp|]. intros e Hin. rewrite <- He in Hin.
    destruct (Hk e Hin) as [?|?]; [by left|right]. by exists start.
Qed.
Lemma lives_disk w w' : rtc life w w' → disk_inv w → disk_inv w' ∧ outlived w w'.
Proof.
  induction 1 as [w|w w1 w2 Hlife _ IH]; intros Hi; [done|].
  destruct (life_disk w w1 Hlife Hi) as [Hi1 Ho1]. destruct (IH Hi1) as [Hi2 Ho2].
  split; [done|by etrans].
Qed.
End lives.
