(* ===== verification/Instances.v ===== *)
(** * Two instances on one repository

    With a PostgreSQL database several daemons can share a repository.  Between
    processes there is no mutex: the calls of one fall between any two calls of
    another.  [instances_step] is such a set of processes, each with its own task;
    two backups of the same content can both find it new. *)

From stdpp Require Import relations.
From S2P Require Import Prelude Calendar World Tasks Crates Core Store Stats Repository.
From S2P Require Import RepositoryInv RepositoryThms RepositoryOps Sync Config Server Daemon Async.
From S2P Require Import Service Lives.

Record Instances (S A : Type) := { in_tasks : gmap nat (Task S A); in_world : World S }.
Arguments in_tasks {S A} i.
Arguments in_world {S A} i.

(** Any of them acts next. *)
Inductive instances_step {S A} : Instances S A → Instances S A → Prop :=
  | instance_acts n next upd tasks w : tasks !! n = Some (Act next upd) →
      instances_step {| in_tasks := tasks; in_world := w |}
        {| in_tasks := <[n := next w]> tasks; in_world := upd w |}.

(** One of them acts until it has ended. *)
Lemma instance_alone {S A} n (t : Task S A) tasks w r w' :
  tasks !! n = Some t → lock_free t → run_task t w = (r, w') →
  rtc instances_step {| in_tasks := tasks; in_world := w |}
    {| in_tasks := <[n := Done r]> tasks; in_world := w' |}.
Proof.
  revert tasks w. induction t as [r0|next IH upd|t IH]; intros tasks w Ht Hl Hr; simpl in *; [| |done].
  - injection Hr as -> ->. by rewrite insert_id.
  - eapply rtc_l; [by eapply instance_acts|].
    rewrite <- (insert_insert_eq tasks n (Done r) (next w)). eapply IH; [apply lookup_insert_eq|done|done].
Qed.

(** One call of one of them. *)
Lemma instance_calls {S A B} n (m : M S A) (k : A → Task S B) tasks w a w' :
  tasks !! n = Some (act m ≫= k) → m w = (Ok a, w') →
  instances_step {| in_tasks := tasks; in_world := w |}
    {| in_tasks := <[n := k a]> tasks; in_world := w' |}.
Proof.
  intros Ht Hm. pose proof (instance_acts n _ _ tasks w Ht) as Hstep. cbn in Hstep. by rewrite Hm in Hstep.
Qed.

Section instances.
Context {S : Type} `{!Env, !Chrono, !UuidCrate, !SerdeJson, !HashCrates, !SqlEngine, !CollectionFile}.
Context `{!ChronoLaws, !SqlEngineLaws, !CollectionFileLaws}.
Context `{!MetadataStore S, !StoreModel S, !StoreLaws S}.
Context (root : Path).
Implicit Types w : World S.

Abbreviation entries w := (st_entries (w_db w)).

Lemma lock_free_bind {A B} (t : Task S A) (k : A → Task S B) :
  lock_free t → (∀ a, lock_free (k a)) → lock_free (t ≫= k).
Proof.
  intros Ht Hk. unfold mbind, Task_bind. induction t as [[]|next IH upd|t IH]; simpl in *; auto.
Qed.
Lemma lock_free_act {A} (m : M S A) : lock_free (act m).
Proof. by intros w. Qed.
Lemma lock_free_write_pointer e : lock_free (write_current_pointer_task (S := S) root e).
Proof. do 2 (apply lock_free_act_bind; intros ?). apply lock_free_act. Qed.
Lemma lock_free_create_and_insert new : lock_free (create_and_insert_entry_task (S := S) root new).
Proof.
  do 2 (apply lock_free_act_bind; intros ?). destruct (status _); [|done].
  by apply lock_free_act_bind.
Qed.
Lemma lock_free_create_backup t payload h : lock_free (create_backup_task (S := S) root t payload h).
Proof.
  unfold create_backup_task. cbv zeta. do 4 (apply lock_free_act_bind; intros ?).
  apply lock_free_bind; [apply lock_free_create_and_insert|]. intros e.
  by apply lock_free_bind; [apply lock_free_write_pointer|].
Qed.
Lemma lock_free_run_once payload h : lock_free (run_once_task (S := S) root payload h).
Proof.
  do 2 (apply lock_free_act_bind; intros ?). case_match; [case_decide|];
    try apply lock_free_create_backup.
  by apply lock_free_bind; [apply lock_free_create_and_insert|].
Qed.

(** An instance has read the clock and the hash of the last backup. *)
Definition after_reads w : World S := (last_created_hash (tick_clock w)).2.

Lemma reads_of_new payload h tasks n w :
  fault_free → st_wf (w_db w) → (∀ l, latest_created (entries w) l → content_hash_of l ≠ h) →
  tasks !! n = Some (run_once_task root payload h) →
  rtc instances_step {| in_tasks := tasks; in_world := w |}
    {| in_tasks := <[n := create_backup_task root (clock (w_clock w)) payload h]> tasks;
       in_world := after_reads w |} ∧
  w_db (after_reads w) = w_db w ∧ w_fs (after_reads w) = w_fs w ∧ w_uuid w ≤ w_uuid (after_reads w).
Proof.
  intros Hff Hwf Hch Ht. unfold after_reads.
  assert (wp last_created_hash (λ r w', (db_only (tick_clock w) w' ∧ w_db w' = w_db w ∧
    ∃ o, r = Ok o ∧ ∀ h', o = Some h' → h' ≠ h)) (tick_clock w)) as Hlast.
  { eapply wp_mono; [apply wp_and; [by apply last_created_hash_law|by apply last_created_hash_total]|].
    intros r w' [(Hdo & Hdb & Hr) [o ->]]. split_and!; [done..|]. exists o. split; [done|].
    intros h' ->. destruct Hr as (l & Hl & Hh). rewrite <- Hh. by apply Hch. }
  unfold wp in Hlast. destruct (last_created_hash (tick_clock w)) as [r w1] eqn:Hrun. cbn [fst snd] in *.
  destruct Hlast as (Hdo & Hdb & o & -> & Ho). split_and!; [|done|apply Hdo|apply Hdo].
  unfold run_once_task in Ht. eapply rtc_l; [by eapply (instance_calls n now _ _ _ _ _ Ht)|].
  eapply rtc_l; [eapply (instance_calls n last_created_hash); [apply lookup_insert_eq|exact Hrun]|].
  rewrite insert_insert_eq. destruct o as [h'|]; [|done]. rewrite decide_False; [done|by apply Ho].
Qed.

(** Both of them store the content. *)
Lemma both_create payload h w :
  fault_free → st_wf (w_db w) → uuids_ok → (∀ n, rfc3339_range (clock n)) → payload_ok payload →
  (∀ l, latest_created (entries w) l → content_hash_of l ≠ h) → tidy root (w_fs w) → uuids_unused w →
  (∀ e w', run_once root payload h (after_reads w) = (Ok (RCreated e), w') → uuids_unused w') →
  collection_valid (payload_bytes payload) →
  ∃ e1 e2 w', rtc instances_step
    {| in_tasks := {[ 1 := run_once_task root payload h; 2 := run_once_task root payload h ]}; in_world := w |}
    {| in_tasks := {[ 1 := Done (Ok (RCreated e1)); 2 := Done (Ok (RCreated e2)) ]}; in_world := w' |} ∧
  entries w' ≡ₚ stored_entry e2 :: stored_entry e1 :: entries w ∧ id e1 ≠ id e2 ∧
  status e1 = Created ∧ status e2 = Created ∧ content_hash_of e1 = h ∧ content_hash_of e2 = h ∧
  (secs (clock (w_clock (after_reads w))) = secs (clock (w_clock w)) → timestamp_dir e1 = timestamp_dir e2).
Proof.
  intros Hff Hwf Huu Hclk Hpl Hch Htidy Hun Hnew Hval.
  destruct (reads_of_new payload h {[ 1 := run_once_task root payload h; 2 := run_once_task root payload h ]} 2 w)
    as (Hreads & Hdb & Hfs & Hle); [done..|].
  assert (wp (run_once root payload h) (λ r w', ∃ e, r = Ok (RCreated e) ∧ st_wf (w_db w') ∧
    tidy root (w_fs w') ∧ created_post root (after_reads w) w' payload h e) (after_reads w)) as Hfirst.
  { eapply wp_mono; [apply run_once_changed; rewrite ?Hdb, ?Hfs; try done|].
    - apply Htidy. by apply format_timestamp_dir_name.
    - intros n Hn. rewrite Hdb. apply Hun. lia.
    - intros r w' (e & -> & _ & ? & _ & Ht & ?). exists e. rewrite Hfs in Ht. by auto. }
  unfold wp in Hfirst. destruct (run_once root payload h (after_reads w)) as [r1 w1] eqn:Hrun1.
  cbn [fst snd] in Hfirst. destruct Hfirst as (e1 & -> & Hwf1 & Htidy1 & Hp1).
  assert (wp (create_backup root (clock (w_clock w)) payload h) (λ r w', ∃ e, r = Ok (RCreated e) ∧
    created_post root (with_db (w_db w1) w) w' payload h e) w1) as Hsecond.
  { eapply wp_mono; [apply (create_backup_written root w1 (with_db (w_db w1) w)); try done|].
    - apply Htidy1. by apply format_timestamp_dir_name.
    - by apply (Hnew e1).
    - intros r w' (e & -> & _ & _ & _ & _ & ?). by exists e. }
  unfold wp in Hsecond. destruct (create_backup root (clock (w_clock w)) payload h w1) as [r2 w2] eqn:Hrun2.
  cbn [fst snd] in Hsecond. destruct Hsecond as (e2 & -> & Hp2).
  exists e1, e2, w2. split_and!.
  - etrans; [exact Hreads|]. etrans.
    { eapply (instance_alone 1); [done|apply lock_free_run_once|by rewrite means_run_once]. }
    etrans; [eapply (instance_alone 2); [|apply lock_free_create_backup|by rewrite means_create_backup]|].
    + done.
    + done.
  - pose proof (cp_entries _ _ _ _ _ _ Hp2) as He2. rewrite He2. cbn [w_db with_db].
    rewrite (cp_entries _ _ _ _ _ _ Hp1). by rewrite Hdb.
  - pose proof (cp_fresh _ _ _ _ _ _ Hp2) as Hf. cbn [w_db with_db] in Hf. intros Heq. apply Hf.
    rewrite (cp_entries _ _ _ _ _ _ Hp1), <- Heq. rewrite fmap_cons. by left.
  - apply Hp1.
  - apply Hp2.
  - apply Hp1.
  - apply Hp2.
  - intros Hs. rewrite (cp_dir _ _ _ _ _ _ Hp1), (cp_dir _ _ _ _ _ _ Hp2).
    by apply format_timestamp_dir_iff.
Qed.
End instances.
