(* ===== verification/Race.v ===== *)
(** * A rollback and a backup share the temporary pointer file

    The scheduler publishes a backup while a request rolls back to another one.
    Only requests wait for each other; both write
    [state/current-pointer.json.tmp].  Every round that creates a backup comes to
    the point where it is [publishing]; [race] goes on from there, call by call and
    without faults: the scheduler renames the file that the request has just
    written, and the request finds nothing to rename. *)

From stdpp Require Import relations.
From S2P Require Import Prelude Calendar World Tasks Crates Core Store Stats Repository.
From S2P Require Import RepositoryInv RepositoryThms RepositoryOps Sync Config Server ServerThms.
From S2P Require Import Daemon Async Interference Service Pool Lives Instances.

(** ** One action of a task *)

Definition acts {S A} (t : Task S A) (w : World S) (t' : Task S A) (w' : World S) : Prop :=
  ∃ next upd, t = Act next upd ∧ next w = t' ∧ upd w = w'.

Section acts.
Context {S : Type}.
Implicit Types w : World S.

Lemma acts_act {A} (m : M S A) w r w' : m w = (r, w') → acts (act m) w (Done r) w'.
Proof. intros Hm. exists (λ w, Done (m w).1), (λ w, (m w).2). by rewrite Hm. Qed.
Lemma acts_bind {A B} (t t' : Task S A) (k : A → Task S B) w w' :
  acts t w t' w' → acts (t ≫= k) w (t' ≫= k) w'.
Proof. intros (next & upd & -> & <- & <-). by exists (λ w, next w ≫= k), upd. Qed.
Lemma acts_attempt {A} (t t' : Task S A) w w' :
  acts t w t' w' → acts (task_attempt t) w (task_attempt t') w'.
Proof. intros (next & upd & -> & <- & <-). by exists (λ w, task_attempt (next w)), upd. Qed.
(** A call at the head of a sequence. *)
Lemma acts_call {A B} (m : M S A) (k : A → Task S B) w a w' :
  m w = (Ok a, w') → acts (act m ≫= k) w (k a) w'.
Proof. intros Hm. by apply (acts_bind (act m) (Done (Ok a)) k), acts_act. Qed.
Lemma acts_fails {A B} (m : M S A) (k : A → Task S B) w e w' :
  m w = (Err e, w') → acts (act m ≫= k) w (Done (Err e)) w'.
Proof. intros Hm. by apply (acts_bind (act m) (Done (Err e)) k), acts_act. Qed.
End acts.

(** ** Up to a call *)

Section executes.
Context {S : Type}.
Implicit Types w : World S.

Lemma executes_trans {A} (t1 t2 t3 : Task S A) w1 w2 w3 :
  executes t1 w1 t2 w2 → executes t2 w2 t3 w3 → executes t1 w1 t3 w3.
Proof. induction 1; [done|]. intros. constructor. by auto. Qed.
Lemma executes_bind {A B} (t t' : Task S A) (k : A → Task S B) w w' :
  executes t w t' w' → executes (t ≫= k) w (t' ≫= k) w'.
Proof. induction 1 as [|next upd w t' w' _ IH]; [constructor|]. by apply (executes_act (λ w, next w ≫= k)). Qed.
Lemma executes_attempt {A} (t t' : Task S A) w w' :
  executes t w t' w' → executes (task_attempt t) w (task_attempt t') w'.
Proof. induction 1 as [|next upd w t' w' _ IH]; [constructor|]. by apply (executes_act (λ w, task_attempt (next w))). Qed.
(** A sequence that succeeds comes to its second part. *)
Lemma executes_first {A B} (t : Task S A) (k : A → Task S B) w b w' :
  lock_free t → run_task (t ≫= k) w = (Ok b, w') →
  ∃ a w1, executes (t ≫= k) w (k a) w1 ∧ run_task (k a) w1 = (Ok b, w').
Proof.
  intros Hl. rewrite run_bind. unfold mbind, M_bind. destruct (run_task t w) as [[a|e|msg] w1] eqn:Ht; [|done..].
  intros Hk. exists a, w1. split; [|done]. apply (executes_bind t (Done (Ok a)) k). by apply executes_run.
Qed.
End executes.

(** ** Calls that do not fail *)

Section calls.
Context {S : Type} `{!Env}.
Implicit Types w : World S.

Lemma context_ok {A} msg (m : M S A) w a w' : m w = (Ok a, w') → context msg m w = (Ok a, w').
Proof. unfold context. by intros ->. Qed.
Lemma write_done p c w :
  fault_free → parent_ok (w_fs w) p → w_fs w !! p ≠ Some Dir →
  fs_write p c w = (Ok (), set_fs (<[p := File c]> (w_fs w)) (tick_io w)).
Proof.
  intros Hff Hp Hd. pose proof (fs_write_spec p c w) as Hs. pose proof (fs_write_total p c w Hff Hp Hd) as Ht.
  unfold wp in *. destruct (fs_write p c w) as [r w']. cbn [fst snd] in *. subst r.
  by destruct Hs as (fs' & -> & -> & _).
Qed.
Lemma rename_done p q b w :
  fault_free → w_fs w !! p = Some (File b) → parent_ok (w_fs w) q → w_fs w !! q ≠ Some Dir →
  fs_rename p q w = (Ok (), set_fs (<[q := File b]> (delete p (w_fs w))) (tick_io w)).
Proof.
  intros Hff Hp Hq Hd. pose proof (fs_rename_spec p q w) as Hs.
  pose proof (fs_rename_total p q b w Hff Hp Hq Hd) as Ht.
  unfold wp in *. destruct (fs_rename p q w) as [r w']. cbn [fst snd] in *. subst r.
  destruct Hs as (fs' & -> & b' & Hb' & -> & _). by simplify_eq.
Qed.
Lemma rename_missing p q w :
  fault_free → w_fs w !! p = None →
  fs_rename p q w = (Err ["No such file or directory (os error 2)"], tick_io w).
Proof.
  intros Hff Hp. unfold fs_rename, io_step, io_fate, mbind, M_bind. cbn. rewrite Hff. cbn. by rewrite Hp.
Qed.
End calls.

(** What a call that succeeded found. *)
Section found.
Context {S : Type} `{!Env}.
Implicit Types w : World S.

Lemma write_found p c w w' : fs_write p c w = (Ok (), w') →
  parent_ok (w_fs w) p ∧ w_fs w !! p ≠ Some Dir ∧ w_fs w' = <[p := File c]> (w_fs w).
Proof.
  unfold fs_write, io_fate, mbind, M_bind. cbn. destruct (parent_ok (w_fs w) p); [|done]. cbn.
  case_bool_decide; [done|]. destruct (fault (w_io w)) as [[[|k] msg]|]; [done..|]. cbn. by intros [= <-].
Qed.
Lemma rename_found p q w w' : fs_rename p q w = (Ok (), w') → w_fs w !! q ≠ Some Dir.
Proof.
  intros Hr. pose proof (fs_rename_spec p q w) as Hs. unfold wp in Hs. rewrite Hr in Hs.
  by destruct Hs as (fs' & _ & b & _ & _ & ?).
Qed.
Lemma context_found {A} msg (m : M S A) w a w' : context msg m w = (Ok a, w') → m w = (Ok a, w').
Proof. unfold context. by destruct (m w) as [[] ?]. Qed.
End found.

Section race.
Context {S : Type} `{!Env, !Chrono, !UuidCrate, !SerdeJson, !HashCrates, !Zstd, !SqlEngine,
  !CollectionFile, !HttpCrates, !TarCrate, !AxumCrate, !MetadataStore S, !StoreModel S}.
Context (root : Path) (start : ServiceStart).
Context `{!ChronoLaws, !UuidLaws, !SqlEngineLaws, !CollectionFileLaws, !StoreLaws S}.
Implicit Types (w : World S) (p : Pool S).

Abbreviation state := (start_state start).

(** The scheduler has recorded backup [a], and publishes it; it reports and prunes
    afterwards. *)
Definition publishing (a : BackupEntry) : Task S () :=
  (r ← task_attempt (write_current_pointer_task root a;; mret (RCreated a));
   match r with
   | inr (RCreated entry) =>
       act (log Info "scheduled backup created" [("backup_id", uuid_to_string (id entry))])
   | inr (RSkipped _) => act (log Info "scheduled backup skipped (unchanged)" [])
   | inl e => act (log Error_ "scheduled backup failed" [("error", error_string e)])
   end);;
  scheduled_pruning_task root (start_retention start).
(** It has published it. *)
Definition published_task (a : BackupEntry) : Task S () :=
  act (log Info "scheduled backup created" [("backup_id", uuid_to_string (id a))]);;
  scheduled_pruning_task root (start_retention start).

(** A request for a rollback to [e] that the handler lets through. *)
Record rollback_request (rq : Request) (e : BackupEntry) : Prop := {
  rr_post : rq_method rq = POST;
  rr_route : ∃ seg id_text, route_of (rq_path rq) = Some (RollbackRoute seg) ∧
    percent_decode seg = Some id_text ∧ uuid_parse_str id_text = Some (id e);
  rr_auth : require_api_auth state (rq_headers rq) = true;
  rr_csrf : csrf_accepted state (rq_headers rq) = true;
}.
Lemma rollback_request_task rq e : rollback_request rq e →
  ∃ id_text, uuid_parse_str id_text = Some (id e) ∧
    handle_task root state rq = Lock (locked_rollback root start id_text).
Proof.
  intros [Hp (seg & id_text & Hroute & Hdec & Hid) Ha Hc]. exists id_text. split; [done|].
  unfold handle_task. cbv zeta. rewrite Hroute, Hp. unfold on_post_task, with_id_task. rewrite Hdec.
  cbn [ok_or_task]. rewrite rollback_locks, Ha, Hc. done.
Qed.

(** ** Steps of the pool *)

Definition of_two (n : nat) (c : Choice) : Prop := c = ChSched ∨ c = ChJob n.

Lemma sched_acts p t w : acts (p_sched p) (p_world p) t w →
  pool_next root start ChSched p = Some {| p_world := w; p_sched := t; p_jobs := p_jobs p |}.
Proof. intros (next & upd & Ht & <- & <-). cbn [pool_next]. by rewrite Ht. Qed.
Lemma job_acts n t b p t' w : p_jobs p !! n = Some {| j_task := t; j_locked := b |} →
  acts t (p_world p) t' w →
  pool_next root start (ChJob n) p = Some {| p_world := w; p_sched := p_sched p;
    p_jobs := <[n := {| j_task := t'; j_locked := b |}]> (p_jobs p) |}.
Proof. intros Hj (next & upd & -> & <- & <-). cbn [pool_next]. by rewrite Hj. Qed.

(** A pool of which the scheduler and request [n] are of interest. *)
Definition duo (w : World S) (t : Task S ()) (jobs : gmap nat (Job S)) (n : nat) (j : Task S (Z + Reply)) : Pool S :=
  {| p_world := w; p_sched := t; p_jobs := <[n := {| j_task := j; j_locked := true |}]> jobs |}.
Lemma duo_sched w t t' w' jobs n j cs p' :
  acts t w t' w' → pool_exec root start cs (duo w' t' jobs n j) = Some p' →
  pool_exec root start (ChSched :: cs) (duo w t jobs n j) = Some p'.
Proof. intros Ha Hcs. cbn [pool_exec]. by rewrite (sched_acts _ t' w'). Qed.
Lemma duo_job w t jobs n j j' w' cs p' :
  acts j w j' w' → pool_exec root start cs (duo w' t jobs n j') = Some p' →
  pool_exec root start (ChJob n :: cs) (duo w t jobs n j) = Some p'.
Proof.
  intros Ha Hcs. cbn [pool_exec]. rewrite (job_acts n j true _ j' w'); [|apply lookup_insert_eq|done].
  cbn [mbind option_bind p_jobs p_sched duo]. by rewrite insert_insert_eq.
Qed.

(** ** The pointer's directory *)

Lemma state_parents fs : fs !! state_dir root = Some Dir →
  parent_ok fs (pointer_tmp root) ∧ parent_ok fs (pointer_path root).
Proof.
  rewrite state_dir_eq, pointer_tmp_eq, pointer_path_eq. intros Hd.
  assert (root ++ ["state"] ≠ []) as Hne by (by intros [_ ?]%app_nil).
  split; [pose proof (parent_ok_snoc fs _ "current-pointer.json.tmp" Hne Hd) as Hp
         |pose proof (parent_ok_snoc fs _ "current-pointer.json" Hne Hd) as Hp];
    by rewrite <- app_assoc in Hp.
Qed.
Lemma state_dir_not_tmp : state_dir root ≠ pointer_tmp root.
Proof. rewrite state_dir_eq, pointer_tmp_eq. by intros [= ?]%app_inv_head. Qed.
Lemma state_ready_tmp fs b : state_ready root fs → state_ready root (<[pointer_tmp root := File b]> fs).
Proof.
  intros (Hd & Ht & Hp). pose proof state_dir_not_tmp as Hn. pose proof (tmp_not_pointer root) as Hn'.
  unfold state_ready. by rewrite lookup_insert_eq, !lookup_insert_ne.
Qed.

(** The two halves of publishing, and of a rollback. *)
Abbreviation write_tmp e t := (context "write current pointer tmp"
  (fs_write (pointer_tmp root) (pointer_bytes (id e) (timestamp_dir e) t))).
Abbreviation rename_tmp := (context "atomic rename current pointer"
  (fs_rename (pointer_tmp root) (pointer_path root))).
Lemma write_tmp_done e t w : fault_free → state_ready root (w_fs w) →
  ∃ w', write_tmp e t w = (Ok (), w') ∧ w_db w' = w_db w ∧
    w_fs w' = <[pointer_tmp root := File (pointer_bytes (id e) (timestamp_dir e) t)]> (w_fs w).
Proof.
  intros Hff (Hd & Ht & _). eexists. split; [apply context_ok, write_done; [done| |done]|done].
  by apply state_parents.
Qed.
Lemma rename_tmp_done b w : fault_free → state_ready root (w_fs w) →
  w_fs w !! pointer_tmp root = Some (File b) →
  ∃ w', rename_tmp w = (Ok (), w') ∧ w_db w' = w_db w ∧
    w_fs w' = <[pointer_path root := File b]> (delete (pointer_tmp root) (w_fs w)).
Proof.
  intros Hff (Hd & _ & Hp) Hb. eexists. split; [apply context_ok, rename_done; [done|done| |done]|done].
  by apply state_parents.
Qed.
Lemma rename_tmp_missing w : fault_free → w_fs w !! pointer_tmp root = None →
  ∃ err, rename_tmp w = (Err err, tick_io w).
Proof. intros Hff Hn. unfold context. rewrite rename_missing by done. by eexists. Qed.

(** ** The run *)

(** The gate check and the look-up of the entry. *)
Lemma checks_pass id_text e w :
  fault_free → st_wf (w_db w) → uuid_parse_str id_text = Some (id e) → e ∈ st_entries (w_db w) →
  gate_open w →
  ∃ w1 w2, gate_closed w = (Ok false, w1) ∧ repo_get_backup (id e) w1 = (Ok (Some e), w2) ∧
    w_db w2 = w_db w ∧ w_fs w2 = w_fs w.
Proof.
  intros Hff Hwf Hid He Ho. pose proof (gate_closed_spec w) as Hg. unfold wp in Hg.
  destruct (gate_closed w) as [r w1]. cbn [fst snd] in Hg. destruct Hg as [Hw1 [[_ ?]|[-> _]]]; [done|].
  assert (w_db w1 = w_db w ∧ w_fs w1 = w_fs w) as [Hdb1 Hfs1] by (by destruct Hw1 as [->| ->]).
  assert (uuid_ok (id e)) as Hok by (by eapply uuid_parse_ok).
  assert (st_wf (w_db w1)) as Hwf1 by (by rewrite Hdb1).
  pose proof (get_backup_law (id e) w1 Hwf1 Hok) as Hl. pose proof (get_backup_total (id e) w1 Hwf1 Hok Hff) as Ht.
  unfold wp in *. destruct (get_backup (id e) w1) as [r w2] eqn:Hrun. cbn [fst snd] in *.
  destruct Ht as [o ->]. destruct Hl as ((Hfs2 & _) & Hdb2 & Hr). exists w1, w2.
  rewrite Hdb2, Hdb1, Hfs2, Hfs1. split_and!; [done| |done|done]. rewrite Hdb1 in Hr.
  destruct o as [e'|]; [|destruct Hr; by apply list_elem_of_fmap_2]. destruct Hr as [He' Hi].
  assert (e' = e) as -> by (by apply (NoDup_fmap_elem id (st_entries (w_db w)) e' e (st_ids_nodup _ Hwf))). exact Hrun.
Qed.

(** The calls in the order of the race. *)
Lemma race_run jobs n id_text a e w w1 w2 w5 w6 w7 w8 err :
  uuid_parse_str id_text = Some (id e) → status e = Created →
  gate_closed w = (Ok false, w1) → repo_get_backup (id e) w1 = (Ok (Some e), w2) →
  write_tmp a (clock (w_clock (tick_clock w2))) (tick_clock (tick_clock w2)) = (Ok (), w5) →
  write_tmp e (clock (w_clock w2)) w5 = (Ok (), w6) →
  rename_tmp w6 = (Ok (), w7) → rename_tmp w7 = (Err err, w8) →
  pool_exec root start [ChJob n; ChJob n; ChJob n; ChSched; ChSched; ChJob n; ChSched; ChJob n]
    (duo w (publishing a) jobs n (locked_rollback root start id_text)) =
  Some (duo w8 (published_task a) jobs n (Done (Ok (inl 400%Z)))).
Proof.
  intros Hid Hst Hgate Hget Hw5 Hw6 Hw7 Hw8.
  eapply (duo_job _ _ _ _ _ _ w1).
  { unfold locked_rollback. rewrite Hid. by apply (acts_call gate_closed). }
  eapply (duo_job _ _ _ _ _ _ w2).
  { apply acts_bind, acts_attempt. by apply (acts_call (repo_get_backup (id e))). }
  cbn [task_option]. change (mret e ≫= ?k) with (k e). cbv beta. rewrite decide_False by (by intros []).
  eapply (duo_job _ _ _ _ _ _ (tick_clock w2)).
  { apply acts_bind, acts_attempt, acts_bind. by apply (acts_call now). }
  eapply (duo_sched _ _ _ (tick_clock (tick_clock w2))).
  { apply acts_bind, acts_bind, acts_attempt, acts_bind. by apply (acts_call now). }
  eapply (duo_sched _ _ _ w5).
  { apply acts_bind, acts_bind, acts_attempt, acts_bind. by apply (acts_call (write_tmp a _)). }
  eapply (duo_job _ _ _ _ _ _ w6).
  { apply acts_bind, acts_attempt, acts_bind. by apply (acts_call (write_tmp e _)). }
  eapply (duo_sched _ _ _ w7).
  { apply acts_bind, acts_bind, acts_attempt, acts_bind. by apply acts_act. }
  eapply (duo_job _ _ _ _ _ _ w8).
  { apply acts_bind, acts_attempt, acts_bind. by apply acts_act. }
  reflexivity.
Qed.
Lemma lock_granted p n id_text cs :
  unlocked p → p_jobs p !! n = Some {| j_task := Lock (locked_rollback root start id_text); j_locked := false |} →
  pool_exec root start (ChJob n :: cs) p =
  pool_exec root start cs (duo (p_world p) (p_sched p) (p_jobs p) n (locked_rollback root start id_text)).
Proof. intros Hun Hj. cbn [pool_exec pool_next]. by rewrite Hj, decide_True. Qed.

Lemma race p n rq a e :
  fault_free → st_wf (w_db (p_world p)) → state_ready root (w_fs (p_world p)) →
  gate_open (p_world p) → unlocked p →
  e ∈ st_entries (w_db (p_world p)) → status e = Created → rollback_request rq e →
  p_sched p = publishing a →
  p_jobs p !! n = Some {| j_task := handle_task root state rq; j_locked := false |} →
  ∃ cs p' j t, Forall (of_two n) cs ∧ pool_exec root start cs p = Some p' ∧
    p_jobs p' !! n = Some j ∧ j_task j = Done (Ok (inl 400%Z)) ∧ p_sched p' = published_task a ∧
    w_db (p_world p') = w_db (p_world p) ∧
    w_fs (p_world p') !! pointer_path root = Some (File (pointer_bytes (id e) (timestamp_dir e) t)).
Proof.
  intros Hff Hwf Hready Hopen Hun He Hst Hrq Hs Hj.
  destruct (rollback_request_task rq e Hrq) as (id_text & Hid & Htask). rewrite Htask in Hj.
  destruct (checks_pass id_text e (p_world p) Hff Hwf Hid He Hopen) as (w1 & w2 & Hgate & Hget & Hdb2 & Hfs2).
  assert (state_ready root (w_fs (tick_clock (tick_clock w2)))) as Hr4 by (by cbn; rewrite Hfs2).
  destruct (write_tmp_done a (clock (w_clock (tick_clock w2))) _ Hff Hr4) as (w5 & Hw5 & Hdb5 & Hfs5).
  assert (state_ready root (w_fs w5)) as Hr5 by (rewrite Hfs5; by apply state_ready_tmp).
  destruct (write_tmp_done e (clock (w_clock w2)) w5 Hff Hr5) as (w6 & Hw6 & Hdb6 & Hfs6).
  assert (state_ready root (w_fs w6)) as Hr6 by (rewrite Hfs6; by apply state_ready_tmp).
  destruct (rename_tmp_done (pointer_bytes (id e) (timestamp_dir e) (clock (w_clock w2))) w6 Hff Hr6)
    as (w7 & Hw7 & Hdb7 & Hfs7); [by rewrite Hfs6, lookup_insert_eq|].
  destruct (rename_tmp_missing w7 Hff) as [err Hw8].
  { rewrite Hfs7, lookup_insert_ne, lookup_delete_eq; [done|]. intros Heq. by apply (tmp_not_pointer root). }
  exists (ChJob n :: [ChJob n; ChJob n; ChJob n; ChSched; ChSched; ChJob n; ChSched; ChJob n]).
  eexists _, _, (clock (w_clock w2)). split_and!.
  - repeat constructor; by (left + right).
  - rewrite (lock_granted p n id_text _ Hun Hj), Hs. by apply (race_run _ _ _ a e (p_world p) w1 w2 w5 w6 w7 (tick_io w7) err).
  - apply lookup_insert_eq.
  - done.
  - done.
  - cbn. by rewrite Hdb7, Hdb6, Hdb5.
  - cbn. by rewrite Hfs7, lookup_insert_eq.
Qed.

(** ** A round comes to the point *)

Lemma pointer_written_ready a w w' :
  write_current_pointer root a w = (Ok (), w') → state_ready root (w_fs w).
Proof.
  unfold write_current_pointer, mbind, M_bind. cbn.
  destruct (context _ _ (tick_clock w)) as [[[]|e|msg] w1] eqn:Hw; [|done..].
  apply context_found, write_found in Hw as (Hp & Ht & Hfs). cbn [w_fs tick_clock] in *.
  intros Hr%context_found%rename_found. rewrite Hfs, lookup_insert_ne in Hr by apply tmp_not_pointer.
  split_and!; [|done|done]. revert Hp. rewrite pointer_tmp_eq, state_dir_eq.
  change (["state"; "current-pointer.json.tmp"]) with (["state"] ++ ["current-pointer.json.tmp"]).
  rewrite app_assoc. unfold parent_ok. rewrite removelast_last.
  destruct (root ++ ["state"]) as [|c q] eqn:Heq; [by apply app_nil in Heq as [_ ?]|]. apply bool_decide_unpack.
Qed.
Lemma create_backup_publishes t payload h a w w' :
  create_backup root t payload h w = (Ok (RCreated a), w') →
  ∃ w1, executes (create_backup_task root t payload h) w
      (write_current_pointer_task root a;; mret (RCreated a)) w1 ∧
    write_current_pointer root a w1 = (Ok (), w').
Proof.
  rewrite <- means_create_backup. unfold create_backup_task. cbv zeta. intros Hrun.
  do 4 (apply executes_first in Hrun as (? & ? & ? & Hrun); [|apply lock_free_act]; cbv beta in Hrun).
  apply executes_first in Hrun as (e & w1 & He & Hrun); [|apply lock_free_create_and_insert].
  rewrite run_bind in Hrun. unfold mbind, M_bind in Hrun. rewrite means_write_current_pointer in Hrun.
  destruct (write_current_pointer root e w1) as [[[]|err|msg] w2] eqn:Hw; [|done..].
  injection Hrun as -> ->. exists w1. split; [|done]. repeat (eapply executes_trans; [eassumption|]). constructor.
Qed.
Lemma run_once_publishes payload h a w w' :
  run_once root payload h w = (Ok (RCreated a), w') →
  ∃ w1, executes (run_once_task root payload h) w
      (write_current_pointer_task root a;; mret (RCreated a)) w1 ∧
    write_current_pointer root a w1 = (Ok (), w').
Proof.
  rewrite <- means_run_once. unfold run_once_task. intros Hrun.
  apply executes_first in Hrun as (t & w1 & He1 & Hrun); [|apply lock_free_act]. cbv beta in Hrun.
  apply executes_first in Hrun as (last & w2 & He2 & Hrun); [|apply lock_free_act].
  assert (executes (run_once_task root payload h) w (create_backup_task root t payload h) w2 ∧
    run_task (create_backup_task root t payload h) w2 = (Ok (RCreated a), w')) as [He3 Hrun3].
  { destruct last as [l|]; [case_decide|].
    - rewrite run_bind in Hrun. unfold mbind, M_bind in Hrun.
      by destruct (run_task _ w2) as [[] ?].
    - split; [|done]. by eapply executes_trans.
    - split; [|done]. by eapply executes_trans. }
  rewrite means_create_backup in Hrun3. apply create_backup_publishes in Hrun3 as (w3 & He4 & Hw3).
  exists w3. split; [|done]. by eapply executes_trans.
Qed.
(** A round that creates a backup, run alone, comes to publishing it. *)
Lemma round_publishes sync a w w1 w2 :
  sync_collection (start_account start) w = (Ok sync, w1) →
  run_once root (payload_of sync) (content_hash (collection_bytes sync)) w1 = (Ok (RCreated a), w2) →
  ∃ w3, executes (scheduler_round_task root (start_account start) (start_retention start)) w (publishing a) w3 ∧
    executes (run_once_task root (payload_of sync) (content_hash (collection_bytes sync))) w1
      (write_current_pointer_task root a;; mret (RCreated a)) w3 ∧
    write_current_pointer root a w3 = (Ok (), w2).
Proof.
  intros Hsync Hrun. apply run_once_publishes in Hrun as (w3 & He & Hw). exists w3. split_and!; [|done|done].
  unfold scheduler_round_task.
  eapply (executes_trans _ (scheduled_backup_task root sync;; scheduled_pruning_task root (start_retention start)) _ _ w1).
  - pose proof (executes_bind (task_attempt (act (sync_collection (start_account start)))) (Done (Ok (inr sync))) (λ r,
      match r with
      | inr sync => scheduled_backup_task root sync;; scheduled_pruning_task root (start_retention start)
      | inl e => act (log Error_ "ankiweb sync failed" [("error", error_string e)])
      end) w w1) as Hb. apply Hb. apply (executes_attempt (act _) (Done (Ok sync))).
    apply executes_run; [by rewrite run_act|apply lock_free_act].
  - apply executes_bind. unfold scheduled_backup_task. cbv zeta. by apply executes_bind, executes_attempt.
Qed.
Lemma sched_executes t w t' w' p :
  executes t w t' w' → p_sched p = t → p_world p = w →
  ∃ k, pool_exec root start (replicate k ChSched) p =
    Some {| p_world := w'; p_sched := t'; p_jobs := p_jobs p |}.
Proof.
  intros He. revert p. induction He as [t w|next upd w t' w' He IH]; intros p Ht Hw.
  - exists 0. destruct p. cbn in *. by subst.
  - destruct (IH {| p_world := upd w; p_sched := next w; p_jobs := p_jobs p |}) as [k Hk]; [done..|].
    exists (Datatypes.S k). cbn [replicate pool_exec pool_next]. rewrite Ht, Hw. exact Hk.
Qed.
Lemma pool_exec_app cs cs' p p' :
  pool_exec root start cs p = Some p' → pool_exec root start (cs ++ cs') p = pool_exec root start cs' p'.
Proof.
  revert p. induction cs as [|c cs IH]; intros p; cbn [pool_exec app]; [by intros [= ->]|].
  destruct (pool_next root start c p); [|done]. apply IH.
Qed.

(** What the round finds when it publishes. *)
Lemma publishing_state sync a w w1 w2 w3 e :
  (∀ n m, n ≤ m → (clock n ≤ clock m)%Z) → uuids_ok → (∀ n, rfc3339_range (clock n)) →
  backups_inv root w → fresh_seconds w → gate_open w → e ∈ st_entries (w_db w) →
  sync_collection (start_account start) w = (Ok sync, w1) →
  executes (run_once_task root (payload_of sync) (content_hash (collection_bytes sync))) w1
    (write_current_pointer_task root a;; mret (RCreated a)) w3 →
  write_current_pointer root a w3 = (Ok (), w2) →
  st_wf (w_db w3) ∧ state_ready root (w_fs w3) ∧ gate_open w3 ∧ e ∈ st_entries (w_db w3) ∧
  w_db w3 = w_db w2.
Proof.
  intros Hmono Huu Hrange Hinv Hfs Ho He Hsync Hex Hw.
  pose proof (calm_sync root (start_account start) w Hinv) as Hs. unfold wp in Hs. rewrite Hsync in Hs.
  cbn [fst snd] in Hs. destruct Hs as [(Hinv1 & Hk1 & Hg1) Hd].
  assert (sound root (λ _, False) (run_once_task root (payload_of sync) (content_hash (collection_bytes sync))) w1) as Hsound.
  { apply (sound_run_once root _ (payload_of sync)); [done|done|by intros d [= <-]|]. by eapply fresh_seconds_keeps. }
  assert (∀ b : bool, PreOrder (sched_guar (S := S) (λ _, False) b)) as Hpre.
  { intros b. split; [by intros x; split_and!|]. intros x y z (?&?&Hxy) (?&?&Hyz).
    split_and!; [congruence|lia|]. by etrans. }
  destruct (executes_wpi (backups_inv root) (sched_rely root) (sched_guar (λ _, False)) _ _ _ _ _ _ Hex Hinv1 Hsound)
    as (Hinv3 & (Hg3 & Hc3 & Hk3) & _).
  pose proof (write_current_pointer_spec root a w3) as Hwp. unfold wp in Hwp. rewrite Hw in Hwp.
  split_and!; [apply Hinv3|by eapply pointer_written_ready| | |symmetry; apply Hwp].
  - intros last Hlast. rewrite Hg3, Hg1 in Hlast. specialize (Ho last Hlast).
    pose proof (Hmono (w_clock w) (w_clock w3)) as Hm. pose proof (kb_clock _ _ _ Hk1). lia.
  - destruct (Hk3 e) as [|[]]; [|done]. by rewrite (kb_entries _ _ _ Hk1).
Qed.

(** The whole run. *)
Lemma round_race p n rq a e sync w1 w2 :
  fault_free → (∀ n m, n ≤ m → (clock n ≤ clock m)%Z) → uuids_ok → (∀ n, rfc3339_range (clock n)) →
  backups_inv root (p_world p) → fresh_seconds (p_world p) → gate_open (p_world p) → unlocked p →
  e ∈ st_entries (w_db (p_world p)) → status e = Created → rollback_request rq e →
  p_sched p = scheduler_round_task root (start_account start) (start_retention start) →
  p_jobs p !! n = Some {| j_task := handle_task root state rq; j_locked := false |} →
  sync_collection (start_account start) (p_world p) = (Ok sync, w1) →
  run_once root (payload_of sync) (content_hash (collection_bytes sync)) w1 = (Ok (RCreated a), w2) →
  ∃ cs p' j t, Forall (of_two n) cs ∧ pool_exec root start cs p = Some p' ∧
    p_jobs p' !! n = Some j ∧ j_task j = Done (Ok (inl 400%Z)) ∧ p_sched p' = published_task a ∧
    w_db (p_world p') = w_db w2 ∧
    w_fs (p_world p') !! pointer_path root = Some (File (pointer_bytes (id e) (timestamp_dir e) t)).
Proof.
  intros Hff Hmono Huu Hrange Hinv Hfs Ho Hun He Hst Hrq Hs Hj Hsync Hrun.
  destruct (round_publishes sync a _ w1 w2 Hsync Hrun) as (w3 & Hex & Hex1 & Hw).
  destruct (publishing_state sync a _ w1 w2 w3 e Hmono Huu Hrange Hinv Hfs Ho He Hsync Hex1 Hw)
    as (Hwf3 & Hr3 & Ho3 & He3 & Hdb3).
  destruct (sched_executes _ _ _ _ p Hex Hs eq_refl) as [k Hk].
  destruct (race {| p_world := w3; p_sched := publishing a; p_jobs := p_jobs p |} n rq a e)
    as (cs & p' & j & t & Hcs & Hexec & ? & ? & ? & Hdb & ?); try done.
  exists (replicate k ChSched ++ cs), p', j, t. rewrite (pool_exec_app _ _ _ _ Hk). split_and!; try done.
  - apply Forall_app. split; [|done]. apply Forall_replicate. by left.
  - rewrite Hdb. exact Hdb3.
Qed.

(** What the round alone records. *)
Lemma created_alone sync a w w1 w2 :
  uuids_ok → (∀ n, rfc3339_range (clock n)) → repo_inv content_hash root w → fresh_seconds w →
  sync_collection (start_account start) w = (Ok sync, w1) →
  run_once root (payload_of sync) (content_hash (collection_bytes sync)) w1 = (Ok (RCreated a), w2) →
  st_entries (w_db w2) ≡ₚ stored_entry a :: st_entries (w_db w) ∧ st_events (w_db w2) = st_events (w_db w).
Proof.
  intros Huu Hrange Hinv Hfs Hsync Hrun.
  pose proof (sync_outcomes (start_account start) w) as Hs. unfold wp in Hs. rewrite Hsync in Hs. cbn [fst snd] in Hs.
  destruct Hs as ((Hf & Hdb & _ & Hc & _) & _ & _ & Hd & _).
  pose proof (run_once_spec content_hash root w1 (payload_of sync) (content_hash (collection_bytes sync))) as Hspec.
  unfold wp in Hspec. rewrite Hrun in Hspec. cbn [fst snd] in Hspec.
  destruct Hspec as (_ & _ & Hev & _ & Hpost); try done.
  - by apply (repo_inv_same content_hash root w).
  - by intros d [= <-].
  - rewrite Hdb. apply Hfs. lia.
  - rewrite (cp_entries _ _ _ _ _ _ Hpost), Hev. by rewrite Hdb.
Qed.
End race.
