(* ===== verification/PointerFile.v ===== *)
(** * The pointer file under concurrent writers

    [write_current_pointer] of [crates/storage/src/repository.rs] at the level of
    system calls: [fs::write] opens (and truncates) the temporary file, writes to
    it piece by piece and closes it, [fs::rename] moves it over the pointer.  Names
    and contents are separate, as on a disk: a rename moves the name, and a writer
    that has the file open keeps writing to it.

    Every outcome of [write_current_pointer] as one operation on the disk
    ([Repository.v]) is one of a writer that is alone.  A writer that is alone
    publishes complete documents only.  Two writers at a
    time share the temporary file, and can publish an empty or a mixed one.  The
    rollback mutex keeps requests apart, not a request and the scheduler. *)

From stdpp Require Import relations.
From S2P Require Import Prelude Calendar World Crates Core Repository RepositoryInv.

(** ** The directory [state] *)

Record Directory := {
  d_tmp : option nat;       (** the file named [current-pointer.json.tmp] *)
  d_dst : option nat;       (** the file named [current-pointer.json] *)
  d_data : gmap nat bytes;  (** contents of files *)
  d_next : nat;             (** the next new file *)
}.
Definition pointer_content (d : Directory) : option bytes := d_dst d ≫= λ i, d_data d !! i.
Definition set_data (i : nat) (b : bytes) (d : Directory) : Directory :=
  {| d_tmp := d_tmp d; d_dst := d_dst d; d_data := <[i := b]> (d_data d); d_next := d_next d |}.

(** [write(2)] at an offset: what is there is overwritten, a gap is filled with
    zeros. *)
Definition splice (off : nat) (chunk old : bytes) : bytes :=
  take off old ++ replicate (off - length old) Byte.x00 ++ chunk ++ drop (off + length chunk) old.

(** ** One call of [write_current_pointer] *)

Inductive Writer :=
  | WStart (c : bytes)
  | WOpen (c : bytes) (i off : nat)
  | WClosed (c : bytes)
  | WEnd (ok : bool).

Inductive writer_step : Directory → Writer → Directory → Writer → Prop :=
  (** [File::create] *)
  | w_create c d : d_tmp d = None →
      writer_step d (WStart c)
        {| d_tmp := Some (d_next d); d_dst := d_dst d; d_data := <[d_next d := []]> (d_data d);
           d_next := S (d_next d) |} (WOpen c (d_next d) 0)
  | w_truncate c i d : d_tmp d = Some i →
      writer_step d (WStart c) (set_data i [] d) (WOpen c i 0)
  (** [write_all], a piece at a time *)
  | w_write c i off k old d : d_data d !! i = Some old → 0 < k → off + k ≤ length c →
      writer_step d (WOpen c i off) (set_data i (splice off (take k (drop off c)) old) d)
        (WOpen c i (off + k))
  | w_close c i d : writer_step d (WOpen c i (length c)) d (WClosed c)
  (** [fs::rename] *)
  | w_rename c i d : d_tmp d = Some i →
      writer_step d (WClosed c)
        {| d_tmp := None; d_dst := Some i; d_data := d_data d; d_next := d_next d |} (WEnd true)
  | w_rename_missing c d : d_tmp d = None → writer_step d (WClosed c) d (WEnd false)
  (** an error of any of them *)
  | w_error t d : (∀ ok, t ≠ WEnd ok) → writer_step d t d (WEnd false).

(** ** Several calls *)

Record Calls := { c_dir : Directory; c_writers : gmap nat Writer }.
Definition active (t : Writer) : bool := match t with WEnd _ => false | _ => true end.
(** No call is under way. *)
Definition idle (ws : gmap nat Writer) : Prop := ∀ n t, ws !! n = Some t → active t = false.

(** A call is made with one of the documents [docs], or one goes on; [excl] says
    whether calls wait for each other. *)
Inductive calls_step (excl : bool) (docs : bytes → Prop) : Calls → Calls → Prop :=
  | calls_start n c s : docs c → c_writers s !! n = None → (excl = true → idle (c_writers s)) →
      calls_step excl docs s {| c_dir := c_dir s; c_writers := <[n := WStart c]> (c_writers s) |}
  | calls_go n t d' t' s : c_writers s !! n = Some t → writer_step (c_dir s) t d' t' →
      calls_step excl docs s {| c_dir := d'; c_writers := <[n := t']> (c_writers s) |}.

(** ** One writer at a time *)

Lemma splice_append off chunk old : length old = off → splice off chunk old = old ++ chunk.
Proof.
  intros <-. unfold splice. rewrite take_ge, Nat.sub_diag, drop_ge by lia. simpl.
  by rewrite app_nil_r.
Qed.
Lemma take_chunk (c : bytes) off k : take off c ++ take k (drop off c) = take (off + k) c.
Proof. by rewrite take_take_drop. Qed.

Section exclusive.
(** What counts as a complete document. *)
Context (complete : bytes → Prop).

(** The writer's own file, and how far it has got. *)
Definition writer_ok (d : Directory) (t : Writer) : Prop :=
  match t with
  | WStart c => complete c
  | WOpen c i off => complete c ∧ d_tmp d = Some i ∧ d_data d !! i = Some (take off c)
  | WClosed c => complete c ∧ ∃ i, d_tmp d = Some i ∧ d_data d !! i = Some c
  | WEnd _ => True
  end.
Record dir_ok (d : Directory) : Prop := {
  do_dst i : d_dst d = Some i → ∃ c, d_data d !! i = Some c ∧ complete c;
  do_tmp i : d_tmp d = Some i → d_dst d ≠ Some i;
  do_new i : d_next d ≤ i → d_data d !! i = None ∧ d_tmp d ≠ Some i ∧ d_dst d ≠ Some i;
}.
Record calls_ok (s : Calls) : Prop := {
  co_dir : dir_ok (c_dir s);
  co_writers n t : c_writers s !! n = Some t → writer_ok (c_dir s) t;
  co_alone n m t u : c_writers s !! n = Some t → c_writers s !! m = Some u →
    active t = true → active u = true → n = m;
}.

(** A change of the temporary file only. *)
Lemma dir_ok_tmp i b d : dir_ok d → d_tmp d = Some i → dir_ok (set_data i b d).
Proof.
  intros [Hd Ht Hn] Hi. split; cbn [d_dst d_tmp d_data d_next set_data].
  - intros j Hj. destruct (Hd j Hj) as (c & Hc & ?). exists c. split; [|done].
    rewrite lookup_insert_ne; [done|]. intros ->. by apply (Ht j).
  - done.
  - intros j Hj. destruct (Hn j Hj) as (Hx & Hy & Hz). split_and!; try done.
    rewrite lookup_insert_ne; [done|]. intros ->. by apply Hy.
Qed.

Lemma writer_step_ok d t d' t' :
  writer_step d t d' t' → dir_ok d → writer_ok d t → dir_ok d' ∧ writer_ok d' t'.
Proof.
  intros Hstep Hd Hw. destruct Hstep as [c d Ht|c i d Ht|c i off k old d Hold Hk Hle|c i d|c i d Ht|c d Ht|t d Hne].
  - split; [|split_and!; [exact Hw|reflexivity|rewrite take_0; apply lookup_insert_eq]].
    destruct Hd as [Hd Htm Hn].
    destruct (Hn (d_next d) (le_n _)) as (Hfree & _ & Hnd).
    split; cbn [d_dst d_tmp d_data d_next].
    + intros j Hj. destruct (Hd j Hj) as (b & Hb & ?). exists b. split; [|done].
      rewrite lookup_insert_ne; [done|]. intros Heq. apply Hnd. by rewrite Heq.
    + by intros j [= <-].
    + intros j Hj. destruct (Hn j ltac:(lia)) as (Hx & Hy & Hz).
      split_and!; [rewrite lookup_insert_ne by lia; done| |done]. intros [= ?]. lia.
  - split; [by apply dir_ok_tmp|]. split_and!; [done..|]. rewrite take_0. apply lookup_insert_eq.
  - destruct Hw as (Hc & Ht & Hdata). split; [by apply dir_ok_tmp|]. split_and!; [done..|].
    cbn [d_data set_data]. rewrite lookup_insert_eq. f_equal.
    assert (old = take off c) as -> by congruence.
    rewrite splice_append by (rewrite length_take; lia). apply take_chunk.
  - destruct Hw as (Hc & Ht & Hdata). split; [done|]. split; [done|]. exists i.
    by rewrite take_ge in Hdata by lia.
  - destruct Hw as (Hc & j & Hj & Hdata). split; [|done]. destruct Hd as [Hd Htm Hn].
    assert (j = i) as -> by congruence. split; cbn [d_dst d_tmp d_data d_next].
    + intros j [= <-]. by exists c.
    + done.
    + intros j Hlt. destruct (Hn j Hlt) as (Hx & Hy & Hz). split_and!; try done. congruence.
  - done.
  - done.
Qed.

Lemma writer_step_active d t d' t' : writer_step d t d' t' → active t = true.
Proof. destruct 1 as [| | | | | |t d Hne]; try done. destruct t; try done. by destruct (Hne ok). Qed.

Lemma calls_step_ok s s' : calls_step true complete s s' → calls_ok s → calls_ok s'.
Proof.
  intros Hstep [Hd Hw Ha].
  destruct Hstep as [n c s Hc Hn Hidle|n t d' t' s Hn Hstep]; cbn [c_dir c_writers] in *.
  - specialize (Hidle eq_refl). split; cbn [c_dir c_writers]; [done|..].
    + intros m u [[<- <-]|[_ Hu]]%lookup_insert_Some; [done|by apply (Hw m)].
    + intros m m' u u' [[<- <-]|[_ Hu]]%lookup_insert_Some [[<- <-]|[_ Hu']]%lookup_insert_Some Hx Hy;
        [done|by rewrite (Hidle m' u' Hu') in Hy|by rewrite (Hidle m u Hu) in Hx|].
      by apply (Ha m m' u u').
  - pose proof (writer_step_active _ _ _ _ Hstep) as Hact.
    destruct (writer_step_ok _ _ _ _ Hstep Hd (Hw n t Hn)) as [Hd' Hw'].
    assert (∀ m u, c_writers s !! m = Some u → m ≠ n → active u = false) as Hothers.
    { intros m u Hu Hne. destruct (active u) eqn:Hau; [|done]. destruct Hne. by apply (Ha m n u t). }
    split; cbn [c_dir c_writers]; [done|..].
    + intros m u [[<- <-]|[Hne Hu]]%lookup_insert_Some; [done|].
      specialize (Hothers m u Hu). by destruct u; try discriminate Hothers; auto.
    + intros m m' u u' [[<- <-]|[Hne Hu]]%lookup_insert_Some [[<- <-]|[Hne' Hu']]%lookup_insert_Some Hx Hy;
        [done|by rewrite (Hothers m' u') in Hy|by rewrite (Hothers m u) in Hx|].
      by apply (Ha m m' u u').
Qed.

Lemma calls_run_ok s s' : rtc (calls_step true complete) s s' → calls_ok s → calls_ok s'.
Proof. induction 1; eauto using calls_step_ok. Qed.

(** A directory no call has touched, with a complete document or none. *)
Lemma fresh_calls_ok d : dir_ok d → calls_ok {| c_dir := d; c_writers := ∅ |}.
Proof. intros Hd. by split. Qed.
Lemma calls_ok_content s c : calls_ok s → pointer_content (c_dir s) = Some c → complete c.
Proof.
  intros [[Hd _ _] _ _]. unfold pointer_content. destruct (d_dst (c_dir s)) as [i|]; [|done].
  simpl. destruct (Hd i eq_refl) as (c' & -> & ?). by intros [= <-].
Qed.
End exclusive.

(** A whole document written at once. *)
Lemma writer_fills c i old dir dir' : c ≠ [] → d_data dir !! i = Some old →
  dir' = set_data i (c ++ drop (length c) old) dir →
  writer_step dir (WOpen c i 0) dir' (WOpen c i (length c)).
Proof.
  intros Hc Hold ->.
  replace (c ++ drop (length c) old) with (splice 0 (take (length c) (drop 0 c)) old).
  { apply (w_write c i 0 (length c) old); [done| |done]. destruct c; simpl; [done|lia]. }
  unfold splice. by rewrite drop_0, firstn_all.
Qed.

(** One call that nothing disturbs publishes its document. *)
Lemma alone_publishes excl (docs : bytes → Prop) d c :
  docs c → c ≠ [] → d_tmp d = None →
  ∃ s, rtc (calls_step excl docs) {| c_dir := d; c_writers := ∅ |} s ∧
    pointer_content (c_dir s) = Some c ∧ c_writers s !! 1 = Some (WEnd true).
Proof.
  intros Hc Hne Ht. eexists. split_and!.
  - eapply rtc_l; [by apply (calls_start _ _ 1 c)|].
    eapply rtc_l; [by apply (calls_go _ _ 1 (WStart c)), w_create|].
    eapply rtc_l; [eapply (calls_go _ _ 1); [done|]|].
    { eapply (writer_fills c (d_next d) []); [done|apply lookup_insert_eq|reflexivity]. }
    eapply rtc_l; [eapply (calls_go _ _ 1); [done|apply w_close]|].
    apply rtc_once. eapply (calls_go _ _ 1); [done|by apply (w_rename _ (d_next d))].
  - unfold pointer_content. simpl. by rewrite lookup_insert_eq, drop_nil, app_nil_r.
  - done.
Qed.

(** ** Two writers at a time *)

Section race.
Context (docs : bytes → Prop).
Abbreviation step := (calls_step false docs).

(** The second writer opens the file before the first one writes, and writes after
    it: what is published is its document with the end of the longer one. *)
Definition mixed (c1 c2 : bytes) : bytes := c2 ++ drop (length c2) c1.

Context (d : Directory) (c1 c2 : bytes).
Context (Hc1 : docs c1) (Hc2 : docs c2) (Hne1 : c1 ≠ []) (Hne2 : c2 ≠ []) (Htmp : d_tmp d = None).

Definition idle_calls : Calls := {| c_dir := d; c_writers := ∅ |}.
Definition opened (data : bytes) : Directory :=
  {| d_tmp := Some (d_next d); d_dst := d_dst d; d_data := <[d_next d := data]> (d_data d);
     d_next := S (d_next d) |}.
Definition published (data : bytes) : Directory :=
  {| d_tmp := None; d_dst := Some (d_next d); d_data := <[d_next d := data]> (d_data d);
     d_next := S (d_next d) |}.
Definition two (t1 t2 : Writer) : gmap nat Writer := <[2 := t2]> {[1 := t1]}.

Lemma set_opened b b' : set_data (d_next d) b' (opened b) = opened b'.
Proof. unfold set_data, opened. cbn. by rewrite insert_insert_eq. Qed.
Lemma set_published b b' : set_data (d_next d) b' (published b) = published b'.
Proof. unfold set_data, published. cbn. by rewrite insert_insert_eq. Qed.
Lemma two_first t1 t2 t1' : <[1 := t1']> (two t1 t2) = two t1' t2.
Proof. unfold two. rewrite insert_insert_ne by done. by rewrite insert_singleton_eq. Qed.
Lemma two_second t1 t2 t2' : <[2 := t2']> (two t1 t2) = two t1 t2'.
Proof. unfold two. by rewrite insert_insert_eq. Qed.

(** One step of either writer. *)
Lemma first_goes dir dir' t1 t1' t2 : writer_step dir t1 dir' t1' →
  step {| c_dir := dir; c_writers := two t1 t2 |} {| c_dir := dir'; c_writers := two t1' t2 |}.
Proof.
  intros Hs. rewrite <- (two_first t1 t2 t1'). by eapply (calls_go _ _ 1 t1).
Qed.
Lemma second_goes dir dir' t1 t2 t2' : writer_step dir t2 dir' t2' →
  step {| c_dir := dir; c_writers := two t1 t2 |} {| c_dir := dir'; c_writers := two t1 t2' |}.
Proof.
  intros Hs. rewrite <- (two_second t1 t2 t2'). by eapply (calls_go _ _ 2 t2).
Qed.
Lemma both_opened : rtc step idle_calls
  {| c_dir := opened []; c_writers := two (WOpen c1 (d_next d) 0) (WOpen c2 (d_next d) 0) |}.
Proof.
  eapply rtc_l; [by apply (calls_start _ _ 1 c1)|].
  eapply rtc_l; [by apply (calls_start _ _ 2 c2)|]. cbn [c_dir c_writers].
  change (<[2:=_]> (<[1:=?t]> ∅)) with (two t (WStart c2)).
  eapply rtc_l; [by apply first_goes, w_create|].
  eapply rtc_l; [by apply second_goes, (w_truncate _ (d_next d))|].
  change (set_data (d_next d) [] _) with (set_data (d_next d) [] (opened [])).
  by rewrite set_opened.
Qed.

(** The first writer publishes its document while the second one has it open. *)
Lemma first_published : rtc step
  {| c_dir := opened []; c_writers := two (WOpen c1 (d_next d) 0) (WOpen c2 (d_next d) 0) |}
  {| c_dir := published c1; c_writers := two (WEnd true) (WOpen c2 (d_next d) 0) |}.
Proof.
  eapply rtc_l; [apply first_goes, (writer_fills c1 (d_next d) [] _ (opened c1)); [done|apply lookup_insert_eq|]|].
  { by rewrite drop_nil, app_nil_r, set_opened. }
  eapply rtc_l; [apply first_goes, w_close|].
  eapply rtc_l; [by apply first_goes, (w_rename _ (d_next d))|]. done.
Qed.
(** It then writes into what the pointer names, and has nothing to rename. *)
Lemma second_overwrites : rtc step
  {| c_dir := published c1; c_writers := two (WEnd true) (WOpen c2 (d_next d) 0) |}
  {| c_dir := published (mixed c1 c2); c_writers := two (WEnd true) (WEnd false) |}.
Proof.
  eapply rtc_l; [apply second_goes,
    (writer_fills c2 (d_next d) c1 _ (published (mixed c1 c2))); [done|apply lookup_insert_eq|]|].
  { by rewrite set_published. }
  eapply rtc_l; [apply second_goes, w_close|].
  eapply rtc_l; [by apply second_goes, w_rename_missing|]. done.
Qed.

(** The second call empties the file between the first one's [close] and
    [rename]. *)
Lemma empty_published : rtc step idle_calls
  {| c_dir := published []; c_writers := two (WEnd true) (WOpen c2 (d_next d) 0) |}.
Proof.
  eapply rtc_l; [by apply (calls_start _ _ 1 c1)|].
  eapply rtc_l; [by apply (calls_start _ _ 2 c2)|]. cbn [c_dir c_writers].
  change (<[2:=_]> (<[1:=?t]> ∅)) with (two t (WStart c2)).
  eapply rtc_l; [by apply first_goes, w_create|].
  eapply rtc_l; [apply first_goes, (writer_fills c1 (d_next d) [] _ (opened c1)); [done|apply lookup_insert_eq|]|].
  { change (set_data (d_next d) ?b _) with (set_data (d_next d) b (opened [])).
    by rewrite drop_nil, app_nil_r, set_opened. }
  eapply rtc_l; [apply first_goes, w_close|].
  eapply rtc_l; [by apply second_goes, (w_truncate _ (d_next d))|]. rewrite set_opened.
  eapply rtc_l; [by apply first_goes, (w_rename _ (d_next d))|]. done.
Qed.
End race.

(** ** [write_current_pointer] as one operation *)

Section one_operation.
Context {S : Type} `{!Env, !Chrono, !UuidCrate, !SerdeJson}.
Context (root : Path).
Implicit Types (w : World S) (d : Directory).

(** The file that a name stands for. *)
Definition file_of (name : option nat) d : option Node := i ← name; File <$> d_data d !! i.
(** The directory holds what the disk has under the two names. *)
Record shows d (fs : FS) : Prop := {
  sh_tmp : fs !! pointer_tmp root = file_of (d_tmp d) d;
  sh_dst : fs !! pointer_path root = file_of (d_dst d) d;
  sh_named i : d_tmp d = Some i ∨ d_dst d = Some i → is_Some (d_data d !! i) ∧ i < d_next d;
  sh_apart i : d_tmp d = Some i → d_dst d ≠ Some i;
}.

(** The temporary file has new contents. *)
Lemma shows_data d fs i b :
  shows d fs → d_tmp d = Some i → shows (set_data i b d) (<[pointer_tmp root := File b]> fs).
Proof.
  intros [Ht Hd Hn Ha] Hi. split; cbn [d_tmp d_dst d_data d_next set_data].
  - rewrite lookup_insert_eq. unfold file_of. rewrite Hi. cbn. by rewrite lookup_insert_eq.
  - rewrite lookup_insert_ne by apply tmp_not_pointer. rewrite Hd. unfold file_of.
    destruct (d_dst d) as [j|] eqn:Hj; [|done]. cbn. rewrite lookup_insert_ne; [done|].
    intros ->. by apply (Ha j).
  - intros j Hj. destruct (Hn j Hj) as [Hs ?]. split; [|done].
    destruct (decide (i = j)) as [->|]; [by rewrite lookup_insert_eq|by rewrite lookup_insert_ne].
  - done.
Qed.
(** Opening it. *)
Lemma shows_open d fs c : shows d fs →
  ∃ i d1, writer_step d (WStart c) d1 (WOpen c i 0) ∧ d_tmp d1 = Some i ∧ d_data d1 !! i = Some [] ∧
    shows d1 (<[pointer_tmp root := File []]> fs).
Proof.
  intros Hs. destruct (d_tmp d) as [i|] eqn:Hi.
  { exists i, (set_data i [] d). split_and!; [by constructor|done|apply lookup_insert_eq|by apply shows_data]. }
  eexists (d_next d), _. split_and!; [by constructor|done|apply lookup_insert_eq|].
  destruct Hs as [Ht Hd Hn Ha].
  assert (∀ j, d_dst d = Some j → j ≠ d_next d) as Hold by (intros j Hj ->; destruct (Hn (d_next d)); auto; lia).
  split; cbn [d_tmp d_dst d_data d_next].
  - rewrite lookup_insert_eq. unfold file_of. cbn. by rewrite lookup_insert_eq.
  - rewrite lookup_insert_ne by apply tmp_not_pointer. rewrite Hd. unfold file_of.
    destruct (d_dst d) as [j|] eqn:Hj; [|done]. cbn. rewrite lookup_insert_ne; [done|]. intros Heq. by apply (Hold j).
  - intros j [[= <-]|Hj]; [rewrite lookup_insert_eq; split; [done|lia]|].
    rewrite lookup_insert_ne by (intros Heq; by apply (Hold j)). destruct (Hn j); auto.
  - intros j [= <-] Hj. by apply (Hold (d_next d)).
Qed.
(** Renaming it. *)
Lemma shows_rename d fs i b :
  shows d fs → d_tmp d = Some i → d_data d !! i = Some b →
  shows {| d_tmp := None; d_dst := Some i; d_data := d_data d; d_next := d_next d |}
    (<[pointer_path root := File b]> (delete (pointer_tmp root) fs)).
Proof.
  intros [Ht Hd Hn Ha] Hi Hb. split; cbn [d_tmp d_dst d_data d_next].
  - rewrite lookup_insert_ne, lookup_delete_eq; [done|]. intros Heq. by apply (tmp_not_pointer root).
  - rewrite lookup_insert_eq. unfold file_of. cbn. by rewrite Hb.
  - intros j [[=]|[= <-]]. by apply Hn; left.
  - done.
Qed.

Abbreviation alone d t := {| c_dir := d; c_writers := {[1 := t]} |}.
Lemma alone_goes excl docs d t d' t' : writer_step d t d' t' → calls_step excl docs (alone d t) (alone d' t').
Proof.
  intros Hs. pose proof (calls_go excl docs 1 t d' t' (alone d t) (lookup_singleton_eq 1 t) Hs) as Hc.
  cbn [c_writers] in Hc. by rewrite insert_singleton_eq in Hc.
Qed.
(** The first [k] bytes of the document. *)
Lemma alone_writes excl docs d c i k : d_data d !! i = Some [] →
  rtc (calls_step excl docs) (alone d (WOpen c i 0))
    (alone (if decide (take k c = []) then d else set_data i (take k c) d) (WOpen c i (length (take k c)))).
Proof.
  intros Hd. case_decide as Hk; [by rewrite Hk|]. apply rtc_once, alone_goes.
  replace (take k c) with (splice 0 (take (length (take k c)) (drop 0 c)) []) at 1.
  - apply (w_write c i 0 (length (take k c)) []); [done| |rewrite length_take; lia].
    destruct (take k c); [done|simpl; lia].
  - unfold splice. cbn. rewrite drop_0, drop_nil, app_nil_r. rewrite length_take.
    destruct (decide (k ≤ length c)); [by rewrite Nat.min_l by lia|].
    by rewrite Nat.min_r, firstn_all, take_ge by lia.
Qed.
Lemma shows_writes d fs i k c :
  shows d (<[pointer_tmp root := File []]> fs) → d_tmp d = Some i → d_data d !! i = Some [] →
  shows (if decide (take k c = []) then d else set_data i (take k c) d)
    (<[pointer_tmp root := File (take k c)]> fs).
Proof.
  intros Hs Hi Hd. case_decide as Hk; [by rewrite Hk|].
  rewrite <- (insert_insert_eq fs (pointer_tmp root) (File (take k c)) (File [])). by apply shows_data.
Qed.

(** A call that opens the file and writes some of the document. *)
Lemma alone_fills excl docs d fs c k : shows d fs → docs c →
  ∃ i d', rtc (calls_step excl docs) {| c_dir := d; c_writers := ∅ |} (alone d' (WOpen c i (length (take k c)))) ∧
    d_tmp d' = Some i ∧ d_data d' !! i = Some (take k c) ∧ shows d' (<[pointer_tmp root := File (take k c)]> fs).
Proof.
  intros Hs Hc. destruct (shows_open d fs c Hs) as (i & d1 & Hopen & Hi & Hd1 & Hs1).
  eexists i, _. split_and!; [| | |by eapply (shows_writes d1 fs i k c)].
  - eapply rtc_l; [by apply (calls_start _ _ 1 c)|]. cbn [c_dir c_writers].
    eapply rtc_l; [by apply alone_goes|]. by apply alone_writes.
  - by case_decide.
  - case_decide as Hk; [by rewrite Hk|]. apply lookup_insert_eq.
Qed.

(** Each outcome of the operation is the end of a call that is alone. *)
Lemma write_is_call excl (docs : bytes → Prop) d e w :
  let c := pointer_bytes (id e) (timestamp_dir e) (clock (w_clock w)) in
  docs c → shows d (w_fs w) →
  wp (write_current_pointer root e) (λ r w', ∃ d' ok,
    rtc (calls_step excl docs) {| c_dir := d; c_writers := ∅ |} {| c_dir := d'; c_writers := {[1 := WEnd ok]} |} ∧
    shows d' (w_fs w') ∧ (r = Ok () ↔ ok = true)) w.
Proof.
  intros c Hc Hs. unfold write_current_pointer. wp_steps. eapply wp_mono; [apply fs_write_spec|].
  intros r1 w1 (fs1 & -> & Hr1). cbn [w_fs tick_clock] in Hr1.
  destruct r1 as [[]|err|]; [..|done]; cbn [bind_post].
  - destruct Hr1 as [-> _]. destruct (alone_fills excl docs d (w_fs w) c (length c) Hs Hc) as (i & d1 & Hrun & Hi & Hd1 & Hs1).
    rewrite firstn_all in *. apply wp_context. eapply wp_mono; [apply fs_rename_spec|].
    intros r2 w2 (fs2 & -> & Hr2). cbn [w_fs set_fs] in Hr2. destruct r2 as [[]|err|]; [| |done].
    + destruct Hr2 as (b & Hb & -> & _). rewrite lookup_insert_eq in Hb. injection Hb as <-.
      eexists _, true. split_and!; [|by eapply shows_rename|done]. eapply rtc_r; [|by apply alone_goes, (w_rename c i)].
      eapply rtc_r; [exact Hrun|]. apply alone_goes, w_close.
    + subst fs2. exists d1, false. split_and!; [|exact Hs1|done]. eapply rtc_r; [exact Hrun|]. by apply alone_goes, w_error.
  - destruct Hr1 as [-> |(k & -> & _)].
    + exists d, false. split_and!; [|exact Hs|done]. eapply rtc_l; [by apply (calls_start _ _ 1 c)|].
      by apply rtc_once, alone_goes, w_error.
    + destruct (alone_fills excl docs d (w_fs w) c k Hs Hc) as (i & d1 & Hrun & _ & _ & Hs1).
      exists d1, false. split_and!; [|exact Hs1|done]. eapply rtc_r; [exact Hrun|]. by apply alone_goes, w_error.
Qed.
End one_operation.
