(* ===== verification/Reference.v ===== *)
(** * Reference instances of the crates

    Concrete functions for every interface of [Crates.v] and [Stats.v], with
    proofs of their laws: an RFC 3339 reader, hyphenated hexadecimal identifiers,
    an unambiguous text form of JSON documents, a stored zstd frame, a sorting SQL
    engine, microsecond timestamps and a toy collection format.  They show that
    the laws the theorems assume can hold together, and they run the model on
    concrete inputs. *)

From stdpp Require Import countable.
From Stdlib Require Import Btauto.
From S2P Require Import Prelude Calendar World Crates Core Sha256 Store Stats Sample Sync Config Server Html.

(** ** Reading fixed-width numerals *)

Fixpoint take_num (b : Z) (w : nat) (acc : Z) (s : string) : option (Z * string) :=
  match w with
  | O => Some (acc, s)
  | S w =>
      match s with
      | EmptyString => None
      | String a s => d ← char_digit a; take_num b w (acc * b + d)%Z s
      end
  end.
Definition expect (c : Ascii.ascii) (s : string) : option string :=
  match s with
  | String a s => if decide (a = c) then Some s else None
  | EmptyString => None
  end.

Section take_num.
Context (b : Z) (Hb : (2 ≤ b ≤ 16)%Z).

Lemma take_num_enc_acc w n acc s :
  (0 ≤ n < b ^ Z.of_nat w)%Z →
  take_num b w acc (enc b w n +:+ s) = Some (acc * b ^ Z.of_nat w + n, s)%Z.
Proof using Hb.
  revert n acc. induction w as [|w IH]; intros n acc Hn; cbn [enc take_num].
  - rewrite Z.pow_0_r in *. by replace (acc * 1 + n)%Z with acc by lia.
  - change (String ?a ?x +:+ s) with (String a (x +:+ s)). cbn [take_num].
    rewrite char_digit_char by (by apply enc_digit_range). simpl.
    assert (0 < b ^ Z.of_nat w)%Z by (apply Z.pow_pos_nonneg; lia).
    rewrite IH by (by apply Z.mod_pos_bound). do 2 f_equal.
    rewrite Nat2Z.inj_succ, Z.pow_succ_r by lia.
    pose proof (Z.div_mod n (b ^ Z.of_nat w)). lia.
Qed.
Lemma take_num_enc w n s :
  (0 ≤ n < b ^ Z.of_nat w)%Z → take_num b w 0 (enc b w n +:+ s) = Some (n, s).
Proof using Hb. intros. by rewrite take_num_enc_acc. Qed.

(** Too few digits. *)
Lemma take_num_short w v n acc c s :
  (0 ≤ n < b ^ Z.of_nat w)%Z → char_digit c = None →
  take_num b (w + S v) acc (enc b w n +:+ String c s) = None.
Proof using Hb.
  intros Hn Hc. revert n acc Hn. induction w as [|w IH]; intros n acc Hn; cbn [enc].
  - rewrite string_app_nil_l. simpl. by rewrite Hc.
  - change (String ?a ?x +:+ String c s) with (String a (x +:+ String c s)).
    cbn [take_num Nat.add]. rewrite char_digit_char by (by apply enc_digit_range). simpl.
    apply IH. apply Z.mod_pos_bound. apply Z.pow_pos_nonneg; lia.
Qed.
End take_num.

(** ** chrono *)

Definition parse_frac (s : string) : option (Z * string) :=
  match expect "." s with
  | None => Some (0%Z, s)
  | Some s =>
      match take_num 10 9 0 s with
      | Some r => Some r
      | None =>
          match take_num 10 6 0 s with
          | Some (n, s) => Some (n * 1000, s)%Z
          | None => '(n, s) ← take_num 10 3 0 s; Some (n * 1000000, s)%Z
          end
      end
  end.

Definition parse_rfc3339 (s : string) : option DateTime :=
  '(y, s) ← take_num 10 4 0 s; s ← expect "-" s;
  '(mo, s) ← take_num 10 2 0 s; s ← expect "-" s;
  '(d, s) ← take_num 10 2 0 s; s ← expect "T" s;
  '(h, s) ← take_num 10 2 0 s; s ← expect ":" s;
  '(mi, s) ← take_num 10 2 0 s; s ← expect ":" s;
  '(sec, s) ← take_num 10 2 0 s;
  '(n, s) ← parse_frac s;
  if decide (s = "+00:00" ∨ s = "Z")
  then Some ((days_from_civil (Civil y mo d) * 86400 + h * 3600 + mi * 60 + sec) * ns_per_sec + n)%Z
  else None.

Lemma expect_app c s : expect c (String c "" +:+ s) = Some s.
Proof. simpl. by rewrite decide_True. Qed.

Lemma parse_frac_text n : (0 ≤ n < ns_per_sec)%Z →
  parse_frac (frac_text n +:+ "+00:00") = Some (n, "+00:00").
Proof.
  intros Hn. unfold ns_per_sec in Hn. unfold frac_text. destruct (Z.eqb_spec n 0) as [->|]; [done|].
  assert (10 ^ Z.of_nat 3 = 1000 ∧ 10 ^ Z.of_nat 6 = 1000000 ∧ 10 ^ Z.of_nat 9 = 1000000000)%Z
    as (?&?&?) by done.
  destruct (Z.eqb_spec (n mod 1000000) 0) as [He|]; [|destruct (Z.eqb_spec (n mod 1000) 0) as [He|]];
    unfold parse_frac; rewrite !string_app_assoc, expect_app.
  - assert (0 ≤ n / 1000000 < 1000)%Z by (Z.div_mod_to_equations; lia).
    change "+00:00" with (String "+" "00:00").
    rewrite (take_num_short 10 ltac:(lia) 3 5), (take_num_short 10 ltac:(lia) 3 2) by (done || lia).
    rewrite take_num_enc by lia. simpl. do 2 f_equal. Z.div_mod_to_equations; lia.
  - assert (0 ≤ n / 1000 < 1000000)%Z by (Z.div_mod_to_equations; lia).
    change "+00:00" with (String "+" "00:00").
    rewrite (take_num_short 10 ltac:(lia) 6 2) by (done || lia).
    rewrite take_num_enc by lia. do 2 f_equal. Z.div_mod_to_equations; lia.
  - by rewrite take_num_enc by lia.
Qed.

Lemma parse_rfc3339_autosi t : rfc3339_range t → parse_rfc3339 (rfc3339_autosi t) = Some t.
Proof.
  intros Ht. pose proof (year_range _ (day_of_range _ Ht)).
  pose proof (civil_ranges (day_of t)). pose proof (time_ranges t) as (?&?&?&Hsod).
  unfold rfc3339_autosi, stamp_text, two. cbv zeta.
  assert (10 ^ Z.of_nat 4 = 10000 ∧ 10 ^ Z.of_nat 2 = 100)%Z as [??] by done.
  rewrite !string_app_assoc. unfold parse_rfc3339.
  repeat (rewrite take_num_enc by lia; cbn [mbind option_bind]; rewrite ?expect_app; cbn [mbind option_bind]).
  rewrite parse_frac_text by apply nanos_range. cbn [mbind option_bind].
  rewrite decide_True by auto. f_equal.
  replace (Civil _ _ _) with (civil_from_days (day_of t)) by (by destruct (civil_from_days _)).
  rewrite days_from_civil_from_days. pose proof (secs_nanos t) as Hs. pose proof (secs_day_split t) as Hd.
  rewrite Hsod in Hd. rewrite Hd in Hs. symmetry. etrans; [exact Hs|]. f_equal. f_equal. lia.
Qed.

#[export] Instance ref_chrono : Chrono := {
  to_rfc3339 := rfc3339_autosi;
  to_rfc3339_secs := rfc3339_secs_z;
  parse_from_rfc3339 := parse_rfc3339;
  datetime_serde t := stamp_text ":" t +:+ frac_text (nanos t) +:+ "Z";
  format_ui t :=
    replace_char "T" " " (stamp_text ":" t) +:+ " UTC";
  duration_days d := if bool_decide (Z.abs d ≤ max_duration_days)%Z
                     then Some (d * 86400 * ns_per_sec)%Z else None;
  datetime_sub t d := if bool_decide (min_utc ≤ t - d ≤ max_utc)%Z then Some (t - d)%Z else None;
  num_seconds d := Z.quot d ns_per_sec;
  dt_minute := minute;
  dt_second := second;
}.
#[export] Instance ref_chrono_laws : ChronoLaws.
Proof. split; done || apply parse_rfc3339_autosi. Qed.

(** ** uuid *)

Definition uuid_text (u : Uuid) : string :=
  let n := Z.of_N u in
  enc 16 8 (n / 16 ^ 24) +:+ "-" +:+ enc 16 4 (n / 16 ^ 20 mod 16 ^ 4) +:+ "-" +:+
  enc 16 4 (n / 16 ^ 16 mod 16 ^ 4) +:+ "-" +:+ enc 16 4 (n / 16 ^ 12 mod 16 ^ 4) +:+ "-" +:+
  enc 16 12 (n mod 16 ^ 12).
Definition uuid_read (s : string) : option Uuid :=
  '(a, s) ← take_num 16 8 0 s; s ← expect "-" s;
  '(b, s) ← take_num 16 4 0 s; s ← expect "-" s;
  '(c, s) ← take_num 16 4 0 s; s ← expect "-" s;
  '(d, s) ← take_num 16 4 0 s; s ← expect "-" s;
  '(e, s) ← take_num 16 12 0 s;
  if decide (s = "")
  then Some (Z.to_N (a * 16 ^ 24 + b * 16 ^ 20 + c * 16 ^ 16 + d * 16 ^ 12 + e))
  else None.

Lemma uuid_read_text u : uuid_ok u → uuid_read (uuid_text u) = Some u.
Proof.
  unfold uuid_ok. intros Hu. set (n := Z.of_N u).
  assert (0 ≤ n < 340282366920938463463374607431768211456)%Z as Hn by (unfold n; lia).
  unfold uuid_text. fold n. cbv zeta.
  rewrite <- (string_app_nil_r (enc 16 12 _)). unfold uuid_read.
  assert (16 ^ Z.of_nat 8 = 4294967296 ∧ 16 ^ Z.of_nat 4 = 65536 ∧ 16 ^ Z.of_nat 12 = 281474976710656 ∧
    16 ^ 4 = 65536 ∧ 16 ^ 12 = 281474976710656 ∧ 16 ^ 16 = 18446744073709551616 ∧
    16 ^ 20 = 1208925819614629174706176 ∧ 16 ^ 24 = 79228162514264337593543950336)%Z
    as (?&?&?&H4&H12&H16&H20&H24) by (by vm_compute).
  rewrite H4, H12, H16, H20, H24. clear H4 H12 H16 H20 H24.
  repeat (rewrite take_num_enc by (Z.div_mod_to_equations; lia); cbn [mbind option_bind];
          rewrite ?expect_app; cbn [mbind option_bind]).
  rewrite decide_True by done. f_equal. apply N2Z.inj. fold n.
  rewrite Z2N.id; Z.div_mod_to_equations; lia.
Qed.

#[export] Instance ref_uuid : UuidCrate := { uuid_to_string := uuid_text; uuid_parse_str := uuid_read }.
Lemma char_digit_range a d : char_digit a = Some d → (0 ≤ d < 16)%Z.
Proof.
  unfold char_digit. cbv zeta. case_match eqn:Hd; [intros [= <-]; lia|].
  case_match eqn:Hx; [intros [= <-]; lia|done].
Qed.
Lemma take_num_range w acc s n s' :
  (0 ≤ acc)%Z → take_num 16 w acc s = Some (n, s') →
  (acc * 16 ^ Z.of_nat w ≤ n < (acc + 1) * 16 ^ Z.of_nat w)%Z.
Proof.
  revert acc s. induction w as [|w IH]; intros acc s Hacc; cbn [take_num].
  - intros [= <- <-]. rewrite Z.pow_0_r. lia.
  - destruct s as [|a s]; [done|]. destruct (char_digit a) as [d|] eqn:Hd; simpl; [|done].
    apply char_digit_range in Hd. intros Hn%IH; [|lia].
    rewrite Nat2Z.inj_succ, Z.pow_succ_r by lia.
    assert (0 < 16 ^ Z.of_nat w)%Z by (apply Z.pow_pos_nonneg; lia). nia.
Qed.
Lemma uuid_read_ok s u : uuid_read s = Some u → uuid_ok u.
Proof.
  unfold uuid_read. intros H.
  apply bind_Some in H as ([a s1] & Ha%take_num_range & H); [|lia].
  apply bind_Some in H as (s2 & _ & H). apply bind_Some in H as ([b s3] & Hb%take_num_range & H); [|lia].
  apply bind_Some in H as (s4 & _ & H). apply bind_Some in H as ([c s5] & Hc%take_num_range & H); [|lia].
  apply bind_Some in H as (s6 & _ & H). apply bind_Some in H as ([d s7] & Hd%take_num_range & H); [|lia].
  apply bind_Some in H as (s8 & _ & H). apply bind_Some in H as ([e s9] & He%take_num_range & H); [|lia].
  case_decide; [|done]. injection H as <-.
  unfold uuid_ok. apply N2Z.inj_lt. change (Z.of_N (2 ^ 128)) with (16 ^ 32)%Z.
  assert (16 ^ Z.of_nat 8 = 4294967296 ∧ 16 ^ Z.of_nat 4 = 65536 ∧ 16 ^ Z.of_nat 12 = 281474976710656 ∧
    16 ^ 12 = 281474976710656 ∧ 16 ^ 16 = 18446744073709551616 ∧
    16 ^ 20 = 1208925819614629174706176 ∧ 16 ^ 24 = 79228162514264337593543950336 ∧
    16 ^ 32 = 340282366920938463463374607431768211456)%Z as (?&?&?&?&?&?&?&?) by (by vm_compute).
  rewrite Z2N.id; lia.
Qed.
#[export] Instance ref_uuid_laws : UuidLaws.
Proof. split; [apply uuid_read_text|apply uuid_read_ok]. Qed.

(** ** serde_json *)

(** Documents as trees of atoms, trees as binary numerals. *)
Abbreviation JsonAtom := (bool + (Z + string))%type.
Fixpoint json_tree (j : Json) : gen_tree JsonAtom :=
  match j with
  | JNull => GenNode 0 []
  | JBool b => GenNode 1 [GenLeaf (inl b)]
  | JInt z => GenNode 2 [GenLeaf (inr (inl z))]
  | JReal s => GenNode 3 [GenLeaf (inr (inr s))]
  | JString s => GenNode 4 [GenLeaf (inr (inr s))]
  | JArray l => GenNode 5 (json_tree <$> l)
  | JObject l => GenNode 6 ((λ kv, GenNode 0 [GenLeaf (inr (inr kv.1)); json_tree kv.2]) <$> l)
  end.
Fixpoint tree_json (t : gen_tree JsonAtom) : Json :=
  match t with
  | GenNode 1 [GenLeaf (inl b)] => JBool b
  | GenNode 2 [GenLeaf (inr (inl z))] => JInt z
  | GenNode 3 [GenLeaf (inr (inr s))] => JReal s
  | GenNode 4 [GenLeaf (inr (inr s))] => JString s
  | GenNode 5 l => JArray (tree_json <$> l)
  | GenNode 6 l =>
      JObject ((λ t, match t with
                     | GenNode _ [GenLeaf (inr (inr k)); v] => (k, tree_json v)
                     | _ => ("", JNull)
                     end) <$> l)
  | _ => JNull
  end.
Lemma tree_json_tree j : tree_json (json_tree j) = j.
Proof.
  revert j. fix IH 1. intros [| | | | |l|l]; simpl; try done; f_equal.
  - induction l as [|x l IHl]; simpl; [done|]. f_equal; [apply IH|apply IHl].
  - induction l as [|[k x] l IHl]; simpl; [done|]. f_equal; [by rewrite IH|apply IHl].
Qed.

Fixpoint pos_text (p : positive) : string :=
  match p with xH => "" | xO p => String "0" (pos_text p) | xI p => String "1" (pos_text p) end.
Fixpoint text_pos (s : string) : option positive :=
  match s with
  | EmptyString => Some xH
  | String "0" s => xO <$> text_pos s
  | String "1" s => xI <$> text_pos s
  | _ => None
  end.
Lemma text_pos_text p : text_pos (pos_text p) = Some p.
Proof. induction p as [p IH|p IH|]; simpl; by rewrite ?IH. Qed.

Definition json_text (j : Json) : string := pos_text (encode (json_tree j)).
Definition json_read (s : string) : option Json :=
  p ← text_pos s; t ← decode p; Some (tree_json t).
Lemma json_read_text j : json_read (json_text j) = Some j.
Proof.
  unfold json_read, json_text. rewrite text_pos_text. simpl. rewrite decode_encode. simpl.
  by rewrite tree_json_tree.
Qed.

(** The reader also knows the deck column of the tests' collections. *)
Definition json_read_any (s : string) : option Json :=
  if decide (s = sample_decks_text) then Some sample_decks else json_read s.
Lemma json_read_any_text j : json_read_any (json_text j) = Some j.
Proof.
  unfold json_read_any. rewrite decide_False; [apply json_read_text|].
  unfold json_text. by destruct (encode (json_tree j)).
Qed.
#[export] Instance ref_json : SerdeJson :=
  { json_to_string := json_text; json_to_string_pretty := json_text; json_from_str := json_read_any }.
#[export] Instance ref_json_laws : SerdeJsonLaws.
Proof. split. intros j _. apply json_read_any_text. Qed.

(** ** sha2, hex and zstd *)

#[export] Instance ref_hash : HashCrates := { sha256 := fips_sha256; hex_encode := hex_text }.
#[export] Instance ref_hash_laws : HashLaws.
Proof. by split. Qed.

#[export] Instance ref_zstd : Zstd := {
  zstd_encode b := Some (zstd_magic ++ b);
  zstd_decode b := if decide (zstd_magic `prefix_of` b) then Some (drop 4 b) else None;
}.
#[export] Instance ref_zstd_laws : ZstdLaws.
Proof.
  split; [intros b c [= <-]..|by eexists]; [|by exists b]. unfold zstd_decode, zstd_encode, ref_zstd.
  rewrite decide_True; [done|]. by exists b.
Qed.

(** ** SQL *)

#[export] Instance ref_sql : SqlEngine := {
  sql_scan A l := l;
  sql_order_desc A lt l := sort_by (λ x y, lt y x) l;
}.
#[export] Instance ref_sql_laws : SqlEngineLaws.
Proof.
  split; [done|intros; apply sort_by_perm|].
  intros A lt l Hirr Htr Hcot. apply (sort_by_sorted (λ x y, lt y x)).
  - intros x y z Hxy Hyz. destruct (lt x z) eqn:Hxz; [|done].
    destruct (Hcot x z y) as [Hc|Hc]; [by rewrite Hxz|by rewrite Hxy in Hc|by rewrite Hyz in Hc].
  - intros x y Hyx. destruct (lt x y) eqn:Hxy; [|done]. assert (Is_true (lt x x)) as Hx.
    { apply (Htr x y x); by rewrite ?Hxy, ?Hyx. }
    by rewrite Hirr in Hx.
Qed.

#[export] Instance ref_pg : PgTimestamps := { pg_timestamp t := (t / 1000 * 1000)%Z }.
#[export] Instance ref_pg_laws : PgTimestampLaws.
Proof.
  split; simpl; intros; Z.div_mod_to_equations; lia.
Qed.

(** ** Collections *)

(** A toy format: each byte is a card, its value the deck; [00] marks a file that
    is not a database.  Decks 0 to 2 have names. *)
Definition toy_db (b : bytes) : Database :=
  {[ "cards" := {| t_cols := ["id"; "did"];
       t_rows := (λ x, [SInt 7; SInt (Z.of_N (Byte.to_N x))]) <$> take 1000 b |};
     "notes" := {| t_cols := ["id"]; t_rows := [[SInt 1]; [SInt 2]] |};
     "revlog" := {| t_cols := ["id"]; t_rows := [] |};
     "decks" := {| t_cols := ["id"; "name"];
       t_rows := [[SInt 1; SText "Default"]; [SInt 2; SText "Kanji"]; [SInt 3; SText "Anatomy"]] |} ]}.
Lemma toy_db_ok b n t : toy_db b !! n = Some t → table_ok t.
Proof.
  unfold toy_db.
  rewrite !lookup_insert_Some, lookup_singleton_Some.
  assert (∀ A (f : A → list SqlValue) (l : list A), length (f <$> take 1000 l) ≤ 1000) as Hlen.
  { intros. rewrite length_fmap, length_take. lia. }
  assert (i64_max = 9223372036854775807%Z ∧ i64_min = (-9223372036854775808)%Z) as [Hmax Hmin] by done.
  intros [[_ <-]|[_ [[_ <-]|[_ [[_ <-]|[_ [_ <-]]]]]]]; split; simpl t_rows.
  - specialize (Hlen _ (λ x, [SInt 7; SInt (Z.of_N (Byte.to_N x))]) b). lia.
  - intros row z (x & -> & _)%list_elem_of_fmap. pose proof (Byte.to_N_bounded x).
    rewrite !elem_of_cons, elem_of_nil. intros [[= ->]|[[= ->]|[]]]; unfold is_i64; lia.
  - simpl. lia.
  - intros row z. rewrite !elem_of_cons, elem_of_nil.
    intros [->|[->|[]]]; rewrite !elem_of_cons, elem_of_nil; intros Hz;
      destruct_or!; simplify_eq; done.
  - simpl. lia.
  - by intros row z ?%elem_of_nil.
  - simpl. lia.
  - intros row z. rewrite !elem_of_cons, elem_of_nil.
    intros [->|[->|[->|[]]]]; rewrite !elem_of_cons, elem_of_nil; intros Hz;
      destruct_or!; simplify_eq; done.
Qed.

(** Files made by a batch of statements: the text of the batch. *)
Definition value_code (v : SqlValue) : () + (Z + (string + ())) :=
  match v with SNull => inl () | SInt z => inr (inl z) | SText s => inr (inr (inl s)) | SOther => inr (inr (inr ())) end.
Definition code_value (c : () + (Z + (string + ()))) : SqlValue :=
  match c with inl _ => SNull | inr (inl z) => SInt z | inr (inr (inl s)) => SText s | inr (inr (inr _)) => SOther end.
#[local] Instance SqlValue_countable : Countable SqlValue.
Proof. apply (inj_countable' value_code code_value). by intros []. Defined.
#[local] Instance Column_eq_dec : EqDecision Column.
Proof. solve_decision. Defined.
#[local] Instance Column_countable : Countable Column.
Proof.
  apply (inj_countable' (λ c, (c_name c, c_primary c, c_not_null c))
    (λ p, {| c_name := p.1.1; c_primary := p.1.2; c_not_null := p.2 |})). by intros [].
Defined.
#[local] Instance SqlStmt_eq_dec : EqDecision SqlStmt.
Proof. solve_decision. Defined.
#[local] Instance SqlStmt_countable : Countable SqlStmt.
Proof.
  apply (inj_countable'
    (λ s, match s with CreateTable n cols => inl (n, cols) | InsertInto n names rows => inr (n, names, rows) end)
    (λ c, match c with inl (n, cols) => CreateTable n cols | inr (n, names, rows) => InsertInto n names rows end)).
  by intros [].
Defined.
Definition batch_text (batch : list SqlStmt) : string := pos_text (encode batch).
Definition batch_read (s : string) : option (list SqlStmt) := p ← text_pos s; decode p.
Lemma batch_read_text batch : batch_read (batch_text batch) = Some batch.
Proof. unfold batch_read, batch_text. rewrite text_pos_text. simpl. apply decode_encode. Qed.

#[export] Instance ref_sqlite_file : SqliteFile := { sqlite_file batch := bytes_of_string (batch_text batch) }.
#[export] Instance ref_collection : CollectionFile := {
  open_collection b :=
    match batch_read (string_of_bytes b) with
    | Some batch => st ← exec_batch batch; if db_test (tables st) then Some (tables st) else None
    | None => if decide (head b = Some Byte.x00) then None else Some (toy_db b)
    end;
}.
#[export] Instance ref_collection_laws : CollectionFileLaws.
Proof.
  split. intros b db n t. cbn [open_collection ref_collection].
  destruct (batch_read (string_of_bytes b)) as [batch|].
  - destruct (exec_batch batch) as [st|]; cbn [mbind option_bind]; [|done].
    destruct (db_test (tables st)) eqn:Ht; [|done]. intros [= <-]. by apply db_test_ok.
  - case_decide; [done|]. intros [= <-]. apply toy_db_ok.
Qed.
#[export] Instance ref_sqlite_file_laws : SqliteFileLaws.
Proof.
  split. intros batch st Hb Ht. cbn [open_collection ref_collection sqlite_file ref_sqlite_file].
  rewrite string_of_bytes_of_string, batch_read_text, Hb. cbn [mbind option_bind]. by rewrite Ht.
Qed.

(** ** HTTP, tar, axum and toml *)

#[export] Instance ref_http : HttpCrates := {
  status_display z := pretty z;
  headers_debug _ := "{..}";
  header_to_str v :=
    if all_chars (λ a, let n := N_of_ascii a in ((32 <=? n) && (n <=? 126) || (n =? 9))%N) v
    then Some v else None;
  response_text _ b := string_of_bytes b;
}.

(** An archive is the text of its name and content. *)
#[export] Instance ref_tar : TarCrate := {
  tar_single name _ b := bytes_of_string (json_text (JArray [JString name; JString (string_of_bytes b)]));
  tar_entries a :=
    match json_read (string_of_bytes a) with
    | Some (JArray [JString name; JString b]) => Some [(name, bytes_of_string b)]
    | _ => None
    end;
}.
#[export] Instance ref_tar_laws : TarLaws.
Proof.
  split. intros name mode b. unfold tar_entries, tar_single, ref_tar.
  rewrite string_of_bytes_of_string, json_read_text.
  do 3 f_equal. apply String.list_byte_of_string_of_list_byte.
Qed.
#[export] Instance ref_axum : AxumCrate := { percent_decode s := Some s }.
#[export] Instance ref_axum_laws : AxumLaws.
Proof. by split. Qed.
#[export] Instance ref_header_laws : HeaderLaws.
Proof.
  split. intros v Hv. cbn [header_to_str ref_http]. assert (∀ s, all_chars header_visible s = true →
    all_chars (λ a, let n := N_of_ascii a in ((32 <=? n) && (n <=? 126) || (n =? 9))%N) s = true) as Himpl.
  { intros s. induction s as [|a s IH]; [done|]. cbn [all_chars]. rewrite !andb_true_iff.
    intros [Ha Hs]. split; [|by apply IH]. cbv zeta. unfold header_visible in Ha. by rewrite Ha. }
  by rewrite Himpl.
Qed.
Lemma enc_plain w n : (0 ≤ n < 16 ^ Z.of_nat w)%Z → all_chars path_plain (enc 16 w n) = true.
Proof.
  revert n. induction w as [|w IH]; intros n Hn; [done|]. cbn [enc all_chars]. apply andb_true_iff. split.
  - pose proof (enc_digit_range 16 ltac:(lia) w n Hn) as Hd. revert Hd. generalize (n / 16 ^ Z.of_nat w)%Z.
    intros d Hd. assert (d ∈ seqZ 0 16) as Hin by (apply elem_of_seqZ; lia).
    assert (Forall (λ d, path_plain (digit_char d) = true) (seqZ 0 16)) as Hall by (by repeat constructor).
    by eapply Forall_forall in Hall.
  - apply IH. apply Z.mod_pos_bound. apply Z.pow_pos_nonneg; lia.
Qed.
#[export] Instance ref_uuid_text_laws : UuidTextLaws.
Proof.
  split. intros u Hu. cbn [uuid_to_string ref_uuid]. unfold uuid_text. cbv zeta.
  assert (0 ≤ Z.of_N u < 16 ^ 32)%Z as Hn.
  { unfold uuid_ok in Hu. change (16 ^ 32)%Z with (Z.of_N (2 ^ 128)). lia. }
  split.
  - intros Heq%(f_equal String.length). rewrite string_app_length, enc_length in Heq. simpl in Heq. lia.
  - rewrite !all_chars_app. change (all_chars path_plain "-") with true.
    assert (∀ z k, (0 < 16 ^ k)%Z → (0 ≤ z mod 16 ^ k < 16 ^ k)%Z) as Hmod by (intros; by apply Z.mod_pos_bound).
    rewrite !enc_plain; [done|apply (Hmod _ 12%Z); lia|apply (Hmod _ 4%Z); lia|apply (Hmod _ 4%Z); lia|
      apply (Hmod _ 4%Z); lia|].
    change (Z.of_nat 8) with 8%Z. split; [apply Z.div_pos; lia|]. apply Z.div_lt_upper_bound; [lia|].
    rewrite <- Z.pow_add_r by lia. apply Hn.
Qed.

(** Numeric character references. *)
Definition escape_char (c : ascii) : string :=
  if decide (c = "<"%char) then "&#60;" else if decide (c = ">"%char) then "&#62;"
  else if decide (c = "&"%char) then "&#38;" else if decide (c = "034"%char) then "&#34;"
  else if decide (c = "'"%char) then "&#39;" else String c "".
Fixpoint ref_escape (s : string) : string :=
  match s with EmptyString => EmptyString | String c s => escape_char c +:+ ref_escape s end.
#[export] Instance ref_askama : AskamaCrate := { html_escape := ref_escape }.

Lemma has_special_cons c s : has_special (String c s) = html_special c || has_special s.
Proof. unfold has_special, html_special. cbn [has_char]. btauto. Qed.
Lemma ref_escape_length s : String.length s ≤ String.length (ref_escape s) ∧
  (has_special s = true → String.length s < String.length (ref_escape s)).
Proof.
  induction s as [|c s [IH1 IH2]]; [done|]. cbn [ref_escape]. rewrite string_app_length, has_special_cons.
  cbn [String.length]. unfold escape_char, html_special.
  repeat (case_decide; [subst c; simpl; lia|]). rewrite !bool_decide_false by done. simpl. split; [lia|].
  intros Hs. specialize (IH2 Hs). lia.
Qed.
Lemma is_markup_cases c : is_markup c = true →
  c = "<"%char ∨ c = ">"%char ∨ c = "034"%char ∨ c = "'"%char.
Proof.
  unfold is_markup, html_special. rewrite andb_true_iff, !orb_true_iff, !bool_decide_eq_true, negb_true_iff.
  rewrite bool_decide_eq_false. tauto.
Qed.
#[export] Instance ref_askama_laws : AskamaLaws.
Proof.
  split.
  - intros s c Hc. induction s as [|a s IH]; [done|]. cbn [html_escape ref_askama ref_escape] in *.
    rewrite has_char_app, IH, orb_false_r. clear IH. unfold escape_char.
    apply is_markup_cases in Hc as [->|[->|[->| ->]]];
      repeat (case_decide; [reflexivity|]); cbn [has_char]; by rewrite bool_decide_false.
  - intros s. induction s as [|a s IH]; [done|]. rewrite has_special_cons. intros [Ha Hs]%orb_false_iff.
    cbn [html_escape ref_askama ref_escape] in *. rewrite IH by done. unfold html_special, escape_char in *.
    repeat (case_decide; [by subst a|]). done.
  - intros s Hs Heq. pose proof (proj2 (ref_escape_length s) Hs) as Hl.
    cbn [html_escape ref_askama] in Heq. rewrite Heq in Hl. lia.
Qed.
#[export] Instance ref_toml : TomlCrate := { toml_from_str _ := Some default_config }.

(** A server with one account: it redirects the meta call to a shard, sends
    [ref_payload_bytes] as a zstd frame, and accepts uploads. *)
Definition ref_payload_bytes : bytes := [Byte.x01; Byte.x02; Byte.x01; Byte.x03; Byte.x01].
Definition http_ok (b : bytes) : string + HttpResponse :=
  inr {| resp_status := 200; resp_headers := []; resp_body := inr b |}.
Definition ref_server (req : HttpRequest) : string + HttpResponse :=
  if decide (req_url req = "https://sync.ankiweb.net/sync/hostKey") then
    http_ok (bytes_of_string (json_text (JObject [("key", JString "hkey")])))
  else if decide (req_url req = "https://sync.ankiweb.net/sync/meta") then
    inr {| resp_status := 308; resp_headers := [("location", "https://sync32.ankiweb.net/")];
           resp_body := inr [] |}
  else if decide (req_url req = "https://sync32.ankiweb.net/sync/meta") then
    http_ok (bytes_of_string (json_text (JObject [("msg", JString ""); ("empty", JBool false)])))
  else if decide (req_url req = "https://sync32.ankiweb.net/sync/download") then
    http_ok (zstd_magic ++ ref_payload_bytes)
  else if decide (req_url req = "https://sync32.ankiweb.net/sync/upload") then
    http_ok (bytes_of_string "OK")
  else inl "connection refused".

(** ** An environment *)

(** Clock readings are [step] seconds apart from 2024-03-09T14:00:00Z, up to the
    end of the year 9999. *)
Definition ref_clock (step : Z) (n : nat) : DateTime :=
  (Z.min (1709992800 + Z.of_nat n * step) 253402300799 * ns_per_sec)%Z.
(** [step] seconds between clock readings, and the faults [f]. *)
Definition make_env (step : Z) (f : nat → option Fault) : Env := {|
  clock := ref_clock step;
  fresh_uuid n := N.min (N.of_nat (S n)) (2 ^ 128 - 1);
  fault := f;
  random_u32 n := ((Z.of_nat n + 1) * 2654435761 mod 2 ^ 32)%Z;
  http_answer _ req := ref_server req;
  elapsed_ms _ := 1250%Z;
|}.
Definition ref_env : Env := make_env 3600 (λ _, None).
(** One fault, at interaction [k]. *)
Definition faulty_env (k : nat) (f : Fault) : Env :=
  make_env 3600 (λ n, if decide (n = k) then Some f else None).

(** A machine with nothing on it, and database [db]. *)
Definition blank_world {S} (db : S) : World S := {|
  w_fs := ∅; w_db := db; w_gate := None; w_sent := []; w_log := [];
  w_clock := 0; w_uuid := 0; w_io := 0; w_random := 0; w_elapsed := 0;
|}.
