(* ===== verification/Scenario.v ===== *)
(** * Runs of the model

    Worlds reached by running the model with the functions of [Reference.v]: a
    repository opened on an empty disk, after a backup, after a second one.  They
    are where the properties' hypotheses are shown to hold. *)

From S2P Require Import Prelude Calendar Net World Crates Core Store Sqlite Postgres Stats Repository.
From S2P Require Import RepositoryInv RepositoryThms RepositoryOps History Sync Config Server.
From S2P Require Import UnitTests Daemon Service Reference.

#[local] Existing Instance ref_env.

Definition ref_root : Path := ["/"; "data"].
Definition ref_payload (b : bytes) : BackupPayload :=
  {| payload_bytes := b; payload_source_revision := None; payload_sync_duration_ms := Some 12%Z |}.
Definition no_tables : SqliteDb := {| t_backups := None; t_events := None |}.
Definition no_pg_tables : PgDb := {| pg_backups := None; pg_events := None |}.
Definition after {S A} (m : M S A) (w : World S) : World S := (m w).2.
Definition result {S A} (m : M S A) (w : World S) : Res A := (m w).1.
Lemma run_after {S A} (m : M S A) (w : World S) : m w = (result m w, after m w).
Proof. unfold result, after. by destruct (m w). Qed.
Lemma run_result {S A} (m : M S A) (w : World S) r : result m w = r → m w = (r, after m w).
Proof. intros <-. apply run_after. Qed.
Definition backup_of (b : bytes) : M SqliteDb RunOnceOutcome :=
  run_once ref_root (ref_payload b) (content_hash (payload_bytes (ref_payload b))).

(** A repository opened on an empty disk. *)
Definition w_opened : World SqliteDb := after (open_repository ref_root store_new) (blank_world no_tables).
(** A first backup, at 14:00. *)
Definition w_backup : World SqliteDb := after (backup_of ref_payload_bytes) w_opened.
(** The same content an hour later. *)
Definition w_skipped : World SqliteDb := after (backup_of ref_payload_bytes) w_backup.
(** Other content after that. *)
Definition ref_payload_bytes2 : bytes := [Byte.x02; Byte.x02; Byte.x09].
Definition w_second : World SqliteDb := after (backup_of ref_payload_bytes2) w_skipped.

Definition ref_account : SyncConfig :=
  {| cfg_username := "user"; cfg_password := "secret"; cfg_endpoint := None |}.
Definition ref_state : AppState :=
  {| csrf_token := Some "csrf"; api_token := Some "token"; app_sync_config := Some ref_account |}.
Definition ref_headers : Headers := [("authorization", "Bearer token"); ("x-csrf-token", "csrf")].
(** The service with these settings, and a request to roll back to the first
    backup. *)
Definition ref_start : ServiceStart :=
  {| start_state := ref_state; start_account := ref_account; start_retention := 90;
     start_listen := V4 [127; 0; 0; 1]%Z 8088 |}.
Definition rollback_rq : Request :=
  {| rq_method := POST; rq_path := "/backups/" +:+ uuid_to_string 1%N +:+ "/rollback";
     rq_headers := ref_headers |}.

(** ** The worlds satisfy the repository invariant *)

Lemma ref_uuids_ok : uuids_ok.
Proof. intros n. unfold uuid_ok, fresh_uuid, ref_env, make_env. lia. Qed.
Lemma ref_clock_range n : rfc3339_range (clock n).
Proof.
  unfold rfc3339_range, clock, ref_env, make_env, ref_clock, secs_per_day, ns_per_sec. lia.
Qed.

Lemma ref_clock_ok : clock_ok 90.
Proof.
  intros n. split; [apply ref_clock_range|].
  unfold rfc3339_range, retention_cutoff, clock, ref_env, make_env, ref_clock, secs_per_day, ns_per_sec. lia.
Qed.

Lemma no_tables_wf : st_wf (migrate no_tables).
Proof. split; [|by exists []]. exists []. split_and!; [done|constructor|constructor]. Qed.
Lemma opened_inv : repo_inv content_hash ref_root w_opened.
Proof.
  destruct (open_fresh content_hash ref_root (blank_world no_tables) w_opened) as (Hinv & _);
    [by vm_compute|exact no_tables_wf|done|done|done].
Qed.

(** No backup has the directory name of the next clock reading. *)
Definition dir_free (w : World SqliteDb) : bool :=
  forallb (λ e, bool_decide (status e = Created → timestamp_dir e ≠ format_timestamp_dir (clock (w_clock w))))
    (st_entries (w_db w)).
Lemma dir_free_unused w : dir_free w = true →
  dir_unused (format_timestamp_dir (clock (w_clock w))) (st_entries (w_db w)).
Proof.
  unfold dir_free. rewrite forallb_forall. intros Hf e He. specialize (Hf e).
  rewrite bool_decide_eq_true in Hf. apply Hf. by apply list_elem_of_In.
Qed.

(** A backup keeps the invariant. *)
Lemma backup_of_inv b w : repo_inv content_hash ref_root w → dir_free w = true →
  repo_inv content_hash ref_root (after (backup_of b) w).
Proof.
  intros Hinv Hfree.
  assert (wp (backup_of b) (λ _ w', repo_inv content_hash ref_root w') w) as Hwp; [|exact Hwp].
  eapply wp_mono; [apply run_once_spec|by intros r w' (_ & ? & _)]; try done.
  - apply ref_uuids_ok.
  - apply ref_clock_range.
  - by intros d [= <-].
  - by apply dir_free_unused.
Qed.
Lemma backup_inv : repo_inv content_hash ref_root w_backup.
Proof. apply backup_of_inv; [apply opened_inv|by vm_compute]. Qed.
Lemma skipped_inv : repo_inv content_hash ref_root w_skipped.
Proof. apply backup_of_inv; [apply backup_inv|by vm_compute]. Qed.
Lemma second_inv : repo_inv content_hash ref_root w_second.
Proof. apply backup_of_inv; [apply skipped_inv|by vm_compute]. Qed.

(** Facts about the worlds that are computed. *)
Lemma ref_payload_ok b : payload_ok (ref_payload b).
Proof. by intros d [= <-]. Qed.
Lemma opened_free : dir_free w_opened = true.
Proof. by vm_compute. Qed.
Lemma backup_free : dir_free w_backup = true.
Proof. by vm_compute. Qed.
Lemma skipped_free : dir_free w_skipped = true.
Proof. by vm_compute. Qed.
Lemma ref_fault_free : fault_free.
Proof. by intros n. Qed.
Definition collection_test (b : bytes) : bool :=
  match open_collection b with
  | Some db =>
      match sql_column "did" "cards" db with
      | Some keys =>
          bool_decide (is_Some (sql_count "cards" db) ∧ is_Some (sql_count "notes" db) ∧
            is_Some (sql_count "revlog" db) ∧ Forall (λ k, is_Some (get_i64 k)) keys ∧
            is_Some (names_new db))
      | None => false
      end
  | None => false
  end.
Lemma collection_test_ok b : collection_test b = true → collection_valid b.
Proof.
  unfold collection_test. destruct (open_collection b) as [db|] eqn:Hdb; [|done].
  destruct (sql_column _ _ _) as [keys|] eqn:Hk; [|done]. rewrite bool_decide_eq_true.
  intros (?&?&?&?&?). exists db, keys. split_and!; auto.
Qed.
Lemma second_valid : collection_valid ref_payload_bytes2.
Proof. apply collection_test_ok. by vm_compute. Qed.

(** A tree on which a backup can be written, as a test. *)
Definition disk_ready_test (dir : string) (fs : FS) : bool :=
  bool_decide (state_ready ref_root fs ∧ fs !! payload_path ref_root dir ≠ Some Dir ∧
    fs !! metadata_path ref_root dir ≠ Some Dir) &&
  forallb (λ q, match fs !! q with Some (File _) => false | _ => true end)
    ([] :: prefixes (backup_dir ref_root dir)).
Lemma disk_ready_test_ok dir fs : disk_ready_test dir fs = true → disk_ready ref_root dir fs.
Proof.
  unfold disk_ready_test. rewrite andb_true_iff, bool_decide_eq_true, forallb_forall.
  intros [(?&?&?) Hp]. split; [done| |done|done]. intros q b Hq Hf. specialize (Hp q).
  rewrite <- list_elem_of_In, elem_of_cons, Hf in Hp. enough (false = true) by done. apply Hp.
  destruct (decide (q = [])); [by left|right]. by apply prefixes_elem.
Qed.
Lemma skipped_ready : disk_ready ref_root (format_timestamp_dir (clock (w_clock w_skipped))) (w_fs w_skipped).
Proof. apply disk_ready_test_ok. by vm_compute. Qed.

(** Identifiers above those in use are unused. *)
Lemma min_unused (l : list N) (k n : nat) (p : N) :
  (N.of_nat (S k) < p)%N → Forall (λ i, (i < N.of_nat (S k))%N) l → k ≤ n →
  N.min (N.of_nat (S n)) (p - 1) ∉ l.
Proof. intros Hk Hl Hn Hin. rewrite Forall_forall in Hl. apply Hl in Hin. lia. Qed.
Lemma ids_unused (l : list Uuid) k :
  (N.of_nat (S k) < 2 ^ 128)%N → Forall (λ i, (i < N.of_nat (S k))%N) l →
  ∀ n, k ≤ n → fresh_uuid n ∉ l.
Proof. intros Hk Hl n Hn. exact (min_unused l k n (2 ^ 128) Hk Hl Hn). Qed.

(** The clock does not run backwards. *)
Lemma ref_clock_mono n m : n ≤ m → (clock n ≤ clock m)%Z.
Proof. intros Hnm. unfold clock, ref_env, make_env, ref_clock, ns_per_sec. lia. Qed.

(** The entry of an outcome. *)
Definition no_entry : BackupEntry := make_entry 0 (skipped_unchanged 0 "").
Definition outcome_entry (r : Res RunOnceOutcome) : BackupEntry :=
  match r with Ok (RCreated e) | Ok (RSkipped e) => e | _ => no_entry end.
Definition first_entry : BackupEntry := outcome_entry (result (backup_of ref_payload_bytes) w_opened).

(** The same world, [k] clock readings from the start. *)
Definition at_reading {S} (k : nat) (w : World S) : World S :=
  {| w_fs := w_fs w; w_db := w_db w; w_gate := w_gate w; w_sent := w_sent w; w_log := w_log w;
     w_clock := k; w_uuid := w_uuid w; w_io := w_io w; w_random := w_random w;
     w_elapsed := w_elapsed w |}.
(** Thirty days and two hours after the first backup, an hour before the second one
    is thirty days old. *)
Definition w_late : World SqliteDb := at_reading 722 w_second.
Lemma at_reading_inv k (w : World SqliteDb) :
  repo_inv content_hash ref_root w → repo_inv content_hash ref_root (at_reading k w).
Proof. by apply repo_inv_same. Qed.
Lemma late_inv : repo_inv content_hash ref_root w_late.
Proof. apply at_reading_inv, second_inv. Qed.

(** Reading an outcome off a postcondition. *)
Definition is_created (r : Res RunOnceOutcome) : bool :=
  match r with Ok (RCreated _) => true | _ => false end.
Definition is_skipped (r : Res RunOnceOutcome) : bool :=
  match r with Ok (RSkipped _) => true | _ => false end.
Definition is_ok {A} (r : Res A) : bool := match r with Ok _ => true | _ => false end.

Lemma ok_run {S A} (m : M S A) w : is_ok (m w).1 = true → ∃ a w', m w = (Ok a, w').
Proof. destruct (m w) as [[] w']; [by eexists _, _|done..]. Qed.
Lemma created_run {S A} (m : M S A) (k : A → M S RunOnceOutcome) w :
  is_created ((m ≫= k) w).1 = true → ∃ a w1 e w2, m w = (Ok a, w1) ∧ k a w1 = (Ok (RCreated e), w2).
Proof.
  unfold mbind, M_bind. destruct (m w) as [[a|e|] w1]; [|done..]. intros Hk.
  destruct (k a w1) as [[[e|e]| |] w2] eqn:Hrun; [|done..]. by exists a, w1, e, w2.
Qed.

Lemma first_created : wp (backup_of ref_payload_bytes) (λ r _, is_created r = true) w_opened.
Proof. vm_compute. reflexivity. Qed.
Lemma second_skipped : wp (backup_of ref_payload_bytes) (λ r _, is_skipped r = true) w_backup.
Proof. vm_compute. reflexivity. Qed.
Lemma rollback_ok : wp (rollback_to (S := SqliteDb) ref_root 1%N) (λ r _, is_ok r = true) w_second.
Proof. vm_compute. reflexivity. Qed.
Lemma late_prunes_one :
  wp (prune_created_older_than_days (S := SqliteDb) ref_root 30) (λ r _, r = Ok 1) w_late.
Proof. vm_compute. reflexivity. Qed.

(** A history: two backups of one content, a rollback to the first, pruning. *)
Definition ref_op : RepoOp := OpRunOnce (ref_payload ref_payload_bytes).
Lemma backup_step b w : dir_free w = true →
  repo_step content_hash ref_root (OpRunOnce (ref_payload b)) w (after (backup_of b) w).
Proof.
  intros Hf. apply (step_run_once _ _ _ (result (backup_of b) w)); [|apply (run_after (backup_of b))].
  split_and!; [apply ref_clock_range|apply ref_payload_ok|by apply dir_free_unused].
Qed.
Definition w_rolled : World SqliteDb := after (rollback_to ref_root 1%N) w_skipped.
Lemma rollback_step i (w : World SqliteDb) : uuid_ok i →
  repo_step content_hash ref_root (OpRollback i) w (after (rollback_to ref_root i) w).
Proof.
  intros Hi. apply (step_rollback _ _ _ (result (rollback_to ref_root i) w));
    [|apply (run_after (rollback_to ref_root i))].
  split; [apply ref_clock_range|done].
Qed.
Lemma skip_history : history content_hash ref_root [ref_op; OpRollback 1%N] w_backup w_rolled.
Proof.
  apply (history_cons _ _ _ _ w_backup w_skipped w_rolled (backup_step _ w_backup backup_free)).
  apply (history_cons _ _ _ _ w_skipped w_rolled w_rolled); [|constructor].
  apply (rollback_step 1%N w_skipped). by vm_compute.
Qed.
Lemma ref_history : history content_hash ref_root [ref_op; ref_op; OpRollback 1%N] w_opened w_rolled.
Proof.
  exact (history_cons _ _ _ _ w_opened w_backup w_rolled (backup_step _ w_opened opened_free) skip_history).
Qed.

(** ** An empty disk *)

Definition w_empty : World SqliteDb := blank_world no_tables.
Lemma empty_blank : blank ref_root w_empty.
Proof.
  split_and!; [split; intros *; change (w_fs w_empty) with (∅ : FS); by rewrite lookup_empty|done|].
  exact no_tables_wf.
Qed.
Lemma opened_tidy : tidy ref_root (w_fs w_opened).
Proof. exact (proj2 (proj2 (proj2 (proj2 (proj2 (open_blank content_hash ref_root w_empty ref_fault_free empty_blank)))))). Qed.

(** One identifier has been drawn, and is in use. *)
Lemma later_uuids n : 1 ≤ n → fresh_uuid n ≠ 1%N.
Proof. intros Hn. unfold fresh_uuid, ref_env, make_env. lia. Qed.
Lemma one_drawn (w : World SqliteDb) : (w_uuid w, id <$> st_entries (w_db w)) = (1, [1%N]) → uuids_unused w.
Proof.
  intros Hw n Hn Hin. injection Hw as Hu He. rewrite Hu in Hn. apply (later_uuids n Hn).
  apply list_elem_of_singleton. rewrite <- He. exact Hin.
Qed.
