(* ===== verification/RepositoryProps.v ===== *)
(** * Properties of the repository

    The claims about [BackupRepository] and its histories, each followed by a run
    of the model at which its hypotheses hold. *)

From S2P Require Import Prelude Calendar World Crates Core Store Sqlite Postgres Stats Repository.
From S2P Require Import RepositoryInv RepositoryThms RepositoryOps History Sync Config Server.
From S2P Require Import Daemon Reference Scenario.

Section properties.
Context {S : Type} `{!Env, !Chrono, !UuidCrate, !SerdeJson, !SqlEngine, !CollectionFile}.
Context `{!ChronoLaws, !SqlEngineLaws, !CollectionFileLaws}.
Context `{!MetadataStore S, !StoreModel S, !StoreLaws S}.
Context (hash : bytes → string) (root : Path).
Implicit Types w : World S.

Abbreviation entries w := (st_entries (w_db w)).
Abbreviation events w := (st_events (w_db w)).

(** C2: [run_once] in every outcome, for any store that meets the contract and
    any schedule of disk and database faults.  It creates a backup exactly when
    the content differs from the most recent one: the entry is recorded, the
    payload file holds the bytes, the statistics describe them and the pointer
    names the backup.  Otherwise it records a skipped entry and touches no file.
    A failure adds at most one entry, and never damages another backup or the
    pointer. *)
Theorem run_once_outcomes w payload :
  let h := hash (payload_bytes payload) in
  repo_inv hash root w → uuids_ok → rfc3339_range (clock (w_clock w)) → payload_ok payload →
  dir_unused (format_timestamp_dir (clock (w_clock w))) (entries w) →
  wp (run_once root payload h) (λ r w', quiet w w' ∧ repo_inv hash root w' ∧
    events w' = events w ∧
    match r with
    | Ok (RCreated e) => changed h (entries w) ∧ created_post root w w' payload h e
    | Ok (RSkipped e) => unchanged h (entries w) ∧ skipped_post w w' h e
    | Err _ => entries w' ≡ₚ entries w ∨ ∃ e, entries w' ≡ₚ e :: entries w
    | Panic _ => False
    end) w.
Proof. intros h **. by apply run_once_spec. Qed.

(** C7: without faults, [run_once] on a well-formed collection returns a created
    or a skipped entry. *)
Theorem run_once_succeeds w payload :
  let h := hash (payload_bytes payload) in
  let dir := format_timestamp_dir (clock (w_clock w)) in
  fault_free → repo_inv hash root w → uuids_ok → rfc3339_range (clock (w_clock w)) →
  payload_ok payload → dir_unused dir (entries w) → disk_ready root dir (w_fs w) →
  uuids_unused w → collection_valid (payload_bytes payload) →
  wp (run_once root payload h) (λ r _, ∃ o, r = Ok o) w.
Proof. intros h dir **. by apply (run_once_total hash). Qed.

(** C36: two backups within one second.  When another backup was named in the second
    in which new content is backed up, the new backup is created in the same
    directory and its bytes replace those of the other one, whose entry stays and
    no longer describes what is on the disk. *)
Theorem same_second_overwrites w payload e0 :
  let h := hash (payload_bytes payload) in
  let dir := format_timestamp_dir (clock (w_clock w)) in
  fault_free → repo_inv hash root w → uuids_ok → rfc3339_range (clock (w_clock w)) →
  payload_ok payload → e0 ∈ entries w → status e0 = Created → timestamp_dir e0 = dir →
  content_hash_of e0 ≠ h → (∀ l, latest_created (entries w) l → content_hash_of l ≠ h) →
  disk_ready root dir (w_fs w) → uuids_unused w → collection_valid (payload_bytes payload) →
  wp (run_once root payload h) (λ r w', (∃ e, r = Ok (RCreated e) ∧ timestamp_dir e = timestamp_dir e0) ∧
    e0 ∈ entries w' ∧ w_fs w' !! backup_file_path root e0 = Some (File (payload_bytes payload)) ∧
    ¬ backup_intact hash root (w_fs w') e0) w.
Proof.
  intros h dir Hff Hinv Huu Ht Hpl He0 Hst Hdir Hne Hch Hdisk Hun Hval.
  eapply wp_mono; [apply run_once_changed; try done; apply Hinv|].
  intros r w' (e & -> & _ & _ & _ & _ & Hpost).
  assert (timestamp_dir e = timestamp_dir e0) as Hsame by (rewrite Hdir; apply (cp_dir _ _ _ _ _ _ Hpost)).
  assert (w_fs w' !! backup_file_path root e0 = Some (File (payload_bytes payload))) as Hfile.
  { unfold backup_file_path. rewrite <- Hsame. apply (cp_file _ _ _ _ _ _ Hpost). }
  split_and!; [by exists e| |done|].
  - rewrite (cp_entries _ _ _ _ _ _ Hpost). by right.
  - intros (b & Hb & Hh & _). rewrite Hfile in Hb. injection Hb as <-. by apply Hne.
Qed.

(** A second run with content of the same hash, at any later time, never
    creates a backup and never writes a file: it records a skipped entry or
    fails.  The clock must have moved since the earlier backups. *)
Theorem run_once_again_skips w w1 payload payload' e :
  let h := hash (payload_bytes payload) in
  repo_inv hash root w → uuids_ok → rfc3339_range (clock (w_clock w)) → payload_ok payload →
  dir_unused (format_timestamp_dir (clock (w_clock w))) (entries w) →
  all_before (st_time (clock (w_clock w))) (entries w) →
  run_once root payload h w = (Ok (RCreated e), w1) → rfc3339_range (clock (w_clock w1)) →
  wp (run_once root payload' h) (λ r w2, repo_inv hash root w2 ∧
    match r with
    | Ok (RSkipped e2) => skipped_post w1 w2 h e2
    | Ok (RCreated _) | Panic _ => False
    | Err _ => True
    end) w1.
Proof.
  intros h Hinv Huu Ht Hpl Hdir Hbefore Hrun Ht1.
  run_spec (by apply (run_once_spec hash)) in Hrun as (_ & Hinv1 & _ & _ & Hpost).
  eapply wp_mono; [apply run_once_up_to_date; try done; by eapply created_up_to_date|].
  by intros r w2 (? & _ & ?).
Qed.

(** C21: [rollback_to] in every outcome.  Success means the pointer names a
    created backup with the identifier and one event is recorded.  A failure
    leaves the pointer or has moved it to that backup; entries, payload files
    and the invariant are untouched in any case. *)
Theorem rollback_outcomes i w :
  repo_inv hash root w → uuids_ok → uuid_ok i →
  wp (rollback_to root i) (λ r w', quiet w w' ∧ repo_inv hash root w' ∧ entries w' = entries w ∧
    agree_except [pointer_tmp root; pointer_path root] (w_fs w) (w_fs w') ∧
    match r with
    | Ok e => rollback_target i (entries w) e ∧ points_to root (w_fs w') e ∧
        ∃ ev, events w' = events w ++ [(ev, i)]
    | Err _ => (w_fs w' !! pointer_path root = w_fs w !! pointer_path root ∧ events w' = events w) ∨
        ∃ e, rollback_target i (entries w) e ∧ points_to root (w_fs w') e
    | Panic _ => False
    end) w.
Proof. apply rollback_to_spec. Qed.

(** [rollback_to] refuses an unknown identifier and a skipped entry, with
    the two messages of the code, and changes nothing. *)
Theorem rollback_refuses i w :
  repo_inv hash root w → uuid_ok i → (∀ e, ¬ rollback_target i (entries w) e) →
  wp (rollback_to root i) (λ r w', db_only w w' ∧ w_db w' = w_db w ∧
    ∃ err, r = Err err ∧
      (fault_free → err = ["backup not found: " +:+ uuid_to_string i] ∧ i ∉ (id <$> entries w) ∨
                    err = ["cannot rollback to skipped backup " +:+ uuid_to_string i] ∧
                    ∃ e, e ∈ entries w ∧ id e = i ∧ status e = Skipped)) w.
Proof. apply rollback_to_refused. Qed.

(** C22: without faults, a rollback to a created backup succeeds and returns its
    entry. *)
Theorem rollback_succeeds i e w :
  fault_free → repo_inv hash root w → uuids_ok → uuid_ok i →
  rollback_target i (entries w) e → state_ready root (w_fs w) →
  (∀ n, w_uuid w ≤ n → fresh_uuid n ∉ (events w).*1) →
  wp (rollback_to root i) (λ r _, r = Ok e) w.
Proof. apply rollback_to_total. Qed.

(** C11: pruning in every outcome.  What it drops was created before the cutoff;
    success drops all of it, returns how many, and without faults removes their
    directories with everything below.  Every other backup stays intact, also
    when pruning fails half way. *)
Theorem prune_outcomes n w :
  let cutoff := retention_cutoff (clock (w_clock w)) n in
  repo_inv hash root w → (0 < n)%Z → rfc3339_range (clock (w_clock w)) → rfc3339_range cutoff →
  wp (prune_created_older_than_days root n) (λ r w', quiet w w' ∧ repo_inv hash root w' ∧
    ∃ gone, prune_post root cutoff w w' gone ∧
    match r with
    | Ok k => k = length gone ∧ gone = filter (prunable (S := S) cutoff) (entries w) ∧
        (fault_free → ∀ e q, e ∈ gone → w_fs w !! backup_dir root (timestamp_dir e) = Some Dir →
           below (backup_dir root (timestamp_dir e)) q → w_fs w' !! q = None)
    | Err _ => True
    | Panic _ => False
    end) w.
Proof. apply prune_spec. Qed.

(** A retention of zero or fewer days prunes nothing and reads nothing, and
    a retention that [chrono] cannot represent panics before anything is
    removed. *)
Theorem prune_extremes n w :
  ((n ≤ 0)%Z → prune_created_older_than_days root n w = (Ok 0, w)) ∧
  ((0 < n)%Z →
   (max_duration_days < n ∨ retention_cutoff (clock (w_clock w)) n < min_utc)%Z →
   ∃ msg, prune_created_older_than_days root n w = (Panic msg, tick_clock w)).
Proof. split; [apply prune_disabled|apply prune_panics]. Qed.
End properties.

Section pointer_properties.
Context {S : Type} `{!Env, !Chrono, !UuidCrate, !SerdeJson} (root : Path).

(** Moving the pointer is atomic.  Whatever write or rename fails, and
    however many bytes of the temporary file were written, the pointer file is
    afterwards the old one or the complete new one, and no other file but the
    temporary one has changed. *)
Theorem pointer_update_atomic e (w : World S) :
  wp (write_current_pointer root e) (λ r w', w_db w' = w_db w ∧
    agree_except [pointer_tmp root; pointer_path root] (w_fs w) (w_fs w') ∧
    match r with
    | Ok _ => w_fs w' !! pointer_path root =
        Some (File (pointer_bytes (id e) (timestamp_dir e) (clock (w_clock w))))
    | Err _ => w_fs w' !! pointer_path root = w_fs w !! pointer_path root
    | Panic _ => False
    end) w.
Proof.
  eapply wp_mono; [apply write_current_pointer_spec|]. by intros r w' (_ & ? & _ & ? & ?).
Qed.
End pointer_properties.

Section directory_properties.
Context `{!Chrono, !ChronoLaws}.

(** The directory of a backup is one path component, and two instants get
    the same name exactly when they are in the same second. *)
Theorem timestamp_dir_names t1 t2 :
  rfc3339_range t1 → rfc3339_range t2 →
  is_name (format_timestamp_dir t1) ∧
  (format_timestamp_dir t1 = format_timestamp_dir t2 ↔ secs t1 = secs t2).
Proof. intros. split; [by apply format_timestamp_dir_name|by apply format_timestamp_dir_iff]. Qed.
End directory_properties.

Section history_properties.
Context {S : Type} `{!Env, !Chrono, !UuidCrate, !SerdeJson, !SqlEngine, !CollectionFile}.
Context `{!MetadataStore S, !StoreModel S, !StoreOpen S}.
Context `{!ChronoLaws, !SqlEngineLaws, !CollectionFileLaws, !StoreLaws S, !StoreOpenLaws S}.
Context (hash : bytes → string) (root : Path).
Implicit Types w : World S.

Abbreviation entries w := (st_entries (w_db w)).

(** C1: from an empty disk and an empty database, every history of openings,
    backups, listings, rollbacks and prunings, with any faults in it, ends in a
    repository in which every created entry has its own directory with a payload
    of the recorded hash and size, and the pointer file is absent or complete. *)
Theorem history_invariant ops w0 w1 w :
  uuids_ok → open_repository root store_new w0 = (Ok (), w1) → st_wf (migrate (w_db w0)) →
  entries w0 = [] → w_fs w0 !! pointer_path root = None → history hash root ops w1 w →
  repo_inv hash root w.
Proof.
  intros Huu Hopen Hwf He Hp Hh. eapply history_inv; [done..|].
  by eapply (open_fresh hash) in Hopen as [? _].
Qed.

(** C3: along any history an entry stays in the repository, with its payload
    intact if it is a backup; or the history has a pruning, with a positive
    retention, at which it was a backup older than the cutoff. *)
Theorem history_durability ops w w' e :
  uuids_ok → repo_inv hash root w → history hash root ops w w' → e ∈ entries w →
  (e ∈ entries w' ∧ (status e = Created → backup_intact hash root (w_fs w') e)) ∨
  ∃ ops1 n ops2 w1, ops = ops1 ++ OpPrune n :: ops2 ∧ history hash root ops1 w w1 ∧
    (0 < n)%Z ∧ prunable (S := S) (retention_cutoff (clock (w_clock w1)) n) e.
Proof.
  intros Huu Hinv Hh He. assert (repo_inv hash root w') as Hinv' by (by eapply history_inv).
  destruct (history_keeps hash root ops w w' e) as [He'|]; try done; [left|by right].
  split; [done|]. intros Hc. by apply (ri_files _ _ _ Hinv').
Qed.
End history_properties.

(** ** Witnesses *)

#[local] Existing Instance ref_env.

Lemma run_once_outcomes_witness :
  wp (backup_of ref_payload_bytes) (λ r w', ∃ e, r = Ok (RCreated e) ∧
    created_post ref_root w_opened w' (ref_payload ref_payload_bytes)
      (content_hash (payload_bytes (ref_payload ref_payload_bytes))) e) w_opened.
Proof.
  eapply wp_mono; [apply wp_and; [|exact first_created]|].
  - apply (run_once_outcomes content_hash ref_root w_opened (ref_payload ref_payload_bytes)
      opened_inv ref_uuids_ok (ref_clock_range _) (ref_payload_ok _) (dir_free_unused _ opened_free)).
  - intros [[e|e]|err|] w' [(_ & _ & _ & Hr) Hc]; try discriminate Hc. exists e. by destruct Hr.
Defined.

Lemma run_once_succeeds_witness :
  wp (backup_of ref_payload_bytes2) (λ r _, ∃ o, r = Ok o) w_skipped.
Proof.
  apply (run_once_succeeds content_hash ref_root w_skipped (ref_payload ref_payload_bytes2)
    ref_fault_free skipped_inv ref_uuids_ok (ref_clock_range _) (ref_payload_ok _)
    (dir_free_unused _ skipped_free) skipped_ready).
  - unfold uuids_unused. apply ids_unused; [by vm_compute|]. vm_compute. repeat constructor.
  - apply second_valid.
Defined.

(** The first backup once more, in the second in which it was taken. *)
Definition first_stored : BackupEntry := stored_entry (S := SqliteDb) first_entry.
Definition w_again : World SqliteDb := at_reading 0 w_backup.
Lemma again_entries : st_entries (w_db w_again) = [first_stored].
Proof. vm_compute. reflexivity. Qed.
Lemma again_status : status first_stored = Created.
Proof. vm_compute. reflexivity. Qed.
Lemma again_dir : timestamp_dir first_stored = format_timestamp_dir (clock (w_clock w_again)).
Proof. vm_compute. reflexivity. Qed.
Lemma again_hash : content_hash_of first_stored ≠ content_hash (payload_bytes (ref_payload ref_payload_bytes2)).
Proof. apply (bool_decide_unpack _). vm_compute. exact I. Qed.
Lemma again_ready : disk_ready_test (format_timestamp_dir (clock (w_clock w_again))) (w_fs w_again) = true.
Proof. vm_compute. reflexivity. Qed.
Lemma again_uuid : w_uuid w_again = 1.
Proof. vm_compute. reflexivity. Qed.
Lemma same_second_overwrites_witness :
  wp (backup_of ref_payload_bytes2) (λ _ w', ¬ backup_intact content_hash ref_root (w_fs w') first_stored) w_again.
Proof.
  eapply wp_mono; [apply (same_second_overwrites content_hash ref_root w_again (ref_payload ref_payload_bytes2)
    first_stored ref_fault_free (at_reading_inv 0 w_backup backup_inv)
    ref_uuids_ok (ref_clock_range _) (ref_payload_ok _))|].
  - rewrite again_entries. left.
  - exact again_status.
  - exact again_dir.
  - exact again_hash.
  - rewrite again_entries. intros l (Hl & _). apply list_elem_of_singleton in Hl. rewrite Hl. exact again_hash.
  - exact (disk_ready_test_ok _ _ again_ready).
  - intros n Hn. rewrite again_uuid in Hn. rewrite again_entries.
    apply (ids_unused _ 1); [by vm_compute| |exact Hn]. vm_compute. repeat constructor.
  - apply second_valid.
  - intros r w' (_ & _ & _ & Hno). exact Hno.
Defined.

Lemma opened_empty : st_entries (w_db w_opened) = [].
Proof. vm_compute. reflexivity. Qed.
Lemma first_result : result (backup_of ref_payload_bytes) w_opened = Ok (RCreated first_entry).
Proof. vm_compute. reflexivity. Qed.
Lemma first_run : backup_of ref_payload_bytes w_opened = (Ok (RCreated first_entry), w_backup).
Proof. exact (run_result _ _ _ first_result). Qed.
Lemma run_once_again_skips_witness :
  wp (backup_of ref_payload_bytes) (λ r w', ∃ e, r = Ok (RSkipped e) ∧
    skipped_post w_backup w' (content_hash (payload_bytes (ref_payload ref_payload_bytes))) e) w_backup.
Proof.
  assert (all_before (st_time (clock (w_clock w_opened))) (st_entries (w_db w_opened))) as Hbefore.
  { rewrite opened_empty. intros e He. destruct (not_elem_of_nil _ He). }
  eapply wp_mono; [apply wp_and; [|exact second_skipped]|].
  - apply (run_once_again_skips content_hash ref_root w_opened w_backup
      (ref_payload ref_payload_bytes) (ref_payload ref_payload_bytes) first_entry opened_inv ref_uuids_ok
      (ref_clock_range _) (ref_payload_ok _) (dir_free_unused _ opened_free) Hbefore first_run (ref_clock_range _)).
  - intros [[e|e]|err|] w' [[_ Hr] Hc]; try discriminate Hc. exists e. by split.
Defined.

Lemma rollback_outcomes_witness :
  wp (rollback_to ref_root 1%N) (λ r w', ∃ e, r = Ok e ∧ points_to ref_root (w_fs w') e) w_second.
Proof.
  eapply wp_mono; [apply wp_and; [|exact rollback_ok]|].
  - apply (rollback_outcomes content_hash ref_root 1%N w_second second_inv ref_uuids_ok). by vm_compute.
  - intros [e|err|] w' [(_ & _ & _ & _ & Hr) Hc]; try discriminate Hc. exists e. by destruct Hr as (_ & ? & _).
Defined.

(** Entry 2 was skipped. *)
Lemma rollback_refuses_witness :
  wp (rollback_to ref_root 2%N) (λ r w', w_db w' = w_db w_second ∧ ∃ err, r = Err err) w_second.
Proof.
  assert (∀ e, ¬ rollback_target 2%N (st_entries (w_db w_second)) e) as Hno.
  { assert (Forall (λ e, ¬ (id e = 2%N ∧ status e = Created)) (st_entries (w_db w_second))) as Hall.
    { apply (bool_decide_unpack _). vm_compute. exact I. }
    rewrite Forall_forall in Hall. intros e (He & Hi & Hc). by apply (Hall e He). }
  eapply wp_mono.
  - apply (rollback_refuses content_hash ref_root 2%N w_second second_inv); [by vm_compute|exact Hno].
  - intros r w' (_ & Hdb & err & Herr & _). split; [exact Hdb|]. by exists err.
Defined.

(** An entry that a rollback can go to, as a test. *)
Definition rollback_ready (i : Uuid) (e : BackupEntry) (w : World SqliteDb) : bool :=
  bool_decide (e ∈ st_entries (w_db w) ∧ id e = i ∧ status e = Created) &&
  bool_decide (state_ready ref_root (w_fs w)).
Lemma rollback_ready_ok i e w : rollback_ready i e w = true →
  rollback_target i (st_entries (w_db w)) e ∧ state_ready ref_root (w_fs w).
Proof. unfold rollback_ready. by rewrite andb_true_iff, !bool_decide_eq_true. Qed.
Lemma second_holds_first : rollback_ready 1%N (stored_entry (S := SqliteDb) first_entry) w_second = true.
Proof. vm_compute. reflexivity. Qed.
Lemma second_no_events : (st_events (w_db w_second)).*1 = [].
Proof. vm_compute. reflexivity. Qed.
Lemma rollback_succeeds_witness :
  wp (rollback_to ref_root 1%N) (λ r _, r = Ok (stored_entry (S := SqliteDb) first_entry)) w_second.
Proof.
  destruct (rollback_ready_ok _ _ _ second_holds_first) as [Htarget Hready].
  apply (rollback_succeeds content_hash ref_root 1%N (stored_entry (S := SqliteDb) first_entry) w_second
    ref_fault_free second_inv ref_uuids_ok).
  - by vm_compute.
  - exact Htarget.
  - exact Hready.
  - rewrite second_no_events. intros n _. apply not_elem_of_nil.
Defined.

(** Thirty days after the first backup it is pruned, and the second one stays. *)
Lemma prune_outcomes_witness :
  wp (prune_created_older_than_days (S := SqliteDb) ref_root 30)
    (λ r w', r = Ok 1 ∧ repo_inv content_hash ref_root w') w_late.
Proof.
  eapply wp_mono; [apply wp_and; [|exact late_prunes_one]|].
  - apply (prune_outcomes content_hash ref_root 30 w_late late_inv); [lia|apply ref_clock_range|].
    apply (bool_decide_unpack _). by vm_compute.
  - intros r w' [(_ & Hinv & _) Hr]. by split.
Defined.

Lemma prune_extremes_witness :
  prune_created_older_than_days ref_root (-1) w_second = (Ok 0, w_second) ∧
  ∃ msg, prune_created_older_than_days ref_root i64_max w_second = (Panic msg, tick_clock w_second).
Proof.
  split.
  - apply (prune_extremes ref_root (-1) w_second). lia.
  - apply (prune_extremes ref_root i64_max w_second); [done|left; done].
Defined.

Lemma timestamp_dir_names_witness :
  is_name (format_timestamp_dir 1709992800000000000) ∧
  format_timestamp_dir 1709992800000000000 = format_timestamp_dir 1709992800999999999.
Proof.
  destruct (timestamp_dir_names 1709992800000000000 1709992800999999999) as [Hn Hi];
    [by vm_compute|by vm_compute|]. split; [exact Hn|]. apply Hi. by vm_compute.
Defined.

Lemma history_invariant_witness : repo_inv content_hash ref_root w_rolled.
Proof.
  apply (history_invariant content_hash ref_root [ref_op; ref_op; OpRollback 1%N] (blank_world no_tables)
    w_opened w_rolled ref_uuids_ok).
  - vm_compute. reflexivity.
  - split; [|by exists []]. exists []. split_and!; [done|constructor|constructor].
  - reflexivity.
  - reflexivity.
  - exact ref_history.
Defined.

(** The backup taken first survives the rest of the history. *)
Lemma history_durability_witness :
  backup_intact content_hash ref_root (w_fs w_rolled) (stored_entry (S := SqliteDb) first_entry).
Proof.
  assert (stored_entry (S := SqliteDb) first_entry ∈ st_entries (w_db w_backup)) as He.
  { apply (list_elem_of_lookup_2 _ 0). vm_compute. reflexivity. }
  destruct (history_durability content_hash ref_root _ _ _ _ ref_uuids_ok backup_inv skip_history He)
    as [[_ Hkeep]|(ops1 & n & ops2 & w1 & Hops & _)].
  - apply Hkeep. vm_compute. reflexivity.
  - assert (OpPrune n ∈ [ref_op; OpRollback 1%N]) as Hin by (rewrite Hops; apply elem_of_app; right; left).
    rewrite !elem_of_cons, elem_of_nil in Hin. destruct Hin as [Hin|[Hin|[]]]; discriminate Hin.
Defined.
