(* ===== verification/TestProps.v ===== *)
(** * Properties of the program's own tests

    The claims that the unit tests and the integration tests of the repository pass
    on the model, for every environment without faults. *)

From S2P Require Import Prelude Calendar World Crates Core Sha256 Store Sqlite Postgres Stats Sample.
From S2P Require Import Repository RepositoryInv RepositoryThms RepositoryOps History Sync UnitTests.
From S2P Require Import Config Server Html IntegrationTests Daemon Service Reference Scenario.

Section test_properties.
Context {S : Type} `{!Env, !Chrono, !UuidCrate, !SerdeJson, !HashCrates, !SqlEngine, !CollectionFile}.
Context `{!MetadataStore S, !StoreModel S, !StoreOpen S}.
Context `{!ChronoLaws, !SqlEngineLaws, !CollectionFileLaws, !StoreLaws S, !StoreOpenLaws S}.
Context (root : Path) (sample : bytes).

(** The test [run_once_create_then_skip] passes over either store: opened on an
    empty directory, a repository takes a first backup of a well-formed collection,
    and records the same content as skipped the second time. *)
Theorem create_then_skip_test w :
  fault_free → blank (S := S) root w → uuids_ok → uuids_new root sample w →
  (∀ n, rfc3339_range (clock n)) → collection_valid sample →
  wp (run_once_create_then_skip root sample) (λ r _, r = Ok ()) w.
Proof. exact (create_then_skip_passes root sample w). Qed.
End test_properties.

Section prune_properties.
Context `{!Env, !Chrono, !UuidCrate, !SerdeJson, !SqlEngine, !CollectionFile}.
Context `{!ChronoLaws, !UuidLaws, !SerdeJsonLaws, !SqlEngineLaws, !CollectionFileLaws}.
Context (root : Path) (sample : bytes).

(** The test [prune_retention_deletes_old_created_backups] passes: a backup
    whose row is set back 400 days is the one that a retention of 90 days removes,
    with its directory. *)
Theorem prune_retention_test (w : World SqliteDb) :
  fault_free → blank root w → uuids_ok → (∀ n, rfc3339_range (clock n)) →
  (∀ n m, n ≤ m → (clock n ≤ clock m)%Z) → (∀ n, rfc3339_range (retention_cutoff (clock n) 400)) →
  collection_valid sample →
  wp (prune_retention_deletes_old_created_backups root sample) (λ r _, r = Ok ()) w.
Proof. exact (prune_retention_passes root sample w). Qed.
End prune_properties.

Section integration_properties.
Context `{!Env, !Chrono, !UuidCrate, !SerdeJson, !HashCrates, !Zstd, !SqlEngine, !CollectionFile,
  !SqliteFile, !HttpCrates, !TarCrate, !AxumCrate, !AskamaCrate}.
Context `{!ChronoLaws, !UuidLaws, !UuidTextLaws, !SerdeJsonLaws, !ZstdLaws, !SqlEngineLaws,
  !CollectionFileLaws, !SqliteFileLaws, !HeaderLaws, !AxumLaws, !AskamaLaws}.
Context (root : Path).

(** C9: the integration tests pass.  From an empty directory and database, when no call
    fails, the clock does not run backwards and its readings, and those 200 days
    before, are of the years 0 to 9999, the identifiers drawn for a second backup are
    new, [serde_json] reads the decks of the sample collection, and the two sample
    collections have different hashes, each of the thirteen tests runs to its end
    without a failed assertion.  Between them they open
    repositories, take, skip and prune backups of sample collections with known
    statistics, and ask the server for pages, JSON, downloads and rollbacks with and
    without the right tokens. *)
Theorem integration_tests_pass (w : World SqliteDb) :
  sound_machine → blank root w → st_events (w_db w) = [] → uuids_new root sample_collection w →
  content_hash sample_collection ≠ content_hash sample_collection_v2 →
  (∀ n m, n ≤ m → (clock n ≤ clock m)%Z) → (∀ n, rfc3339_range (retention_cutoff (clock n) 200)) →
  Forall (λ test, passes test w)
    [test_healthz root; test_index_html root; test_api_list_backups root; test_api_backup_detail root;
     test_download root; test_rollback root; test_unchanged_content_skipped root;
     test_changed_content_creates_new root; test_retention_pruning root;
     test_api_auth_rejected_without_token root; test_api_auth_accepted_with_token root;
     test_csrf_on_rollback root; test_backup_detail_html root].
Proof.
  intros Hm Hblank Hev Hnew Hne Hmono Hcut.
  repeat first [apply Forall_nil_2|apply Forall_cons_2].
  - by apply test_healthz_passes.
  - by apply test_index_html_passes.
  - by apply test_api_list_backups_passes.
  - by apply test_api_backup_detail_passes.
  - by apply test_download_passes.
  - by apply test_rollback_passes.
  - by apply test_unchanged_content_skipped_passes.
  - by apply test_changed_content_passes.
  - by apply test_retention_pruning_passes.
  - by apply test_api_auth_rejected_passes.
  - by apply test_api_auth_accepted_passes.
  - by apply test_csrf_on_rollback_passes.
  - by apply test_backup_detail_html_passes.
Qed.
End integration_properties.

Section hash_properties.
Context {S : Type} `{!HashCrates, !HashLaws}.

(** C26: the content hash is 64 lower-case hexadecimal digits, two contents have the
    same hash exactly when their SHA-256 digests agree, and the tests of [hash.rs]
    pass: the hash is a function of the content, and tells "v1" from "v2". *)
Theorem content_hash_text (w : World S) :
  (∀ m, String.length (content_hash m) = 64 ∧ all_chars is_hex_digit (content_hash m) = true) ∧
  (∀ m1 m2, content_hash m1 = content_hash m2 ↔ fips_sha256 m1 = fips_sha256 m2) ∧
  hash_is_stable_for_same_content w = (Ok (), w) ∧ hash_changes_when_content_changes w = (Ok (), w).
Proof.
  split_and!; [intros m; split|..].
  - apply content_hash_length.
  - apply content_hash_digits.
  - apply content_hash_iff.
  - apply hash_stable_passes.
  - apply hash_changes_passes.
Qed.
End hash_properties.

Section liveness.
Context {S : Type} `{!Env, !Chrono, !UuidCrate, !SerdeJson, !SqlEngine, !CollectionFile}.
Context `{!ChronoLaws, !SqlEngineLaws, !CollectionFileLaws}.
Context `{!MetadataStore S, !StoreModel S, !StoreLaws S}.
Context (hash : bytes → string) (root : Path).

(** C23: without faults, pruning returns how much it removed: with the times in
    the range of the calendar, and no file in the place of a backup's directory,
    it neither fails nor panics. *)
Theorem prune_succeeds n (w : World S) :
  let cutoff := retention_cutoff (clock (w_clock w)) n in
  fault_free → repo_inv hash root w → rfc3339_range (clock (w_clock w)) → rfc3339_range cutoff →
  (∀ e b, e ∈ st_entries (w_db w) → w_fs w !! backup_dir root (timestamp_dir e) ≠ Some (File b)) →
  wp (prune_created_older_than_days root n) (λ r _, ∃ k, r = Ok k) w.
Proof. intros cutoff ? ? ? ? Hfile. apply (prune_total hash root n w); try done. intros e b He _. by apply Hfile. Qed.
End liveness.

(** ** Witnesses *)

#[local] Existing Instance ref_env.

Lemma after_seq {S A} (m1 : M S ()) (m2 : M S A) w w1 w2 a :
  m1 w = (Ok (), w1) → m2 w1 = (Ok a, w2) → after (m1;; m2) w = w2.
Proof. intros Hm1 Hm2. unfold after, mbind, M_bind. by rewrite Hm1, Hm2. Qed.
Definition first_run : M SqliteDb RunOnceOutcome :=
  open_repository ref_root store_new;;
  run_once ref_root (test_payload ref_payload_bytes) (content_hash ref_payload_bytes).
Lemma first_run_ids :
  (w_uuid (after first_run w_empty), id <$> st_entries (w_db (after first_run w_empty))) = (1, [1%N]).
Proof. vm_compute. reflexivity. Qed.
Lemma empty_uuids_new : uuids_new ref_root ref_payload_bytes w_empty.
Proof.
  intros w1 w2 e Hopen Hrun. apply one_drawn.
  rewrite <- (after_seq (open_repository ref_root store_new)
    (run_once ref_root (test_payload ref_payload_bytes) (content_hash ref_payload_bytes))
    w_empty w1 w2 (RCreated e) Hopen Hrun).
  exact first_run_ids.
Qed.
Lemma ref_valid : collection_valid ref_payload_bytes.
Proof. apply collection_test_ok. vm_compute. reflexivity. Qed.

Lemma create_then_skip_test_witness :
  wp (run_once_create_then_skip ref_root ref_payload_bytes) (λ r _, r = Ok ()) w_empty.
Proof.
  exact (create_then_skip_test ref_root ref_payload_bytes w_empty ref_fault_free empty_blank ref_uuids_ok
    empty_uuids_new ref_clock_range ref_valid).
Defined.

Lemma ref_cutoff_range n : rfc3339_range (retention_cutoff (clock n) 400).
Proof.
  unfold rfc3339_range, retention_cutoff, clock, ref_env, make_env, ref_clock, secs_per_day, ns_per_sec. lia.
Qed.
Lemma prune_retention_test_witness :
  wp (prune_retention_deletes_old_created_backups ref_root ref_payload_bytes) (λ r _, r = Ok ()) w_empty.
Proof.
  exact (prune_retention_test ref_root ref_payload_bytes w_empty ref_fault_free empty_blank ref_uuids_ok
    ref_clock_range ref_clock_mono ref_cutoff_range ref_valid).
Defined.

Lemma content_hash_text_witness :
  String.length (content_hash (bytes_of_string "v1")) = 64 ∧
  hash_changes_when_content_changes w_empty = (Ok (), w_empty).
Proof.
  destruct (content_hash_text w_empty) as (Hlen & _ & _ & Htest).
  exact (conj (proj1 (Hlen (bytes_of_string "v1"))) Htest).
Defined.

Lemma backup_no_files : forallb (λ e, match w_fs w_backup !! backup_dir ref_root (timestamp_dir e) with
  | Some (File _) => false | _ => true end) (st_entries (w_db w_backup)) = true.
Proof. vm_compute. reflexivity. Qed.
Lemma prune_succeeds_witness :
  wp (prune_created_older_than_days ref_root 90) (λ r _, ∃ k, r = Ok k) w_backup.
Proof.
  apply (prune_succeeds content_hash ref_root 90 w_backup ref_fault_free backup_inv (ref_clock_range _)
    (proj2 (ref_clock_ok _))).
  intros e b He. pose proof backup_no_files as Hf. rewrite forallb_forall in Hf.
  specialize (Hf e (proj1 (list_elem_of_In _ _) He)). intros Heq. rewrite Heq in Hf. discriminate Hf.
Defined.

(** The integration tests do not depend on the hash function; this one is quick on
    long files. *)
#[local] Instance plain_hash : HashCrates := { sha256 b := b; hex_encode := hex_text }.

Lemma samples_differ : content_hash sample_collection ≠ content_hash sample_collection_v2.
Proof.
  intros Heq. apply (inj hex_text) in Heq. cbn [sha256 plain_hash] in Heq.
  apply (inj bytes_of_string) in Heq. apply (f_equal batch_read) in Heq.
  rewrite !batch_read_text in Heq. discriminate Heq.
Qed.
Definition sample_run : M SqliteDb RunOnceOutcome :=
  open_repository ref_root store_new;;
  run_once ref_root (test_payload sample_collection) (content_hash sample_collection).
Lemma sample_run_ids :
  (w_uuid (after sample_run w_empty), id <$> st_entries (w_db (after sample_run w_empty))) = (1, [1%N]).
Proof. vm_compute. reflexivity. Qed.
Lemma sample_uuids_new : uuids_new ref_root sample_collection w_empty.
Proof.
  intros w1 w2 e Hopen Hrun. apply one_drawn.
  rewrite <- (after_seq (open_repository ref_root store_new)
    (run_once ref_root (test_payload sample_collection) (content_hash sample_collection))
    w_empty w1 w2 (RCreated e) Hopen Hrun).
  exact sample_run_ids.
Qed.
Lemma ref_machine : sound_machine.
Proof. split; [exact ref_fault_free|exact ref_uuids_ok|exact ref_clock_range|vm_compute; reflexivity]. Qed.
Lemma ref_cutoff_200 n : rfc3339_range (retention_cutoff (clock n) 200).
Proof.
  unfold rfc3339_range, retention_cutoff, clock, ref_env, make_env, ref_clock, secs_per_day, ns_per_sec. lia.
Qed.
Lemma integration_tests_pass_witness : passes (test_csrf_on_rollback ref_root) w_empty.
Proof.
  apply (Forall_lookup_1 _ _ 11 _ (integration_tests_pass ref_root w_empty ref_machine empty_blank eq_refl
    sample_uuids_new samples_differ ref_clock_mono ref_cutoff_200)).
  reflexivity.
Defined.
