(* ===== verification/StoreProps.v ===== *)
(** * Properties of the metadata stores

    The claims about the two implementations of the store contract, about the
    encodings they use, and about what a client of the contract may rely on; each
    is followed by a run of the model at which its hypotheses hold. *)

From S2P Require Import Prelude Calendar World Crates Core Store Sqlite Postgres Stats Repository.
From S2P Require Import RepositoryInv RepositoryThms RepositoryOps History Sync Config Server.
From S2P Require Import Daemon Reference Scenario.

Section sqlite_properties.
Context `{!Env, !Chrono, !UuidCrate, !SerdeJson, !SqlEngine}.
Context `{!ChronoLaws, !UuidLaws, !SerdeJsonLaws, !SqlEngineLaws}.

(** C12: the SQLite store meets the contract of the trait: each operation has
    its effect on the abstract list of entries and events in every outcome,
    faults included, although instants are stored and compared as text and
    pruning deletes row by row. *)
Theorem sqlite_meets_contract : StoreLaws SqliteDb.
Proof. apply sqlite_store_laws. Qed.

(** Opening an SQLite store creates the missing tables and never loses a
    row, also when it fails half way. *)
Theorem sqlite_open_keeps_rows : StoreOpenLaws SqliteDb.
Proof. apply sqlite_open_laws. Qed.

(** Reading back a row written for an entry gives the entry. *)
Theorem sqlite_row_round_trip e (w : World SqliteDb) :
  entry_ok e → row_to_entry (entry_to_row e) w = (Ok e, w).
Proof. intros. by apply row_to_entry_run, row_entry_to_row. Qed.
End sqlite_properties.

Section postgres_properties.
Context `{!Env, !UuidCrate, !SerdeJson, !SqlEngine, !PgTimestamps}.
Context `{!SerdeJsonLaws, !SqlEngineLaws, !PgTimestampLaws}.

(** C13: the PostgreSQL store meets the contract: statements commit on their
    own, and a failure may be reported before or after the commit. *)
Theorem postgres_meets_contract : StoreLaws PgDb.
Proof. apply postgres_store_laws. Qed.

(** C32: reading back a row written for an entry gives the entry with its
    instant at the precision of the server, less than a microsecond away. *)
Theorem postgres_row_round_trip e (w : World PgDb) :
  (∀ s, stats e = Some s → stats_ok s) →
  pg_row_to_entry (pg_entry_to_row e) w = (Ok (stored_entry (S := PgDb) e), w) ∧
  (Z.abs (created_at (stored_entry (S := PgDb) e) - created_at e) < 1000)%Z.
Proof.
  intros Hs. split; [by apply pg_row_to_entry_run, pg_row_entry_to_row|]. apply pg_timestamp_close.
Qed.
End postgres_properties.

Section client_properties.
Context {S : Type} `{!Env, !UuidCrate, !MetadataStore S, !StoreModel S, !StoreLaws S}.
Implicit Types w : World S.

(** An entry that was inserted is found again by its identifier, and a
    second insertion with the same identifier is refused. *)
Theorem insert_then_get e w w1 :
  st_wf (w_db w) → entry_ok e → insert_entry e w = (Ok (), w1) →
  wp (get_backup (id e)) (λ r _, match r with Ok o => o = Some (stored_entry (S := S) e)
                                 | Err _ => True | Panic _ => False end) w1 ∧
  wp (insert_entry e) (λ r w2, ∃ err, r = Err err ∧ st_entries (w_db w2) ≡ₚ st_entries (w_db w1)) w1.
Proof.
  intros Hwf Hok Hins.
  run_spec (by apply insert_entry_law) in Hins as (_ & Hwf1 & _ & _ & Hp).
  assert (stored_entry (S := S) e ∈ st_entries (w_db w1)) as Hin by (rewrite Hp; left).
  assert (id e ∈ (id <$> st_entries (w_db w1))) as Hid by (by apply (list_elem_of_fmap_2 id) in Hin).
  split.
  - eapply wp_mono; [apply get_backup_law; [done|apply Hok]|].
    intros [[e'|]|err|] w2 (_ & _ & Hr); [|done..]. destruct Hr as [He' Hi]. f_equal.
    by apply (NoDup_fmap_elem id (st_entries (w_db w1))); [apply st_ids_nodup|..].
  - eapply wp_mono; [by apply insert_entry_law|].
    intros [[]|err|] w2 (_ & _ & _ & Hr); [by destruct Hr| |done].
    destruct Hr as [Hr|[Hno _]]; [by exists err|done].
Qed.
End client_properties.

Lemma newest_first_unique (l1 l2 : list BackupEntry) :
  newest_first l1 → newest_first l2 → l1 ≡ₚ l2 → NoDup (created_at <$> l1) → l1 = l2.
Proof.
  intros Hs1 Hs2 Hp Hnd. eapply StronglySorted_unique_strong; [|exact Hs1|exact Hs2|exact Hp].
  intros e1 e2 He1 He2 Ha Hb. rewrite <- Hp in He2. cbn beta in Ha, Hb.
  apply (NoDup_fmap_elem created_at l1); [done..|]. lia.
Qed.

Section backends.
Context {S1 S2 : Type} `{!Env, !UuidCrate}.
Context `{!MetadataStore S1, !StoreModel S1, !StoreLaws S1}.
Context `{!MetadataStore S2, !StoreModel S2, !StoreLaws S2}.

(** Two stores with the same entries list them alike: the backend cannot be
    told from the listing, if no two entries have the same instant. *)
Theorem backends_list_alike (w1 w1' : World S1) (w2 w2' : World S2) l1 l2 :
  st_wf (w_db w1) → st_wf (w_db w2) → st_entries (w_db w1) ≡ₚ st_entries (w_db w2) →
  NoDup (created_at <$> st_entries (w_db w1)) →
  list_backups w1 = (Ok l1, w1') → list_backups w2 = (Ok l2, w2') → l1 = l2.
Proof.
  intros Hwf1 Hwf2 Hp Hnd Hl1 Hl2.
  run_spec (by apply list_backups_law) in Hl1 as (_ & _ & Hp1 & Hs1).
  run_spec (by apply list_backups_law) in Hl2 as (_ & _ & Hp2 & Hs2).
  apply newest_first_unique; [done..|by rewrite Hp1, Hp2|by rewrite Hp1].
Qed.
End backends.

Section stats_properties.
Context {S : Type} `{!Env, !SerdeJson, !SqlEngine, !CollectionFile}.
Context `{!SerdeJsonLaws, !SqlEngineLaws, !CollectionFileLaws}.
Implicit Types w : World S.

(** Statistics survive being stored as JSON text. *)
Theorem stats_text_round_trip s : stats_ok s → stats_from_text (stats_to_text s) = Some s.
Proof. apply stats_from_to_text. Qed.

(** C25: extraction only reads, and what it returns describes the file: totals
    of cards, notes and reviews, each deck with cards once with its count and
    name, sorted by name, the counts adding up to the total.  It fails only on a
    fault or on a file that is not a collection. *)
Theorem extract_stats_correct path w :
  wp (extract_stats path) (λ r w', io_only w w' ∧
    match r with
    | Ok s => describes (w_fs w) path s ∧ stats_ok s
    | Err _ => ¬ fault_free ∨ (∀ b, w_fs w !! path = Some (File b) → ¬ collection_valid b)
    | Panic _ => False
    end) w.
Proof.
  eapply wp_mono; [apply extract_stats_spec|]. intros [s|e|] w' [Hio Hr]; [|done..].
  split_and!; [done..|]. by eapply describes_stats_ok.
Qed.
End stats_properties.

(** ** Witnesses *)

#[local] Existing Instance ref_env.

Definition ref_stats : BackupStats := {|
  total_cards := 3; total_decks := 3; total_notes := 2; total_revlog := 0;
  deck_stats := [{| deck_id := 9; deck_name := "Deck 9"; card_count := 1 |};
                 {| deck_id := 2; deck_name := "Kanji"; card_count := 2 |}];
|}.
Definition ref_entry : BackupEntry := {|
  id := 42; created_at := 1709992800123456789; timestamp_dir := "2024-03-09T14-00-00Z";
  content_hash_of := "020209"; status := Created; skip_reason := None; source_revision := None;
  sync_duration_ms := Some 1250%Z; size_bytes := 3; stats := Some ref_stats;
|}.
Lemma ref_stats_ok : stats_ok ref_stats.
Proof. apply (bool_decide_unpack _). by vm_compute. Qed.
Lemma ref_entry_ok : entry_ok ref_entry.
Proof.
  split_and!; [by vm_compute|apply (bool_decide_unpack _); by vm_compute|by vm_compute| |].
  - intros d [= <-]. by vm_compute.
  - intros s [= <-]. apply ref_stats_ok.
Qed.
Definition sqlite_empty : World SqliteDb := blank_world (sqlite_migrate no_tables).
Definition postgres_empty : World PgDb := blank_world (postgres_migrate no_pg_tables).
Lemma sqlite_empty_wf : st_wf (w_db sqlite_empty).
Proof. split; [|by exists []]. exists []. split_and!; [done|constructor|constructor]. Qed.
Lemma postgres_empty_wf : st_wf (w_db postgres_empty).
Proof. split; [|by eexists]. exists []. split_and!; [done|constructor|constructor]. Qed.

Lemma sqlite_meets_contract_witness : StoreLaws SqliteDb.
Proof. apply sqlite_meets_contract. Defined.

Lemma sqlite_open_keeps_rows_witness : StoreOpenLaws SqliteDb.
Proof. apply sqlite_open_keeps_rows. Defined.

Lemma sqlite_row_round_trip_witness :
  row_to_entry (entry_to_row ref_entry) sqlite_empty = (Ok ref_entry, sqlite_empty).
Proof. apply sqlite_row_round_trip. exact ref_entry_ok. Defined.

Lemma postgres_meets_contract_witness : StoreLaws PgDb.
Proof. apply postgres_meets_contract. Defined.

(** The nanoseconds are lost. *)
Lemma postgres_row_round_trip_witness :
  pg_row_to_entry (pg_entry_to_row ref_entry) postgres_empty =
    (Ok (stored_entry (S := PgDb) ref_entry), postgres_empty) ∧
  created_at (stored_entry (S := PgDb) ref_entry) = 1709992800123456000%Z.
Proof.
  split; [|reflexivity]. apply (postgres_row_round_trip ref_entry postgres_empty).
  intros s [= <-]. exact ref_stats_ok.
Defined.

Lemma insert_then_get_witness :
  wp (get_backup (id ref_entry)) (λ r _, match r with Ok o => o = Some (stored_entry (S := SqliteDb) ref_entry)
                                 | Err _ => True | Panic _ => False end)
    (after (insert_entry ref_entry) sqlite_empty).
Proof.
  assert (insert_entry ref_entry sqlite_empty = (Ok (), after (insert_entry ref_entry) sqlite_empty)) as Hins
    by (vm_compute; reflexivity).
  exact (proj1 (insert_then_get ref_entry sqlite_empty _ sqlite_empty_wf ref_entry_ok Hins)).
Defined.

(** One entry in both stores. *)
Definition micro_entry : BackupEntry := stored_entry (S := PgDb) ref_entry.
Lemma micro_entry_ok : entry_ok micro_entry.
Proof.
  destruct ref_entry_ok as (?&?&?&?&?). split_and!; [done|apply (bool_decide_unpack _); by vm_compute|done..].
Qed.
Lemma backends_list_alike_witness :
  result list_backups (after (insert_entry micro_entry) sqlite_empty) =
  result list_backups (after (insert_entry micro_entry) postgres_empty).
Proof.
  set (w1 := after (insert_entry micro_entry) sqlite_empty).
  set (w2 := after (insert_entry micro_entry) postgres_empty).
  assert (∀ l1 l2, result list_backups w1 = Ok l1 → result list_backups w2 = Ok l2 → l1 = l2) as Heq.
  { intros l1 l2 H1 H2. apply (backends_list_alike w1 (after list_backups w1) w2 (after list_backups w2)).
    - exact (proj1 (proj2 (insert_entry_law micro_entry sqlite_empty sqlite_empty_wf micro_entry_ok))).
    - exact (proj1 (proj2 (insert_entry_law micro_entry postgres_empty postgres_empty_wf micro_entry_ok))).
    - vm_compute. reflexivity.
    - apply (bool_decide_unpack _). by vm_compute.
    - rewrite run_after. by rewrite H1.
    - rewrite run_after. by rewrite H2. }
  assert (is_ok (result list_backups w1) = true) as Hok1 by (vm_compute; reflexivity).
  assert (is_ok (result list_backups w2) = true) as Hok2 by (vm_compute; reflexivity).
  destruct (result list_backups w1) as [l1|e|]; try discriminate Hok1.
  destruct (result list_backups w2) as [l2|e|]; try discriminate Hok2.
  f_equal. by apply Heq.
Defined.

Lemma stats_text_round_trip_witness : stats_from_text (stats_to_text ref_stats) = Some ref_stats.
Proof. apply stats_text_round_trip. exact ref_stats_ok. Defined.

Definition payload_at : Path := payload_path ref_root "2024-03-09T14-00-00Z".
Lemma extract_stats_correct_witness :
  wp (extract_stats payload_at) (λ r _, ∃ s, r = Ok s ∧ describes (w_fs w_backup) payload_at s ∧ stats_ok s)
    w_backup.
Proof.
  assert (wp (extract_stats payload_at) (λ r _, is_ok r = true) w_backup) as Hok by (vm_compute; reflexivity).
  eapply wp_mono; [apply wp_and; [|exact Hok]|].
  - apply (extract_stats_correct payload_at w_backup).
  - intros [s|e|] w' [[_ Hr] Hc]; try discriminate Hc. exists s. split; [reflexivity|exact Hr].
Defined.
