(* ===== verification/SyncProps.v ===== *)
(** * Properties of the AnkiWeb client

    The claims about [crates/sync/src/lib.rs]; each with hypotheses is followed by
    a run of the model at which they hold. *)

From S2P Require Import Prelude Calendar World Crates Core Store Sqlite Postgres Stats Repository.
From S2P Require Import RepositoryInv RepositoryThms RepositoryOps History Sync Config Server.
From S2P Require Import Daemon Reference Scenario.

(** ** Shapes of requests *)

Section shapes.
Context `{!Env, !SerdeJson, !Zstd, !HttpCrates}.

(** A POST of [body] to [method] below some base URL, with key [hkey]. *)
Definition request_of (method hkey sid : string) (body : bytes) (req : HttpRequest) : Prop :=
  ∃ base compressed, zstd_encode body = Some compressed ∧
    req = sync_post (base +:+ "/sync/" +:+ method)
      (json_to_string (sync_header_json hkey sid)) compressed.
(** [d] is what the server answers to the last of [reqs], which follow [n] others. *)
Definition answered (n : nat) (reqs : list HttpRequest) (d : bytes) : Prop :=
  ∃ reqs' req resp, reqs = reqs' ++ [req] ∧ http_answer (n + length reqs') req = inr resp ∧
    reply_data resp = Some d.

Lemma call_shape n base method hkey sid body reqs o :
  call n base method hkey sid body = (reqs, o) →
  length reqs ≤ 2 ∧ Forall (request_of method hkey sid body) reqs ∧
  ∀ d shard, o = Some (d, shard) → answered n reqs d.
Proof.
  unfold call, protocol_request. cbv zeta. destruct (zstd_encode body) as [c|] eqn:Hz; intros Heq.
  2: { simplify_eq. split_and!; simpl; [lia|constructor|done]. }
  assert (∀ base, request_of method hkey sid body (sync_post (base +:+ "/sync/" +:+ method)
    (json_to_string (sync_header_json hkey sid)) c)) as Hreq by (intros b; by exists b, c).
  destruct (http_answer n _) as [e|resp] eqn:Ha1; [simplify_eq; split_and!; simpl; [lia|by repeat constructor|done]|].
  destruct (redirect_base resp) as [shard|]; simplify_eq; (split_and!; [simpl; lia|by repeat constructor|]).
  - intros d sh Hd. destruct (http_answer (S n) _) as [e|resp2] eqn:Ha2; [done|].
    destruct (reply_data resp2) as [d'|] eqn:Hr; [|done]. simplify_eq/=. eexists [_], _, resp2.
    split_and!; [done| |done]. by rewrite Nat.add_1_r.
  - intros d sh Hd. destruct (reply_data resp) as [d'|] eqn:Hr; [|done]. simplify_eq/=.
    eexists [], _, resp. split_and!; [done| |done]. by rewrite Nat.add_0_r.
Qed.
Lemma answered_sends n reqs d : answered n reqs d → reqs ≠ [].
Proof. intros (reqs' & req & _ & -> & _) [_ ?]%app_nil. done. Qed.

(** The requests of a session: at most two per call, the password in the first call
    only, the host key that the server answered to it in the later ones; a call is
    made when the one before has been answered, and all are when the session
    delivers. *)
Definition session_parts (n : nat) (cfg : SyncConfig) (sid method : string) (body : bytes)
    (reqs : list HttpRequest) (delivered : Prop) : Prop :=
  ∃ r1 r2 r3 key, reqs = r1 ++ r2 ++ r3 ∧
    length r1 ≤ 2 ∧ length r2 ≤ 2 ∧ length r3 ≤ 2 ∧
    Forall (request_of "hostKey" "" sid
      (json_body (host_key_request (cfg_username cfg) (cfg_password cfg)))) r1 ∧
    Forall (request_of "meta" key sid (json_body meta_request)) r2 ∧
    Forall (request_of method key sid body) r3 ∧
    (r2 ≠ [] → ∃ d, answered n r1 d ∧ parse_reply host_key_of_json d = Some key) ∧
    (r3 ≠ [] → ∃ d, answered (n + length r1) r2 d) ∧
    (delivered → ∃ d, answered (n + length r1 + length r2) r3 d).

Lemma session_shape n cfg sid method body go_on reqs o :
  session n cfg sid method body go_on = (reqs, o) →
  session_parts n cfg sid method body reqs (is_Some o).
Proof.
  unfold session. cbv zeta. intros Heq.
  destruct (call n _ "hostKey" _ _ _) as [r1 o1] eqn:Hc1. apply call_shape in Hc1 as (? & ? & Ha1).
  destruct (o1 ≫= _) as [key|] eqn:Hkey.
  2: { simplify_eq. exists reqs, [], [], "". rewrite !app_nil_r. split_and!; simpl; done || lia. }
  assert (∃ d, answered n r1 d ∧ parse_reply host_key_of_json d = Some key) as Hkd.
  { destruct o1 as [[d shard]|]; [|done]. exists d. split; [by eapply Ha1|done]. }
  destruct (call _ _ "meta" _ _ _) as [r2 o2] eqn:Hc2. apply call_shape in Hc2 as (? & ? & Ha2).
  assert ((reqs, o) = (r1 ++ r2, None) → session_parts n cfg sid method body reqs (is_Some o)) as Hshort.
  { intros [= -> ->]. exists r1, r2, [], key. rewrite app_nil_r. split_and!; simpl; done || lia. }
  destruct o2 as [[d shard]|]; [|by apply Hshort]. destruct (go_on d); [|by apply Hshort].
  destruct (call _ _ method _ _ _) as [r3 o3] eqn:Hc3. apply call_shape in Hc3 as (? & ? & Ha3).
  simplify_eq. exists r1, r2, r3, key. split_and!; try done.
  - intros _. exists d. by eapply Ha2.
  - intros [b Hb]. destruct o3 as [[d3 shard3]|]; [|done]. exists d3. by eapply Ha3.
Qed.
End shapes.

Section sync_properties.
Context {S : Type} `{!Env, !SerdeJson, !Zstd, !HttpCrates}.
Implicit Types w : World S.

(** An operation sends nothing and fails, or runs a session. *)
Definition ran {A B} (f : A → B → Prop) (reqs : list HttpRequest)
    (session : list HttpRequest * option B) (r : Res A) : Prop :=
  (reqs = [] ∧ ¬ ∃ a, r = Ok a) ∨ ∃ o, session = (reqs, o) ∧
    match r with Ok a => ∃ b, o = Some b ∧ f a b | Err _ => o = None | Panic _ => False end.
Lemma sync_runs cfg w :
  wp (sync_collection cfg) (λ r w', ∃ reqs, w_sent w' = w_sent w ++ reqs ∧
    ran (λ res b, collection_bytes res = b ∧ is_i64 (sync_duration res)) reqs
      (session (length (w_sent w)) cfg (sid_at w) "download" (bytes_of_string "{}") meta_allows) r) w.
Proof.
  destruct (decide (cfg_username cfg = "" ∨ cfg_password cfg = "")) as [Hm|Hm].
  { unfold wp. rewrite (proj1 (missing_credentials cfg [] w Hm)). exists []. rewrite app_nil_r.
    split; [done|left]. split; [done|]. by intros [? [=]]. }
  destruct (fault (w_io w)) as [f|] eqn:Hf.
  { unfold sync_collection, build_client. rewrite !bool_decide_false by tauto. simpl. wp_steps.
    rewrite Hf. wp_steps. exists []. rewrite app_nil_r. split; [done|left]. split; [done|]. by intros [? [=]]. }
  destruct (session _ cfg _ "download" _ meta_allows) as [reqs o] eqn:Hses.
  eapply wp_mono; [apply sync_collection_spec; [tauto|tauto|done..]|].
  intros r w' (Hn & Hs & Hr). exists reqs. split; [done|right]. by exists o.
Qed.
Lemma upload_runs cfg b w :
  wp (upload_collection cfg b) (λ r w', ∃ reqs, w_sent w' = w_sent w ++ reqs ∧
    ran (λ _ _, True) reqs
      (session (length (w_sent w)) cfg (sid_at w) "upload" b (λ _, true)) r) w.
Proof.
  destruct (decide (cfg_username cfg = "" ∨ cfg_password cfg = "")) as [Hm|Hm].
  { unfold wp. rewrite (proj2 (missing_credentials cfg b w Hm)). exists []. rewrite app_nil_r.
    split; [done|left]. split; [done|]. by intros [? [=]]. }
  destruct (fault (w_io w)) as [f|] eqn:Hf.
  { unfold upload_collection, build_client. rewrite !bool_decide_false by tauto. simpl. wp_steps.
    rewrite Hf. wp_steps. exists []. rewrite app_nil_r. split; [done|left]. split; [done|]. by intros [? [=]]. }
  destruct (session (length (w_sent w)) cfg (sid_at w) "upload" b (λ _, true)) as [reqs o] eqn:Hses.
  eapply wp_mono; [apply upload_collection_spec; [tauto|tauto|done..]|].
  intros r w' (Hn & Hs & Hr). exists reqs. split; [done|right]. by exists o.
Qed.
Lemma nothing_sent n cfg sid method body (delivered : Prop) :
  ¬ delivered → session_parts n cfg sid method body [] delivered.
Proof. intros Hno. exists [], [], [], "". split_and!; simpl; done || lia. Qed.
Lemma parts_mono n cfg sid method body reqs (P Q : Prop) :
  session_parts n cfg sid method body reqs P → (Q → P) → session_parts n cfg sid method body reqs Q.
Proof.
  intros (r1 & r2 & r3 & key & ? & ? & ? & ? & ? & ? & ? & ? & ? & Hd) HQP.
  exists r1, r2, r3, key. split_and!; auto.
Qed.

(** C14: a download is the three-call protocol, whatever the server answers: the
    requests sent are those of [session], and the call succeeds exactly when the
    session delivers, with the bytes it delivers.  Files, database and gate are
    untouched. *)
Theorem download_follows_protocol cfg w reqs o :
  cfg_username cfg ≠ "" → cfg_password cfg ≠ "" → fault (w_io w) = None →
  session (length (w_sent w)) cfg (sid_at w) "download" (bytes_of_string "{}") meta_allows = (reqs, o) →
  wp (sync_collection cfg) (λ r w', net_only w w' ∧ w_sent w' = w_sent w ++ reqs ∧
    match r with
    | Ok res => o = Some (collection_bytes res) ∧ is_i64 (sync_duration res)
    | Err _ => o = None
    | Panic _ => False
    end) w.
Proof.
  intros. eapply wp_mono; [by apply sync_collection_spec|].
  intros [res|e|] w' (?&?&Hr); [|done..]. by destruct Hr as (b & -> & <- & ?).
Qed.

(** C15: so is an upload, with the collection as the body of the third call. *)
Theorem upload_follows_protocol cfg b w reqs o :
  cfg_username cfg ≠ "" → cfg_password cfg ≠ "" → fault (w_io w) = None →
  session (length (w_sent w)) cfg (sid_at w) "upload" b (λ _, true) = (reqs, o) →
  wp (upload_collection cfg b) (λ r w', net_only w w' ∧ w_sent w' = w_sent w ++ reqs ∧
    match r with Ok _ => is_Some o | Err _ => o = None | Panic _ => False end) w.
Proof.
  intros. eapply wp_mono; [by apply upload_collection_spec|].
  intros [res|e|] w' (?&?&Hr); [|done..]. by destruct Hr as (d & -> & _).
Qed.

(** C31: the requests of a download and of an upload, in every outcome: hostKey, meta
    and the last call in this order, at most two requests for each.  The password is
    in the body of the hostKey requests only; the later ones carry the host key that
    the server answered to it.  A call is made only when the one before it has been
    answered, and an operation that succeeds has had an answer to the last one, which
    carries the collection. *)
Theorem session_requests cfg w :
  wp (sync_collection cfg) (λ r w', ∃ reqs, w_sent w' = w_sent w ++ reqs ∧
    session_parts (length (w_sent w)) cfg (sid_at w) "download" (bytes_of_string "{}") reqs
      (∃ res, r = Ok res)) w ∧
  (∀ b, wp (upload_collection cfg b) (λ r w', ∃ reqs, w_sent w' = w_sent w ++ reqs ∧
    session_parts (length (w_sent w)) cfg (sid_at w) "upload" b reqs (r = Ok ())) w).
Proof.
  split; [|intros b].
  - eapply wp_mono; [apply sync_runs|]. intros r w' (reqs & Hs & Hr). exists reqs. split; [done|].
    destruct Hr as [[-> Hno]|(o & Hses & Hr)]; [by apply nothing_sent|].
    eapply parts_mono; [by eapply session_shape|]. intros [res ->]. by destruct Hr as (b & -> & _).
  - eapply wp_mono; [apply upload_runs|]. intros r w' (reqs & Hs & Hr). exists reqs. split; [done|].
    destruct Hr as [[-> Hno]|(o & Hses & Hr)].
    + apply nothing_sent. intros ->. by apply Hno; eexists.
    + eapply parts_mono; [by eapply session_shape|]. intros ->. by destruct Hr as (d & -> & _).
Qed.

(** The host key that a login obtains is written to the log at info level. *)
Theorem login_logs_host_key base user pass w :
  wp (login base user pass) (λ r w', ∀ key sid, r = Ok (key, sid) →
    {| log_level := Info; log_msg := "AnkiWeb login successful";
       log_fields := [("resp", "HostKeyResponse { key: " +:+ debug_str key +:+ " }")] |} ∈ w_log w') w.
Proof.
  unfold login, simple_session_id. wp_steps. apply map_sync_err_spec.
  destruct (call (length (w_sent w)) base "hostKey" "" (sid_at w)
    (json_body (host_key_request user pass))) as [reqs o] eqn:Hc.
  eapply wp_mono; [by apply sync_request_spec|]. intros [res|e|] w1 _; [|done..].
  unfold from_slice. wp_steps. destruct (_ ≫= _) as [key|]; wp_steps; [|done].
  intros ?? [= <- <-]. apply elem_of_app. right. left.
Qed.
End sync_properties.

(** C33: a session identifier has one to six letters and digits, and gives back
    the 32-bit random number it was made of, except that 0 and 52 share one. *)
Theorem session_id_properties n : (0 ≤ n < 2 ^ 32)%Z →
  1 ≤ String.length (session_id_of n) ≤ 6 ∧
  all_chars is_ascii_alphanumeric (session_id_of n) = true ∧
  (n ≠ 0%Z → session_value (session_id_of n) = Some n) ∧ session_id_of 0 = session_id_of 52.
Proof.
  intros Hn. unfold session_id_of at 1 2 3 4. destruct (Z.eqb_spec n 0) as [->|Hne].
  { split_and!; simpl; try lia; done. }
  destruct (session_loop_spec 6 n) as (Hv & Hl & Hc & Hne').
  { change (62 ^ Z.of_nat 6)%Z with 56800235584%Z. lia. }
  split_and!; try done. destruct (session_loop 6 n); [by destruct Hne'; [lia|]|simpl; lia].
Qed.

(** ** Witnesses *)

#[local] Existing Instance ref_env.

Definition ref_download : list HttpRequest * option bytes :=
  session (length (w_sent w_opened)) ref_account (sid_at w_opened) "download" (bytes_of_string "{}") meta_allows.
Definition ref_upload : list HttpRequest * option bytes :=
  session (length (w_sent w_opened)) ref_account (sid_at w_opened) "upload" ref_payload_bytes (λ _, true).
Lemma ref_download_delivers : ref_download.2 = Some ref_payload_bytes.
Proof. vm_compute. reflexivity. Qed.
Lemma ref_upload_delivers : ref_upload.2 = Some (bytes_of_string "OK").
Proof. vm_compute. reflexivity. Qed.
Lemma ref_download_pair : ref_download = (ref_download.1, Some ref_payload_bytes).
Proof. rewrite <- ref_download_delivers. by destruct ref_download. Qed.
Lemma ref_upload_pair : ref_upload = (ref_upload.1, Some (bytes_of_string "OK")).
Proof. rewrite <- ref_upload_delivers. by destruct ref_upload. Qed.

(** The server's collection arrives. *)
Lemma download_follows_protocol_witness :
  wp (sync_collection ref_account) (λ r w', ∃ res, r = Ok res ∧ collection_bytes res = ref_payload_bytes ∧
    w_sent w' = w_sent w_opened ++ ref_download.1) w_opened.
Proof.
  eapply wp_mono.
  - apply (download_follows_protocol ref_account w_opened ref_download.1 (Some ref_payload_bytes));
      [discriminate|discriminate|reflexivity|exact ref_download_pair].
  - intros [res|e|] w' (_ & Hs & Hr); [|discriminate Hr|destruct Hr].
    destruct Hr as [Hr _]. injection Hr as Hr. exists res. by rewrite Hr.
Defined.

Lemma upload_follows_protocol_witness :
  wp (upload_collection ref_account ref_payload_bytes) (λ r w', r = Ok () ∧
    w_sent w' = w_sent w_opened ++ ref_upload.1) w_opened.
Proof.
  eapply wp_mono.
  - apply (upload_follows_protocol ref_account ref_payload_bytes w_opened ref_upload.1
      (Some (bytes_of_string "OK"))); [discriminate|discriminate|reflexivity|exact ref_upload_pair].
  - intros [[]|e|] w' (_ & Hs & Hr); [by split|discriminate Hr|destruct Hr].
Defined.

Lemma session_id_properties_witness :
  session_value (session_id_of 4294967295) = Some 4294967295%Z ∧ session_id_of 4294967295 = "dmpPQe".
Proof.
  split; [|vm_compute; reflexivity].
  apply (session_id_properties 4294967295); [lia|discriminate].
Defined.
