(* ===== verification/DaemonProps.v ===== *)
(** * Properties of the server and the daemon

    The claims about [crates/daemon]: the guards, the handlers, the rollback gate,
    the scheduler and the settings; each with hypotheses is followed by a run of
    the model at which they hold. *)

From S2P Require Import Prelude Calendar World Crates Core Store Sqlite Postgres Stats Repository.
From S2P Require Import RepositoryInv RepositoryThms RepositoryOps History Sync Config Server.
From S2P Require Import ServerThms Daemon Reference Scenario.

Section server_properties.
Context {S : Type} `{!Env, !Chrono, !UuidCrate, !SerdeJson, !Zstd, !HttpCrates, !TarCrate, !AxumCrate}.
Context `{!ChronoLaws, !UuidLaws, !MetadataStore S, !StoreModel S, !StoreLaws S}.
Context (hash : bytes → string) (root : Path) (state : AppState).
Implicit Types w : World S.

Abbreviation entries w := (st_entries (w_db w)).

(** C27: a request without the configured token gets a client error and changes
    nothing at all, unless it is for the index, a detail page or the health
    check. *)
Theorem token_required rq w :
  require_api_auth state (rq_headers rq) = false →
  (∀ r, route_of (rq_path rq) = Some r → ¬ public_route r) →
  ∃ code, handle root state rq w = (Ok (inl code), w) ∧ (400 ≤ code < 500)%Z.
Proof. apply handle_unauthorized. Qed.

(** C10: a rollback request in every outcome.  Success: both tokens were right,
    the gate was open, the pointer names the requested backup, one event is
    recorded, the gate is closed at a later reading, and, with credentials, the
    very bytes of the backup went to AnkiWeb in a complete session.  Otherwise
    the gate is as before; and in any case entries and backups are intact. *)
Theorem rollback_request_outcomes id_text hs w :
  repo_inv hash root w → uuids_ok →
  wp (rollback_backup root state id_text hs) (λ r w', repo_inv hash root w' ∧
    entries w' = entries w ∧
    match r with
    | Ok (inr reply) => ∃ e, reply = rollback_reply state e ∧ rolled_back hash root state id_text hs w w' e
    | Ok (inl code) => w_gate w' = w_gate w ∧
        (require_api_auth state hs = false → code = 401%Z) ∧
        (code ∈ [401; 403; 429]%Z → untouched w w')
    | Err _ | Panic _ => False
    end) w.
Proof. apply rollback_backup_spec. Qed.

(** Within ten seconds of a rollback another one is refused with 429, and
    nothing but the clock has moved. *)
Theorem rollback_rate_limited id_text hs w last :
  require_api_auth state hs = true → csrf_accepted state hs = true →
  w_gate w = Some last → (clock (w_clock w) - last < 10 * ns_per_sec)%Z →
  rollback_backup root state id_text hs w = (Ok (inl 429%Z), tick_clock w).
Proof.
  intros Ha Hc Hg Ht. unfold rollback_backup. rewrite Ha, Hc. cbn [negb].
  assert (gate_closed w = (Ok true, tick_clock w)) as Hclosed.
  { unfold gate_closed, mbind, M_bind, gets, now. cbn. rewrite Hg.
    unfold mret, M_ret. do 2 f_equal. rewrite num_seconds_law. apply Z.ltb_lt. unfold ns_per_sec in *. Z.quot_rem_to_equations. lia. }
  unfold mbind, M_bind. by rewrite Hclosed.
Qed.

(** C28: a download changes nothing, and what it sends decompresses and unpacks
    to one file with the content of the recorded hash. *)
Theorem download_outcomes `{!ZstdLaws, !TarLaws} id_text hs w :
  repo_inv hash root w →
  wp (download_backup root state id_text hs) (λ r w', untouched w w' ∧
    match r with
    | Ok (inr (FileReply _ disposition a)) => require_api_auth state hs = true ∧
        ∃ e b, e ∈ entries w ∧ uuid_parse_str id_text = Some (id e) ∧ status e = Created ∧
          disposition = "attachment; filename=backup-" +:+ uuid_to_string (id e) +:+ ".tar.zst" ∧
          archive_of b a ∧ hash b = content_hash_of e
    | Ok (inr _) => False
    | Ok (inl code) => code ∈ [401; 400; 500; 404]%Z
    | Err _ | Panic _ => False
    end) w.
Proof. intros. by apply download_spec. Qed.


(** The detail page of a backup is served whatever the request's headers,
    and carries the CSRF token that guards rollbacks. *)
Theorem detail_page_reveals_csrf rq seg i e w w' :
  rq_method rq = GET → route_of (rq_path rq) = Some (DetailRoute seg) →
  percent_decode seg = Some (uuid_to_string i) → uuid_ok i → get_backup i w = (Ok (Some e), w') →
  handle root state rq w =
    (Ok (inr (DetailPage (detail_view e) (default "" (csrf_token state)))), w').
Proof.
  intros Hm Hr Hp Hi Hget. unfold handle. rewrite Hm, Hr. cbn [on_get]. unfold with_id, ok_or at 1.
  rewrite Hp. unfold backup_detail. rewrite uuid_parse_to_string by done.
  unfold ok_or at 1, or_status, repo_get_backup, attempt, mbind, M_bind. by rewrite Hget.
Qed.

(** An empty [api_token], as in the example configuration, does not turn
    authentication off: every request is unauthorized whose header is not the
    word Bearer followed by a single space. *)
Lemma empty_token_locks_out hs :
  api_token state = Some "" →
  get_header "authorization" hs ≫= header_to_str ≠ Some "Bearer " →
  require_api_auth state hs = false.
Proof.
  intros Ht Hh. unfold require_api_auth. rewrite Ht.
  destruct (get_header "authorization" hs ≫= header_to_str) as [v|]; cbn [mbind option_bind]; [|done].
  destruct (strip_prefix "Bearer " v) as [tok|] eqn:Hs; [|done].
  apply bool_decide_eq_false. intros ->. apply strip_prefix_Some in Hs as ->.
  by rewrite string_app_nil_r in Hh.
Qed.
End server_properties.

(** ** Sizes *)

Lemma round_half_even_near n d : (0 < d)%Z → (2 * Z.abs (round_half_even n d * d - n) ≤ d)%Z.
Proof.
  intros Hd. unfold round_half_even. cbv zeta. pose proof (Z.div_mod n d). pose proof (Z.mod_pos_bound n d).
  destruct (Z.ltb_spec (2 * (n mod d)) d); [lia|]. destruct (Z.ltb_spec d (2 * (n mod d))); [lia|].
  destruct (Z.even (n / d)); lia.
Qed.

(** A size below 2^53 bytes is shown in bytes, or as the nearest tenth of a
    kilobyte or of a megabyte. *)
Theorem format_size_nearest n : (0 ≤ n < 2 ^ 53)%Z →
  if (n <? 1024)%Z then format_size n = pretty n +:+ " B"
  else ∃ t, let unit := (if n <? 1048576 then 1024 else 1048576)%Z in
    format_size n = pretty (t / 10)%Z +:+ "." +:+ pretty (t mod 10)%Z +:+
      (if (n <? 1048576)%Z then " KB" else " MB") ∧
    (2 * Z.abs (t * unit - n * 10) ≤ unit)%Z.
Proof.
  intros Hn. unfold format_size, one_decimal. destruct (Z.ltb_spec n 1024); [done|].
  change (1024 * 1024)%Z with 1048576%Z.
  assert (i64_as_f64 n = n) as Hf.
  { unfold i64_as_f64. destruct (Z.ltb_spec (Z.abs n) (2 ^ 53)); [done|lia]. }
  rewrite Hf. destruct (Z.ltb_spec n 1048576); cbv zeta; rewrite !string_app_assoc;
    (eexists; split; [done|]); apply round_half_even_near; lia.
Qed.

(** ** The scheduler *)

Section daemon_properties.
Context {S : Type} `{!Env, !Chrono, !UuidCrate, !SerdeJson, !HashCrates, !Zstd, !SqlEngine,
  !CollectionFile, !HttpCrates}.
Context `{!ChronoLaws, !SqlEngineLaws, !CollectionFileLaws}.
Context `{!MetadataStore S, !StoreModel S, !StoreLaws S}.
Context (root : Path).
Implicit Types w : World S.

Abbreviation entries w := (st_entries (w_db w)).

(** The scheduler sleeps between one second and an hour, and wakes at a full
    hour; the [max] of the code never applies. *)
Theorem scheduler_wakes_on_the_hour t :
  (1 ≤ secs_to_next_hour t ≤ 3600 ∧ Z.max (secs_to_next_hour t) 1 = secs_to_next_hour t ∧
   (secs t + secs_to_next_hour t) mod 3600 = 0)%Z.
Proof. apply secs_to_next_hour_spec. Qed.

(** A scheduler round never fails: every error is logged.  It keeps the
    repository invariant whatever the server, the disk and the database do, and
    drops only entries that are past the retention; it records no rollback and
    leaves the rollback gate alone. *)
Theorem scheduler_round_outcomes cfg days w :
  repo_inv content_hash root w → uuids_ok → clock_ok days →
  dir_unused (format_timestamp_dir (clock (w_clock w))) (entries w) →
  wp (scheduler_round root cfg days) (λ r w', r = Ok () ∧ repo_inv content_hash root w' ∧
    st_events (w_db w') = st_events (w_db w) ∧ w_gate w' = w_gate w ∧ ∀ e, e ∈ entries w → e ∉ entries w' → ∃ n,
      prunable (S := S) (retention_cutoff (clock n) days) e) w.
Proof. apply scheduler_round_spec. Qed.

(** C39: with a retention that [chrono] cannot represent, the first round whose
    download succeeds panics, which ends the scheduler task. *)
Theorem oversized_retention_stops_scheduler cfg days w reqs b :
  cfg_username cfg ≠ "" → cfg_password cfg ≠ "" → fault (w_io w) = None →
  session (length (w_sent w)) cfg (sid_at w) "download" (bytes_of_string "{}") meta_allows =
    (reqs, Some b) →
  repo_inv content_hash root w → uuids_ok → rfc3339_range (clock (w_clock w)) →
  dir_unused (format_timestamp_dir (clock (w_clock w))) (entries w) → (max_duration_days < days)%Z →
  wp (scheduler_round root cfg days) (λ r _, ∃ msg, r = Panic msg) w.
Proof.
  intros Hu Hp Hf Hses Hinv Huu Ht Hdir Hdays. unfold scheduler_round. wp_steps.
  eapply wp_mono; [by apply sync_collection_spec|]. intros r w1 (Hn & Hs & Hr).
  pose proof Hn as (Hfs & Hdb & _ & Hc & _).
  destruct r as [sync|e|]; wp_steps; [|done..]. destruct Hr as (? & _ & _ & Hdur).
  eapply wp_mono; [apply scheduled_backup_spec; rewrite ?Hc, ?Hdb; try done|].
  { by apply (repo_inv_same content_hash root w). }
  intros r w2 (-> & Hinv2 & _). wp_steps. unfold scheduled_pruning, wp, mbind, M_bind, attempt.
  destruct (prune_panics root days w2) as [msg Hpr]; [|by left|].
  { assert (0 ≤ max_duration_days)%Z by (by vm_compute). lia. }
  rewrite Hpr. by exists msg.
Qed.

(** What is past the retention stays so. *)
Lemma prunable_later days t t' e : (t ≤ t')%Z →
  prunable (S := S) (retention_cutoff t days) e → prunable (S := S) (retention_cutoff t' days) e.
Proof.
  intros Ht [Hst Hold]. split; [done|]. eapply Z.lt_le_trans; [exact Hold|]. apply st_time_mono.
  unfold retention_cutoff. lia.
Qed.
(** Pruning without faults, when all that was created is past the retention. *)
Lemma prune_everything days w :
  fault_free → repo_inv content_hash root w → clock_ok days → (0 < days)%Z →
  (∀ e, e ∈ entries w → status e = Created →
    prunable (S := S) (retention_cutoff (clock (w_clock w)) days) e) →
  (∀ e, e ∈ entries w → status e = Created → w_fs w !! backup_dir root (timestamp_dir e) = Some Dir) →
  wp (scheduled_pruning root days) (λ r w', r = Ok () ∧
    (∀ e, e ∈ entries w' → status e = Skipped) ∧
    (∀ e, e ∈ entries w → status e = Created → w_fs w' !! backup_file_path root e = None) ∧
    w_fs w' !! pointer_path root = w_fs w !! pointer_path root) w.
Proof.
  intros Hff Hinv Hclk Hd Hold Hdir. set (cutoff := retention_cutoff (clock (w_clock w)) days) in *.
  unfold scheduled_pruning. wp_steps.
  eapply wp_mono; [apply wp_and; [apply (prune_spec content_hash root days w); [done|done|apply Hclk..]
                                 |apply (prune_total content_hash root days w); [done|done|apply Hclk..|]]|].
  { intros e b He Hst. by rewrite Hdir. }
  intros r w' [(_ & _ & gone & Hpost & Hr) [k ->]]. destruct Hr as (-> & -> & Hrm).
  assert ((∀ e, e ∈ entries w' → status e = Skipped) ∧
    (∀ e, e ∈ entries w → status e = Created → w_fs w' !! backup_file_path root e = None)) as [Hleft Hfiles].
  { split.
    - intros e He. pose proof (pp_entries _ _ _ _ _ Hpost) as Hp.
      rewrite (filter_split_perm (prunable (S := S) cutoff) (entries w)) in Hp at 1.
      apply Permutation_app_inv_l in Hp. rewrite <- Hp, list_elem_of_filter in He. destruct He as [Hno He].
      destruct (status e) eqn:Hst; [|done]. destruct Hno. by apply Hold.
    - intros e He Hst. apply (Hrm Hff e); [apply list_elem_of_filter; by auto|by apply Hdir|].
      destruct (ri_files _ _ _ Hinv e He Hst) as [Hn _]. change (backup_file_path root e) with (payload_path root (timestamp_dir e)).
      rewrite backup_dir_eq, payload_path_eq by done. eexists. by rewrite <- app_assoc. }
  pose proof (pp_pointer _ _ _ _ _ Hpost) as Hptr.
  wp_steps. case_decide; wp_steps; by split_and!.
Qed.

(** C38: retention does not spare the last backup.  Whenever the server still has the
    content of the latest backup and every created backup is past the retention, a
    round without faults, in which that content is found up to date, leaves no created
    entry and none of the payloads; the pointer file stays as it was, and names a
    backup that is gone. *)
Theorem retention_drops_last_backup cfg days w sync w1 :
  fault_free → repo_inv content_hash root w → uuids_ok → clock_ok days →
  (∀ n m, n ≤ m → (clock n ≤ clock m)%Z) → (0 < days)%Z → uuids_unused w →
  sync_collection cfg w = (Ok sync, w1) →
  up_to_date (content_hash (collection_bytes sync)) (entries w) →
  (∀ e, e ∈ entries w → status e = Created → w_fs w !! backup_dir root (timestamp_dir e) = Some Dir) →
  (∀ e, e ∈ entries w → status e = Created →
    prunable (S := S) (retention_cutoff (clock (w_clock w)) days) e) →
  wp (scheduler_round root cfg days) (λ r w', r = Ok () ∧
    (∀ e, e ∈ entries w' → status e = Skipped) ∧
    (∀ e, e ∈ entries w → status e = Created → w_fs w' !! backup_file_path root e = None) ∧
    w_fs w' !! pointer_path root = w_fs w !! pointer_path root) w.
Proof.
  intros Hff Hinv Huu Hclk Hmono Hd Hun Hsync Hup Hdir Hold. unfold scheduler_round. wp_steps.
  pose proof (sync_outcomes cfg w) as Hs. unfold wp in Hs |- *. rewrite Hsync in Hs |- *. cbn [fst snd] in Hs |- *.
  destruct Hs as ((Hfs & Hdb & _ & Hc & Hu) & _). fold (wp (S := S) (A := ())). cbn [bind_post].
  assert (repo_inv content_hash root w1) as Hinv1 by (by apply (repo_inv_same content_hash root w)).
  apply wp_bind. unfold scheduled_backup. wp_steps. rewrite <- Hdb in Hup.
  eapply wp_mono; [apply wp_and; [apply (run_once_up_to_date content_hash); try done; apply Hclk
    |apply (run_once_skip_total content_hash); try done; [apply Hclk|]]|].
  { intros n Hn. rewrite Hdb. apply Hun. lia. }
  intros r w2 [(Hinv2 & Hq & Hr) [o ->]]. destruct o as [e'|e']; [done|]. wp_steps.
  destruct Hr as [Hp _ _ Hst' _ _ Hfs2].
  assert (∀ e, e ∈ entries w2 → status e = Created → e ∈ entries w) as Hin.
  { intros e. rewrite Hp, Hdb. intros [->|He]%elem_of_cons Hst; [|done]. cbn in Hst. congruence. }
  assert (w_clock w1 ≤ w_clock w2) as Hle by apply Hq.
  eapply wp_mono; [apply prune_everything; [done| |done|done|..]; cbn [w_db w_fs w_clock add_log]|].
  - by eapply repo_inv_same; [..|exact Hinv2].
  - intros e He Hst. eapply prunable_later; [|by apply Hold; [apply Hin|]]. apply Hmono. lia.
  - intros e He Hst. rewrite Hfs2, Hfs. by apply Hdir; [apply Hin|].
  - cbn [w_db w_fs add_log]. rewrite Hfs2, Hfs. intros r w3 (-> & Hsk & Hfiles & Hptr). split_and!; [done|done| |done].
    intros e He Hst. apply Hfiles; [|done]. rewrite Hp, Hdb. by right.
Qed.
End daemon_properties.

(** ** Arguments *)

(** The command line as the program reads it: [--config] with its path, and other
    words. *)
Inductive Arg := ConfigArg (path : string) | ModeArg (word : string).
Definition arg_ok (a : Arg) : Prop := match a with ConfigArg _ => True | ModeArg w => w ≠ "--config" end.
Definition arg_words (a : Arg) : list string :=
  match a with ConfigArg p => ["--config"; p] | ModeArg w => [w] end.
Definition last_config (l : list Arg) : option string :=
  last (omap (λ a, match a with ConfigArg p => Some p | ModeArg _ => None end) l).
Definition last_mode (l : list Arg) : option string :=
  last (omap (λ a, match a with ConfigArg _ => None | ModeArg w => Some w end) l).

Lemma args_loop_words l tail c m : Forall arg_ok l →
  args_loop (concat (arg_words <$> l) ++ tail) c m =
  args_loop tail (or_else (last_config l) c) (or_else (last_mode l) m).
Proof.
  intros Hl. revert c m. induction Hl as [|a l Ha Hl IH]; intros c m; [done|].
  assert (∀ (x : string) xs, last (x :: xs) = or_else (last xs) (Some x)) as Hlast.
  { intros x xs. rewrite last_cons. by destruct (last xs). }
  assert (∀ (a b d : option string), or_else (or_else a b) d = or_else a (or_else b d)) as Hassoc
    by (by intros [] ??).
  destruct a as [p|wd]; simpl.
  - rewrite IH. unfold last_config, last_mode. simpl. by rewrite Hlast, Hassoc.
  - rewrite decide_False by done. rewrite IH. unfold last_config, last_mode. simpl. by rewrite Hlast, Hassoc.
Qed.
Lemma args_cover rest : ∃ l, Forall arg_ok l ∧
  (rest = concat (arg_words <$> l) ∨ rest = concat (arg_words <$> l) ++ ["--config"]).
Proof.
  remember (length rest) as n eqn:Hn. revert rest Hn.
  induction (lt_wf n) as [n _ IH]. intros rest ->.
  destruct rest as [|a rest]; [exists []; split; [constructor|by left]|].
  destruct (decide (a = "--config")) as [->|Ha].
  - destruct rest as [|p rest]; [exists []; split; [constructor|by right]|].
    destruct (IH (length rest)) with (rest := rest) as (l & Hl & Hr); [simpl; lia|done|].
    exists (ConfigArg p :: l). split; [by constructor|]. simpl. destruct Hr as [->| ->]; auto.
  - destruct (IH (length rest)) with (rest := rest) as (l & Hl & Hr); [simpl; lia|done|].
    exists (ModeArg a :: l). split; [by constructor|]. simpl. destruct Hr as [->| ->]; auto.
Qed.

(** The argument loop reads every command line: it fails exactly when the
    line ends in a [--config] without a path, and otherwise takes the last path
    and the last other word. *)
Theorem args_loop_reads rest :
  ∃ l, Forall arg_ok l ∧
    ((rest = concat (arg_words <$> l) ∧
      args_loop rest None None = inr (last_config l, last_mode l)) ∨
     (rest = concat (arg_words <$> l) ++ ["--config"] ∧
      args_loop rest None None = inl "--config requires a path argument")).
Proof.
  destruct (args_cover rest) as (l & Hl & Hr). exists l. split; [done|].
  assert (∀ o : option string, or_else o None = o) as Hnone by (by intros []).
  destruct Hr as [Hr|Hr]; [left|right]; (split; [done|]); rewrite Hr.
  - rewrite <- (app_nil_r (concat _)), args_loop_words by done. simpl. by rewrite !Hnone.
  - by rewrite args_loop_words.
Qed.

(** ** Witnesses *)

#[local] Existing Instance ref_env.

Definition request (m : Method) (path : string) (hs : Headers) : Request :=
  {| rq_method := m; rq_path := path; rq_headers := hs |}.

Lemma token_required_witness :
  ∃ code, handle ref_root ref_state
      (request POST "/backups/00000000-0000-0000-0000-000000000001/rollback" []) w_second =
    (Ok (inl code), w_second) ∧ (400 ≤ code < 500)%Z.
Proof.
  apply (token_required ref_root ref_state
    (request POST "/backups/00000000-0000-0000-0000-000000000001/rollback" []) w_second).
  - reflexivity.
  - intros r Hr. vm_compute in Hr. injection Hr as <-. intros [].
Defined.

(** A rollback to the first backup, uploaded to AnkiWeb. *)
Definition first_id : string := uuid_to_string 1%N.
Lemma rollback_request_ok :
  wp (rollback_backup (S := SqliteDb) ref_root ref_state first_id ref_headers)
    (λ r _, match r with Ok (inr _) => true | _ => false end = true) w_second.
Proof. vm_compute. reflexivity. Qed.
Lemma rollback_request_outcomes_witness :
  wp (rollback_backup ref_root ref_state first_id ref_headers) (λ r w', ∃ e,
    r = Ok (inr (rollback_reply ref_state e)) ∧
    rolled_back content_hash ref_root ref_state first_id ref_headers w_second w' e) w_second.
Proof.
  eapply wp_mono; [apply wp_and; [|exact rollback_request_ok]|].
  - apply (rollback_request_outcomes content_hash ref_root ref_state first_id ref_headers w_second
      second_inv ref_uuids_ok).
  - intros [[code|reply]|err|] w' [(_ & _ & Hr) Hc]; try discriminate Hc.
    destruct Hr as (e & -> & He). exists e. by split.
Defined.

(** A second rollback nine seconds later. *)
Definition w_gated : World SqliteDb := set_gate (Some (clock (w_clock w_second) - 9 * ns_per_sec)%Z) w_second.
Lemma set_gate_clock g (w : World SqliteDb) : w_clock (set_gate g w) = w_clock w.
Proof. done. Qed.
Lemma rollback_rate_limited_witness :
  rollback_backup ref_root ref_state first_id ref_headers w_gated = (Ok (inl 429%Z), tick_clock w_gated).
Proof.
  apply (rollback_rate_limited ref_root ref_state first_id ref_headers w_gated
    (clock (w_clock w_second) - 9 * ns_per_sec)%Z); [vm_compute; reflexivity..|].
  unfold w_gated. rewrite set_gate_clock. unfold ns_per_sec. lia.
Defined.

Lemma download_ok :
  wp (download_backup (S := SqliteDb) ref_root ref_state first_id ref_headers)
    (λ r _, match r with Ok (inr _) => true | _ => false end = true) w_second.
Proof. vm_compute. reflexivity. Qed.
Lemma download_outcomes_witness :
  wp (download_backup ref_root ref_state first_id ref_headers) (λ r w', ∃ t d a b e,
    r = Ok (inr (FileReply t d a)) ∧ archive_of b a ∧ content_hash b = content_hash_of e) w_second.
Proof.
  eapply wp_mono; [apply wp_and; [|exact download_ok]|].
  - apply (download_outcomes content_hash ref_root ref_state first_id ref_headers w_second second_inv).
  - intros [[code|[| t d a| |]]|err|] w' [[_ Hr] Hc]; try discriminate Hc; try destruct Hr.
    match goal with Hx : ∃ _ _, _ |- _ => destruct Hx as (e & b & _ & _ & _ & _ & Ha & Hh) end.
    exists t, d, a, b, e. split; [reflexivity|]. split; [exact Ha|exact Hh].
Defined.


Lemma second_finds_first :
  result (get_backup 1%N) w_second = Ok (Some (stored_entry (S := SqliteDb) first_entry)).
Proof. vm_compute. reflexivity. Qed.
Lemma detail_page_reveals_csrf_witness :
  ∃ view w', handle ref_root ref_state (request GET ("/backups/" +:+ first_id) []) w_second =
    (Ok (inr (DetailPage view "csrf")), w').
Proof.
  eexists _, _.
  apply (detail_page_reveals_csrf ref_root ref_state (request GET ("/backups/" +:+ first_id) [])
    first_id 1%N (stored_entry (S := SqliteDb) first_entry) w_second (after (get_backup 1%N) w_second)).
  - reflexivity.
  - vm_compute. reflexivity.
  - reflexivity.
  - by vm_compute.
  - exact (run_result _ _ _ second_finds_first).
Defined.

Lemma format_size_nearest_witness :
  format_size 123456789 = "117.7 MB" ∧
  ∃ t, format_size 123456789 = pretty (t / 10)%Z +:+ "." +:+ pretty (t mod 10)%Z +:+ " MB" ∧
    (2 * Z.abs (t * 1048576 - 123456789 * 10) ≤ 1048576)%Z.
Proof.
  split; [vm_compute; reflexivity|]. apply (format_size_nearest 123456789). lia.
Defined.

(** At 23:30:05 on the first of January 1970 the scheduler sleeps for 1795 seconds. *)
Lemma scheduler_wakes_on_the_hour_witness :
  secs_to_next_hour (84605 * ns_per_sec) = 1795%Z ∧
  ((secs (84605 * ns_per_sec) + secs_to_next_hour (84605 * ns_per_sec)) mod 3600 = 0)%Z.
Proof.
  split; [vm_compute; reflexivity|]. apply (scheduler_wakes_on_the_hour (84605 * ns_per_sec)).
Defined.

(** A download that is stored. *)
Lemma scheduler_round_outcomes_witness :
  wp (scheduler_round (S := SqliteDb) ref_root ref_account 90)
    (λ r w', r = Ok () ∧ repo_inv content_hash ref_root w') w_opened.
Proof.
  eapply wp_mono.
  - apply (scheduler_round_outcomes ref_root ref_account 90 w_opened opened_inv ref_uuids_ok ref_clock_ok
      (dir_free_unused _ opened_free)).
  - intros r w' (Hr & Hinv & _). by split.
Defined.

Definition ref_delivery : list HttpRequest * option bytes :=
  session (length (w_sent w_opened)) ref_account (sid_at w_opened) "download" (bytes_of_string "{}") meta_allows.
Lemma ref_delivery_pair : ref_delivery = (ref_delivery.1, Some ref_payload_bytes).
Proof.
  assert (ref_delivery.2 = Some ref_payload_bytes) as <- by (vm_compute; reflexivity).
  by destruct ref_delivery.
Qed.
Lemma oversized_retention_stops_scheduler_witness :
  wp (scheduler_round (S := SqliteDb) ref_root ref_account i64_max) (λ r _, ∃ msg, r = Panic msg) w_opened.
Proof.
  apply (oversized_retention_stops_scheduler ref_root ref_account i64_max w_opened ref_delivery.1
    ref_payload_bytes); [discriminate|discriminate|reflexivity|exact ref_delivery_pair|exact opened_inv|
    exact ref_uuids_ok|apply ref_clock_range|apply dir_free_unused, opened_free|by vm_compute].
Defined.

(** Ninety-one days after the only backup. *)
Definition w_old : World SqliteDb := at_reading 2184 w_backup.
Definition old_entry : BackupEntry := default no_entry (head (st_entries (w_db w_old))).
Lemma old_entries : st_entries (w_db w_old) = [old_entry].
Proof. vm_compute. reflexivity. Qed.
Lemma old_expired : bool_decide (prunable (S := SqliteDb) (retention_cutoff (clock (w_clock w_old)) 90) old_entry) = true.
Proof. vm_compute. reflexivity. Qed.
Lemma old_dir : w_fs w_old !! backup_dir ref_root (timestamp_dir old_entry) = Some Dir.
Proof. vm_compute. reflexivity. Qed.
Definition hash_of_sync (r : Res SyncResult) : string :=
  match r with Ok sync => content_hash (collection_bytes sync) | _ => "" end.
Lemma old_content : hash_of_sync (sync_collection ref_account w_old).1 = content_hash_of old_entry.
Proof. vm_compute. reflexivity. Qed.
Lemma synced_hash (m : M SqliteDb SyncResult) sync w w1 h : m w = (Ok sync, w1) →
  hash_of_sync (m w).1 = h → content_hash (collection_bytes sync) = h.
Proof. by intros ->. Qed.
Lemma old_syncs : is_ok (sync_collection ref_account w_old).1 = true.
Proof. vm_compute. reflexivity. Qed.
Lemma old_drawn : (w_uuid w_old, id <$> st_entries (w_db w_old)) = (1, [1%N]).
Proof. vm_compute. reflexivity. Qed.
Lemma old_clock_ok : clock_ok 90.
Proof. exact ref_clock_ok. Qed.
Lemma old_elem e : e ∈ st_entries (w_db w_old) → e = old_entry.
Proof. rewrite old_entries. apply list_elem_of_singleton. Qed.
Lemma old_created : status old_entry = Created.
Proof. exact (proj1 (bool_decide_eq_true_1 _ old_expired)). Qed.
Lemma old_in : old_entry ∈ st_entries (w_db w_old).
Proof. rewrite old_entries. apply list_elem_of_singleton. reflexivity. Qed.
Lemma up_to_date_one e : status e = Created → up_to_date (content_hash_of e) [e].
Proof. intros Hst. apply (up_to_date_cons [] e Hst). by intros x ?%elem_of_nil. Qed.
Lemma retention_drops_last_backup_witness :
  wp (scheduler_round (S := SqliteDb) ref_root ref_account 90) (λ r w', r = Ok () ∧
    (∀ e, e ∈ st_entries (w_db w') → status e = Skipped) ∧
    w_fs w' !! backup_file_path ref_root old_entry = None) w_old.
Proof.
  destruct (ok_run _ _ old_syncs) as (sync & w1 & Hsync).
  pose proof (synced_hash (sync_collection ref_account) sync w_old w1 _ Hsync old_content) as Hh. eapply wp_mono.
  - apply (retention_drops_last_backup ref_root ref_account 90 w_old sync w1 ref_fault_free
      (at_reading_inv 2184 w_backup backup_inv) ref_uuids_ok old_clock_ok ref_clock_mono).
    + reflexivity.
    + exact (one_drawn _ old_drawn).
    + exact Hsync.
    + rewrite Hh, old_entries. exact (up_to_date_one old_entry old_created).
    + intros e He%old_elem _. rewrite He. exact old_dir.
    + intros e He%old_elem _. rewrite He. exact (bool_decide_eq_true_1 _ old_expired).
  - intros r w' (Hr & Hsk & Hgone & _). split; [exact Hr|]. split; [exact Hsk|].
    exact (Hgone old_entry old_in old_created).
Defined.
