(* ===== verification/ServiceProps.v ===== *)
(** * Properties of the service and the program

    The claims about the running service, as a sequence of scheduler rounds and
    requests in any order, and about [main] with either store. *)

From S2P Require Import Prelude Calendar World Crates Core Store Sqlite Postgres Stats Repository.
From S2P Require Import RepositoryInv RepositoryThms RepositoryOps History Sync Config Server.
From S2P Require Import ServerThms Daemon Service Reference Scenario.

Section service_properties.
Context {S : Type} `{!Env, !Chrono, !UuidCrate, !SerdeJson, !HashCrates, !Zstd, !SqlEngine,
  !CollectionFile, !HttpCrates, !TarCrate, !AxumCrate}.
Context `{!ChronoLaws, !UuidLaws, !SqlEngineLaws, !CollectionFileLaws, !ZstdLaws, !TarLaws}.
Context `{!MetadataStore S, !StoreModel S, !StoreLaws S}.
Context (root : Path) (start : ServiceStart).
Implicit Types w : World S.

(** C8: along every sequence of scheduler rounds and requests, whatever the disk,
    the database, AnkiWeb and the clients do: the repository stays sound; an entry
    leaves only when it is past the retention; a rollback is recorded only if some
    request was a rollback with both tokens; and every next request gets an answer,
    never an error or a panic of the handler. *)
Theorem service_invariant ops w w' :
  uuids_ok → clock_ok (start_retention start) → service_run root start ops w w' →
  repo_inv content_hash root w →
  repo_inv content_hash root w' ∧
  (∀ e, e ∈ st_entries (w_db w) → e ∈ st_entries (w_db w') ∨
    ∃ n, prunable (S := S) (retention_cutoff (clock n) (start_retention start)) e) ∧
  (st_events (w_db w') = st_events (w_db w) ∨ Exists (is_roll_back start) ops) ∧
  ∀ rq, wp (handle root (start_state start) rq) (λ r _, ∃ reply, r = Ok reply) w'.
Proof.
  intros Huu Hclk Hrun Hinv. destruct (service_run_spec _ _ _ _ _ Huu Hclk Hrun Hinv)
    as (Hinv' & Hev & Hk). split_and!; try done. intros rq.
  eapply wp_mono; [by apply handle_spec|]. by intros r w2 (_ & _ & ? & _).
Qed.
End service_properties.

Section main_properties.
Context `{!Env, !Chrono, !UuidCrate, !SerdeJson, !HashCrates, !Zstd, !SqlEngine, !CollectionFile,
  !HttpCrates, !TomlCrate, !PgTimestamps}.
Context `{!ChronoLaws, !UuidLaws, !SerdeJsonLaws, !SqlEngineLaws, !CollectionFileLaws,
  !PgTimestampLaws}.

(** C16: the program, once its arguments are read.  It works on the database that
    the URL selects and leaves the other one alone; it loses no entry and no
    backup, in any outcome; [run-once] ends well only with a backup of what AnkiWeb
    delivered in the repository; otherwise the service starts with the settings on
    a sound repository, before anything is sent. *)
Theorem main_outcomes penv cfg mode w w1 :
  uuids_ok → (∀ n, rfc3339_range (clock n)) → parse_args penv w = (Ok (cfg, mode), w1) →
  let root := path_from (setting_root penv cfg) in
  match init_backend (setting_database_url penv cfg) with
  | SqliteBackend =>
      main_pre root (with_db (db_sqlite (w_db w)) w) →
      wp (main penv) (λ r w', (∃ db, w_db w' = set_sqlite db (w_db w)) ∧
        main_post penv cfg mode (with_db (db_sqlite (w_db w)) w) r
          (with_db (db_sqlite (w_db w')) w')) w
  | PostgresBackend =>
      main_pre root (with_db (db_postgres (w_db w)) w) →
      wp (main penv) (λ r w', (∃ db, w_db w' = set_postgres db (w_db w)) ∧
        main_post penv cfg mode (with_db (db_postgres (w_db w)) w) r
          (with_db (db_postgres (w_db w')) w')) w
  end.
Proof.
  intros Huu Hclk Hargs root.
  assert (reads_only w w1) as Hr by (apply (wp_run _ _ _ _ _ (parse_args_spec penv w) Hargs)).
  unfold main, wp, mbind, M_bind. rewrite Hargs. destruct (init_backend _); intros Hpre.
  - exact (main_at db_sqlite set_sqlite penv cfg mode w w1 (λ _ _, eq_refl) Huu Hclk Hr Hpre).
  - exact (main_at db_postgres set_postgres penv cfg mode w w1 (λ _ _, eq_refl) Huu Hclk Hr Hpre).
Qed.
End main_properties.

(** ** Witnesses *)

#[local] Existing Instance ref_env.

(** The service on a fresh repository: a round that stores what AnkiWeb delivers,
    then a rollback to that backup. *)
Definition w_round : World SqliteDb := after (scheduler_round ref_root ref_account 90) w_opened.
Definition w_answered : World SqliteDb := after (handle ref_root ref_state rollback_rq) w_round.

Lemma round_step (w : World SqliteDb) : dir_free w = true →
  service_step ref_root ref_start OpRound w (after (scheduler_round ref_root ref_account 90) w).
Proof.
  intros Hf. apply (service_round _ _ (result (scheduler_round ref_root ref_account 90) w)).
  - by apply dir_free_unused.
  - apply (run_after (scheduler_round ref_root ref_account 90)).
Qed.
Lemma request_step rq (w : World SqliteDb) :
  service_step ref_root ref_start (OpRequest rq) w (after (handle ref_root ref_state rq) w).
Proof.
  apply (service_request _ _ _ (result (handle ref_root ref_state rq) w)).
  apply (run_after (handle ref_root ref_state rq)).
Qed.
Lemma ref_service_run :
  service_run ref_root ref_start [OpRound; OpRequest rollback_rq] w_opened w_answered.
Proof.
  exact (service_run_cons _ _ _ _ w_opened w_round w_answered (round_step w_opened opened_free)
    (service_run_cons _ _ _ _ w_round w_answered w_answered (request_step rollback_rq w_round)
      (service_run_nil _ _ w_answered))).
Qed.
(** One backup and one rollback have been recorded in the end. *)
Lemma ref_service_counts :
  (length (st_entries (w_db w_answered)), st_events (w_db w_answered)) = (1, [(2%N, 1%N)]).
Proof. vm_compute. reflexivity. Qed.

Lemma service_invariant_witness :
  (length (st_entries (w_db w_answered)), st_events (w_db w_answered)) = (1, [(2%N, 1%N)]) ∧
  repo_inv content_hash ref_root w_answered ∧
  (st_events (w_db w_answered) = st_events (w_db w_opened) ∨
   Exists (is_roll_back ref_start) [OpRound; OpRequest rollback_rq]).
Proof.
  split; [exact ref_service_counts|].
  destruct (service_invariant ref_root ref_start [OpRound; OpRequest rollback_rq] w_opened w_answered
    ref_uuids_ok ref_clock_ok ref_service_run opened_inv) as (Hinv & _ & Hev & _).
  split; [exact Hinv|exact Hev].
Defined.

(** [run-once] on an empty disk, with both stores. *)
Definition ref_penv (url : option string) : ProcEnv := {|
  env_var name :=
    if decide (name = "ANKIWEB_USERNAME") then Some "user"
    else if decide (name = "ANKIWEB_PASSWORD") then Some "secret"
    else if decide (name = "ANKI_BACKUP_ROOT") then Some "/data"
    else if decide (name = "DATABASE_URL") then url
    else None;
  args := ["anki-backup"; "run-once"];
|}.
Definition w_blank : World Databases :=
  blank_world {| db_sqlite := no_tables; db_postgres := no_pg_tables |}.
Lemma ref_parse_args url :
  parse_args (ref_penv url) w_blank = (Ok (default_config, Some "run-once"), w_blank).
Proof. reflexivity. Qed.

Lemma blank_sqlite_pre :
  main_pre ref_root (with_db (db_sqlite (w_db w_blank)) w_blank).
Proof.
  split; [split|]; [|by intros e ?%elem_of_nil|by intros e1 e2 ?%elem_of_nil|by left|
    by intros n _ e ?%elem_of_nil].
  split; [|by exists []]. exists []. split_and!; [done|constructor|constructor].
Qed.
Lemma blank_postgres_pre :
  main_pre ref_root (with_db (db_postgres (w_db w_blank)) w_blank).
Proof.
  split; [split|]; [|by intros e ?%elem_of_nil|by intros e1 e2 ?%elem_of_nil|by left|
    by intros n _ e ?%elem_of_nil].
  split; [|by eexists]. exists []. split_and!; [done|constructor|constructor].
Qed.
Definition is_backed_up (r : Res MainEnd) : bool := match r with Ok BackedUp => true | _ => false end.
Lemma ref_main_sqlite : wp (main (ref_penv None)) (λ r _, is_backed_up r = true) w_blank.
Proof. vm_compute. reflexivity. Qed.
Lemma ref_main_postgres :
  wp (main (ref_penv (Some "postgres://db"))) (λ r _, is_backed_up r = true) w_blank.
Proof. vm_compute. reflexivity. Qed.

Lemma main_outcomes_witness :
  wp (main (ref_penv None)) (λ r w', r = Ok BackedUp ∧ db_postgres (w_db w') = no_pg_tables ∧
    backed_up ref_root (sync_config (ref_penv None) default_config)
      (with_db (db_sqlite (w_db w_blank)) w_blank) (with_db (db_sqlite (w_db w')) w')) w_blank ∧
  wp (main (ref_penv (Some "postgres://db"))) (λ r w', r = Ok BackedUp ∧
    db_sqlite (w_db w') = no_tables ∧
    backed_up ref_root (sync_config (ref_penv (Some "postgres://db")) default_config)
      (with_db (db_postgres (w_db w_blank)) w_blank) (with_db (db_postgres (w_db w')) w')) w_blank.
Proof.
  split.
  - eapply wp_mono; [apply wp_and; [|exact ref_main_sqlite]|].
    + exact (main_outcomes (ref_penv None) default_config (Some "run-once") w_blank w_blank
        ref_uuids_ok ref_clock_range (ref_parse_args None) blank_sqlite_pre).
    + intros [[|s]|e|msg] w' [[[db Hdb] (_ & _ & Hpost)] Hok]; try discriminate Hok.
      destruct Hpost as (_ & _ & Hb). split_and!; [reflexivity|rewrite Hdb; reflexivity|exact Hb].
  - eapply wp_mono; [apply wp_and; [|exact ref_main_postgres]|].
    + exact (main_outcomes (ref_penv (Some "postgres://db")) default_config (Some "run-once") w_blank
        w_blank ref_uuids_ok ref_clock_range (ref_parse_args (Some "postgres://db")) blank_postgres_pre).
    + intros [[|s]|e|msg] w' [[[db Hdb] (_ & _ & Hpost)] Hok]; try discriminate Hok.
      destruct Hpost as (_ & _ & Hb). split_and!; [reflexivity|rewrite Hdb; reflexivity|exact Hb].
Defined.
