(* ===== verification/PageProps.v ===== *)
(** * Properties of the pages

    The claims about the HTML pages, what a browser can do from them, and the
    types of the JSON replies. *)

From S2P Require Import Prelude Calendar World Crates Core Store Sqlite Stats Repository.
From S2P Require Import RepositoryInv Sync Config Server ServerThms Html ApiTypes Daemon Service.
From S2P Require Import Reference.
From S2P Require Import Scenario.

Section page_properties.
Context `{!AskamaCrate, !AskamaLaws}.

(** C30: what is stored cannot change the markup of a page: deck names, hashes and
    tokens of any content, in pages with the same lines and buttons, leave the
    same sequence of tag and quote characters. *)
Theorem page_markup_fixed :
  (∀ l1 l2, Forall2 same_item l1 l2 → markup (index_html l1) = markup (index_html l2)) ∧
  (∀ v1 v2 csrf1 csrf2, same_view v1 v2 → markup (detail_html v1 csrf1) = markup (detail_html v2 csrf2)).
Proof.
  unfold index_html, detail_html.
  split; intros; rewrite !markup_render; [by apply index_markup|by apply detail_markup].
Qed.

Context {S : Type} `{!Env, !Chrono, !UuidCrate, !SerdeJson, !Zstd, !HttpCrates, !TarCrate, !AxumCrate,
  !MetadataStore S}.
Context (root : Path) (state : AppState).
Implicit Types w : World S.

(** The rollback button of the detail page against the CSRF check.  It passes
    when the token has none of the characters that HTML escapes; with one of them
    the page sends another string, and every click is refused. *)
Theorem rollback_button v token hs w :
  csrf_token state = Some token → header_to_str (html_escape token) = Some (html_escape token) →
  has_char "/" (view_id v) = false → view_id v ≠ "" → has_special (view_id v) = false →
  let rq := rollback_click v token hs in
  csrf_accepted state (rq_headers rq) = negb (has_special token) ∧
  (has_special token = true →
    ∃ code, handle root state rq w = (Ok (inl code), w) ∧ code ∈ [400; 401; 403]%Z).
Proof.
  intros Ht Hh Hslash Hne Hid rq.
  assert (csrf_accepted state (rq_headers rq) = negb (has_special token)) as Hc.
  { unfold csrf_accepted. rewrite Ht. change (get_header "x-csrf-token" (rq_headers rq)) with (Some (html_escape token)).
    cbn [mbind option_bind]. rewrite Hh. cbn [default]. destruct (has_special token) eqn:Hs; simpl.
    - by apply bool_decide_eq_false, escape_special.
    - by apply bool_decide_eq_true, escape_plain. }
  split; [done|]. intros Hs. rewrite Hs in Hc. unfold handle. cbv zeta.
  assert (route_of (rq_path rq) = Some (RollbackRoute (view_id v))) as ->.
  { cbn [rq rollback_click rq_path]. rewrite escape_plain by done.
    by apply rollback_route. }
  cbn [rq rollback_click rq_method on_post]. unfold with_id, ok_or.
  destruct (percent_decode (view_id v)) as [i|]; [|exists 400%Z; split; [done|set_solver]].
  unfold rollback_backup. fold rq. rewrite Hc.
  destruct (require_api_auth state (rq_headers rq)); [exists 403%Z|exists 401%Z]; (split; [done|set_solver]).
Qed.

(** C40: when an API token is configured, neither the download link nor the
    rollback button of the pages works: a browser does not send the token, and the
    pages do not either. *)
Theorem page_actions_unauthorized v token csrf hs w :
  api_token state = Some token → get_header "authorization" hs = None →
  has_char "/" (view_id v) = false → view_id v ≠ "" → has_special (view_id v) = false →
  (∃ code, handle root state (download_click v hs) w = (Ok (inl code), w) ∧ (400 ≤ code < 500)%Z) ∧
  (∃ code, handle root state (rollback_click v csrf hs) w = (Ok (inl code), w) ∧ (400 ≤ code < 500)%Z).
Proof.
  intros Ht Hauth Hslash Hne Hid.
  assert (∀ h, get_header "authorization" h = None → require_api_auth state h = false) as Hno.
  { intros h Hh. unfold require_api_auth. by rewrite Ht, Hh. }
  split; apply handle_unauthorized.
  - by apply Hno.
  - cbn [download_click rq_path]. intros r Hr.
    rewrite (download_route (view_id v) Hslash Hne) in Hr. injection Hr as <-. by intros ?.
  - apply Hno. cbn [rollback_click rq_headers]. unfold get_header in *. cbn [list_find].
    rewrite decide_False by done. destruct (list_find _ hs) as [[]|]; [discriminate Hauth|done].
  - cbn [rollback_click rq_path]. rewrite escape_plain by done. intros r Hr.
    rewrite (rollback_route (view_id v) Hslash Hne) in Hr. injection Hr as <-. by intros ?.
Qed.

(** C29: every JSON reply of the server, in any state and whatever fails, has the
    type of its route: lists of items, an entry, the outcome of a rollback or the
    health, each with exactly its fields, and no other route answers JSON. *)
Theorem api_replies_typed rq w j w' :
  handle root state rq w = (Ok (inr (JsonReply j)), w') →
  ∃ r ty, route_of (rq_path rq) = Some r ∧ reply_type r = Some ty ∧ typed ty j = true.
Proof.
  destruct (route_of (rq_path rq)) as [r|] eqn:Hr.
  - intros Hrun. destruct (handle_replies root state rq r Hr w j w' Hrun) as (ty & Hty & Hj). by exists r, ty.
  - unfold handle. rewrite Hr. discriminate.
Qed.
End page_properties.

(** ** Witnesses *)

#[local] Existing Instance ref_env.

Definition ref_view (name : string) : BackupDetailView := {|
  view_id := "7"; view_created_at := "2024-03-09 14:00:00 UTC"; view_status := "created";
  view_content_hash := "ab"; view_size_display := "3 B";
  view_deck_stats := [{| deck_id := 1; deck_name := name; card_count := 2 |}];
|}.
Lemma page_markup_fixed_witness :
  markup (detail_html (ref_view "<script>") "csrf") = markup (detail_html (ref_view "Default") "csrf").
Proof. exact (proj2 page_markup_fixed (ref_view "<script>") (ref_view "Default") "csrf" "csrf"
  (conj (conj (λ e, e) (λ e, e)) eq_refl)). Defined.

Definition amp_state : AppState :=
  {| csrf_token := Some "a&b"; api_token := None; app_sync_config := None |}.
Lemma rollback_button_witness :
  csrf_accepted amp_state (rq_headers (rollback_click (ref_view "Default") "a&b" [])) = false ∧
  ∃ code, handle ref_root amp_state (rollback_click (ref_view "Default") "a&b" []) w_opened =
    (Ok (inl code), w_opened) ∧ code ∈ [400; 401; 403]%Z.
Proof.
  destruct (rollback_button ref_root amp_state (ref_view "Default") "a&b" [] w_opened eq_refl)
    as [Hc Hr]; [vm_compute; reflexivity|reflexivity|discriminate|reflexivity|].
  split; [rewrite Hc; reflexivity|exact (Hr eq_refl)].
Defined.

Lemma page_actions_unauthorized_witness :
  ∃ code, handle ref_root ref_state (download_click (ref_view "Default") []) w_opened =
    (Ok (inl code), w_opened) ∧ (400 ≤ code < 500)%Z.
Proof.
  destruct (page_actions_unauthorized ref_root ref_state (ref_view "Default") "token" "csrf" [] w_opened
    eq_refl eq_refl eq_refl) as [Hd _]; [discriminate|reflexivity|exact Hd].
Defined.

Definition list_rq : Request :=
  {| rq_method := GET; rq_path := "/api/v1/backups"; rq_headers := ref_headers |}.
Definition is_json (r : Res (Z + Reply)) : bool := match r with Ok (inr (JsonReply _)) => true | _ => false end.
Lemma list_answered : is_json (result (handle ref_root ref_state list_rq) w_backup) = true.
Proof. vm_compute. reflexivity. Qed.
Lemma api_replies_typed_witness :
  ∃ j ty, result (handle ref_root ref_state list_rq) w_backup = Ok (inr (JsonReply j)) ∧ typed ty j = true.
Proof.
  pose proof list_answered as Hj. pose proof (run_after (handle ref_root ref_state list_rq) w_backup) as Hrun.
  destruct (result (handle ref_root ref_state list_rq) w_backup) as [[code|[j| | |]]|e|msg]; try discriminate Hj.
  destruct (api_replies_typed ref_root ref_state list_rq w_backup j _ Hrun) as (r & ty & _ & _ & Hty).
  exists j, ty. split; [reflexivity|exact Hty].
Defined.
