(* ===== verification/ConcurrencyProps.v ===== *)
(** * Properties of the daemon under interleaving

    The claims about the scheduler and the requests as concurrent tasks: what no
    interleaving breaks, that requests get done, and where the shared temporary
    file of the pointer lets two of them disturb each other. *)

From stdpp Require Import relations.
From S2P Require Import Prelude Calendar World Tasks Crates Core Store Sqlite Postgres Stats.
From S2P Require Import Repository RepositoryInv RepositoryThms RepositoryOps History Sync Config.
From S2P Require Import Server ServerThms Daemon Async Interference Service Pool Spacing Downloads.
From S2P Require Import Lives Instances Race PointerFile.
From S2P Require Import Reference Scenario.

Section concurrency.
Context {S : Type} `{!Env, !Chrono, !UuidCrate, !SerdeJson, !HashCrates, !Zstd, !SqlEngine,
  !CollectionFile, !HttpCrates, !TarCrate, !AxumCrate, !MetadataStore S, !StoreModel S}.
Context (root : Path).

Context `{!ChronoLaws, !UuidLaws, !SqlEngineLaws, !CollectionFileLaws, !StoreLaws S}.
Context (start : ServiceStart).
Implicit Types (w : World S) (p : Pool S).

(** The clock does not run backwards. *)
Definition clock_steady : Prop := ∀ n m, n ≤ m → (clock n ≤ clock m)%Z.

(** C4: along every interleaving of the scheduler with any number of requests,
    with faults anywhere and clients that give up at any point: every created
    entry keeps its own directory with a payload of the recorded hash and size; an
    entry leaves only when it is past the retention; no task panics; and a request
    that has ended has a reply. *)
Theorem interleaving_invariant w p :
  uuids_ok → clock_ok (start_retention start) → clock_steady → repo_inv content_hash root w →
  rtc (pool_step root start) (initial_pool w) p →
  backups_inv root (p_world p) ∧
  (∀ e, e ∈ st_entries (w_db w) → e ∈ st_entries (w_db (p_world p)) ∨
    ∃ n, prunable (S := S) (retention_cutoff (clock n) (start_retention start)) e) ∧
  (∀ msg, p_sched p ≠ Done (Panic msg)) ∧
  (∀ n j r, p_jobs p !! n = Some j → j_task j = Done r → ∃ reply, r = Ok reply).
Proof.
  intros Huu Hclk Hmono Hinv Hrun.
  destruct (pool_reachable root start Hmono Huu Hclk w p Hinv Hrun) as [Hp Hk].
  split_and!; [apply Hp|exact Hk| |].
  - intros msg Hd. pose proof (pi_sched _ _ _ Hp) as Hs. unfold sound, wps in Hs. rewrite Hd in Hs.
    by destruct (Hs (p_world p) (reflexivity _) (pi_backups _ _ _ Hp)).
  - intros n j r. by apply (ended_replies root start).
Qed.

(** C18: however requests interleave, two rollbacks are answered with success only ten
    seconds apart.  When request [n] has been told that it has rolled back, the gate is
    closed at a reading of the clock; when later another one, or the same number
    again, is told so, the gate is closed at a reading that was taken after the first
    answer and is at least ten seconds later. *)
Theorem rollbacks_spaced w p1 p2 p2' n m :
  uuids_ok → clock_ok (start_retention start) → clock_steady → repo_inv content_hash root w →
  rtc (pool_step root start) (initial_pool w) p1 → told_rolled_back n p1 →
  rtc (pool_step root start) p1 p2 → pool_step root start p2 p2' →
  ¬ told_rolled_back m p2 → told_rolled_back m p2' →
  ∃ k1 k2, w_gate (p_world p1) = Some (clock k1) ∧ w_gate (p_world p2') = Some (clock k2) ∧
    k1 < w_clock (p_world p1) ≤ k2 ∧ k2 < w_clock (p_world p2') ∧
    (clock k1 + 10 * ns_per_sec ≤ clock k2)%Z.
Proof.
  intros Huu Hclk Hmono Hinv. apply (rollbacks_apart root start Hmono Huu Hclk).
  - by apply initial_pool_inv, repo_inv_backups.
  - apply initial_since.
Qed.

(** C19: no deadlock: in every state that can be reached, each request that is being
    served, also one that waits for the rollback mutex, can get its reply within 25
    steps that are its own or those of the request that holds the mutex; nobody has
    to give up, and the scheduler need not act. *)
Theorem requests_can_finish w p n j :
  uuids_ok → clock_ok (start_retention start) → clock_steady → repo_inv content_hash root w →
  rtc (pool_step root start) (initial_pool w) p → p_jobs p !! n = Some j →
  ∃ i p' j' reply, i ≤ 25 ∧ nsteps (serving_step root start n) i p p' ∧ p_jobs p' !! n = Some j' ∧
    j_task j' = Done (Ok reply).
Proof.
  intros Huu Hclk Hmono Hinv Hrun Hj.
  destruct (pool_reachable root start Hmono Huu Hclk w p Hinv Hrun) as [Hp _].
  pose proof (pool_bounded_run root start _ _ Hrun (initial_pool_bounded w)) as Hb.
  destruct (request_can_finish root start Hmono Huu Hclk p n j Hp Hb Hj) as (i & p' & j' & Hi & Hr & Hj' & reply & Hd).
  by exists i, p', j', reply.
Qed.

(** C6: a download that overlaps backups, pruning and rollbacks in any order never
    sends torn or foreign bytes: whatever the daemon has written and pruned in
    between, a file that a request sends is named after a backup that was recorded
    at the start or since, and unpacks to one collection of the hash and the size
    recorded for it. *)
Theorem downloads_consistent `{!ZstdLaws, !TarLaws} w p n j kind name body :
  uuids_ok → clock_ok (start_retention start) → clock_steady → backups_inv root w →
  rtc (pool_step root start) (initial_pool w) p → p_jobs p !! n = Some j →
  j_task j = Done (Ok (inr (FileReply kind name body))) →
  ∃ e b p1, rtc (pool_step root start) (initial_pool w) p1 ∧ rtc (pool_step root start) p1 p ∧
    e ∈ st_entries (w_db (p_world p1)) ∧ status e = Created ∧
    name = "attachment; filename=backup-" +:+ uuid_to_string (id e) +:+ ".tar.zst" ∧
    archive_of b body ∧ content_hash b = content_hash_of e ∧
    size_bytes e = as_i64 (Z.of_nat (length b)).
Proof.
  intros Huu Hclk Hmono Hinv Hrun Hj Ht.
  destruct (sent_recorded root start Huu Hclk Hmono w p n j kind name body Hinv Hrun Hj Ht)
    as (e & b & (p1 & Hr1 & Hr2 & He) & Hst & Hname & Harch & Hh & Hs).
  exists e, b, p1. split_and!; try done. by apply archive_round_trip.
Qed.

(** C5: processes come and go on the same disk, each killed after any of its calls
    or ended by itself, while it opens the repository, takes a backup or serves:
    the created entries still have their payloads, intact and in directories of
    their own; no entry is lost that was not past the retention of a service that
    ran; and a process that opens the repository works on sound backups. *)
Theorem lives_keep_backups `{!StoreOpen S, !StoreOpenLaws S} (configured : ServiceStart → Prop) w w' :
  uuids_ok → (∀ s, configured s → clock_ok (start_retention s)) → (∀ n, rfc3339_range (clock n)) →
  clock_steady → disk_inv root w → rtc (life root configured) w w' →
  disk_inv root w' ∧
  (∀ e, e ∈ st_entries (w_db w) → e ∈ st_entries (w_db w') ∨ ∃ s n, configured s ∧
    prunable (S := S) (retention_cutoff (clock n) (start_retention s)) e) ∧
  (∀ w1, open_repository root store_new w' = (Ok (), w1) →
    backups_inv root w1 ∧ st_entries (w_db w1) = st_entries (w_db w')).
Proof.
  intros Huu Hclk Hrange Hmono Hi Hrun.
  destruct (lives_disk root configured Huu Hclk Hrange Hmono w w' Hrun Hi) as [Hi' Hout].
  split_and!; [done| |].
  - intros e He. destruct (Hout e He) as [?|(s & Hs & n & Hn)]; [by left|right]. by exists s, n.
  - intros w1 Hop. by apply opened_runs.
Qed.

(** C35: two instances that share a repository can both store the same new content.
    Without faults there is an order of their calls in which each of them reads the
    last hash before the other has recorded its entry: both return a created
    backup, and both entries stay, with the same hash; when their clocks read the
    same second, as those of schedulers do that wake on the hour, also with the
    same directory. *)
Theorem instances_store_twice payload h w :
  fault_free → st_wf (w_db w) → uuids_ok → (∀ n, rfc3339_range (clock n)) → payload_ok payload →
  (∀ l, latest_created (st_entries (w_db w)) l → content_hash_of l ≠ h) → tidy root (w_fs w) →
  uuids_unused w →
  (∀ e w', run_once root payload h (after_reads w) = (Ok (RCreated e), w') → uuids_unused w') →
  collection_valid (payload_bytes payload) →
  ∃ e1 e2 w', rtc instances_step
    {| in_tasks := {[ 1 := run_once_task root payload h; 2 := run_once_task root payload h ]}; in_world := w |}
    {| in_tasks := {[ 1 := Done (Ok (RCreated e1)); 2 := Done (Ok (RCreated e2)) ]}; in_world := w' |} ∧
  st_entries (w_db w') ≡ₚ stored_entry (S := S) e2 :: stored_entry (S := S) e1 :: st_entries (w_db w) ∧
  id e1 ≠ id e2 ∧ status e1 = Created ∧ status e2 = Created ∧
  content_hash_of e1 = h ∧ content_hash_of e2 = h ∧
  (secs (clock (w_clock (after_reads w))) = secs (clock (w_clock w)) → timestamp_dir e1 = timestamp_dir e2).
Proof. apply both_create. Qed.

(** C37: a rollback can be answered with 400, without a rollback event, although the
    pointer then names the backup it asked for, and not the one that the scheduler has
    just taken and goes on to report as created.  Without any fault there is such an
    order of calls for every round that creates a backup and every authorised request
    for a rollback to a backup that is there: both write the same temporary file, and
    only the rollback mutex keeps requests apart. *)
Theorem rollback_refused_though_active p n rq a e sync w1 w2 :
  fault_free → clock_steady → uuids_ok → (∀ n, rfc3339_range (clock n)) →
  repo_inv content_hash root (p_world p) → fresh_seconds (p_world p) →
  gate_open (p_world p) → unlocked p →
  e ∈ st_entries (w_db (p_world p)) → status e = Created → rollback_request start rq e →
  p_sched p = scheduler_round_task root (start_account start) (start_retention start) →
  p_jobs p !! n = Some {| j_task := handle_task root (start_state start) rq; j_locked := false |} →
  sync_collection (start_account start) (p_world p) = (Ok sync, w1) →
  run_once root (payload_of sync) (content_hash (collection_bytes sync)) w1 = (Ok (RCreated a), w2) →
  ∃ cs p' j t, Forall (λ c, c = ChSched ∨ c = ChJob n) cs ∧ pool_exec root start cs p = Some p' ∧
    p_jobs p' !! n = Some j ∧ j_task j = Done (Ok (inl 400%Z)) ∧
    p_sched p' = published_task root start a ∧
    st_entries (w_db (p_world p')) ≡ₚ stored_entry (S := S) a :: st_entries (w_db (p_world p)) ∧
    st_events (w_db (p_world p')) = st_events (w_db (p_world p)) ∧
    w_fs (p_world p') !! pointer_path root = Some (File (pointer_bytes (id e) (timestamp_dir e) t)).
Proof.
  intros Hff Hmono Huu Hrange Hinv Hfs Ho Hun He Hst Hrq Hs Hj Hsync Hrun.
  destruct (round_race root start p n rq a e sync w1 w2 Hff Hmono Huu Hrange (repo_inv_backups _ _ Hinv)
    Hfs Ho Hun He Hst Hrq Hs Hj Hsync Hrun) as (cs & p' & j & t & Hcs & Hexec & Hj' & Ht & Hs' & Hdb & Hptr).
  destruct (created_alone root start sync a (p_world p) w1 w2 Huu Hrange Hinv Hfs Hsync Hrun) as [Hent Hev].
  exists cs, p', j, t. rewrite Hdb. by split_and!.
Qed.
End concurrency.

(** ** The pointer file *)

Section pointer_properties.
Context `{!Chrono, !UuidCrate, !SerdeJson}.

(** What [write_current_pointer] writes. *)
Definition is_pointer (c : bytes) : Prop := ∃ i dir t, c = pointer_bytes i dir t.

(** C24: when calls of [write_current_pointer] wait for each other, the pointer
    file holds a complete document at every moment in between their system calls,
    also when they fail or stop halfway. *)
Theorem pointer_exclusive_complete d s c :
  dir_ok is_pointer d → rtc (calls_step true is_pointer) {| c_dir := d; c_writers := ∅ |} s →
  pointer_content (c_dir s) = Some c → is_pointer c.
Proof.
  intros Hd Hrun Hc. eapply calls_ok_content; [|done]. eapply calls_run_ok; [done|].
  by apply fresh_calls_ok.
Qed.

(** C17: [write_current_pointer] as one operation on the disk refines the system calls:
    whatever fails in it, its outcome and the two files it leaves are those of a call
    that opens, writes, closes and renames with nobody else under way, and it returns
    success exactly when that call does. *)
Theorem pointer_write_refines {S} `{!Env} root d e (w : World S) :
  shows root d (w_fs w) →
  wp (write_current_pointer root e) (λ r w', ∃ d' ok,
    rtc (calls_step true is_pointer) {| c_dir := d; c_writers := ∅ |}
      {| c_dir := d'; c_writers := {[1 := WEnd ok]} |} ∧
    shows root d' (w_fs w') ∧ (r = Ok () ↔ ok = true)) w.
Proof. apply write_is_call. by eexists _, _, _. Qed.

(** C34: two calls at a time, for different documents, can publish an empty
    pointer file; and they can end, the one that wrote [c1] with success and the
    other with an error, with a pointer file that begins with [c2] and continues
    with the end of [c1]. *)
Theorem pointer_race d c1 c2 :
  is_pointer c1 → is_pointer c2 → c1 ≠ [] → c2 ≠ [] → d_tmp d = None →
  (∃ s, rtc (calls_step false is_pointer) {| c_dir := d; c_writers := ∅ |} s ∧
    pointer_content (c_dir s) = Some [] ∧ c_writers s !! 1 = Some (WEnd true)) ∧
  (∃ s, rtc (calls_step false is_pointer) {| c_dir := d; c_writers := ∅ |} s ∧
    pointer_content (c_dir s) = Some (c2 ++ drop (length c2) c1) ∧
    c_writers s !! 1 = Some (WEnd true) ∧ c_writers s !! 2 = Some (WEnd false)).
Proof.
  intros Hp1 Hp2 Hn1 Hn2 Ht. split; eexists; split_and!.
  - by eapply (empty_published _ d c1 c2).
  - unfold pointer_content. simpl. apply lookup_insert_eq.
  - done.
  - etrans; [by eapply (both_opened _ d c1 c2)|]. etrans; [by eapply first_published|].
    by eapply second_overwrites.
  - unfold pointer_content. simpl. apply lookup_insert_eq.
  - done.
  - done.
Qed.
End pointer_properties.

(** ** Witnesses *)

#[local] Existing Instance ref_env.

(** A repository with one backup, and a daemon on it. *)
Definition w_one : World SqliteDb := after (backup_of ref_payload_bytes2) w_opened.
Lemma one_inv : repo_inv content_hash ref_root w_one.
Proof. apply backup_of_inv; [apply opened_inv|by vm_compute]. Qed.

Lemma ref_clock_steady : clock_steady.
Proof. exact ref_clock_mono. Qed.

(** Backups are named after seconds that have passed. *)
Definition past_test (w : World SqliteDb) (ts : list DateTime) : bool :=
  forallb (λ e, existsb (λ t, bool_decide (timestamp_dir e = format_timestamp_dir t ∧ rfc3339_range t ∧
    (secs t < secs (clock (w_clock w)))%Z)) ts) (st_entries (w_db w)).
Lemma past_test_fresh w ts : past_test w ts = true → fresh_seconds w.
Proof.
  unfold past_test. rewrite forallb_forall. intros Hf n Hn e He _ Heq. specialize (Hf e).
  rewrite existsb_exists in Hf. destruct Hf as (t & _ & Ht); [by apply list_elem_of_In|].
  apply bool_decide_eq_true in Ht as (Hd & Hr & Hlt). rewrite Hd in Heq.
  apply format_timestamp_dir_iff in Heq; [|done|apply ref_clock_range].
  pose proof (ref_clock_steady _ _ Hn) as Hle. unfold secs in *.
  pose proof (Z.div_le_mono _ _ ns_per_sec ltac:(done) Hle). lia.
Qed.
Lemma one_fresh : fresh_seconds w_one.
Proof. apply (past_test_fresh _ [clock (w_clock w_opened)]). vm_compute. reflexivity. Qed.

Definition ref_pool : Pool SqliteDb :=
  set_sched (scheduler_round_task ref_root ref_account 90) (initial_pool w_one).
Lemma ref_pool_reached : rtc (pool_step ref_root ref_start) (initial_pool w_one) ref_pool.
Proof. apply rtc_once. exact (pool_round ref_root ref_start (initial_pool w_one) eq_refl one_fresh). Qed.

(** The scheduler takes a backup up to its temporary pointer file, a rollback
    replaces that file, the scheduler publishes it and ends its round, and the
    rollback goes on. *)
Definition race_schedule : list Choice :=
  replicate 12 ChSched ++ ChArrive 1 rollback_rq :: replicate 5 (ChJob 1) ++
  replicate 4 ChSched ++ [ChJob 1].
Definition race_pool : option (Pool SqliteDb) := pool_exec ref_root ref_start race_schedule ref_pool.
(** The reply of request 1, the events, the number of backups and the pointer. *)
Definition race_view (p : Pool SqliteDb) : option (Res (Z + Reply)) * list (N * Uuid) * nat * option Node :=
  (j ← p_jobs p !! 1; match j_task j with Done r => Some r | _ => None end,
   st_events (w_db (p_world p)), length (st_entries (w_db (p_world p))),
   w_fs (p_world p) !! pointer_path ref_root).
Lemma race_runs : race_view <$> race_pool =
  Some (Some (Ok (inl 400%Z)), [], 2,
    Some (File (pointer_bytes 1%N "2024-03-09T14-00-00Z" (clock 4)))).
Proof. vm_compute. reflexivity. Qed.
Lemma exec_reached cs p0 p : rtc (pool_step ref_root ref_start) (initial_pool w_one) p0 →
  pool_exec ref_root ref_start cs p0 = Some p → rtc (pool_step ref_root ref_start) (initial_pool w_one) p.
Proof. intros H0 Hp. etrans; [exact H0|]. exact (pool_exec_steps _ _ _ _ _ Hp). Qed.
Lemma race_reached p : race_pool = Some p → rtc (pool_step ref_root ref_start) (initial_pool w_one) p.
Proof.
  exact (exec_reached race_schedule ref_pool p ref_pool_reached).
Qed.

(** A rollback request at the start of the round. *)
Definition racing_pool : Pool SqliteDb :=
  set_jobs {[ 1 := {| j_task := handle_task ref_root ref_state rollback_rq; j_locked := false |} ]} ref_pool.
Lemma racing_sched : p_sched racing_pool =
  scheduler_round_task ref_root (start_account ref_start) (start_retention ref_start).
Proof.
  unfold racing_pool, ref_pool. cbn [p_sched set_jobs set_sched].
  change (start_account ref_start) with ref_account. change (start_retention ref_start) with 90%Z. reflexivity.
Qed.
Lemma racing_job : p_jobs racing_pool !! 1 =
  Some {| j_task := handle_task ref_root (start_state ref_start) rollback_rq; j_locked := false |}.
Proof. exact (lookup_singleton_eq 1 _). Qed.
Lemma racing_unlocked : unlocked racing_pool.
Proof. intros n j. cbn [p_jobs racing_pool set_jobs]. by intros [<- <-]%lookup_singleton_Some. Qed.
Lemma racing_round : is_created ((sync_collection ref_account ≫= λ sync,
  run_once ref_root (payload_of sync) (content_hash (collection_bytes sync))) w_one).1 = true.
Proof. vm_compute. reflexivity. Qed.

Lemma interleaving_invariant_witness :
  ∃ p, race_pool = Some p ∧ length (st_entries (w_db (p_world p))) = 2 ∧
    backups_inv ref_root (p_world p).
Proof.
  pose proof race_runs as Hv. destruct race_pool as [p|] eqn:Hp; [|discriminate Hv].
  injection Hv as _ _ Hl _. exists p. split; [reflexivity|]. split; [exact Hl|].
  destruct (interleaving_invariant ref_root ref_start w_one p ref_uuids_ok ref_clock_ok ref_clock_steady
    one_inv (race_reached p Hp)) as (Hinv & _). exact Hinv.
Defined.

(** A download that has found its entry when the scheduler takes another backup. *)
Definition download_rq : Request :=
  {| rq_method := GET; rq_path := "/backups/" +:+ uuid_to_string 1%N +:+ "/download";
     rq_headers := ref_headers |}.
Definition download_schedule : list Choice :=
  ChArrive 1 download_rq :: ChJob 1 :: replicate 12 ChSched ++ [ChJob 1].
Definition download_pool : option (Pool SqliteDb) :=
  pool_exec ref_root ref_start download_schedule ref_pool.
Definition reply_of (n : nat) (p : Pool SqliteDb) : option (Res (Z + Reply)) :=
  j ← p_jobs p !! n; match j_task j with Done r => Some r | _ => None end.
Lemma reply_of_job n p r : reply_of n p = Some r → ∃ j, p_jobs p !! n = Some j ∧ j_task j = Done r.
Proof.
  unfold reply_of. destruct (p_jobs p !! n) as [j|]; [|done]. cbn. intros Hj. exists j.
  split; [done|]. destruct (j_task j); [by injection Hj as ->|done..].
Qed.
Definition one_entry : BackupEntry := default no_entry (head (st_entries (w_db w_one))).
Lemma one_entries : st_entries (w_db w_one) = [one_entry].
Proof. vm_compute. reflexivity. Qed.
Lemma one_created : status one_entry = Created.
Proof. vm_compute. reflexivity. Qed.
Lemma one_elem : one_entry ∈ st_entries (w_db w_one).
Proof. rewrite one_entries. apply list_elem_of_singleton. reflexivity. Qed.
Definition download_file (p : Pool SqliteDb) : option (string * string * bytes) :=
  match reply_of 1 p with Some (Ok (inr (FileReply k d b))) => Some (k, d, b) | _ => None end.
Lemma download_runs :
  (λ p, (fst <$> download_file p, length (st_entries (w_db (p_world p))))) <$> download_pool =
  Some (Some ("application/zstd", disposition_of (id one_entry)), 2).
Proof. vm_compute. reflexivity. Qed.
Lemma downloads_consistent_witness :
  ∃ p kind d body e b, download_pool = Some p ∧ download_file p = Some (kind, d, body) ∧
    archive_of b body ∧ content_hash b = content_hash_of e.
Proof.
  pose proof download_runs as Hv. destruct download_pool as [p|] eqn:Hp; [|discriminate Hv].
  cbn [fmap option_fmap option_map] in Hv. injection Hv as Hf _.
  destruct (download_file p) as [[[kind d] body]|] eqn:Hfile; [|discriminate Hf].
  exists p, kind, d, body. unfold download_file in Hfile.
  destruct (reply_of 1 p) as [[[?|[]]| |]|] eqn:Hr; try discriminate Hfile.
  injection Hfile as -> -> ->. destruct (reply_of_job 1 p _ Hr) as (j & Hj & Ht).
  destruct (downloads_consistent ref_root ref_start w_one p 1 j kind d body ref_uuids_ok
    ref_clock_ok ref_clock_steady (repo_inv_backups _ _ one_inv)
    (exec_reached download_schedule ref_pool p ref_pool_reached Hp) Hj Ht)
    as (e & b & _ & _ & _ & _ & _ & _ & Ha & Hh & _).
  exists e, b. split; [reflexivity|]. split; [|split; [exact Ha|exact Hh]].
  unfold download_file. rewrite Hr. reflexivity.
Defined.
Definition one_id : string := uuid_to_string (id one_entry).
Lemma one_parses : uuid_parse_str one_id = Some (id one_entry).
Proof. vm_compute. reflexivity. Qed.
Lemma one_decodes : percent_decode one_id = Some one_id.
Proof. vm_compute. reflexivity. Qed.
Lemma one_routed : route_of (rq_path rollback_rq) = Some (RollbackRoute one_id).
Proof. vm_compute. reflexivity. Qed.
Lemma one_request : rollback_request ref_start rollback_rq one_entry.
Proof.
  split; [reflexivity| |vm_compute; reflexivity|vm_compute; reflexivity].
  exists one_id, one_id. split; [exact one_routed|]. split; [exact one_decodes|exact one_parses].
Qed.
Lemma one_gate : w_gate w_one = None.
Proof. vm_compute. reflexivity. Qed.
Lemma one_open : gate_open w_one.
Proof. intros last Hl. rewrite one_gate in Hl. discriminate Hl. Qed.
Lemma rollback_refused_though_active_witness :
  ∃ cs p' j t, pool_exec ref_root ref_start cs racing_pool = Some p' ∧ p_jobs p' !! 1 = Some j ∧
    j_task j = Done (Ok (inl 400%Z)) ∧
    w_fs (p_world p') !! pointer_path ref_root =
      Some (File (pointer_bytes (id one_entry) (timestamp_dir one_entry) t)).
Proof.
  destruct (created_run _ _ _ racing_round) as (sync & w1 & a & w2 & Hsync & Hrun).
  destruct (rollback_refused_though_active ref_root ref_start racing_pool 1 rollback_rq a one_entry sync w1 w2
    ref_fault_free ref_clock_steady ref_uuids_ok ref_clock_range one_inv one_fresh one_open racing_unlocked
    one_elem one_created one_request racing_sched racing_job Hsync Hrun)
    as (cs & p' & j & t & _ & Hexec & Hj & Ht & _ & _ & _ & Hptr).
  exists cs, p', j, t. split; [exact Hexec|]. split; [exact Hj|]. split; [exact Ht|exact Hptr].
Defined.

(** Two rollbacks, an hour apart: the first is told so, then the second. *)
Definition told_test (n : nat) (p : Pool SqliteDb) : bool :=
  match reply_of n p with
  | Some (Ok (inr (JsonReply (JObject [("rolled_back_to", JString _); ("uploaded", JBool _)])))) => true
  | _ => false
  end.
Lemma told_test_ok n p : told_test n p = true → told_rolled_back n p.
Proof.
  unfold told_test. destruct (reply_of n p) as [r|] eqn:Hr; [|done]. intros Ht.
  destruct (reply_of_job n p r Hr) as (j & Hj & Hd). exists j, r. split_and!; [done..|].
  repeat case_match; try discriminate Ht. simplify_eq. by eexists _, _.
Qed.
Lemma not_told_ok n p : told_test n p = false → ¬ told_rolled_back n p.
Proof.
  intros Ht (j & r & Hj & Hd & i & up & ->). unfold told_test, reply_of in Ht. rewrite Hj in Ht. cbn in Ht.
  by rewrite Hd in Ht.
Qed.
Definition first_told : option (Pool SqliteDb) :=
  pool_exec ref_root ref_start (ChArrive 1 rollback_rq :: replicate 12 (ChJob 1)) (initial_pool w_one).
Definition second_acts (p : Pool SqliteDb) : option (Pool SqliteDb) :=
  pool_exec ref_root ref_start (ChEnd 1 :: ChArrive 2 rollback_rq :: replicate 11 (ChJob 2)) p.
Lemma told_runs :
  (p1 ← first_told; p2 ← second_acts p1; p2' ← pool_next ref_root ref_start (ChJob 2) p2;
   Some (told_test 1 p1, told_test 2 p2, told_test 2 p2')) = Some (true, false, true).
Proof. vm_compute. reflexivity. Qed.
Lemma rollbacks_spaced_witness : ∃ p1 (p2' : Pool SqliteDb), first_told = Some p1 ∧ told_rolled_back 2 p2' ∧
  ∃ t1 t2, w_gate (p_world p1) = Some t1 ∧ w_gate (p_world p2') = Some t2 ∧ (t1 + 10 * ns_per_sec ≤ t2)%Z.
Proof.
  pose proof told_runs as Hv. destruct first_told as [p1|] eqn:Hp1; [|discriminate Hv].
  unfold mbind, option_bind in Hv. destruct (second_acts p1) as [p2|] eqn:Hp2; [|discriminate Hv].
  destruct (pool_next ref_root ref_start (ChJob 2) p2) as [p2'|] eqn:Hp2'; [|discriminate Hv].
  assert (told_test 1 p1 = true ∧ told_test 2 p2 = false ∧ told_test 2 p2' = true) as (Ht1 & Ht2 & Ht3)
    by (split_and!; congruence).
  destruct (rollbacks_spaced ref_root ref_start w_one p1 p2 p2' 1 2 ref_uuids_ok ref_clock_ok
    ref_clock_steady one_inv (exec_reached _ _ p1 (rtc_refl _ _) Hp1) (told_test_ok 1 p1 Ht1)
    (pool_exec_steps _ _ _ _ _ Hp2) (pool_next_step _ _ _ _ _ Hp2') (not_told_ok 2 p2 Ht2) (told_test_ok 2 p2' Ht3))
    as (k1 & k2 & Hg1 & Hg2 & _ & _ & Hle).
  exists p1, p2'. split; [reflexivity|]. split; [exact (told_test_ok 2 p2' Ht3)|].
  exists (clock k1), (clock k2). split; [exact Hg1|]. split; [exact Hg2|exact Hle].
Defined.

(** A request that waits while another one holds the mutex. *)
Definition waiting_pool : option (Pool SqliteDb) :=
  pool_exec ref_root ref_start [ChArrive 1 rollback_rq; ChJob 1; ChJob 1; ChArrive 2 rollback_rq]
    (initial_pool w_one).
Lemma waiting_reached p : waiting_pool = Some p → rtc (pool_step ref_root ref_start) (initial_pool w_one) p.
Proof. exact (exec_reached _ (initial_pool w_one) p (rtc_refl _ _)). Qed.
Lemma waiting_waits :
  (p ← waiting_pool; j ← p_jobs p !! 2;
   Some (match j_task j with Lock _ => true | _ => false end, bool_decide (unlocked p))) =
  Some (true, false).
Proof. vm_compute. reflexivity. Qed.
Lemma requests_can_finish_witness :
  ∃ p i p' j' reply, waiting_pool = Some p ∧ ¬ unlocked p ∧ i ≤ 25 ∧
    nsteps (serving_step ref_root ref_start 2) i p p' ∧
    p_jobs p' !! 2 = Some j' ∧ j_task j' = Done (Ok reply).
Proof.
  pose proof waiting_waits as Hv. destruct waiting_pool as [p|] eqn:Hp; [|discriminate Hv].
  unfold mbind, option_bind in Hv. destruct (p_jobs p !! 2) as [j|] eqn:Hj; [|discriminate Hv].
  assert (bool_decide (unlocked p) = false) as Hu by congruence. apply bool_decide_eq_false in Hu.
  destruct (requests_can_finish ref_root ref_start w_one p 2 j ref_uuids_ok ref_clock_ok
    ref_clock_steady one_inv (waiting_reached p Hp) Hj) as (i & p' & j' & reply & Hi & Hrun & Hj' & Hd).
  exists p, i, p', j', reply. split; [reflexivity|]. split; [exact Hu|]. split; [exact Hi|]. split; [exact Hrun|].
  split; [exact Hj'|exact Hd].
Defined.

(** A pointer that is written for the first time. *)
Definition no_pointer : Directory := {| d_tmp := None; d_dst := None; d_data := ∅; d_next := 0 |}.
Lemma no_pointer_ok docs : dir_ok docs no_pointer.
Proof. by split; [..|intros i _; split_and!]. Qed.
Definition ref_pointer (n : nat) : bytes := pointer_bytes 1%N "2024-03-09T14-00-00Z" (clock n).
Lemma ref_pointer_doc n : is_pointer (ref_pointer n).
Proof. by eexists _, _, _. Qed.
Lemma ref_pointer_0 : ref_pointer 0 ≠ [].
Proof. apply (bool_decide_eq_false_1 (_ = _)). vm_compute. reflexivity. Qed.
Lemma ref_pointer_1 : ref_pointer 1 ≠ [].
Proof. apply (bool_decide_eq_false_1 (_ = _)). vm_compute. reflexivity. Qed.

Lemma pointer_exclusive_complete_witness :
  ∃ s, rtc (calls_step true is_pointer) {| c_dir := no_pointer; c_writers := ∅ |} s ∧
    pointer_content (c_dir s) = Some (ref_pointer 0) ∧ is_pointer (ref_pointer 0).
Proof.
  destruct (alone_publishes true is_pointer no_pointer (ref_pointer 0) (ref_pointer_doc 0) ref_pointer_0
    eq_refl) as (s & Hrun & Hc & _).
  exists s. split; [exact Hrun|]. split; [exact Hc|].
  exact (pointer_exclusive_complete no_pointer s (ref_pointer 0) (no_pointer_ok _) Hrun Hc).
Defined.

Lemma pointer_race_witness :
  ∃ s, rtc (calls_step false is_pointer) {| c_dir := no_pointer; c_writers := ∅ |} s ∧
    pointer_content (c_dir s) = Some [] ∧ c_writers s !! 1 = Some (WEnd true).
Proof.
  exact (proj1 (pointer_race no_pointer (ref_pointer 0) (ref_pointer 1) (ref_pointer_doc 0)
    (ref_pointer_doc 1) ref_pointer_0 ref_pointer_1 eq_refl)).
Defined.

(** The repository has just been opened. *)
Lemma opened_no_tmp : w_fs w_opened !! pointer_tmp ref_root = None.
Proof. vm_compute. reflexivity. Qed.
Lemma opened_no_pointer : w_fs w_opened !! pointer_path ref_root = None.
Proof. vm_compute. reflexivity. Qed.
Lemma opened_shows : shows ref_root no_pointer (w_fs w_opened).
Proof.
  split; [exact opened_no_tmp|exact opened_no_pointer| |done].
  by intros i [[=]|[=]].
Qed.
Lemma pointer_write_refines_witness :
  wp (write_current_pointer ref_root first_entry) (λ r w', ∃ d' ok,
    rtc (calls_step true is_pointer) {| c_dir := no_pointer; c_writers := ∅ |}
      {| c_dir := d'; c_writers := {[1 := WEnd ok]} |} ∧
    shows ref_root d' (w_fs w') ∧ (r = Ok () ↔ ok = true)) w_opened.
Proof. exact (pointer_write_refines ref_root no_pointer first_entry w_opened opened_shows). Defined.

(** Three processes on an empty disk: a [run-once] that is killed when it has
    written its payload, another one that ends, and a service that is killed when
    it has answered a rollback. *)
Definition opens (w : World SqliteDb) : Task SqliteDb () * World SqliteDb :=
  run_for 3 (open_repository_task ref_root) w.
Definition once (n : nat) (w : World SqliteDb) : Task SqliteDb () * World SqliteDb :=
  run_for n (run_once_main_task ref_root ref_account) (opens w).2.
Definition disk0 : World SqliteDb := blank_world no_tables.
Definition disk1 : World SqliteDb := (once 5 disk0).2.
Definition disk2 : World SqliteDb := (once 20 disk1).2.
Definition last_schedule : list Choice := ChArrive 1 rollback_rq :: replicate 12 (ChJob 1).
Definition last_pool : option (Pool SqliteDb) :=
  pool_exec ref_root ref_start last_schedule (initial_pool (set_gate None (opens disk2).2)).

Definition has_ended (t : Task SqliteDb ()) : bool := match t with Done (Ok _) => true | _ => false end.
Lemma has_ended_ok t : has_ended t = true → t = Done (Ok ()).
Proof. by destruct t as [[[]| |]| |]. Qed.
Lemma opens_ok w : has_ended (opens w).1 = true →
  executes (open_repository_task ref_root) w (Done (Ok ())) (opens w).2.
Proof.
  intros He%has_ended_ok. apply (executes_for 3). rewrite <- He. apply surjective_pairing.
Qed.
Lemma once_life n w : has_ended (opens w).1 = true → past_test (opens w).2 [] = true →
  life ref_root (eq ref_start) w (once n w).2.
Proof.
  intros Ho Hp. eapply life_once; [by apply opens_ok|by apply (past_test_fresh _ [])|].
  apply (executes_for n). apply surjective_pairing.
Qed.
Lemma lives_entries : (length (st_entries (w_db disk1)), length (st_entries (w_db disk2))) = (0, 1).
Proof. vm_compute. reflexivity. Qed.
Lemma lives_view : (λ p, length (st_events (w_db (p_world p)))) <$> last_pool = Some 1.
Proof. vm_compute. reflexivity. Qed.
Lemma opens_end0 : has_ended (opens disk0).1 = true.
Proof. vm_compute. reflexivity. Qed.
Lemma opens_end1 : has_ended (opens disk1).1 = true.
Proof. vm_compute. reflexivity. Qed.
Lemma opens_end2 : has_ended (opens disk2).1 = true.
Proof. vm_compute. reflexivity. Qed.
Lemma once_fresh0 : past_test (opens disk0).2 [] = true.
Proof. vm_compute. reflexivity. Qed.
Lemma once_fresh1 : past_test (opens disk1).2 [] = true.
Proof. vm_compute. reflexivity. Qed.
Lemma life1 : life ref_root (eq ref_start) disk0 disk1.
Proof. unfold disk1. exact (once_life 5 disk0 opens_end0 once_fresh0). Qed.
Lemma life2 : life ref_root (eq ref_start) disk1 disk2.
Proof. unfold disk2. exact (once_life 20 disk1 opens_end1 once_fresh1). Qed.
Lemma life3 p : last_pool = Some p → life ref_root (eq ref_start) disk2 (p_world p).
Proof.
  intros Hp. exact (life_serves ref_root (eq ref_start) ref_start disk2 (opens disk2).2 p eq_refl
    (opens_ok disk2 opens_end2) (pool_exec_steps _ _ _ _ _ Hp)).
Qed.
Lemma three_lives p : last_pool = Some p → rtc (life ref_root (eq ref_start)) disk0 (p_world p).
Proof.
  intros Hp. exact (rtc_l _ _ _ _ life1 (rtc_l _ _ _ _ life2 (rtc_once _ _ (life3 p Hp)))).
Qed.
Lemma disk0_inv : disk_inv ref_root disk0.
Proof.
  split; [exact no_tables_wf|..].
  - by intros e ?%elem_of_nil.
  - by intros e1 e2 ?%elem_of_nil.
Qed.
Lemma start_clock_ok s : ref_start = s → clock_ok (start_retention s).
Proof. intros <-. exact ref_clock_ok. Qed.
Lemma lives_keep_backups_witness :
  (length (st_entries (w_db disk1)), length (st_entries (w_db disk2))) = (0, 1) ∧ ∃ p, last_pool = Some p ∧ length (st_events (w_db (p_world p))) = 1 ∧ disk_inv ref_root (p_world p).
Proof.
  split; [exact lives_entries|].
  pose proof lives_view as Hv. destruct last_pool as [p|] eqn:Hp; [|discriminate Hv].
  injection Hv as He. exists p. split; [reflexivity|]. split; [exact He|].
  exact (proj1 (lives_keep_backups ref_root (eq ref_start) disk0 (p_world p) ref_uuids_ok start_clock_ok
    ref_clock_range ref_clock_steady disk0_inv (three_lives p Hp))).
Defined.

(** Two instances on a repository without backups. *)
Definition new_payload : BackupPayload := ref_payload ref_payload_bytes2.
Definition new_hash : string := content_hash ref_payload_bytes2.
Lemma first_instance_ids :
  let w' := after (run_once ref_root new_payload new_hash) (after_reads w_opened) in
  (w_uuid w', id <$> st_entries (w_db w')) = (1, [1%N]).
Proof. vm_compute. reflexivity. Qed.
Lemma first_instance_unused e w' :
  run_once ref_root new_payload new_hash (after_reads w_opened) = (Ok (RCreated e), w') → uuids_unused w'.
Proof.
  intros Hrun. apply one_drawn. pose proof first_instance_ids as Hids. cbv zeta in Hids.
  unfold after in Hids. rewrite Hrun in Hids. exact Hids.
Qed.
Lemma opened_entries : st_entries (w_db w_opened) = [].
Proof. vm_compute. reflexivity. Qed.
Lemma none_latest l : latest_created (st_entries (w_db w_opened)) l → content_hash_of l ≠ new_hash.
Proof. rewrite opened_entries. by intros [[]%elem_of_nil _]. Qed.
Lemma opened_unused : uuids_unused w_opened.
Proof. intros n _. rewrite opened_entries. apply not_elem_of_nil. Qed.
Lemma opened_wf : st_wf (w_db w_opened).
Proof. apply opened_inv. Qed.
Lemma instances_store_twice_witness :
  ∃ e1 e2 w', rtc instances_step
    {| in_tasks := {[ 1 := run_once_task ref_root new_payload new_hash;
                      2 := run_once_task ref_root new_payload new_hash ]}; in_world := w_opened |}
    {| in_tasks := {[ 1 := Done (Ok (RCreated e1)); 2 := Done (Ok (RCreated e2)) ]}; in_world := w' |} ∧
  id e1 ≠ id e2 ∧ content_hash_of e1 = content_hash_of e2.
Proof.
  destruct (instances_store_twice ref_root new_payload new_hash w_opened ref_fault_free opened_wf ref_uuids_ok
    ref_clock_range (ref_payload_ok _) none_latest opened_tidy opened_unused first_instance_unused second_valid)
    as (e1 & e2 & w' & Hrun & _ & Hid & _ & _ & Hh1 & Hh2 & _).
  exists e1, e2, w'. split; [exact Hrun|]. split; [exact Hid|]. rewrite Hh1, Hh2. reflexivity.
Defined.
